(* ===== verification/_CoqProject ===== *)
-Q . S2P
Prelude.v
Double.v
DeviceModel.v
Ring.v
RingConc.v
Config.v
StateEngine.v
Io.v
Platform.v
Adapter.v
Modbus.v
Crc.v
Plugins.v
Storage.v
Mqtt.v
MqttSession.v
Recovery.v
Scheduler.v
Reactor.v
App.v
AppInv.v
Lifecycle.v
Threads.v
Interleave.v
Line.v
Sharing.v
Delivery.v
Release.v
Pipeline.v
Logfile.v
Main.v
Termination.v
Shutdown.v
Healthy.v
Progress.v
Ending.v
Silence.v
