(* ===== verification/Prelude.v ===== *)
(** * EdgeFlow energy gateway: verification library

    A model of the gateway's C sources ([src/src/]) and the theorems that make
    it correct.

    ** The program

    The gateway polls field devices over Modbus, keeps what it reads in a local
    store, decides on alarms and on discharge commands (peak shaving), and
    publishes the readings over MQTT; readings that could not be sent are
    replayed later.  [main.c] loads a configuration, opens the log and starts
    three threads of [runtime/app.c]: the ingress thread polls the adapters into
    a lock-free ring; the worker thread takes points out of the ring through the
    store, the state engine, the command scheduler and MQTT; the monitor thread,
    driven by a timer of the reactor, feeds the watchdog, replays the outbox and
    writes the metrics.  [cli/main.c] is a tool that checks a configuration,
    shows the metrics and counts the rows of the store.

    ** The files

    - [Prelude]: integers of C at their width, bounded text ([snprintf],
      truncating copies), bytes, and generic lemmas.
    - [Double]: IEEE-754 binary64, as [SpecFloat] at precision 53, with casts,
      literals and the printf conversion.
    - [DeviceModel]: [model/device_model.h, .c].
    - [Ring]: [core/ring.h, .c], an operation at a time; [RingConc]: the same
      operations cut at every atomic access and every access to a cell, one
      producer and one consumer interleaved.
    - [Config]: [platform/config.h, .c] on the tree of cJSON.
    - [StateEngine]: [runtime/state_engine.h, .c], and the abstract machine it
      refines.
    - [Io]: the effects.  [Env] answers every system call, SQLite call and
      libmodbus call from the trace of the events before it; [io A] is a
      computation with fuel, a trace and the static variables.  A read or a
      write on a socket may never be answered ([env_answers], [answered]).
      [Only] and [Total] are the two logics over computations the other files
      use: what a run leaves in the trace, and that it returns.
    - [Platform]: [common/time_util.c], [platform/logger.c, heartbeat.c,
      metrics.c, watchdog.c].
    - [Adapter]: the plugin table and registry of [ingress/adapter.h, .c]; the
      contract of a plugin is the class [PollContract], which [Plugins]
      discharges for [ingress/stub_adapter.c] and [modbus_adapter.c].
    - [Modbus]: [ingress/modbus_rtu.c, modbus_serial.c, modbus_libmodbus.c];
      [Crc]: its checksum against polynomial division.
    - [Storage]: [platform/storage.h, .c]; [SqliteSpec] is what the code relies
      on of SQLite.
    - [Mqtt], [MqttSession]: [egress/mqtt_session.c] (frames, then connection)
      and [mqtt_client.c]; [Recovery]: what the replay achieves once the broker
      and the database answer.
    - [Scheduler]: [runtime/command_scheduler.h, .c].
    - [Reactor]: [core/reactor.h, .c].
    - [App], [AppInv], [Lifecycle], [Threads]: [runtime/app.h, .c]; the
      definitions, the invariant of the threads, initialisation, start and
      stop, and the main functions of the threads as runs of [app_step].
    - [Interleave]: the bodies of the worker and the monitor cut at the
      session's lock and between their accesses to the database, as a step
      relation on the whole system ([istep]) and as a function of a schedule;
      [Line]: what a connection has carried; [Sharing]: the invariant of the
      interleaved machine, the lock included; [Delivery]: what it means for
      the broker; [Release]: that a whole life releases what it took;
      [Logfile]: that nothing in between touches the log file; [Pipeline]: the
      way of the points from the ring to the outbox; [Progress]: that no thread
      waits for the lock for ever, while the peers answer; [Silence]: what
      becomes of the threads when the broker does not.
    - [Main]: [main.c], [cli/main.c] and [read_file] of [platform/config.c],
      with the schedulers of the threads ([turns_work], [turns_finish]);
      [Shutdown]: what is left of sockets and of the lock at its end; [Ending]:
      that [main] returns.
    - [Termination]: that the loops and the main functions of the threads
      return; [Healthy]: what the worker delivers when the broker and the
      database answer.

    State of the C structs is a [Record] with the same fields; the record of
    [core/ring.h] is [spsc_ring_t], and so on: definitions keep the names of the
    source.  A pointer argument is an [option], [None] being NULL; an object
    written through a pointer is returned with the result.  A static variable
    is a field of [globals].  A loop over the body of a function is a
    [Fixpoint] with the function's name and a suffix ([sleep_loop],
    [replay_rows], [monitor_loop]).

    ** What the theorems show

    - The ring: it is a bounded FIFO that counts what it drops
      ([ring_refines_fifo]); under interleaving nothing is lost, duplicated or
      reordered, no cell is accessed by both threads at a time, push and pop
      linearise ([conc_fifo], [conc_no_race], [conc_linearized]); without
      interference the steps are the operations of the sequential model
      ([uninterrupted_calls]).
    - The decisions: the engine refines the abstract machine
      ([engine_refines]), a discharge is issued only when called for and within
      its limit ([discharge_command_safe]), over-temperature stops everything
      ([over_temperature_interlock]) in the engine, but never in the worker,
      whose quality rule hides it ([over_temperature_never_alarms]); commands
      are numbered, sent once through the adapter, verified or failed as it
      answers, and audited ([submit_spec], [tick_outcome]).
    - The outbox: storing appends one row, fetching gives the oldest pending
      rows, the worker and the replay mark a row only after it was sent whole,
      and no row is lost ([storage_append_refines], [storage_fetch_refines],
      [process_point_outbox], [replay_marks_only_sent],
      [threads_never_lose_points]); once broker and database answer, repeated
      replays empty the outbox ([outbox_drains]), and the worker empties the
      ring, every point of it stored, sent and marked, in order
      ([worker_delivers]).
    - Protocols: remaining length and PUBLISH stream decode to what was
      encoded, every frame fits, a write puts out exactly the frame; a session
      never leaks or reuses a descriptor and holds its lock around every use of
      it; the Modbus checksum is the remainder of the specification
      ([crc_is_remainder]) and detects bursts of two bytes, and the serial
      exchange answers only frames that pass it ([publish_stream_roundtrip],
      [session_frames_fit], [write_all_exact], [session_discipline],
      [crc_detects_burst], [serial_exchange_sound]).
    - The threads, interleaved: an uninterrupted run of the pieces is the body
      ([bodies_are_runs]); in every interleaving the broker reads, on every
      connection, a CONNECT and then whole packets ([connection_reads]), a row
      is marked uploaded only after it was delivered
      ([marked_rows_delivered]), though perhaps twice ([row_sent_twice]); the
      points go from the ring to the outbox in order and at most once
      ([ring_to_outbox]); the session changes only under its lock
      ([session_under_lock]), for which no thread waits for ever as long as
      the broker answers ([lock_waits_end]); a broker that never sends its
      CONNACK keeps the lock taken for ever ([silent_broker_holds_lock]); and
      after stop and destruction no socket is open, no database handle, no
      thread and no lock is left ([gateway_releases]), which [main_closes]
      states of the sockets and the lock of [main] itself; a start that fails
      may leave sockets open ([failed_start_leaves_sockets]).
    - Configuration: a load leaves a well-formed configuration, and a document
      written from a configuration loads back to it ([config_load_wf],
      [config_roundtrip]).
    - The whole: the invariant of the application over any sequence of bodies
      of the threads ([app_inv_reachable]), of which their main functions are
      runs ([thread_mains_are_steps], [thread_mains_keep_inv]); on every path
      [main] joins the threads it started, closes the log and closes the
      database, but for the handle of an sqlite3_open that failed, which the
      program drops ([gateway_app_init_outcome], [failed_open_leaks],
      [run_all_or_nothing], [main_releases]); the reactor releases what it took
      ([reactor_init_outcome]); the threads and [main] return while the peers
      answer ([threads_return], [main_returns]).

    ** Bounds and fuel

    The only loops bounded by fuel are those the environment can prolong:
    interrupted sleeps, partial writes, reads of a serial line, and the loops of
    the threads and of [main].  [Patient env k] says that the environment
    prolongs them at most [k] times, and answers every read and write on a
    socket; then [1025 + k] rounds are enough for everything, 1024 being the
    size of the largest MQTT frame, and 149 the most moves the threads need to
    reach the heads of their loops ([short_way]).  Every other recursion is
    structural.  A run without a result is one whose fuel was too short or
    whose blocking call was never answered: a theorem about the results of runs
    says nothing of it, and a step of the interleaved machine that contains
    such a call does not take place.

    ** Assumptions

    Parameters: the environment [Env]; the parser [cJSON_Parse]; in
    [Main.main], the work the threads do between two looks at the signal and
    before they are joined, which is any run of the interleaved machine
    ([works], [finishes]); for [main_returns], which threads get a turn is up to
    two oracles, and the run is computed ([turns_work], [turns_finish]).
    Hypotheses on them: [SqliteSpec] (row numbers, the two queries, NOT NULL),
    with the conforming database [sqlite_env]; a new row's number is the largest
    ever used plus one, which is what AUTOINCREMENT usually gives, though
    SQLite only documents a larger one; [Patient], as [demo_app_env] is;
    [Silent] (a broker that takes everything and answers nothing), as
    [demo_silent_env] is; [FreshSockets] (a new socket does not get the number
    of an open one), with the conforming [fresh_env]; [Online] (the broker
    answers and accepts, writes make progress, the statements of the replay
    succeed), with the conforming [demo_online_env]; [Storing] (the database
    takes every number), as [demo_app_env] does.  Where C leaves a conversion of a double to an integer
    undefined, the configuration loader has no result.

    ** Not modelled

    - The worker and the monitor interleave at the lock and between their
      accesses to the database, the ingress body is one step of that machine,
      and the ring's producer and consumer interleave at its atomic accesses.
      What one piece does to the metrics, the heartbeats and the log is atomic:
      races on the log file and between two counters of the metrics are outside
      the model, and so are memory orders other than the sequentially consistent
      one the source uses.
    - The threads begin to work when [gateway_app_run] returns; what they do
      while it still starts the others, writes its log line or joins them after
      a failure is put after it.
    - The order in which C evaluates the arguments of a call, where it is left
      open: the clock is read before the rows are counted in the heartbeat.
    - Calls that never return, but for reads and writes on the MQTT and the
      watchdog sockets: connect, the calls of SQLite and of libmodbus, the
      mutex and the files are taken to return (the serial line and the timer
      are opened non-blocking).  Of a piece that blocks, the calls before the
      one that is never answered are not shown.
    - Failures of [snprintf], [fclose] and [pthread_mutex_lock], which the code
      does not test.
    - The vendored libraries: the parser of cJSON, and libmodbus but for the
      test of the response timeout.  The tests, scripts, sample configurations,
      service files and documents of the repository. *)

From stdpp Require Export base tactics numbers list strings option pretty relations.
From Stdlib Require Export ZArith Lia.

#[export] Set Default Goal Selector "!".

Declare Scope edge_scope.
Delimit Scope edge_scope with edge.

Create HintDb edge.
Create Rewrite HintDb edge.

(** ** Machine integers

    A C integer of width [w] is a [Z]; unsigned arithmetic wraps modulo
    [2^w], a signed 64-bit value is brought back to the range
    [-2^63 .. 2^63-1] (two's complement, as gcc and clang convert). *)

Definition u8 (z : Z) : Z := (z `mod` 2 ^ 8)%Z.
Definition u16 (z : Z) : Z := (z `mod` 2 ^ 16)%Z.
Definition u32 (z : Z) : Z := (z `mod` 2 ^ 32)%Z.
Definition u64 (z : Z) : Z := (z `mod` 2 ^ 64)%Z.
Definition i64 (z : Z) : Z := ((z + 2 ^ 63) `mod` 2 ^ 64 - 2 ^ 63)%Z.

Definition is_u8 (z : Z) : Prop := (0 <= z < 2 ^ 8)%Z.
Definition is_u16 (z : Z) : Prop := (0 <= z < 2 ^ 16)%Z.
Definition is_u32 (z : Z) : Prop := (0 <= z < 2 ^ 32)%Z.
Definition is_u64 (z : Z) : Prop := (0 <= z < 2 ^ 64)%Z.

Lemma u8_range z : is_u8 (u8 z).
Proof. apply Z.mod_pos_bound; lia. Qed.
Lemma u16_range z : is_u16 (u16 z).
Proof. apply Z.mod_pos_bound; lia. Qed.
Lemma u32_range z : is_u32 (u32 z).
Proof. apply Z.mod_pos_bound; lia. Qed.
Lemma u64_range z : is_u64 (u64 z).
Proof. apply Z.mod_pos_bound; lia. Qed.

Lemma u8_small z : is_u8 z → u8 z = z.
Proof. apply Z.mod_small. Qed.
Lemma u16_small z : is_u16 z → u16 z = z.
Proof. apply Z.mod_small. Qed.
Lemma u32_small z : is_u32 z → u32 z = z.
Proof. apply Z.mod_small. Qed.
Lemma u64_small z : is_u64 z → u64 z = z.
Proof. apply Z.mod_small. Qed.

(** Storing a [uint64_t] in a signed column and reading it back is the identity. *)
Lemma u64_i64 z : is_u64 z → u64 (i64 z) = z.
Proof.
  intros H. unfold u64, i64.
  rewrite Zminus_mod_idemp_l.
  replace (z + 2 ^ 63 - 2 ^ 63)%Z with z by lia.
  by apply Z.mod_small.
Qed.

#[export] Hint Resolve u8_range u16_range u32_range u64_range : edge.
#[export] Hint Rewrite u8_small u16_small u32_small u64_small using (assumption || lia) : edge.

(** ** C strings

    A [char] array holds the text before its terminating NUL; a [const char *]
    argument is an [option string], [None] being the null pointer. *)

Fixpoint str_take (n : nat) (s : string) : string :=
  match n, s with
  | S n', String a s' => String a (str_take n' s')
  | _, _ => EmptyString
  end.

(** [snprintf(dst, n, "%s", s)] for [n > 0]: at most [n - 1] characters. *)
Definition snprintf (n : nat) (s : string) : string := str_take (n - 1) s.

(** The text fits an array of [n] chars with its NUL. *)
Definition fits (n : nat) (s : string) : Prop := String.length s < n.

#[export] Instance fits_dec n s : Decision (fits n s).
Proof. unfold fits. apply _. Defined.

Lemma str_take_length n s : String.length (str_take n s) = Nat.min n (String.length s).
Proof.
  revert s. induction n as [|n IH]; intros [|a s]; simpl; auto.
Qed.

Lemma str_take_all n s : String.length s ≤ n → str_take n s = s.
Proof.
  revert s. induction n as [|n IH]; intros [|a s] H; simpl in *; try lia; auto.
  f_equal. apply IH. lia.
Qed.

Lemma str_take_prefix n s : ∃ t, s = (str_take n s +:+ t)%string.
Proof.
  revert s. induction n as [|n IH]; intros [|a s]; simpl.
  - by exists EmptyString.
  - by exists (String a s).
  - by exists EmptyString.
  - destruct (IH s) as [t Ht]. exists t. by rewrite Ht at 1.
Qed.

Lemma snprintf_fits n s : 0 < n → fits n (snprintf n s).
Proof. unfold fits, snprintf. rewrite str_take_length. lia. Qed.

Lemma snprintf_id n s : fits n s → snprintf n s = s.
Proof. unfold fits, snprintf. intros. apply str_take_all. lia. Qed.

Lemma snprintf_idemp n s : snprintf n (snprintf n s) = snprintf n s.
Proof. apply str_take_all. unfold snprintf. rewrite str_take_length. lia. Qed.

#[export] Hint Resolve snprintf_fits : edge.
#[export] Hint Rewrite snprintf_id using assumption : edge.
#[export] Hint Rewrite snprintf_idemp : edge.

Lemma str_app_length s t :
  String.length (s +:+ t) = String.length s + String.length t.
Proof. induction s as [|a s IH]; simpl; auto. Qed.

Lemma str_app_assoc (s t u : string) : ((s +:+ t) +:+ u = s +:+ (t +:+ u))%string.
Proof. induction s as [|a s IH]; [done|]. change (String a ((s +:+ t) +:+ u) = String a (s +:+ (t +:+ u)))%string. by rewrite IH. Qed.

(** Every character satisfies [p]. *)
Fixpoint str_all (p : Ascii.ascii → bool) (s : string) : bool :=
  match s with EmptyString => true | String a s' => p a && str_all p s' end.

Lemma str_all_app p s t : str_all p (s +:+ t) = str_all p s && str_all p t.
Proof. induction s as [|a s IH]; simpl; [done|]. by rewrite IH, andb_assoc. Qed.

Lemma str_all_impl (p q : Ascii.ascii → bool) s :
  (∀ a, p a = true → q a = true) → str_all p s = true → str_all q s = true.
Proof.
  intros Hpq. induction s as [|a s IH]; simpl; [done|].
  intros [Ha Hs]%andb_true_iff. by rewrite Hpq, IH.
Qed.

(** The double quote character, as a string (JSON text is full of it). *)
Definition dq : string := String (Ascii.ascii_of_nat 34) EmptyString.

(** ** Bytes

    A byte buffer is a list of integers in [0 .. 255]. *)

Abbreviation bytes := (list Z) (only parsing).

Definition byte_of_ascii (a : Ascii.ascii) : Z := Z.of_N (Ascii.N_of_ascii a).
Definition ascii_of_byte (b : Z) : Ascii.ascii := Ascii.ascii_of_N (Z.to_N b).

Fixpoint bytes_of_string (s : string) : bytes :=
  match s with
  | EmptyString => []
  | String a s' => byte_of_ascii a :: bytes_of_string s'
  end.

Fixpoint string_of_bytes (l : bytes) : string :=
  match l with
  | [] => EmptyString
  | b :: l' => String (ascii_of_byte b) (string_of_bytes l')
  end.

Lemma ascii_of_byte_of_ascii a : ascii_of_byte (byte_of_ascii a) = a.
Proof.
  unfold ascii_of_byte, byte_of_ascii. rewrite N2Z.id. apply Ascii.ascii_N_embedding.
Qed.

Lemma byte_of_ascii_range a : is_u8 (byte_of_ascii a).
Proof.
  unfold is_u8, byte_of_ascii. pose proof (Ascii.N_ascii_bounded a). lia.
Qed.

Lemma string_of_bytes_of_string s : string_of_bytes (bytes_of_string s) = s.
Proof.
  induction s as [|a s IH]; simpl; auto. by rewrite ascii_of_byte_of_ascii, IH.
Qed.

Lemma bytes_of_string_length s : length (bytes_of_string s) = String.length s.
Proof. induction s as [|a s IH]; simpl; auto. Qed.

Lemma bytes_of_string_range s : Forall is_u8 (bytes_of_string s).
Proof. induction s; simpl; auto using byte_of_ascii_range. Qed.

Lemma u8_fmap_id (l : bytes) : Forall is_u8 l → u8 <$> l = l.
Proof. induction 1 as [|b l Hb _ IH]; [done|]. by rewrite fmap_cons, u8_small, IH. Qed.

#[export] Hint Resolve byte_of_ascii_range bytes_of_string_range : edge.
#[export] Hint Rewrite string_of_bytes_of_string bytes_of_string_length : edge.

(** ** Lists as arrays *)

(** Writing [xs] into the array [l] from index [i] on; the caller keeps
    [i + length xs] within [l]. *)
Fixpoint write_at {A} (i : nat) (xs : list A) (l : list A) : list A :=
  match xs with
  | [] => l
  | x :: xs' => write_at (S i) xs' (<[i := x]> l)
  end.

Lemma write_at_length {A} i (xs l : list A) : length (write_at i xs l) = length l.
Proof.
  revert i l. induction xs as [|x xs IH]; intros i l; simpl; auto.
  by rewrite IH, length_insert.
Qed.

Lemma write_at_take {A} i (xs l : list A) :
  i + length xs ≤ length l →
  take (i + length xs) (write_at i xs l) = take i l ++ xs.
Proof.
  revert i l. induction xs as [|x xs IH]; intros i l H; simpl in *.
  { by rewrite Nat.add_0_r, app_nil_r. }
  replace (i + S (length xs)) with (S i + length xs) by lia.
  rewrite IH by (rewrite length_insert; lia).
  assert (take (S i) (<[i := x]> l) = take i l ++ [x]) as ->.
  { erewrite take_S_r by (apply list_lookup_insert_eq; lia).
    by rewrite take_insert_ge by lia. }
  by rewrite <- app_assoc.
Qed.

(** ** Pointers

    [on_ptr p r k] runs [k] on the object [p] points to; on NULL the function
    returns [r] at once. *)
Definition on_ptr {A B} (p : option A) (r : B) (k : A → B * A) : B * option A :=
  match p with
  | None => (r, None)
  | Some a => let '(b, a') := k a in (b, Some a')
  end.

(** A modulo whose argument is below twice the modulus. *)
Lemma mod_once (a m : Z) :
  (0 <= a < 2 * m)%Z → (a `mod` m = if bool_decide (a < m) then a else a - m)%Z.
Proof.
  intros H. case_bool_decide.
  - apply Z.mod_small. lia.
  - replace a with ((a - m) + 1 * m)%Z at 1 by lia.
    rewrite Z_mod_plus_full. apply Z.mod_small. lia.
Qed.

(** A difference of two residues, modulo. *)
Lemma mod_diff (a b m : Z) :
  (0 <= a < m)%Z → (0 <= b < m)%Z →
  ((a - b) `mod` m = if bool_decide (b <= a) then a - b else a - b + m)%Z.
Proof.
  intros. case_bool_decide.
  - apply Z.mod_small. lia.
  - trans ((a - b + 1 * m) `mod` m)%Z; [by rewrite Z_mod_plus_full|].
    rewrite Z.mod_small; lia.
Qed.

(** ** Tactics *)

(** Closes the branches of a case analysis that the context refutes. *)
Ltac edge_auto := try done; try lia; try congruence; eauto with edge.

(** Splits on every [match]/[if] of the goal, keeping the equations, and
    closes the easy branches. *)
Ltac edge_cases :=
  repeat first [ progress simplify_eq/= | case_decide | case_match ]; edge_auto.
