(* ===== verification/Double.v ===== *)
(** * IEEE-754 binary64 arithmetic as the C sources use it

    A C [double] is a [spec_float] of the Standard Library at precision 53
    and maximal exponent 1024: signed zeros, infinities and one NaN, every
    operation rounded to nearest even.  The file gives the operators the
    sources use, integer and decimal literals, the conversion to unsigned
    integers, the printf conversion [%.Nf], and the order lemmas that the
    state engine's proofs apply. *)

From S2P Require Export Prelude.
From Stdlib Require Export Floats.SpecFloat.

#[local] Open Scope Z_scope.

(** ** Operations *)

Definition double := spec_float.
Definition prec : Z := 53.
Definition emax : Z := 1024.

Definition dadd : double → double → double := SFadd prec emax.
Definition dsub : double → double → double := SFsub prec emax.
Definition dmul : double → double → double := SFmul prec emax.
Definition ddiv : double → double → double := SFdiv prec emax.
Definition dopp : double → double := SFopp.

(** [x < y] and [x <= y] of C: false as soon as an operand is a NaN. *)
Definition dlt (x y : double) : bool := SFltb x y.
Definition dle (x y : double) : bool := SFleb x y.

Definition d0 : double := S754_zero false.

(** The conversion of an integer, and a decimal literal [n / d]: both
    integers convert exactly and the division rounds once. *)
Definition d_of_Z (z : Z) : double := binary_normalize prec emax z 0 false.
Definition dlit (n d : Z) : double := ddiv (d_of_Z n) (d_of_Z d).

Definition is_nan (x : double) : bool :=
  match x with S754_nan => true | _ => false end.
Definition is_finite (x : double) : bool :=
  match x with S754_zero _ | S754_finite _ _ _ => true | _ => false end.

(** Truncation towards zero, as the conversion to an integer type starts;
    [None] for infinities and NaN. *)
Definition dtrunc (x : double) : option Z :=
  match x with
  | S754_zero _ => Some 0
  | S754_finite s m e =>
      Some (cond_Zopp s (if 0 <=? e then Z.pos m * 2 ^ e else Z.pos m / 2 ^ (- e)))
  | _ => None
  end.

(** The conversion to an unsigned type of [w] bits; [None] is undefined
    behaviour (the truncated value does not fit). *)
Definition dcast (w : Z) (x : double) : option Z :=
  match dtrunc x with
  | Some z => if (0 <=? z) && (z <? 2 ^ w) then Some z else None
  | None => None
  end.

(** ** printf("%.pf") *)

(** [m * 2^e * 10^p] rounded to the nearest integer, ties to even. *)
Definition scaled (p : nat) (m : positive) (e : Z) : Z :=
  let n := Z.pos m * 10 ^ Z.of_nat p in
  if 0 <=? e then n * 2 ^ e
  else
    let d := 2 ^ (- e) in
    let q := n / d in
    match 2 * (n mod d) ?= d with
    | Lt => q
    | Gt => q + 1
    | Eq => if Z.even q then q else q + 1
    end.

Fixpoint zeros (n : nat) : string :=
  match n with O => EmptyString | S n' => ("0" +:+ zeros n')%string end.

Definition pad_left (n : nat) (s : string) : string :=
  zeros (n - String.length s) +:+ s.

Definition dec (z : Z) : string := pretty (Z.to_N z).

(** A decimal numeral has digits only, and few of them. *)
Definition is_digit (a : Ascii.ascii) : bool :=
  let b := byte_of_ascii a in (48 <=? b) && (b <=? 57).

Lemma pretty_N_char_digit x : is_digit (pretty_N_char x) = true.
Proof. unfold pretty_N_char. by repeat case_match. Qed.

Lemma pretty_N_go_digits x s : str_all is_digit s = true → str_all is_digit (pretty_N_go x s) = true.
Proof.
  revert s. induction (N.lt_wf_0 x) as [x _ IH]; intros s Hs.
  destruct (decide (x = 0)%N) as [->|]; [by rewrite pretty_N_go_0|].
  rewrite pretty_N_go_step by lia. apply IH; [apply N.div_lt; lia|].
  cbn [str_all]. by rewrite pretty_N_char_digit.
Qed.

Lemma pretty_N_go_length (k : nat) x s :
  (x < 10 ^ N.of_nat k)%N → (String.length (pretty_N_go x s) ≤ k + String.length s)%nat.
Proof.
  revert x s. induction k as [|k IH]; intros x s Hx.
  - assert (x = 0)%N as -> by (simpl in Hx; lia). by rewrite pretty_N_go_0.
  - destruct (decide (x = 0)%N) as [->|]; [rewrite pretty_N_go_0; lia|].
    rewrite pretty_N_go_step by lia.
    etrans; [apply IH|cbn [String.length]; lia].
    apply N.Div0.div_lt_upper_bound. rewrite Nat2N.inj_succ, N.pow_succ_r' in Hx. lia.
Qed.

Lemma dec_digits z : str_all is_digit (dec z) = true.
Proof. unfold dec, pretty, pretty_N. case_decide; [done|]. by apply pretty_N_go_digits. Qed.

Lemma dec_length (k : nat) z : (0 < k)%nat → z < 10 ^ Z.of_nat k → (String.length (dec z) ≤ k)%nat.
Proof.
  intros Hk Hz. unfold dec, pretty, pretty_N. case_decide; [simpl; lia|].
  etrans; [apply (pretty_N_go_length k)|simpl; lia].
  destruct (Z.leb_spec 0 z); [|lia]. apply N2Z.inj_lt.
  rewrite N2Z.inj_pow, Z2N.id, nat_N_Z by lia. done.
Qed.

Definition fmt_fixed (p : nat) (x : double) : string :=
  let sign (s : bool) := if s then "-"%string else EmptyString in
  let body (q : Z) :=
    (dec (q / 10 ^ Z.of_nat p) +:+ "." +:+ pad_left p (dec (q mod 10 ^ Z.of_nat p)))%string in
  match x with
  | S754_nan => "nan"
  | S754_infinity s => sign s +:+ "inf"
  | S754_zero s => sign s +:+ body 0
  | S754_finite s m e => sign s +:+ body (scaled p m e)
  end.

Example fmt_785 : fmt_fixed 4 (dmul (d_of_Z 785) (dlit 1 10)) = "78.5000"%string.
Proof. reflexivity. Qed.
Example fmt_neg : fmt_fixed 2 (dlit (-25) 10) = "-2.50"%string.
Proof. reflexivity. Qed.
Example fmt_tie : fmt_fixed 2 (dlit 1 8) = "0.12"%string.
Proof. reflexivity. Qed.

(** ** Order *)

Lemma compare_swap (x y : double) :
  SFcompare y x = CompOpp <$> SFcompare x y.
Proof.
  destruct x as [[]|[]| |[] mx ex], y as [[]|[]| |[] my ey]; simpl; try done;
    rewrite (Z.compare_antisym ex ey); destruct (ex ?= ey)%Z; simpl; try done;
    rewrite (Pos.compare_cont_antisym mx my Eq); simpl;
    by destruct (Pos.compare_cont _ _ _).
Qed.

Lemma compare_total x y :
  is_nan x = false → is_nan y = false → ∃ c, SFcompare x y = Some c.
Proof. destruct x as [| | |[]], y as [| | |[]]; try done; simpl; eauto. Qed.

Lemma compare_opp x y : SFcompare (dopp x) (dopp y) = SFcompare y x.
Proof.
  rewrite (compare_swap x y).
  destruct x as [[]|[]| |[] mx ex], y as [[]|[]| |[] my ey]; simpl; try done;
    destruct (ex ?= ey)%Z; simpl; try done; by destruct (Pos.compare_cont _ _ _).
Qed.

Lemma dlt_opp x y : dlt (dopp x) (dopp y) = dlt y x.
Proof. unfold dlt, SFltb. by rewrite compare_opp. Qed.

Lemma dle_opp x y : dle (dopp x) (dopp y) = dle y x.
Proof. unfold dle, SFleb. by rewrite compare_opp. Qed.

(** The negation of a comparison, for ordered operands. *)
Lemma dle_false x y :
  is_nan x = false → is_nan y = false → dle x y = false → dlt y x = true.
Proof.
  intros Hx Hy. destruct (compare_total x y Hx Hy) as [c Hc].
  unfold dle, dlt, SFleb, SFltb. rewrite (compare_swap x y), Hc. by destruct c.
Qed.

Lemma dlt_false x y :
  is_nan x = false → is_nan y = false → dlt x y = false → dle y x = true.
Proof.
  intros Hx Hy. destruct (compare_total x y Hx Hy) as [c Hc].
  unfold dle, dlt, SFleb, SFltb. rewrite (compare_swap x y), Hc. by destruct c.
Qed.

Lemma dlt_not_nan x y : dlt x y = true → is_nan x = false ∧ is_nan y = false.
Proof. destruct x as [| | |[]], y as [| | |[]]; done. Qed.

Lemma dlt_dle x y : dlt x y = true → dle x y = true.
Proof. unfold dlt, dle, SFltb, SFleb. by destruct (SFcompare x y) as [[]|]. Qed.

Lemma dlt_asym x y : dlt x y = true → dle y x = false.
Proof.
  unfold dlt, dle, SFltb, SFleb. rewrite (compare_swap x y).
  by destruct (SFcompare x y) as [[]|].
Qed.

Lemma dle_refl x : is_nan x = false → dle x x = true.
Proof.
  destruct x as [[]|[]| |[] m e]; simpl; try done; intros _;
    unfold dle, SFleb; simpl; rewrite Z.compare_refl;
    change (Pos.compare_cont Eq m m) with (m ?= m)%positive; by rewrite Pos.compare_refl.
Qed.

Lemma is_nan_dopp x : is_nan (dopp x) = is_nan x.
Proof. by destruct x. Qed.

Lemma is_finite_not_nan x : is_finite x = true → is_nan x = false.
Proof. by destruct x. Qed.

#[export] Hint Resolve is_finite_not_nan dlt_dle : edge.
#[export] Hint Rewrite dlt_opp dle_opp is_nan_dopp : edge.

(** ** Rounding never makes a NaN

    The only NaNs of an addition, subtraction or product of finite values
    would come from a negative shifted mantissa, which cannot occur. *)

Definition mrs_nonneg (r : shr_record) : Prop := 0 <= shr_m r.

Lemma shr_1_nonneg r : mrs_nonneg r → mrs_nonneg (shr_1 r).
Proof. destruct r as [[|[]|[]] ? ?]; unfold mrs_nonneg; simpl; lia. Qed.

Lemma iter_pos_inv {A} (P : A → Prop) (f : A → A) :
  (∀ a, P a → P (f a)) → ∀ n a, P a → P (iter_pos f n a).
Proof. intros Hf. induction n; simpl; auto. Qed.

Lemma shr_fexp_nonneg m e l : 0 <= m → mrs_nonneg (fst (shr_fexp prec emax m e l)).
Proof.
  intros Hm. unfold shr_fexp, shr.
  assert (mrs_nonneg (shr_record_of_loc m l)) as H0 by (by destruct l as [|[]]).
  destruct (_ - _); simpl; auto. apply iter_pos_inv; auto using shr_1_nonneg.
Qed.

Lemma round_nonneg m l : 0 <= m → 0 <= round_nearest_even m l.
Proof. intros. destruct l as [|[]]; simpl; try case_match; lia. Qed.

Lemma binary_round_aux_not_nan s m e l :
  0 <= m → is_nan (binary_round_aux prec emax s m e l) = false.
Proof.
  intros Hm. unfold binary_round_aux.
  pose proof (shr_fexp_nonneg m e l Hm) as H1.
  destruct (shr_fexp prec emax m e l) as [r1 e1]; simpl in H1.
  pose proof (shr_fexp_nonneg _ e1 loc_Exact
                (round_nonneg _ (loc_of_shr_record r1) H1)) as H2.
  destruct (shr_fexp _ _ _ e1 _) as [r2 e2]; simpl in H2.
  unfold mrs_nonneg in H2. destruct (shr_m r2); simpl; try done. by case_match.
Qed.

Lemma binary_normalize_not_nan m e s :
  is_nan (binary_normalize prec emax m e s) = false.
Proof.
  unfold binary_normalize, binary_round.
  destruct m; simpl; try done; case_match; by apply binary_round_aux_not_nan.
Qed.

Lemma dsub_not_nan x y :
  is_finite x = true → is_finite y = true → is_nan (dsub x y) = false.
Proof.
  destruct x as [[]|[]| |[] mx ex], y as [[]|[]| |[] my ey]; try done; intros _ _;
    apply binary_normalize_not_nan.
Qed.

Lemma dadd_not_nan x y :
  is_finite x = true → is_finite y = true → is_nan (dadd x y) = false.
Proof.
  destruct x as [[]|[]| |[] mx ex], y as [[]|[]| |[] my ey]; try done; intros _ _;
    apply binary_normalize_not_nan.
Qed.

Lemma dmul_not_nan x y :
  is_finite x = true → is_finite y = true → is_nan (dmul x y) = false.
Proof.
  destruct x as [[]|[]| |[] mx ex], y as [[]|[]| |[] my ey]; try done; intros _ _;
    by apply binary_round_aux_not_nan.
Qed.

(** A value that is not below zero: the sign survives rounding. *)
Definition nonneg (x : double) : bool :=
  match x with
  | S754_zero s | S754_infinity s | S754_finite s _ _ => negb s
  | S754_nan => false
  end.

Lemma nonneg_not_nan x : nonneg x = true → is_nan x = false.
Proof. by destruct x. Qed.

Lemma nonneg_dle x : nonneg x = true → dle d0 x = true.
Proof. by destruct x as [[]|[]| |[]]. Qed.

Lemma binary_round_aux_nonneg m e l :
  0 <= m → nonneg (binary_round_aux prec emax false m e l) = true.
Proof.
  intros Hm. pose proof (binary_round_aux_not_nan false m e l Hm) as Hn.
  unfold binary_round_aux in *.
  destruct (shr_fexp prec emax m e l) as [r1 e1]. destruct (shr_fexp _ _ _ e1 _) as [r2 e2].
  destruct (shr_m r2); [done| |done]. by destruct (_ <=? _).
Qed.

Lemma d_of_Z_nonneg z : 0 <= z → nonneg (d_of_Z z) = true.
Proof.
  unfold d_of_Z, binary_normalize, binary_round. destruct z; simpl; [done| |lia].
  intros _. case_match. by apply binary_round_aux_nonneg.
Qed.

Lemma dmul_nonneg x y :
  is_finite x = true → is_finite y = true → nonneg x = true → nonneg y = true →
  nonneg (dmul x y) = true.
Proof.
  destruct x as [[]|[]| |[] mx ex], y as [[]|[]| |[] my ey]; try done; intros _ _ _ _;
    by apply binary_round_aux_nonneg.
Qed.

#[export] Hint Resolve dsub_not_nan dadd_not_nan dmul_not_nan nonneg_not_nan : edge.

(** ** Integers below 2^53 convert exactly *)

Lemma iter_xO m n : Z.pos (Pos.iter xO m n) = Z.pos m * 2 ^ Z.pos n.
Proof.
  induction n as [|n IH] using Pos.peano_ind; [simpl; lia|].
  rewrite Pos.iter_succ, Pos2Z.inj_xO, IH, Pos2Z.inj_succ, Z.pow_succ_r; lia.
Qed.

Lemma digits_iter m n : digits2_pos (Pos.iter xO m n) = (digits2_pos m + n)%positive.
Proof.
  induction n as [|n IH] using Pos.peano_ind; [simpl; lia|].
  rewrite Pos.iter_succ; simpl. rewrite IH. lia.
Qed.

Lemma digits_bounds m : 2 ^ (Z.pos (digits2_pos m) - 1) <= Z.pos m < 2 ^ Z.pos (digits2_pos m).
Proof.
  assert (∀ d, 1 <= d → 2 ^ (Z.succ d - 1) = 2 * 2 ^ (d - 1) ∧ 2 ^ Z.succ d = 2 * 2 ^ d)
    as Hpow.
  { intros d Hd. split; [replace (Z.succ d - 1) with (Z.succ (d - 1)) by lia|];
      apply Z.pow_succ_r; lia. }
  induction m as [m IH|m IH|]; cbn [digits2_pos]; [| |done].
  all: rewrite Pos2Z.inj_succ; destruct (Hpow (Z.pos (digits2_pos m))) as [-> ->]; [lia|];
    rewrite ?(Pos2Z.inj_xI m), ?(Pos2Z.inj_xO m); lia.
Qed.

Lemma digits_le m w : 0 <= w → Z.pos m < 2 ^ w → Z.pos (digits2_pos m) <= w.
Proof.
  intros Hw Hm. destruct (Z.le_gt_cases (Z.pos (digits2_pos m)) w) as [|Hgt]; [done|].
  pose proof (digits_bounds m) as [Hlo _].
  assert (2 ^ w <= 2 ^ (Z.pos (digits2_pos m) - 1)) by (apply Z.pow_le_mono_r; lia). lia.
Qed.

Lemma fexp_small d : 0 <= d → fexp prec emax d = d - prec.
Proof. intros. unfold fexp, emin, prec, emax. lia. Qed.

(** A mantissa of exactly 53 bits is kept as it is. *)
Lemma round_aux_exact s m e :
  Z.pos (digits2_pos m) = prec → - prec <= e → e <= emax - prec →
  binary_round_aux prec emax s (Z.pos m) e loc_Exact = S754_finite s m e.
Proof.
  intros Hd Hlo He. unfold binary_round_aux, shr_fexp. simpl Zdigits2. rewrite Hd.
  rewrite fexp_small by (unfold prec in *; lia).
  replace (prec + e - prec - e) with 0 by lia. simpl. rewrite Hd.
  rewrite fexp_small by (unfold prec in *; lia).
  replace (prec + e - prec - e) with 0 by lia. simpl.
  by rewrite (proj2 (Z.leb_le _ _) He).
Qed.

Lemma d_of_pos_exact m :
  Z.pos m < 2 ^ prec →
  ∃ m' e, d_of_Z (Z.pos m) = S754_finite false m' e ∧ e <= 0 ∧ Z.pos m' = Z.pos m * 2 ^ (- e).
Proof.
  intros Hm. apply digits_le in Hm; [|done].
  unfold d_of_Z, binary_normalize, binary_round. rewrite Z.add_0_r.
  rewrite fexp_small by lia. unfold shl_align. rewrite Z.sub_0_r.
  destruct (Z.pos (digits2_pos m) - prec) as [|p|p] eqn:E.
  - exists m, 0. rewrite round_aux_exact by (unfold prec, emax in *; lia).
    split_and!; [done|lia|]. simpl. lia.
  - lia.
  - exists (Pos.iter xO m p), (Z.neg p).
    rewrite round_aux_exact by (rewrite ?digits_iter; unfold prec, emax in *; lia).
    split_and!; [done|lia|]. apply iter_xO.
Qed.

Lemma dtrunc_d_of_Z z : 0 <= z < 2 ^ prec → dtrunc (d_of_Z z) = Some z.
Proof.
  intros Hz. destruct z as [|m|m]; [done| |lia].
  destruct (d_of_pos_exact m) as (m' & e & -> & He & Hm'); [lia|]. simpl.
  destruct (0 <=? e) eqn:E.
  - apply Z.leb_le in E. replace e with 0 in * by lia. simpl in *. f_equal. lia.
  - rewrite Hm'. f_equal. apply Z.div_mul. apply Z.pow_nonzero; lia.
Qed.

Lemma dcast_d_of_Z w z : w <= prec → 0 <= z < 2 ^ w → dcast w (d_of_Z z) = Some z.
Proof.
  intros Hw Hz. unfold dcast. rewrite dtrunc_d_of_Z.
  - by rewrite (proj2 (Z.leb_le _ _) (proj1 Hz)), (proj2 (Z.ltb_lt _ _) (proj2 Hz)).
  - split; [lia|]. eapply Z.lt_le_trans; [apply Hz|]. apply Z.pow_le_mono_r; lia.
Qed.

Lemma dcast_range w x z : dcast w x = Some z → 0 <= z < 2 ^ w.
Proof.
  unfold dcast. destruct (dtrunc x) as [t|]; [|done].
  destruct (0 <=? t) eqn:E1, (t <? 2 ^ w) eqn:E2; simpl; intros; simplify_eq.
  split; [by apply Z.leb_le|by apply Z.ltb_lt].
Qed.

Lemma d_of_Z_finite z : 0 <= z < 2 ^ prec → is_finite (d_of_Z z) = true.
Proof.
  intros Hz. destruct z as [|m|m]; [done| |lia].
  by destruct (d_of_pos_exact m) as (m' & e & -> & _); [lia|].
Qed.

#[export] Hint Resolve d_of_Z_finite : edge.
