(* ===== verification/DeviceModel.v ===== *)
(** * Unified device model ([src/src/model/device_model.h], [device_model.c])

    The five kinds of objects the gateway's business layers exchange, their
    enumerations, and the constructors and helpers of [device_model.c].  A
    pointer argument is an [option]: [None] is NULL, and a function that
    fills an object through a pointer returns the object with its status. *)

From S2P Require Export Prelude Double.

#[local] Open Scope Z_scope.

(** ** Buffer sizes *)

Definition EDGEFLOW_ID_MAX : nat := 64.
Definition EDGEFLOW_NAME_MAX : nat := 64.
Definition EDGEFLOW_UNIT_MAX : nat := 16.
Definition EDGEFLOW_MESSAGE_MAX : nat := 128.

(** ** Enumerations *)

Inductive device_protocol_t :=
  | DEVICE_PROTOCOL_MODBUS_RTU
  | DEVICE_PROTOCOL_MODBUS_TCP
  | DEVICE_PROTOCOL_TCP
  | DEVICE_PROTOCOL_UDP
  | DEVICE_PROTOCOL_SIMULATOR.

Inductive device_online_state_t :=
  | DEVICE_ONLINE_UNKNOWN
  | DEVICE_ONLINE_ONLINE
  | DEVICE_ONLINE_OFFLINE
  | DEVICE_ONLINE_DEGRADED.

Inductive point_type_t :=
  | POINT_TYPE_ANALOG
  | POINT_TYPE_DIGITAL
  | POINT_TYPE_ENUM.

Inductive telemetry_quality_t :=
  | TELEMETRY_QUALITY_GOOD
  | TELEMETRY_QUALITY_BAD
  | TELEMETRY_QUALITY_UNCERTAIN.

Inductive alarm_level_t :=
  | ALARM_LEVEL_INFO
  | ALARM_LEVEL_MINOR
  | ALARM_LEVEL_MAJOR
  | ALARM_LEVEL_CRITICAL.

Inductive alarm_state_t :=
  | ALARM_STATE_ACTIVE
  | ALARM_STATE_RECOVERED.

Inductive command_type_t :=
  | COMMAND_TYPE_SET_POINT_VALUE
  | COMMAND_TYPE_SET_DEVICE_MODE
  | COMMAND_TYPE_STOP_DEVICE.

Inductive command_state_t :=
  | COMMAND_STATE_PENDING
  | COMMAND_STATE_SENT
  | COMMAND_STATE_ACKED
  | COMMAND_STATE_VERIFIED
  | COMMAND_STATE_TIMEOUT
  | COMMAND_STATE_RETRYING
  | COMMAND_STATE_FAILED.

Inductive system_state_t :=
  | SYSTEM_STATE_INIT
  | SYSTEM_STATE_STANDBY
  | SYSTEM_STATE_RUNNING
  | SYSTEM_STATE_DEGRADED
  | SYSTEM_STATE_FAULT
  | SYSTEM_STATE_STOPPED.

#[export] Instance device_protocol_eq_dec : EqDecision device_protocol_t.
Proof. solve_decision. Defined.
#[export] Instance telemetry_quality_eq_dec : EqDecision telemetry_quality_t.
Proof. solve_decision. Defined.
#[export] Instance alarm_state_eq_dec : EqDecision alarm_state_t.
Proof. solve_decision. Defined.
#[export] Instance command_state_eq_dec : EqDecision command_state_t.
Proof. solve_decision. Defined.
#[export] Instance system_state_eq_dec : EqDecision system_state_t.
Proof. solve_decision. Defined.

(** The integer an alarm level is stored as. *)
Definition alarm_level_int (l : alarm_level_t) : Z :=
  match l with
  | ALARM_LEVEL_INFO => 0
  | ALARM_LEVEL_MINOR => 1
  | ALARM_LEVEL_MAJOR => 2
  | ALARM_LEVEL_CRITICAL => 3
  end.

(** ** Objects *)

Record device_t := mk_device {
  dev_id : string;
  dev_name : string;
  dev_protocol : device_protocol_t;
  dev_online_state : device_online_state_t;
  dev_last_seen_ms : Z;
  dev_consecutive_failures : Z;
  dev_last_error : string
}.

Record point_t := mk_point {
  pt_id : string;
  pt_device_id : string;
  pt_name : string;
  pt_type : point_type_t;
  pt_unit : string;
  pt_scale : double;
  pt_offset : double;
  pt_low_limit : double;
  pt_high_limit : double
}.

Record telemetry_t := mk_telemetry {
  tel_ts_ms : Z;
  tel_device_id : string;
  tel_point_id : string;
  tel_value : double;
  tel_unit : string;
  tel_quality : telemetry_quality_t;
  tel_source_id : Z
}.

Record alarm_event_t := mk_alarm {
  al_alarm_id : Z;
  al_ts_ms : Z;
  al_device_id : string;
  al_code : string;
  al_level : alarm_level_t;
  al_state : alarm_state_t;
  al_message : string;
  al_recovered_ts_ms : Z
}.

Record command_t := mk_command {
  cmd_command_id : Z;
  cmd_created_ts_ms : Z;
  cmd_target_device_id : string;
  cmd_type : command_type_t;
  cmd_state : command_state_t;
  cmd_point_id : string;
  cmd_target_value : double;
  cmd_retry_count : Z;
  cmd_max_retries : Z;
  cmd_result_message : string
}.

(** What [memset(p, 0, sizeof *p)] leaves in each object. *)
Definition device_zero : device_t :=
  mk_device "" "" DEVICE_PROTOCOL_MODBUS_RTU DEVICE_ONLINE_UNKNOWN 0 0 "".
Definition point_zero : point_t :=
  mk_point "" "" "" POINT_TYPE_ANALOG "" d0 d0 d0 d0.
Definition telemetry_zero : telemetry_t :=
  mk_telemetry 0 "" "" d0 "" TELEMETRY_QUALITY_GOOD 0.
Definition alarm_zero : alarm_event_t :=
  mk_alarm 0 0 "" "" ALARM_LEVEL_INFO ALARM_STATE_ACTIVE "" 0.
Definition command_zero : command_t :=
  mk_command 0 0 "" COMMAND_TYPE_SET_POINT_VALUE COMMAND_STATE_PENDING "" d0 0 0 "".

(** ** Helpers of device_model.c *)

(** The bounded copy; [dst] is the previous content, kept when the
    destination has no room at all. *)
Definition copy_string (dst : string) (dst_len : nat) (src : option string) : string :=
  if decide (dst_len = 0%nat) then dst else snprintf dst_len (default "" src).

Definition telemetry_quality_to_string (quality : telemetry_quality_t) : string :=
  match quality with
  | TELEMETRY_QUALITY_GOOD => "good"
  | TELEMETRY_QUALITY_BAD => "bad"
  | TELEMETRY_QUALITY_UNCERTAIN => "uncertain"
  end.

Definition system_state_to_string (state : system_state_t) : string :=
  match state with
  | SYSTEM_STATE_INIT => "INIT"
  | SYSTEM_STATE_STANDBY => "STANDBY"
  | SYSTEM_STATE_RUNNING => "RUNNING"
  | SYSTEM_STATE_DEGRADED => "DEGRADED"
  | SYSTEM_STATE_FAULT => "FAULT"
  | SYSTEM_STATE_STOPPED => "STOPPED"
  end.

Definition command_state_to_string (state : command_state_t) : string :=
  match state with
  | COMMAND_STATE_PENDING => "PENDING"
  | COMMAND_STATE_SENT => "SENT"
  | COMMAND_STATE_ACKED => "ACKED"
  | COMMAND_STATE_VERIFIED => "VERIFIED"
  | COMMAND_STATE_TIMEOUT => "TIMEOUT"
  | COMMAND_STATE_RETRYING => "RETRYING"
  | COMMAND_STATE_FAILED => "FAILED"
  end.

Definition device_init (device : option device_t) (id name : option string)
    (protocol : device_protocol_t) : Z * option device_t :=
  match device, id, name with
  | Some _, Some id, Some name =>
      (0, Some (mk_device
        (copy_string "" EDGEFLOW_ID_MAX (Some id))
        (copy_string "" EDGEFLOW_NAME_MAX (Some name))
        protocol DEVICE_ONLINE_UNKNOWN 0 0 ""))
  | _, _, _ => (-1, device)
  end.

Definition point_init (point : option point_t) (id device_id name : option string)
    (type : point_type_t) (unit : option string) (scale offset : double)
    : Z * option point_t :=
  match point, id, device_id, name with
  | Some _, Some id, Some device_id, Some name =>
      (0, Some (mk_point
        (copy_string "" EDGEFLOW_ID_MAX (Some id))
        (copy_string "" EDGEFLOW_ID_MAX (Some device_id))
        (copy_string "" EDGEFLOW_NAME_MAX (Some name))
        type
        (copy_string "" EDGEFLOW_UNIT_MAX (Some (default "" unit)))
        scale offset d0 d0))
  | _, _, _, _ => (-1, point)
  end.

Definition point_raw_to_engineering (point : option point_t) (raw_value : double) : double :=
  match point with
  | None => raw_value
  | Some p => dadd (dmul raw_value (pt_scale p)) (pt_offset p)
  end.

Definition device_mark_online (device : device_t) (ts_ms : Z) : device_t :=
  mk_device (dev_id device) (dev_name device) (dev_protocol device)
    DEVICE_ONLINE_ONLINE ts_ms 0 "".

Definition device_mark_failure (device : device_t) (ts_ms : Z) (error : option string)
    : device_t :=
  let failures := u32 (dev_consecutive_failures device + 1) in
  let online_state :=
    if 3 <=? failures then DEVICE_ONLINE_OFFLINE
    else if 0 <? failures then DEVICE_ONLINE_DEGRADED
    else dev_online_state device in
  mk_device (dev_id device) (dev_name device) (dev_protocol device)
    online_state ts_ms failures
    (copy_string (dev_last_error device) EDGEFLOW_MESSAGE_MAX error).

Definition telemetry_init (ts_ms : Z) (device_id point_id : option string)
    (value : double) (unit : option string) (source_id : Z) : telemetry_t :=
  mk_telemetry ts_ms
    (copy_string "" EDGEFLOW_ID_MAX device_id)
    (copy_string "" EDGEFLOW_ID_MAX point_id)
    value
    (copy_string "" EDGEFLOW_UNIT_MAX unit)
    TELEMETRY_QUALITY_GOOD source_id.

Definition command_init_setpoint (command : option command_t) (command_id created_ts_ms : Z)
    (target_device_id point_id : option string) (target_value : double) (max_retries : Z)
    : Z * option command_t :=
  match command, target_device_id, point_id with
  | Some _, Some target, Some point =>
      if max_retries <? 0 then (-1, command)
      else
        (0, Some (mk_command command_id created_ts_ms
          (copy_string "" EDGEFLOW_ID_MAX (Some target))
          COMMAND_TYPE_SET_POINT_VALUE COMMAND_STATE_PENDING
          (copy_string "" EDGEFLOW_ID_MAX (Some point))
          target_value 0 max_retries ""))
  | _, _, _ => (-1, command)
  end.

(** The command object with another state and result message. *)
Definition command_with (c : command_t) (state : command_state_t) (message : string) : command_t :=
  mk_command (cmd_command_id c) (cmd_created_ts_ms c) (cmd_target_device_id c)
    (cmd_type c) state (cmd_point_id c) (cmd_target_value c)
    (cmd_retry_count c) (cmd_max_retries c) message.

Definition command_mark_verified (command : option command_t) (message : option string)
    : Z * option command_t :=
  match command with
  | None => (-1, None)
  | Some c =>
      (0, Some (command_with c COMMAND_STATE_VERIFIED
        (copy_string (cmd_result_message c) EDGEFLOW_MESSAGE_MAX message)))
  end.

Definition alarm_make (alarm : option alarm_event_t) (alarm_id ts_ms : Z)
    (device_id code : option string) (level : alarm_level_t) (message : option string)
    : Z * option alarm_event_t :=
  match alarm, device_id, code with
  | Some _, Some device_id, Some code =>
      (0, Some (mk_alarm alarm_id ts_ms
        (copy_string "" EDGEFLOW_ID_MAX (Some device_id))
        (copy_string "" EDGEFLOW_ID_MAX (Some code))
        level ALARM_STATE_ACTIVE
        (copy_string "" EDGEFLOW_MESSAGE_MAX message) 0))
  | _, _, _ => (-1, alarm)
  end.

(** ** Well-formed objects

    Every string fits the array it is stored in and every integer is in the
    range of its C type. *)

Record device_wf (d : device_t) : Prop := {
  dwf_id : fits EDGEFLOW_ID_MAX (dev_id d);
  dwf_name : fits EDGEFLOW_NAME_MAX (dev_name d);
  dwf_seen : is_u64 (dev_last_seen_ms d);
  dwf_failures : is_u32 (dev_consecutive_failures d);
  dwf_error : fits EDGEFLOW_MESSAGE_MAX (dev_last_error d)
}.

Record telemetry_wf (t : telemetry_t) : Prop := {
  twf_ts : is_u64 (tel_ts_ms t);
  twf_device : fits EDGEFLOW_ID_MAX (tel_device_id t);
  twf_point : fits EDGEFLOW_ID_MAX (tel_point_id t);
  twf_unit : fits EDGEFLOW_UNIT_MAX (tel_unit t);
  twf_source : is_u16 (tel_source_id t)
}.

Record command_wf (c : command_t) : Prop := {
  cwf_id : is_u64 (cmd_command_id c);
  cwf_ts : is_u64 (cmd_created_ts_ms c);
  cwf_target : fits EDGEFLOW_ID_MAX (cmd_target_device_id c);
  cwf_point : fits EDGEFLOW_ID_MAX (cmd_point_id c);
  cwf_retries : 0 <= cmd_max_retries c;
  cwf_message : fits EDGEFLOW_MESSAGE_MAX (cmd_result_message c)
}.

Record alarm_wf (a : alarm_event_t) : Prop := {
  awf_id : is_u64 (al_alarm_id a);
  awf_ts : is_u64 (al_ts_ms a);
  awf_device : fits EDGEFLOW_ID_MAX (al_device_id a);
  awf_code : fits EDGEFLOW_ID_MAX (al_code a);
  awf_message : fits EDGEFLOW_MESSAGE_MAX (al_message a)
}.

Lemma copy_string_fits dst n src : (0 < n)%nat → fits n (copy_string dst n src).
Proof. intros. unfold copy_string. case_decide; [lia|]. by apply snprintf_fits. Qed.

Lemma copy_string_id dst n s : fits n s → copy_string dst n (Some s) = s.
Proof.
  intros Hs. unfold copy_string. case_decide as Hn; simpl.
  - unfold fits in Hs. lia.
  - by apply snprintf_id.
Qed.

Lemma fits_empty n : (0 < n)%nat → fits n "".
Proof. done. Qed.

#[export] Hint Extern 1 (fits _ (copy_string _ _ _)) =>
  apply copy_string_fits; unfold EDGEFLOW_ID_MAX, EDGEFLOW_NAME_MAX,
    EDGEFLOW_UNIT_MAX, EDGEFLOW_MESSAGE_MAX; lia : edge.
#[export] Hint Extern 1 (fits _ EmptyString) => apply fits_empty; vm_compute; lia : edge.
#[export] Hint Extern 1 (is_u32 _) => unfold is_u32; lia : edge.
#[export] Hint Extern 1 (is_u64 _) => unfold is_u64; lia : edge.
#[export] Hint Extern 1 (is_u16 _) => unfold is_u16; lia : edge.

Lemma telemetry_init_wf ts d p v u src :
  is_u64 ts → is_u16 src → telemetry_wf (telemetry_init ts d p v u src).
Proof. intros. split; simpl; edge_auto. Qed.

Lemma device_mark_online_wf d ts : device_wf d → is_u64 ts → device_wf (device_mark_online d ts).
Proof. intros [] ?. split; simpl; edge_auto. Qed.

Lemma device_mark_failure_wf d ts e :
  device_wf d → is_u64 ts → device_wf (device_mark_failure d ts e).
Proof. intros [] ?. split; simpl; edge_auto. Qed.

Lemma device_init_wf d id name p d' :
  device_init d id name p = (0, Some d') → device_wf d'.
Proof.
  unfold device_init. destruct d, id, name; intros; simplify_eq. split; simpl; edge_auto.
Qed.

Lemma command_init_wf c id ts t p v r c' :
  is_u64 id → is_u64 ts →
  command_init_setpoint c id ts t p v r = (0, Some c') → command_wf c'.
Proof.
  unfold command_init_setpoint. destruct c, t, p; intros; simplify_eq.
  destruct (r <? 0) eqn:Hr; simplify_eq. apply Z.ltb_ge in Hr. split; simpl; edge_auto.
Qed.

Lemma command_with_wf c st m :
  command_wf c → fits EDGEFLOW_MESSAGE_MAX m → command_wf (command_with c st m).
Proof. intros [] ?. by split. Qed.

Lemma alarm_make_wf a id ts d c l m a' :
  is_u64 id → is_u64 ts →
  alarm_make a id ts d c l m = (0, Some a') → alarm_wf a'.
Proof.
  unfold alarm_make. destruct a, d, c; intros; simplify_eq. split; simpl; edge_auto.
Qed.

#[export] Hint Resolve telemetry_init_wf device_mark_online_wf device_mark_failure_wf
  command_init_wf command_with_wf alarm_make_wf : edge.

(** ** Connection health *)

(** The device after a run of failed polls, oldest first. *)
Definition fail_run (d : device_t) (errs : list (Z * option string)) : device_t :=
  foldl (fun d e => device_mark_failure d (fst e) (snd e)) d errs.

Definition health (failures : nat) : device_online_state_t :=
  match failures with
  | O => DEVICE_ONLINE_ONLINE
  | 1%nat | 2%nat => DEVICE_ONLINE_DEGRADED
  | _ => DEVICE_ONLINE_OFFLINE
  end.

Lemma fail_run_snoc d errs e :
  fail_run d (errs ++ [e]) = device_mark_failure (fail_run d errs) (fst e) (snd e).
Proof. unfold fail_run. by rewrite foldl_app. Qed.

(** After a successful poll followed by [n] consecutive failures (fewer
    than 2^32, so that the counter has not wrapped), the counter is [n] and
    the device is ONLINE for [n = 0], DEGRADED for one or two failures and
    OFFLINE from the third on. *)
Theorem device_health_progression d ts errs :
  Z.of_nat (length errs) < 2 ^ 32 →
  dev_consecutive_failures (fail_run (device_mark_online d ts) errs) = Z.of_nat (length errs) ∧
  dev_online_state (fail_run (device_mark_online d ts) errs) = health (length errs).
Proof.
  induction errs as [|e errs IH] using rev_ind; [done|].
  rewrite length_app, Nat.add_1_r. intros Hlen. rewrite fail_run_snoc.
  destruct IH as [Hf Ho]; [lia|]. unfold device_mark_failure; simpl.
  rewrite Hf, u32_small by (unfold is_u32; lia).
  split; [lia|].
  destruct (length errs) as [|[|[|n]]] eqn:E; try done.
  destruct (3 <=? _) eqn:H3; [done|]. apply Z.leb_gt in H3. lia.
Qed.

Lemma device_health_progression_witness :
  let d := fail_run (device_mark_online device_zero 1000)
             [(2000, Some "timeout"%string); (3000, Some "timeout"%string); (4000, None)] in
  dev_consecutive_failures d = 3 ∧ dev_online_state d = DEVICE_ONLINE_OFFLINE.
Proof.
  exact (device_health_progression device_zero 1000
    [(2000, Some "timeout"%string); (3000, Some "timeout"%string); (4000, None)]
    ltac:(vm_compute; reflexivity)).
Defined.

(** The counter is a [uint32_t]: the 2^32-th consecutive failure wraps it to
    zero, and the device keeps the state it had (OFFLINE) at that step. *)
Lemma device_failure_wrap d ts e :
  dev_consecutive_failures d = 2 ^ 32 - 1 →
  dev_consecutive_failures (device_mark_failure d ts e) = 0 ∧
  dev_online_state (device_mark_failure d ts e) = dev_online_state d.
Proof. intros H. unfold device_mark_failure. simpl. by rewrite H. Qed.

(** The example of the unit test: raw 785 at scale 0.1 is exactly 78.5. *)
Example point_raw_785 :
  snd (point_init (Some point_zero) (Some "soc_percent"%string) (Some "bms_001"%string)
         (Some "SOC"%string) POINT_TYPE_ANALOG (Some "%"%string) (dlit 1 10) d0)
    ≫= (λ p, Some (point_raw_to_engineering (Some p) (d_of_Z 785)))
  = Some (dlit 785 10).
Proof. vm_compute. reflexivity. Qed.
