(* ===== verification/Ring.v ===== *)
(** * The SPSC ring ([src/src/core/ring.h], [ring.c]), one operation at a time

    The queue between the ingress and the worker thread.  This file models
    each operation as one step and proves that the ring is a bounded FIFO of
    [size - 1] places; [RingConc] interleaves the loads and stores inside the
    operations. *)

From S2P Require Export Prelude DeviceModel.

#[local] Open Scope Z_scope.

(** ** The ring *)

Record spsc_ring_t := mk_ring {
  buf : option (list telemetry_t);
  size : Z;
  head : Z;
  tail : Z;
  dropped : Z
}.

(** [buf[i]]; the code only reads indices below [size]. *)
Definition cell (b : list telemetry_t) (i : Z) : telemetry_t :=
  default telemetry_zero (b !! Z.to_nat i).

(** The four stores the operations make: [buf[i] = x], and the atomic
    variables. *)
Definition with_cell (r : spsc_ring_t) (i : Z) (x : telemetry_t) : spsc_ring_t :=
  mk_ring ((λ b, <[Z.to_nat i := x]> b) <$> buf r) (size r) (head r) (tail r) (dropped r).
Definition with_head (r : spsc_ring_t) (h : Z) : spsc_ring_t :=
  mk_ring (buf r) (size r) h (tail r) (dropped r).
Definition with_tail (r : spsc_ring_t) (t : Z) : spsc_ring_t :=
  mk_ring (buf r) (size r) (head r) t (dropped r).
Definition with_dropped (r : spsc_ring_t) (d : Z) : spsc_ring_t :=
  mk_ring (buf r) (size r) (head r) (tail r) d.

(** [buf[i]] of a ring. *)
Definition ring_cell (r : spsc_ring_t) (i : Z) : telemetry_t := cell (default [] (buf r)) i.

(** ** Operations *)

(** [calloc_ok] is whether the allocation succeeds. *)
Definition spsc_ring_init (calloc_ok : bool) (ring : option spsc_ring_t) (sz : Z)
    : Z * option spsc_ring_t :=
  on_ptr ring (-1) (λ r,
    if sz <? 2 then (-1, r)
    else if calloc_ok then
      (0, mk_ring (Some (replicate (Z.to_nat sz) telemetry_zero)) sz 0 0 0)
    else (-1, mk_ring None (size r) (head r) (tail r) (dropped r))).

Definition spsc_ring_destroy (ring : option spsc_ring_t) : option spsc_ring_t :=
  (λ r, mk_ring None 0 (head r) (tail r) (dropped r)) <$> ring.

(** [(head + 1U) % size] in 32-bit arithmetic. *)
Definition next_index (sz i : Z) : Z := u32 (i + 1) mod sz.

(** The push of a non-NULL point to a non-NULL ring. *)
Definition ring_push (r : spsc_ring_t) (point : telemetry_t) : bool * spsc_ring_t :=
  match buf r with
  | None => (false, r)
  | Some _ =>
      let next := next_index (size r) (head r) in
      if next =? tail r then (false, with_dropped r (u32 (dropped r + 1)))
      else (true, with_head (with_cell r (head r) point) next)
  end.

Definition spsc_ring_push (ring : option spsc_ring_t) (point : option telemetry_t)
    : bool * option spsc_ring_t :=
  match point with
  | None => (false, ring)
  | Some p => on_ptr ring false (λ r, ring_push r p)
  end.

(** The pop: [None] when the function returns false. *)
Definition ring_pop (r : spsc_ring_t) : option telemetry_t * spsc_ring_t :=
  match buf r with
  | None => (None, r)
  | Some _ =>
      if tail r =? head r then (None, r)
      else (Some (ring_cell r (tail r)), with_tail r (next_index (size r) (tail r)))
  end.

(** [point] is the object the caller passes for the result. *)
Definition spsc_ring_pop (ring : option spsc_ring_t) (point : option telemetry_t)
    : bool * option telemetry_t * option spsc_ring_t :=
  match ring, point with
  | Some r, Some old =>
      match ring_pop r with
      | (Some p, r') => (true, Some p, Some r')
      | (None, r') => (false, Some old, Some r')
      end
  | _, _ => (false, point, ring)
  end.

Definition spsc_ring_count (ring : option spsc_ring_t) : Z :=
  match ring with
  | Some r =>
      match buf r with
      | None => 0
      | Some _ =>
          if tail r <=? head r then head r - tail r else size r - tail r + head r
      end
  | None => 0
  end.

Definition spsc_ring_dropped (ring : option spsc_ring_t) : Z :=
  match ring with Some r => dropped r | None => 0 end.

(** ** Circular slices *)

(** The [n] cells from index [from] on, wrapping at [sz]. *)
Definition slice (b : list telemetry_t) (sz from : Z) (n : nat) : list telemetry_t :=
  (λ i : nat, cell b ((from + Z.of_nat i) mod sz)) <$> seq 0 n.

Lemma slice_length b sz from n : length (slice b sz from n) = n.
Proof. unfold slice. by rewrite length_fmap, length_seq. Qed.

Lemma slice_snoc b sz from n :
  slice b sz from (S n) = slice b sz from n ++ [cell b ((from + Z.of_nat n) mod sz)].
Proof. unfold slice. by rewrite seq_S, fmap_app. Qed.

Lemma slice_cons b sz from n :
  0 <= from < sz →
  slice b sz from (S n) = cell b from :: slice b sz ((from + 1) mod sz) n.
Proof.
  intros H. unfold slice. simpl. f_equal.
  - f_equal. rewrite Z.add_0_r. by apply Z.mod_small.
  - rewrite <- fmap_S_seq, <- list_fmap_compose. apply list_fmap_ext.
    intros i x _. simpl. f_equal. rewrite Z.add_mod_idemp_l by lia. f_equal. lia.
Qed.

Lemma cell_insert_eq b i x :
  0 <= i < Z.of_nat (length b) → cell (<[Z.to_nat i := x]> b) i = x.
Proof. intros. unfold cell. by rewrite list_lookup_insert_eq by lia. Qed.

Lemma cell_insert_ne b i j x :
  0 <= i → 0 <= j → i ≠ j → cell (<[Z.to_nat i := x]> b) j = cell b j.
Proof. intros. unfold cell. by rewrite list_lookup_insert_ne by lia. Qed.

Lemma slice_insert b sz from n h x :
  0 < sz → 0 <= h →
  (∀ i : nat, (i < n)%nat → (from + Z.of_nat i) mod sz ≠ h) →
  slice (<[Z.to_nat h := x]> b) sz from n = slice b sz from n.
Proof.
  intros Hsz Hh Hne. apply list_fmap_ext. intros i j Hi.
  apply lookup_seq in Hi as [-> Hi].
  apply cell_insert_ne; [done| |by apply not_eq_sym, Hne].
  by apply Z.mod_pos_bound.
Qed.

(** ** Well-formed rings and their contents *)

Record ring_wf (r : spsc_ring_t) : Prop := {
  rwf_size : 2 <= size r < 2 ^ 32;
  rwf_buf : ∃ b, buf r = Some b ∧ length b = Z.to_nat (size r);
  rwf_head : 0 <= head r < size r;
  rwf_tail : 0 <= tail r < size r;
  rwf_dropped : is_u32 (dropped r)
}.

Definition occupancy (r : spsc_ring_t) : nat := Z.to_nat ((head r - tail r) mod size r).

(** The abstract queue, oldest element first. *)
Definition contents (r : spsc_ring_t) : list telemetry_t :=
  match buf r with
  | Some b => slice b (size r) (tail r) (occupancy r)
  | None => []
  end.

Definition capacity (r : spsc_ring_t) : nat := Z.to_nat (size r - 1).

Lemma capacity_size r1 r2 : size r1 = size r2 → capacity r1 = capacity r2.
Proof. unfold capacity. by intros ->. Qed.

Lemma next_index_mod sz i : 0 <= i < sz → sz < 2 ^ 32 → next_index sz i = (i + 1) mod sz.
Proof. intros. unfold next_index. by rewrite u32_small by (unfold is_u32; lia). Qed.

Lemma next_index_range sz i : 0 < sz → 0 <= next_index sz i < sz.
Proof. intros. by apply Z.mod_pos_bound. Qed.

#[export] Hint Resolve next_index_range : edge.

(** Arithmetic on indices: the residues expand to case distinctions that
    [lia] decides. *)
Ltac ring_arith :=
  unfold occupancy, capacity in *;
  repeat match goal with
  | H : context [(?a - ?b) `mod` ?m] |- _ => rewrite (mod_diff a b m) in H by lia
  | |- context [(?a - ?b) `mod` ?m] => rewrite (mod_diff a b m) by lia
  | H : context [(?a + ?b) `mod` ?m] |- _ => rewrite (mod_once (a + b) m) in H by lia
  | |- context [(?a + ?b) `mod` ?m] => rewrite (mod_once (a + b) m) by lia
  end;
  repeat case_bool_decide; try lia.

Lemma occupancy_lt sz h t : 0 < sz → (Z.to_nat ((h - t) mod sz) < Z.to_nat sz)%nat.
Proof. intros. pose proof (Z.mod_pos_bound (h - t) sz). lia. Qed.

(** The ring is full exactly when advancing the head would meet the tail. *)
Lemma full_iff sz h t :
  2 <= sz → 0 <= h < sz → 0 <= t < sz →
  (h + 1) mod sz = t ↔ Z.to_nat ((h - t) mod sz) = Z.to_nat (sz - 1).
Proof. intros. ring_arith. Qed.

Lemma empty_iff sz h t :
  2 <= sz → 0 <= h < sz → 0 <= t < sz → t = h ↔ Z.to_nat ((h - t) mod sz) = 0%nat.
Proof. intros. ring_arith. Qed.

Lemma occupancy_push sz h t :
  2 <= sz → 0 <= h < sz → 0 <= t < sz → (h + 1) mod sz ≠ t →
  Z.to_nat (((h + 1) mod sz - t) mod sz) = S (Z.to_nat ((h - t) mod sz)).
Proof.
  intros Hsz Hh Ht. rewrite (mod_once (h + 1) sz) by lia.
  case_bool_decide; intros; ring_arith.
Qed.

Lemma occupancy_pop sz h t :
  2 <= sz → 0 <= h < sz → 0 <= t < sz → t ≠ h →
  Z.to_nat ((h - t) mod sz) = S (Z.to_nat ((h - (t + 1) mod sz) mod sz)).
Proof.
  intros Hsz Hh Ht Hne. rewrite (mod_once (t + 1) sz) by lia.
  case_bool_decide; ring_arith.
Qed.

(** The cells of the queue are not the cell at the head. *)
Lemma slice_avoids_head sz h t i :
  2 <= sz → 0 <= h < sz → 0 <= t < sz →
  (i < Z.to_nat ((h - t) mod sz))%nat → (t + Z.of_nat i) mod sz ≠ h.
Proof.
  intros Hsz Hh Ht. rewrite (mod_diff h t sz) by lia.
  case_bool_decide; intros Hi; rewrite (mod_once (t + Z.of_nat i) sz) by lia;
    case_bool_decide; lia.
Qed.

(** The cell just past the queue is the head. *)
Lemma slice_end sz h t :
  2 <= sz → 0 <= h < sz → 0 <= t < sz →
  (t + Z.of_nat (Z.to_nat ((h - t) mod sz))) mod sz = h.
Proof.
  intros Hsz Hh Ht. rewrite (mod_diff h t sz) by lia.
  case_bool_decide; rewrite Z2Nat.id by lia; rewrite mod_once by lia;
    case_bool_decide; lia.
Qed.

Lemma contents_length r : ring_wf r → length (contents r) = occupancy r.
Proof. intros []. destruct rwf_buf0 as (b & Hb & _). unfold contents. rewrite Hb. apply slice_length. Qed.

Lemma contents_bound r : ring_wf r → (length (contents r) ≤ capacity r)%nat.
Proof.
  intros Hw. rewrite contents_length by done. destruct Hw.
  unfold occupancy, capacity. pose proof (occupancy_lt (size r) (head r) (tail r)). lia.
Qed.

Lemma ring_init_wf sz r0 :
  2 <= sz < 2 ^ 32 →
  ∃ r, spsc_ring_init true (Some r0) sz = (0, Some r) ∧ ring_wf r ∧
       contents r = [] ∧ size r = sz ∧ dropped r = 0.
Proof.
  intros Hsz. unfold spsc_ring_init; simpl.
  destruct (sz <? 2) eqn:E; [apply Z.ltb_lt in E; lia|].
  eexists; split; [done|]. split_and!; try done.
  split; simpl; edge_auto. eexists; split; [done|]. by rewrite length_replicate.
Qed.

(** Each store on its own. *)
Lemma with_dropped_wf r d : ring_wf r → is_u32 d → ring_wf (with_dropped r d).
Proof. intros [] ?. by split. Qed.

Lemma with_cell_spec r x :
  ring_wf r →
  ring_wf (with_cell r (head r) x) ∧ contents (with_cell r (head r) x) = contents r ∧
  ring_cell (with_cell r (head r) x) (head r) = x.
Proof.
  intros [Hsz (b & Hb & Hlen) Hh Ht Hd].
  unfold with_cell, contents, ring_cell, occupancy; simpl. rewrite Hb; simpl.
  rewrite cell_insert_eq by lia. split_and!; [|apply slice_insert; try lia|done].
  - split; simpl; edge_auto. eexists; split; [done|]. by rewrite length_insert.
  - intros. apply slice_avoids_head; by (done || lia).
Qed.

Lemma with_head_spec r :
  ring_wf r → next_index (size r) (head r) ≠ tail r →
  let r' := with_head r (next_index (size r) (head r)) in
  ring_wf r' ∧ contents r' = contents r ++ [ring_cell r (head r)].
Proof.
  intros [Hsz (b & Hb & Hlen) Hh Ht Hd]. rewrite next_index_mod by lia. intros Hne.
  unfold contents, ring_cell, occupancy; simpl. rewrite Hb; simpl.
  split; [split; simpl; edge_auto; apply Z.mod_pos_bound; lia|].
  by rewrite occupancy_push, slice_snoc, slice_end by lia.
Qed.

Lemma with_tail_spec r :
  ring_wf r → tail r ≠ head r →
  let r' := with_tail r (next_index (size r) (tail r)) in
  ring_wf r' ∧ contents r = ring_cell r (tail r) :: contents r'.
Proof.
  intros [Hsz (b & Hb & Hlen) Hh Ht Hd]. rewrite next_index_mod by lia. intros Hne.
  unfold contents, ring_cell, occupancy; simpl. rewrite Hb; simpl.
  split; [split; simpl; edge_auto; apply Z.mod_pos_bound; lia|].
  by rewrite (occupancy_pop (size r)), slice_cons by lia.
Qed.

(** The two tests of the code, on the abstract queue. *)
Lemma ring_full_iff r :
  ring_wf r → next_index (size r) (head r) = tail r ↔ length (contents r) = capacity r.
Proof.
  intros Hw. rewrite contents_length by done. destruct Hw.
  rewrite next_index_mod by lia. apply full_iff; lia.
Qed.

Lemma ring_empty_iff r : ring_wf r → tail r = head r ↔ contents r = [].
Proof.
  intros Hw. rewrite <- length_zero_iff_nil, contents_length by done. destruct Hw.
  apply empty_iff; lia.
Qed.

(** What one push does, on both branches. *)
Lemma ring_push_spec r x :
  ring_wf r →
  let (ok, r') := ring_push r x in
  ring_wf r' ∧ size r' = size r ∧
  if decide (length (contents r) = capacity r)
  then ok = false ∧ contents r' = contents r ∧ dropped r' = u32 (dropped r + 1)
  else ok = true ∧ contents r' = contents r ++ [x] ∧ dropped r' = dropped r.
Proof.
  intros Hw. pose proof (ring_full_iff r Hw) as Hfull. pose proof Hw as [_ (b & Hb & _) _ _ _].
  unfold ring_push. rewrite Hb.
  destruct (_ =? tail r) eqn:E; [apply Z.eqb_eq in E|apply Z.eqb_neq in E].
  - rewrite decide_True by by apply Hfull.
    split_and!; auto using with_dropped_wf, u32_range.
  - rewrite decide_False by by rewrite <- Hfull.
    destruct (with_cell_spec r x Hw) as (Hw1 & Hc1 & Hx).
    destruct (with_head_spec _ Hw1 E) as [Hw2 Hc2]. simpl in *.
    by rewrite Hc2, Hc1, Hx.
Qed.

Lemma ring_pop_spec r :
  ring_wf r →
  let (res, r') := ring_pop r in
  ring_wf r' ∧ size r' = size r ∧ dropped r' = dropped r ∧
  contents r = option_list res ++ contents r' ∧ (res = None ↔ contents r = []).
Proof.
  intros Hw. pose proof (ring_empty_iff r Hw) as Hempty. pose proof Hw as [_ (b & Hb & _) _ _ _].
  unfold ring_pop. rewrite Hb.
  destruct (_ =? head r) eqn:E; [apply Z.eqb_eq in E|apply Z.eqb_neq in E].
  - by rewrite <- Hempty.
  - destruct (with_tail_spec r Hw E) as [Hw' Hc]. by rewrite <- Hempty.
Qed.

Lemma ring_count_spec r : ring_wf r → spsc_ring_count (Some r) = Z.of_nat (length (contents r)).
Proof.
  intros Hw. rewrite contents_length by done.
  destruct Hw as [Hsz (b & Hb & _) Hh Ht _]. unfold spsc_ring_count, occupancy. rewrite Hb.
  destruct (_ <=? _) eqn:E; [apply Z.leb_le in E|apply Z.leb_gt in E]; ring_arith.
Qed.

(** ** Refinement of a bounded FIFO queue *)

(** The specification: a list, at most [cap] long, and a drop counter. *)
Record fifo := mk_fifo { fifo_items : list telemetry_t; fifo_cap : nat; fifo_drops : Z }.

Inductive ring_op := OpPush (x : telemetry_t) | OpPop | OpCount | OpDropped.
Inductive ring_answer := AnsPush (ok : bool) | AnsPop (x : option telemetry_t) | AnsNum (n : Z).

Definition fifo_step (q : fifo) (o : ring_op) : ring_answer * fifo :=
  match o with
  | OpPush x =>
      if decide (length (fifo_items q) = fifo_cap q)
      then (AnsPush false, mk_fifo (fifo_items q) (fifo_cap q) (u32 (fifo_drops q + 1)))
      else (AnsPush true, mk_fifo (fifo_items q ++ [x]) (fifo_cap q) (fifo_drops q))
  | OpPop =>
      match fifo_items q with
      | [] => (AnsPop None, q)
      | x :: l => (AnsPop (Some x), mk_fifo l (fifo_cap q) (fifo_drops q))
      end
  | OpCount => (AnsNum (Z.of_nat (length (fifo_items q))), q)
  | OpDropped => (AnsNum (fifo_drops q), q)
  end.

Definition ring_step (r : spsc_ring_t) (o : ring_op) : ring_answer * spsc_ring_t :=
  match o with
  | OpPush x => let '(ok, r') := ring_push r x in (AnsPush ok, r')
  | OpPop => let '(x, r') := ring_pop r in (AnsPop x, r')
  | OpCount => (AnsNum (spsc_ring_count (Some r)), r)
  | OpDropped => (AnsNum (spsc_ring_dropped (Some r)), r)
  end.

(** The answers to a sequence of operations. *)
Fixpoint answers {S} (step : S → ring_op → ring_answer * S) (s : S) (ops : list ring_op)
    : list ring_answer :=
  match ops with
  | [] => []
  | o :: ops' => let '(a, s') := step s o in a :: answers step s' ops'
  end.

Definition abs (r : spsc_ring_t) : fifo := mk_fifo (contents r) (capacity r) (dropped r).

(** One step of the ring simulates one step of the queue. *)
Lemma ring_step_sim r o :
  ring_wf r →
  let (a, r') := ring_step r o in ring_wf r' ∧ fifo_step (abs r) o = (a, abs r').
Proof.
  intros Hw. destruct o as [x| | |]; simpl.
  - pose proof (ring_push_spec r x Hw) as Hp. destruct (ring_push r x) as [ok r'].
    destruct Hp as (Hw' & Hsz & Hp). split; [done|].
    unfold abs. rewrite (capacity_size r' r) by done.
    destruct (decide _); by destruct Hp as (-> & -> & ->).
  - pose proof (ring_pop_spec r Hw) as Hp. destruct (ring_pop r) as [res r'].
    destruct Hp as (Hw' & Hsz & Hd & Hc & Hn). split; [done|].
    unfold abs. rewrite (capacity_size r' r), Hd by done. destruct res as [p|]; simpl in *; rewrite Hc; [done|].
    rewrite (proj1 Hn eq_refl) in Hc. by rewrite <- Hc.
  - split; [done|]. pose proof (ring_count_spec r Hw) as Hn. simpl in Hn. by rewrite Hn.
  - done.
Qed.

Lemma answers_sim r ops :
  ring_wf r → answers ring_step r ops = answers fifo_step (abs r) ops.
Proof.
  revert r. induction ops as [|o ops IH]; intros r Hw; simpl; [done|].
  pose proof (ring_step_sim r o Hw) as Hs. destruct (ring_step r o) as [a r'].
  destruct Hs as [Hw' ->]. by rewrite (IH r').
Qed.

(** C15: a ring initialised with [sz] cells answers every sequence of pushes,
    pops, count and drop-counter queries exactly as a FIFO queue of capacity
    [sz - 1] does: a push fails, and is counted as dropped, only when the
    queue is full, and pops return the elements in order. *)
Theorem ring_refines_fifo r0 r sz ops :
  2 <= sz < 2 ^ 32 →
  spsc_ring_init true (Some r0) sz = (0, Some r) →
  answers ring_step r ops = answers fifo_step (mk_fifo [] (Z.to_nat (sz - 1)) 0) ops.
Proof.
  intros Hsz Hi. destruct (ring_init_wf sz r0 Hsz) as (r' & Hi' & Hw & Hc & Hs & Hd).
  rewrite Hi in Hi'. simplify_eq. rewrite answers_sim by done.
  unfold abs, capacity. by rewrite Hc, Hd.
Qed.

Definition ring_null : spsc_ring_t := mk_ring None 0 0 0 0.

Lemma ring_refines_fifo_witness :
  let t := telemetry_init 1 (Some "d1"%string) (Some "p1"%string) d0 (Some "U"%string) 1 in
  let ops := [OpPush t; OpPush t; OpPush t; OpPop; OpCount; OpDropped; OpPop; OpPop] in
  answers ring_step (mk_ring (Some (replicate 3 telemetry_zero)) 3 0 0 0) ops
  = answers fifo_step (mk_fifo [] 2 0) ops.
Proof.
  exact (ring_refines_fifo ring_null _ 3 _ ltac:(lia) eq_refl).
Defined.

(** A ring is never initialised with fewer than two cells. *)
Lemma ring_init_small ok r0 sz : sz < 2 → fst (spsc_ring_init ok (Some r0) sz) = -1.
Proof. intros H. unfold spsc_ring_init; simpl. by rewrite (proj2 (Z.ltb_lt _ _) H). Qed.
