(* ===== verification/RingConc.v ===== *)
(** * The SPSC ring under interleaving ([src/src/core/ring.c])

    One producer and one consumer thread run the pushes and pops of
    [ring.c] concurrently.  Every atomic load and store, and every access to
    a buffer cell, is a step of its own; the sequentially consistent atomics
    of C11 (the default order the code uses) make the interleavings of these
    steps the behaviours of the program, provided no two threads access the
    same cell at the same time, which [conc_no_race] proves. *)

From S2P Require Export Ring.

#[local] Open Scope Z_scope.

(** ** States *)

(** Where the producer stands in [spsc_ring_push], with its local variables
    [point], [head] and [next]. *)
Inductive producer_pc :=
  | PIdle
  | PLoadTail (x : telemetry_t) (h : Z)
  | PDrop (x : telemetry_t)
  | PWrite (x : telemetry_t) (h : Z)
  | PStore (x : telemetry_t) (h : Z).

(** Where the consumer stands in [spsc_ring_pop]. *)
Inductive consumer_pc :=
  | CIdle
  | CLoadHead (t : Z)
  | CRead (t : Z)
  | CStore (t : Z) (v : telemetry_t).

(** [pushed] and [popped] record the elements of the pushes that returned
    true and the pops that returned true, in order. *)
Record conc := mk_conc {
  ring : spsc_ring_t;
  prod : producer_pc;
  cons : consumer_pc;
  pushed : list telemetry_t;
  popped : list telemetry_t
}.

(** ** Steps *)

Inductive prod_step : conc → conc → Prop :=
  | push_load_head r x c pu po :
      prod_step (mk_conc r PIdle c pu po) (mk_conc r (PLoadTail x (head r)) c pu po)
  | push_load_tail_full r x h c pu po :
      next_index (size r) h = tail r →
      prod_step (mk_conc r (PLoadTail x h) c pu po) (mk_conc r (PDrop x) c pu po)
  | push_load_tail_free r x h c pu po :
      next_index (size r) h ≠ tail r →
      prod_step (mk_conc r (PLoadTail x h) c pu po) (mk_conc r (PWrite x h) c pu po)
  | push_drop r x c pu po :
      prod_step (mk_conc r (PDrop x) c pu po)
                (mk_conc (with_dropped r (u32 (dropped r + 1))) PIdle c pu po)
  | push_write r x h c pu po :
      prod_step (mk_conc r (PWrite x h) c pu po)
                (mk_conc (with_cell r h x) (PStore x h) c pu po)
  | push_store_head r x h c pu po :
      prod_step (mk_conc r (PStore x h) c pu po)
                (mk_conc (with_head r (next_index (size r) h)) PIdle c (pu ++ [x]) po).

Inductive cons_step : conc → conc → Prop :=
  | pop_load_tail r p pu po :
      cons_step (mk_conc r p CIdle pu po) (mk_conc r p (CLoadHead (tail r)) pu po)
  | pop_load_head_empty r p t pu po :
      t = head r →
      cons_step (mk_conc r p (CLoadHead t) pu po) (mk_conc r p CIdle pu po)
  | pop_load_head_some r p t pu po :
      t ≠ head r →
      cons_step (mk_conc r p (CLoadHead t) pu po) (mk_conc r p (CRead t) pu po)
  | pop_read r p t pu po :
      cons_step (mk_conc r p (CRead t) pu po)
                (mk_conc r p (CStore t (ring_cell r t)) pu po)
  | pop_store_tail r p t v pu po :
      cons_step (mk_conc r p (CStore t v) pu po)
                (mk_conc (with_tail r (next_index (size r) t)) p CIdle pu (po ++ [v])).

Definition conc_step (s s' : conc) : Prop := prod_step s s' ∨ cons_step s s'.

Definition conc_init (r : spsc_ring_t) : conc := mk_conc r PIdle CIdle [] [].

(** Reachable from a freshly initialised ring. *)
Definition reachable (s : conc) : Prop :=
  ∃ r0 r sz, 2 <= sz < 2 ^ 32 ∧ spsc_ring_init true (Some r0) sz = (0, Some r) ∧
             rtc conc_step (conc_init r) s.

(** ** The invariant *)

Definition prod_ok (r : spsc_ring_t) (p : producer_pc) : Prop :=
  match p with
  | PIdle | PDrop _ => True
  | PLoadTail _ h => h = head r
  | PWrite _ h => h = head r ∧ next_index (size r) h ≠ tail r
  | PStore x h => h = head r ∧ next_index (size r) h ≠ tail r ∧ ring_cell r h = x
  end.

Definition cons_ok (r : spsc_ring_t) (c : consumer_pc) : Prop :=
  match c with
  | CIdle => True
  | CLoadHead t => t = tail r
  | CRead t => t = tail r ∧ tail r ≠ head r
  | CStore t v => t = tail r ∧ tail r ≠ head r ∧ v = ring_cell r t
  end.

Record conc_inv (s : conc) : Prop := {
  ci_wf : ring_wf (ring s);
  ci_hist : pushed s = popped s ++ contents (ring s);
  ci_prod : prod_ok (ring s) (prod s);
  ci_cons : cons_ok (ring s) (cons s)
}.

Lemma conc_init_inv r : ring_wf r → contents r = [] → conc_inv (conc_init r).
Proof. intros Hw Hc. split; simpl; by rewrite ?Hc. Qed.

(** The two facts that make the threads' tests stable: room seen by the
    producer is not taken away by the consumer, and an element seen by the
    consumer is not taken away by the producer. *)
Lemma room_stable r :
  ring_wf r → next_index (size r) (head r) ≠ tail r → tail r ≠ head r →
  next_index (size r) (head r) ≠ next_index (size r) (tail r).
Proof.
  intros [Hsz _ Hh Ht _]. rewrite !next_index_mod by lia.
  rewrite !mod_once by lia. repeat case_bool_decide; lia.
Qed.

Lemma element_stable r :
  ring_wf r → next_index (size r) (head r) ≠ tail r →
  tail r ≠ next_index (size r) (head r).
Proof. auto. Qed.

(** Writing the cell at the head does not change the cell at the tail of a
    non-empty queue. *)
Lemma cell_write_stable r x t :
  ring_wf r → t = tail r → tail r ≠ head r →
  ring_cell (with_cell r (head r) x) t = ring_cell r t.
Proof.
  intros [_ (b & Hb & _) Hh Ht _] -> Hne. unfold ring_cell; simpl. rewrite Hb; simpl.
  apply cell_insert_ne; lia.
Qed.

Lemma prod_step_inv s s' : conc_inv s → prod_step s s' → conc_inv s'.
Proof.
  intros [Hw Hh Hp Hc] Hs.
  destruct Hs as [r x c pu po|r x h c pu po Hf|r x h c pu po Hf|r x c pu po|r x h c pu po
                 |r x h c pu po]; simpl in *.
  - by split.
  - by split.
  - by split; simplify_eq.
  - split; simpl; auto using with_dropped_wf, u32_range.
  - destruct Hp as [-> Hf]. destruct (with_cell_spec r x Hw) as (Hw' & Hct & Hx).
    split; simpl; auto; [by rewrite Hct|].
    destruct c; simpl in *; auto. destruct Hc as (-> & Hne & ->).
    split_and!; auto. by rewrite cell_write_stable.
  - destruct Hp as (-> & Hf & Hx). destruct (with_head_spec r Hw Hf) as [Hw' Hct].
    split; simpl in *; auto.
    + by rewrite Hct, Hh, Hx, app_assoc.
    + destruct c; simpl in *; destruct_and?; simplify_eq; auto.
Qed.

Lemma cons_step_inv s s' : conc_inv s → cons_step s s' → conc_inv s'.
Proof.
  intros [Hw Hh Hp Hc] Hs.
  destruct Hs as [r p pu po|r p t pu po He|r p t pu po He|r p t pu po|r p t v pu po];
    simpl in *.
  - by split.
  - by split.
  - by split; simplify_eq.
  - destruct Hc as [-> Hne]. by split.
  - destruct Hc as (-> & Hne & ->). destruct (with_tail_spec r Hw Hne) as [Hw' Hct].
    split; simpl in *; auto.
    + by rewrite Hh, Hct, <- app_assoc.
    + destruct p; simpl in *; auto; destruct_and!; simplify_eq;
        split_and?; auto using room_stable.
Qed.

Lemma reachable_inv s : reachable s → conc_inv s.
Proof.
  intros (r0 & r & sz & Hsz & Hi & Hr).
  destruct (ring_init_wf sz r0 Hsz) as (r' & Hi' & Hw & Hc & _).
  rewrite Hi in Hi'. simplify_eq.
  assert (conc_inv (conc_init r')) as H0 by by apply conc_init_inv.
  induction Hr as [|s1 s2 s3 [Hs|Hs] _ IH]; eauto using prod_step_inv, cons_step_inv.
Qed.

#[export] Hint Resolve reachable_inv : edge.

(** ** What every interleaving guarantees *)

(** C1: in every interleaving of one producer and one consumer, the elements
    popped so far are exactly the first elements successfully pushed, in
    order, none lost or duplicated, and the others are in the ring. *)
Theorem conc_fifo s :
  reachable s → pushed s = popped s ++ contents (ring s) ∧
                (length (contents (ring s)) ≤ capacity (ring s))%nat.
Proof. intros [Hw Hh _ _]%reachable_inv. auto using contents_bound. Qed.

(** C35: no data race: whenever the producer is about to write a cell and the
    consumer is about to read one, the cells differ. *)
Theorem conc_no_race s x h t :
  reachable s → prod s = PWrite x h → cons s = CRead t → h ≠ t.
Proof.
  intros [Hw Hh Hp Hc]%reachable_inv Ep Ec. rewrite Ep in Hp. rewrite Ec in Hc.
  simpl in *. destruct Hp, Hc. congruence.
Qed.

(** The tests linearise: a push that starts to drop its element saw a
    full queue at the load of the tail, and a pop that returns false saw an
    empty queue at the load of the head. *)
Theorem conc_linearized s s' :
  reachable s → conc_step s s' →
  (∀ x, prod s' = PDrop x → prod s ≠ PDrop x → length (contents (ring s)) = capacity (ring s)) ∧
  (∀ t, cons s = CLoadHead t → cons s' = CIdle → contents (ring s) = []).
Proof.
  intros [Hw Hh Hp Hc]%reachable_inv [Hs|Hs]; destruct Hs; simpl in *; split;
    intros; simplify_eq; try done.
  - by apply ring_full_iff.
  - by apply ring_empty_iff.
Qed.

(** ** Calls that nobody interrupts *)

(** The steps of a thread inside its call. *)
Definition in_push (s s' : conc) : Prop := prod s ≠ PIdle ∧ prod_step s s'.
Definition in_pop (s s' : conc) : Prop := cons s ≠ CIdle ∧ cons_step s s'.

(** Follows the steps of a call, of which [H] is the rest. *)
Ltac follow H :=
  let s1 := fresh "s" in let Hb := fresh "Hb" in let Hs := fresh "Hs" in let E := fresh "E" in
  apply rtc_inv in H as [E|(s1 & [Hb Hs] & H)]; [subst|inversion Hs; subst; clear Hs].

Lemma in_push_run r x c pu po s' :
  buf r ≠ None →
  rtc in_push (mk_conc r (PLoadTail x (head r)) c pu po) s' ∧ prod s' = PIdle ↔
  s' = let '(ok, r') := ring_push r x in mk_conc r' PIdle c (if ok then pu ++ [x] else pu) po.
Proof.
  intros Hb. unfold ring_push. destruct (buf r) as [b|]; [clear Hb|done].
  destruct (Z.eqb_spec (next_index (size r) (head r)) (tail r)) as [Hf|Hf]; split.
  - intros [H Hi]. do 3 (follow H; try done).
  - intros ->. split; [|done]. eapply rtc_l; [split; [done|by apply push_load_tail_full]|].
    eapply rtc_l; [split; [done|apply push_drop]|]. done.
  - intros [H Hi]. do 4 (follow H; try done).
  - intros ->. split; [|done]. eapply rtc_l; [split; [done|by apply push_load_tail_free]|].
    eapply rtc_l; [split; [done|apply push_write]|].
    eapply rtc_l; [split; [done|apply push_store_head]|]. done.
Qed.

Lemma in_pop_run r p pu po s' :
  buf r ≠ None →
  rtc in_pop (mk_conc r p (CLoadHead (tail r)) pu po) s' ∧ cons s' = CIdle ↔
  s' = let '(res, r') := ring_pop r in
       mk_conc r' p CIdle pu (match res with Some v => po ++ [v] | None => po end).
Proof.
  intros Hb. unfold ring_pop. destruct (buf r) as [b|]; [clear Hb|done].
  destruct (Z.eqb_spec (tail r) (head r)) as [He|He]; split.
  - intros [H Hi]. do 2 (follow H; try done).
  - intros ->. split; [|done]. eapply rtc_l; [split; [done|by apply pop_load_head_empty]|]. done.
  - intros [H Hi]. do 4 (follow H; try done).
  - intros ->. split; [|done]. eapply rtc_l; [split; [done|by apply pop_load_head_some]|].
    eapply rtc_l; [split; [done|apply pop_read]|].
    eapply rtc_l; [split; [done|apply pop_store_tail]|]. done.
Qed.

(** C34: the two models of the ring agree: the steps of a push that nobody
    interrupts lead to the state that [spsc_ring_push] computes in one go, and
    to no other, from any ring with a buffer; likewise for a pop. *)
Theorem uninterrupted_calls r c p pu po :
  buf r ≠ None →
  (∀ x s', rtc in_push (mk_conc r (PLoadTail x (head r)) c pu po) s' ∧ prod s' = PIdle ↔
     ∃ ok r', spsc_ring_push (Some r) (Some x) = (ok, Some r') ∧
       s' = mk_conc r' PIdle c (if ok then pu ++ [x] else pu) po) ∧
  (∀ old s', rtc in_pop (mk_conc r p (CLoadHead (tail r)) pu po) s' ∧ cons s' = CIdle ↔
     ∃ ok v r', spsc_ring_pop (Some r) (Some old) = (ok, Some v, Some r') ∧
       s' = mk_conc r' p CIdle pu (if ok then po ++ [v] else po)).
Proof.
  intros Hb. split.
  - intros x s'. rewrite in_push_run by done. unfold spsc_ring_push. cbn [on_ptr].
    destruct (ring_push r x) as [ok r']. naive_solver.
  - intros old s'. rewrite in_pop_run by done. unfold spsc_ring_pop.
    destruct (ring_pop r) as [[v|] r']; naive_solver.
Qed.

(** ** A run of both threads *)

Definition demo_point : telemetry_t :=
  telemetry_init 7 (Some "bms_001"%string) (Some "soc_percent"%string) (d_of_Z 80)
    (Some "%"%string) 2.

Definition demo_ring : spsc_ring_t :=
  mk_ring (Some (replicate 3 telemetry_zero)) 3 0 0 0.

(** One element pushed, the producer about to write the next, the consumer
    about to read the first. *)
Definition demo_busy : conc :=
  mk_conc (with_head (with_cell demo_ring 0 demo_point) 1)
    (PWrite demo_point 1) (CRead 0) [demo_point] [].

Lemma demo_busy_reachable : reachable demo_busy.
Proof.
  exists ring_null, demo_ring, 3. split; [lia|]. split; [done|].
  unfold demo_busy, conc_init.
  eapply rtc_l; [left; apply (push_load_head _ demo_point)|].
  eapply rtc_l; [left; by apply push_load_tail_free|].
  eapply rtc_l; [left; apply push_write|].
  eapply rtc_l; [left; apply push_store_head|].
  eapply rtc_l; [left; apply (push_load_head _ demo_point)|].
  eapply rtc_l; [right; apply pop_load_tail|].
  eapply rtc_l; [left; by apply push_load_tail_free|].
  eapply rtc_l; [right; by apply pop_load_head_some|].
  apply rtc_refl.
Defined.

Lemma conc_fifo_witness :
  pushed demo_busy = popped demo_busy ++ contents (ring demo_busy) ∧
  (length (contents (ring demo_busy)) ≤ capacity (ring demo_busy))%nat.
Proof. exact (conc_fifo demo_busy demo_busy_reachable). Defined.

Lemma conc_no_race_witness : 1 ≠ 0.
Proof.
  exact (conc_no_race demo_busy demo_point 1 0 demo_busy_reachable eq_refl eq_refl).
Defined.

Lemma conc_linearized_witness :
  let s' := mk_conc (ring demo_busy) (prod demo_busy)
              (CStore 0 demo_point) [demo_point] [] in
  (∀ x, prod s' = PDrop x → prod demo_busy ≠ PDrop x →
        length (contents (ring demo_busy)) = capacity (ring demo_busy)) ∧
  (∀ t, cons demo_busy = CLoadHead t → cons s' = CIdle → contents (ring demo_busy) = []).
Proof.
  exact (conc_linearized demo_busy _ demo_busy_reachable
           (or_intror (pop_read _ _ 0 _ _))).
Defined.

Lemma uninterrupted_calls_witness :
  rtc in_push (mk_conc demo_ring (PLoadTail demo_point 0) CIdle [] [])
    (mk_conc (with_head (with_cell demo_ring 0 demo_point) 1) PIdle CIdle [demo_point] []).
Proof.
  destruct (uninterrupted_calls demo_ring CIdle PIdle [] [] ltac:(discriminate)) as [Hpush _].
  refine (proj1 (proj2 (Hpush demo_point _) _)). exists true. eexists. split; reflexivity.
Defined.
