(* ===== verification/Config.v ===== *)
(** * Configuration ([src/src/platform/config.h], [config.c])

    The gateway's parameters, their defaults, and the loader that overrides
    them from a JSON document.  The document is the tree of the vendored
    cJSON library (nodes and lookup as in [third_party/cJSON]); the parser
    that makes a tree from text, and the file system, are parameters. *)

From S2P Require Export Prelude Double.

#[local] Open Scope Z_scope.
#[local] Set Warnings "-register-all".

(** ** cJSON trees *)

(** A node: type bits, [valuestring], [valuedouble], the member name (for
    the child of an object) and the children in order. *)
Inductive cJSON :=
  CJson (type : Z) (valuestring : option string) (valuedouble : double)
        (name : option string) (child : list cJSON).

Definition cj_type (j : cJSON) : Z := let 'CJson t _ _ _ _ := j in t.
Definition cj_valuestring (j : cJSON) : option string := let 'CJson _ s _ _ _ := j in s.
Definition cj_valuedouble (j : cJSON) : double := let 'CJson _ _ d _ _ := j in d.
Definition cj_string (j : cJSON) : option string := let 'CJson _ _ _ n _ := j in n.
Definition cj_child (j : cJSON) : list cJSON := let 'CJson _ _ _ _ c := j in c.

Definition cJSON_False : Z := 1.
Definition cJSON_True : Z := 2.
Definition cJSON_NULL : Z := 4.
Definition cJSON_Number : Z := 8.
Definition cJSON_String : Z := 16.
Definition cJSON_Array : Z := 32.
Definition cJSON_Object : Z := 64.

(** The scan of [get_object_item]: the first member with the name; a member
    without a name ends it. *)
Fixpoint find_member (name : string) (l : list cJSON) : option cJSON :=
  match l with
  | [] => None
  | j :: l' =>
      match cj_string j with
      | None => None
      | Some n => if String.eqb name n then Some j else find_member name l'
      end
  end.

Definition cJSON_GetObjectItemCaseSensitive (object : option cJSON) (name : string) : option cJSON :=
  match object with
  | None => None
  | Some j => find_member name (cj_child j)
  end.

Definition has_type (item : option cJSON) (mask : Z) : bool :=
  match item with None => false | Some j => Z.land (cj_type j) 255 =? mask end.

Definition cJSON_IsString (item : option cJSON) : bool := has_type item cJSON_String.
Definition cJSON_IsNumber (item : option cJSON) : bool := has_type item cJSON_Number.
Definition cJSON_IsTrue (item : option cJSON) : bool := has_type item cJSON_True.
Definition cJSON_IsObject (item : option cJSON) : bool := has_type item cJSON_Object.
Definition cJSON_IsBool (item : option cJSON) : bool :=
  match item with
  | None => false
  | Some j => negb (Z.land (cj_type j) (Z.lor cJSON_True cJSON_False) =? 0)
  end.

(** ** The parameters *)

Record gateway_config_t := mk_config {
  cfg_device_id : string;
  cfg_simulate : bool;
  cfg_serial_device : string;
  cfg_poll_interval_ms : Z;
  cfg_queue_size : Z;
  cfg_deadband : double;
  cfg_temp_high : double;
  cfg_peak_shaving_threshold_kw : double;
  cfg_max_discharge_kw : double;
  cfg_min_discharge_soc : double;
  cfg_broker_host : string;
  cfg_broker_port : Z;
  cfg_mqtt_topic : string;
  cfg_mqtt_alarm_topic : string;
  cfg_mqtt_heartbeat_topic : string;
  cfg_log_dir : string;
  cfg_metrics_path : string;
  cfg_cache_path : string;
  cfg_use_sqlite : bool;
  cfg_sqlite_path : string;
  cfg_mqtt_replay_batch : Z;
  cfg_mqtt_keepalive_sec : Z;
  cfg_watchdog_interval_ms : Z;
  cfg_heartbeat_interval_ms : Z;
  cfg_modbus_transport : string;
  cfg_modbus_tcp_host : string;
  cfg_modbus_tcp_port : Z;
  cfg_modbus_slave_id : Z;
  cfg_modbus_baud_rate : Z;
  cfg_modbus_parity : Ascii.ascii;
  cfg_modbus_data_bits : Z;
  cfg_modbus_stop_bits : Z;
  cfg_modbus_timeout_ms : Z
}.

(** [config.c]'s own bounded copy (no NULL test on the destination). *)
Definition config_copy_string (dst : string) (dst_len : nat) (src : option string) : string :=
  if decide (dst_len = 0%nat) then dst else snprintf dst_len (default "" src).

(** The default of each field; every literal fits its array. *)
Definition gateway_config_defaults : gateway_config_t :=
  let str n s := config_copy_string "" n (Some s) in
  mk_config
    (str 32%nat "gw-dev") true (str 128%nat "/dev/ttyUSB0")
    1000 1024 (dlit 1 10) (d_of_Z 55) (d_of_Z 100) (d_of_Z 30) (d_of_Z 20)
    (str 128%nat "127.0.0.1") 1883
    (str 128%nat "edgeflow/telemetry") (str 128%nat "edgeflow/alarm")
    (str 128%nat "edgeflow/heartbeat")
    (str 128%nat "/tmp/edgeflow") (str 128%nat "/tmp/edgeflow/metrics.prom")
    (str 128%nat "/tmp/edgeflow/offline-cache.jsonl")
    true (str 128%nat "/tmp/edgeflow/edgeflow.db")
    50 60 2000 5000
    (str 8%nat "rtu") (str 128%nat "127.0.0.1") 502 1 9600
    (Ascii.ascii_of_nat 78) 8 1 500.

(** ** Field readers

    Each returns the new content of the field; a number that the target
    unsigned type cannot hold is undefined behaviour ([None]). *)

Definition json_copy_string (root : option cJSON) (key : string) (dst : string) (dst_len : nat)
    : string :=
  let item := cJSON_GetObjectItemCaseSensitive root key in
  match cJSON_IsString item, item ≫= cj_valuestring with
  | true, Some s => config_copy_string dst dst_len (Some s)
  | _, _ => dst
  end.

Definition json_copy_bool (root : option cJSON) (key : string) (dst : bool) : bool :=
  let item := cJSON_GetObjectItemCaseSensitive root key in
  if cJSON_IsBool item then cJSON_IsTrue item else dst.

(** The three integer readers differ only in the width of the cast. *)
Definition json_copy_uint (w : Z) (root : option cJSON) (key : string) (dst : Z) : option Z :=
  match cJSON_GetObjectItemCaseSensitive root key with
  | Some j => if cJSON_IsNumber (Some j) then dcast w (cj_valuedouble j) else Some dst
  | None => Some dst
  end.

Definition json_copy_uint32 := json_copy_uint 32.
Definition json_copy_uint16 := json_copy_uint 16.
Definition json_copy_uint8 := json_copy_uint 8.

Definition json_copy_double (root : option cJSON) (key : string) (dst : double) : double :=
  match cJSON_GetObjectItemCaseSensitive root key with
  | Some j => if cJSON_IsNumber (Some j) then cj_valuedouble j else dst
  | None => dst
  end.

Definition json_copy_parity (root : option cJSON) (key : string) (dst : Ascii.ascii) : Ascii.ascii :=
  let item := cJSON_GetObjectItemCaseSensitive root key in
  match cJSON_IsString item, item ≫= cj_valuestring with
  | true, Some (String c _) => if decide (byte_of_ascii c = 0) then dst else c
  | _, _ => dst
  end.

(** ** The loader *)

(** The overrides, field by field in the order of the source; [None] is
    undefined behaviour in a numeric conversion. *)
Definition gateway_config_override (root : option cJSON) (c : gateway_config_t)
    : option gateway_config_t :=
  poll ← json_copy_uint32 root "poll_interval_ms" (cfg_poll_interval_ms c);
  queue ← json_copy_uint32 root "queue_size" (cfg_queue_size c);
  port ← json_copy_uint16 root "broker_port" (cfg_broker_port c);
  batch ← json_copy_uint32 root "mqtt_replay_batch" (cfg_mqtt_replay_batch c);
  keepalive ← json_copy_uint32 root "mqtt_keepalive_sec" (cfg_mqtt_keepalive_sec c);
  watchdog ← json_copy_uint32 root "watchdog_interval_ms" (cfg_watchdog_interval_ms c);
  heartbeat ← json_copy_uint32 root "heartbeat_interval_ms" (cfg_heartbeat_interval_ms c);
  tcp_port ← json_copy_uint16 root "modbus_tcp_port" (cfg_modbus_tcp_port c);
  slave ← json_copy_uint8 root "modbus_slave_id" (cfg_modbus_slave_id c);
  baud ← json_copy_uint32 root "modbus_baud_rate" (cfg_modbus_baud_rate c);
  data_bits ← json_copy_uint8 root "modbus_data_bits" (cfg_modbus_data_bits c);
  stop_bits ← json_copy_uint8 root "modbus_stop_bits" (cfg_modbus_stop_bits c);
  timeout ← json_copy_uint32 root "modbus_timeout_ms" (cfg_modbus_timeout_ms c);
  Some (mk_config
    (json_copy_string root "device_id" (cfg_device_id c) 32)
    (json_copy_bool root "simulate" (cfg_simulate c))
    (json_copy_string root "serial_device" (cfg_serial_device c) 128)
    poll queue
    (json_copy_double root "deadband" (cfg_deadband c))
    (json_copy_double root "temp_high" (cfg_temp_high c))
    (json_copy_double root "peak_shaving_threshold_kw" (cfg_peak_shaving_threshold_kw c))
    (json_copy_double root "max_discharge_kw" (cfg_max_discharge_kw c))
    (json_copy_double root "min_discharge_soc" (cfg_min_discharge_soc c))
    (json_copy_string root "broker_host" (cfg_broker_host c) 128)
    port
    (json_copy_string root "mqtt_topic" (cfg_mqtt_topic c) 128)
    (json_copy_string root "mqtt_alarm_topic" (cfg_mqtt_alarm_topic c) 128)
    (json_copy_string root "mqtt_heartbeat_topic" (cfg_mqtt_heartbeat_topic c) 128)
    (json_copy_string root "log_dir" (cfg_log_dir c) 128)
    (json_copy_string root "metrics_path" (cfg_metrics_path c) 128)
    (json_copy_string root "cache_path" (cfg_cache_path c) 128)
    (json_copy_bool root "use_sqlite" (cfg_use_sqlite c))
    (json_copy_string root "sqlite_path" (cfg_sqlite_path c) 128)
    batch keepalive watchdog heartbeat
    (json_copy_string root "modbus_transport" (cfg_modbus_transport c) 8)
    (json_copy_string root "modbus_tcp_host" (cfg_modbus_tcp_host c) 128)
    tcp_port slave baud
    (json_copy_parity root "modbus_parity" (cfg_modbus_parity c))
    data_bits stop_bits timeout).

Section loader.
(** [read_file path]: the content of the file, [None] when any call of
    [read_file] fails; [cJSON_Parse text]: the vendored parser. *)
Context (read_file : string → option string) (cJSON_Parse : string → option cJSON).

(** The status and the configuration left in [cfg]; [None] is undefined
    behaviour of a conversion. *)
Definition gateway_config_load (path : option string) (cfg : option gateway_config_t)
    : option (Z * option gateway_config_t) :=
  match path, cfg with
  | Some path, Some _ =>
      let c := gateway_config_defaults in
      match read_file path with
      | None => Some (-1, Some c)
      | Some text =>
          let root := cJSON_Parse text in
          if cJSON_IsObject root then
            c' ← gateway_config_override root c; Some (0, Some c')
          else Some (-1, Some c)
      end
  | _, _ => Some (-1, cfg)
  end.
End loader.

(** ** Well-formed configurations *)

Record config_wf (c : gateway_config_t) : Prop := {
  gwf_device_id : fits 32 (cfg_device_id c);
  gwf_serial : fits 128 (cfg_serial_device c);
  gwf_poll : is_u32 (cfg_poll_interval_ms c);
  gwf_queue : is_u32 (cfg_queue_size c);
  gwf_host : fits 128 (cfg_broker_host c);
  gwf_port : is_u16 (cfg_broker_port c);
  gwf_topic : fits 128 (cfg_mqtt_topic c);
  gwf_alarm_topic : fits 128 (cfg_mqtt_alarm_topic c);
  gwf_hb_topic : fits 128 (cfg_mqtt_heartbeat_topic c);
  gwf_log : fits 128 (cfg_log_dir c);
  gwf_metrics : fits 128 (cfg_metrics_path c);
  gwf_cache : fits 128 (cfg_cache_path c);
  gwf_sqlite : fits 128 (cfg_sqlite_path c);
  gwf_batch : is_u32 (cfg_mqtt_replay_batch c);
  gwf_keepalive : is_u32 (cfg_mqtt_keepalive_sec c);
  gwf_watchdog : is_u32 (cfg_watchdog_interval_ms c);
  gwf_heartbeat : is_u32 (cfg_heartbeat_interval_ms c);
  gwf_transport : fits 8 (cfg_modbus_transport c);
  gwf_tcp_host : fits 128 (cfg_modbus_tcp_host c);
  gwf_tcp_port : is_u16 (cfg_modbus_tcp_port c);
  gwf_slave : is_u8 (cfg_modbus_slave_id c);
  gwf_baud : is_u32 (cfg_modbus_baud_rate c);
  gwf_data_bits : is_u8 (cfg_modbus_data_bits c);
  gwf_stop_bits : is_u8 (cfg_modbus_stop_bits c);
  gwf_timeout : is_u32 (cfg_modbus_timeout_ms c);
  gwf_parity : byte_of_ascii (cfg_modbus_parity c) ≠ 0
}.

Lemma defaults_wf : config_wf gateway_config_defaults.
Proof.
  split; first [ by vm_compute; lia | unfold is_u32, is_u16, is_u8; simpl; lia | done ].
Qed.

Lemma json_copy_string_fits root key dst n :
  fits n dst → fits n (json_copy_string root key dst n).
Proof.
  intros Hd. unfold json_copy_string, config_copy_string.
  destruct (cJSON_IsString _); [|done]. destruct (_ ≫= _); [|done].
  case_decide; [done|]. apply snprintf_fits. lia.
Qed.

Lemma json_copy_parity_set root key dst :
  byte_of_ascii dst ≠ 0 → byte_of_ascii (json_copy_parity root key dst) ≠ 0.
Proof. intros Hd. unfold json_copy_parity. by repeat case_match. Qed.

Lemma json_copy_uint_range w root key dst z :
  0 <= dst < 2 ^ w → json_copy_uint w root key dst = Some z → 0 <= z < 2 ^ w.
Proof.
  intros Hd. unfold json_copy_uint. destruct (cJSON_GetObjectItemCaseSensitive _ _); [|naive_solver].
  destruct (cJSON_IsNumber _); [apply dcast_range|naive_solver].
Qed.

#[export] Hint Resolve json_copy_string_fits json_copy_uint_range defaults_wf : edge.

Lemma override_wf root c c' :
  config_wf c → gateway_config_override root c = Some c' → config_wf c'.
Proof.
  intros [] Ho. unfold gateway_config_override in Ho.
  repeat match type of Ho with
  | (json_copy_uint32 ?r ?k ?d ≫= _) = _ =>
      destruct (json_copy_uint32 r k d) eqn:?; simpl in Ho; [|done]
  | (json_copy_uint16 ?r ?k ?d ≫= _) = _ =>
      destruct (json_copy_uint16 r k d) eqn:?; simpl in Ho; [|done]
  | (json_copy_uint8 ?r ?k ?d ≫= _) = _ =>
      destruct (json_copy_uint8 r k d) eqn:?; simpl in Ho; [|done]
  end.
  simplify_eq.
  split; simpl; first [ by apply json_copy_string_fits
                      | by apply json_copy_parity_set
                      | eapply json_copy_uint_range; [|eassumption]; eassumption ].
Qed.

Lemma load_wf read parse path c0 rc c :
  gateway_config_load read parse (Some path) (Some c0) = Some (rc, Some c) →
  config_wf c ∧ (rc = 0 ∨ rc = -1 ∧ c = gateway_config_defaults).
Proof.
  unfold gateway_config_load. destruct (read path) as [text|].
  - destruct (cJSON_IsObject _).
    + destruct (gateway_config_override _ _) as [c'|] eqn:Ho; simpl; [|done].
      intros; simplify_eq. eauto using override_wf, defaults_wf.
    + intros; simplify_eq. eauto using defaults_wf.
  - intros; simplify_eq. eauto using defaults_wf.
Qed.

(** C37: whatever the document holds, a load that returns leaves a
    configuration in which every string fits its array, every integer is in the
    range of its type and the parity is not NUL; when it fails, it leaves the defaults. *)
Theorem config_load_wf read parse path c0 rc c :
  gateway_config_load read parse (Some path) (Some c0) = Some (rc, Some c) →
  config_wf c ∧ (rc = 0 ∨ rc = -1 ∧ c = gateway_config_defaults).
Proof. apply load_wf. Qed.

(** ** Every key reaches its own field *)

Definition jnum (key : string) (d : double) : cJSON := CJson cJSON_Number None d (Some key) [].
Definition jstr (key s : string) : cJSON := CJson cJSON_String (Some s) d0 (Some key) [].
Definition jbool (key : string) (b : bool) : cJSON :=
  CJson (if b then cJSON_True else cJSON_False) None d0 (Some key) [].

(** The document that spells out a configuration, as [configs/gateway.json]
    does. *)
Definition config_to_json (c : gateway_config_t) : cJSON :=
  let num k z := jnum k (d_of_Z z) in
  CJson cJSON_Object None d0 None [
    jstr "device_id" (cfg_device_id c); jbool "simulate" (cfg_simulate c);
    jstr "serial_device" (cfg_serial_device c);
    num "poll_interval_ms"%string (cfg_poll_interval_ms c);
    num "queue_size"%string (cfg_queue_size c);
    jnum "deadband" (cfg_deadband c); jnum "temp_high" (cfg_temp_high c);
    jnum "peak_shaving_threshold_kw" (cfg_peak_shaving_threshold_kw c);
    jnum "max_discharge_kw" (cfg_max_discharge_kw c);
    jnum "min_discharge_soc" (cfg_min_discharge_soc c);
    jstr "broker_host" (cfg_broker_host c);
    num "broker_port"%string (cfg_broker_port c);
    jstr "mqtt_topic" (cfg_mqtt_topic c); jstr "mqtt_alarm_topic" (cfg_mqtt_alarm_topic c);
    jstr "mqtt_heartbeat_topic" (cfg_mqtt_heartbeat_topic c);
    jstr "log_dir" (cfg_log_dir c); jstr "metrics_path" (cfg_metrics_path c);
    jstr "cache_path" (cfg_cache_path c); jbool "use_sqlite" (cfg_use_sqlite c);
    jstr "sqlite_path" (cfg_sqlite_path c);
    num "mqtt_replay_batch"%string (cfg_mqtt_replay_batch c);
    num "mqtt_keepalive_sec"%string (cfg_mqtt_keepalive_sec c);
    num "watchdog_interval_ms"%string (cfg_watchdog_interval_ms c);
    num "heartbeat_interval_ms"%string (cfg_heartbeat_interval_ms c);
    jstr "modbus_transport" (cfg_modbus_transport c);
    jstr "modbus_tcp_host" (cfg_modbus_tcp_host c);
    num "modbus_tcp_port"%string (cfg_modbus_tcp_port c);
    num "modbus_slave_id"%string (cfg_modbus_slave_id c);
    num "modbus_baud_rate"%string (cfg_modbus_baud_rate c);
    jstr "modbus_parity" (String (cfg_modbus_parity c) EmptyString);
    num "modbus_data_bits"%string (cfg_modbus_data_bits c);
    num "modbus_stop_bits"%string (cfg_modbus_stop_bits c);
    num "modbus_timeout_ms"%string (cfg_modbus_timeout_ms c) ].

Lemma read_uint w root key z dst :
  cJSON_GetObjectItemCaseSensitive root key = Some (jnum key (d_of_Z z)) →
  w <= prec → 0 <= z < 2 ^ w → json_copy_uint w root key dst = Some z.
Proof. intros H Hw Hz. unfold json_copy_uint. rewrite H. by apply dcast_d_of_Z. Qed.

Lemma read_string root key s dst n :
  cJSON_GetObjectItemCaseSensitive root key = Some (jstr key s) →
  fits n s → json_copy_string root key dst n = s.
Proof.
  intros H Hs. unfold json_copy_string, config_copy_string. rewrite H. simpl.
  case_decide; [unfold fits in Hs; lia|]. by apply snprintf_id.
Qed.

Lemma read_bool root key b dst :
  cJSON_GetObjectItemCaseSensitive root key = Some (jbool key b) →
  json_copy_bool root key dst = b.
Proof. intros H. unfold json_copy_bool. rewrite H. by destruct b. Qed.

Lemma read_double root key d dst :
  cJSON_GetObjectItemCaseSensitive root key = Some (jnum key d) →
  json_copy_double root key dst = d.
Proof. intros H. unfold json_copy_double. by rewrite H. Qed.

Lemma read_parity root key a dst :
  cJSON_GetObjectItemCaseSensitive root key = Some (jstr key (String a EmptyString)) →
  byte_of_ascii a ≠ 0 → json_copy_parity root key dst = a.
Proof. intros H Ha. unfold json_copy_parity. rewrite H. simpl. by rewrite decide_False. Qed.

(** C13: a document that spells out a well-formed configuration loads back to
    exactly that configuration: each key of the loader reaches its own field
    and no conversion loses information. *)
Theorem config_roundtrip c c0 :
  config_wf c → gateway_config_override (Some (config_to_json c)) c0 = Some c.
Proof.
  intros []. unfold gateway_config_override, json_copy_uint32, json_copy_uint16, json_copy_uint8.
  repeat (erewrite read_uint; [|reflexivity|done|eassumption]; simpl).
  repeat (erewrite read_string; [|reflexivity|eassumption]).
  repeat (erewrite read_bool; [|reflexivity]).
  repeat (erewrite read_double; [|reflexivity]).
  erewrite read_parity; [|reflexivity|done]. by destruct c.
Qed.

Lemma config_roundtrip_witness :
  gateway_config_override (Some (config_to_json gateway_config_defaults))
    gateway_config_defaults = Some gateway_config_defaults.
Proof. exact (config_roundtrip _ gateway_config_defaults defaults_wf). Defined.

Lemma config_load_wf_witness :
  let c := gateway_config_defaults in
  config_wf c ∧ (0 = 0 ∨ 0 = -1 ∧ c = gateway_config_defaults).
Proof.
  exact (config_load_wf (λ _, Some ""%string) (λ _, Some (config_to_json gateway_config_defaults))
    "configs/gateway.json" gateway_config_defaults 0 gateway_config_defaults
    ltac:(vm_compute; reflexivity)).
Defined.
