(* ===== verification/StateEngine.v ===== *)
(** * State and alarm engine ([src/src/runtime/state_engine.c])

    The engine keeps the last readings and the system state; a telemetry may
    make it raise an alarm or ask for a discharge.  The abstract machine
    [engine_step] gives its decisions as rules; the code refines it. *)

From S2P Require Export Config DeviceModel.

#[local] Open Scope Z_scope.

Record state_engine_t := mk_engine {
  se_state : system_state_t;
  se_soc_percent : double;
  se_max_cell_temp_c : double;
  se_grid_power_kw : double;
  se_next_alarm_id : Z
}.

(** ** Operations *)

Definition state_engine_init (engine : option state_engine_t) : option state_engine_t :=
  (λ _, mk_engine SYSTEM_STATE_INIT (d_of_Z 80) d0 d0 1) <$> engine.

Definition with_state (e : state_engine_t) (s : system_state_t) : state_engine_t :=
  mk_engine s (se_soc_percent e) (se_max_cell_temp_c e) (se_grid_power_kw e) (se_next_alarm_id e).

(** [engine->next_alarm_id++] *)
Definition bump_alarm_id (e : state_engine_t) : state_engine_t :=
  mk_engine (se_state e) (se_soc_percent e) (se_max_cell_temp_c e) (se_grid_power_kw e)
    (u64 (se_next_alarm_id e + 1)).

Definition update_snapshot (e : state_engine_t) (t : telemetry_t) : bool * state_engine_t :=
  if decide (tel_point_id t = "soc_percent"%string) then
    (true, mk_engine (se_state e) (tel_value t) (se_max_cell_temp_c e) (se_grid_power_kw e)
             (se_next_alarm_id e))
  else if decide (tel_point_id t = "max_cell_temp_c"%string) then
    (true, mk_engine (se_state e) (se_soc_percent e) (tel_value t) (se_grid_power_kw e)
             (se_next_alarm_id e))
  else if decide (tel_point_id t = "grid_power_kw"%string) then
    (true, mk_engine (se_state e) (se_soc_percent e) (se_max_cell_temp_c e) (tel_value t)
             (se_next_alarm_id e))
  else (false, e).

Definition clamp_discharge (kw max_kw : double) : double :=
  if dlt kw d0 then d0 else if dlt max_kw kw then max_kw else kw.

Definition make_alarm (e : state_engine_t) (alarm : alarm_event_t) (ts_ms : Z) (code msg : string)
    : option alarm_event_t :=
  snd (alarm_make (Some alarm) (se_next_alarm_id e) ts_ms (Some "bms_001"%string) (Some code)
         ALARM_LEVEL_MAJOR (Some msg)).

(** The tail of the function: the peak shaving of a grid power reading. *)
Definition peak_shaving (e : state_engine_t) (cfg : gateway_config_t) (t : telemetry_t)
    (command : option command_t) (command_id ts_ms : Z) : bool * option command_t :=
  if decide (tel_point_id t ≠ "grid_power_kw"%string) then (false, command)
  else if dle (se_soc_percent e) (cfg_min_discharge_soc cfg) then (false, command)
  else if dle (se_grid_power_kw e) (cfg_peak_shaving_threshold_kw cfg) then (false, command)
  else
    let discharge_kw :=
      clamp_discharge (dsub (se_grid_power_kw e) (cfg_peak_shaving_threshold_kw cfg))
        (cfg_max_discharge_kw cfg) in
    match command with
    | None => (false, command)
    | Some _ =>
        if dle discharge_kw d0 then (false, command)
        else
          let '(rc, command') :=
            command_init_setpoint command command_id ts_ms (Some "pcs_001"%string)
              (Some "target_power_kw"%string) (dopp discharge_kw) 3 in
          (rc =? 0, command')
    end.

Definition state_engine_process_telemetry (engine : option state_engine_t)
    (cfg : option gateway_config_t) (telemetry : option telemetry_t)
    (alarm : option alarm_event_t) (command : option command_t) (command_id ts_ms : Z)
    : bool * option state_engine_t * option alarm_event_t * option command_t :=
  match engine, cfg, telemetry with
  | Some e, Some c, Some t =>
      if decide (tel_quality t ≠ TELEMETRY_QUALITY_GOOD) then (false, engine, alarm, command)
      else
        let e := snd (update_snapshot e t) in
        let hot := dlt (cfg_temp_high c) (se_max_cell_temp_c e) in
        let e := if hot then with_state e SYSTEM_STATE_FAULT else e in
        match hot, alarm with
        | true, Some a =>
            (true, Some (bump_alarm_id e),
             make_alarm e a ts_ms "BMS_TEMP_HIGH" "max cell temperature exceeds limit", command)
        | _, _ =>
            let low := dle (se_soc_percent e) (cfg_min_discharge_soc c) in
            match low && bool_decide (tel_point_id t = "soc_percent"%string), alarm with
            | true, Some a =>
                (true, Some (bump_alarm_id e),
                 make_alarm e a ts_ms "BMS_SOC_LOW" "SOC below minimum discharge threshold", command)
            | _, _ =>
                let e := with_state e SYSTEM_STATE_RUNNING in
                let '(r, command') := peak_shaving e c t command command_id ts_ms in
                (r, Some e, alarm, command')
            end
        end
  | _, _, _ => (false, engine, alarm, command)
  end.

(** ** The abstract machine *)

(** What one telemetry makes the engine do. *)
Inductive outcome :=
  | Nothing
  | RaiseAlarm (id : Z) (code : string)
  | Discharge (kw : double).

(** The last readings, the telemetry's included. *)
Definition observe (e : state_engine_t) (t : telemetry_t) : state_engine_t := snd (update_snapshot e t).

(** The discharge the strategy asks for: what exceeds the threshold, at most
    the maximum. *)
Inductive demand (c : gateway_config_t) (e : state_engine_t) : double → Prop :=
  | demand_intro kw :
      dle (se_soc_percent e) (cfg_min_discharge_soc c) = false →
      dle (se_grid_power_kw e) (cfg_peak_shaving_threshold_kw c) = false →
      kw = clamp_discharge (dsub (se_grid_power_kw e) (cfg_peak_shaving_threshold_kw c))
             (cfg_max_discharge_kw c) →
      dle kw d0 = false →
      demand c e kw.

Inductive engine_step (c : gateway_config_t) (e : state_engine_t) (t : telemetry_t)
    : outcome → state_engine_t → Prop :=
  | step_unreliable :
      tel_quality t ≠ TELEMETRY_QUALITY_GOOD →
      engine_step c e t Nothing e
  | step_over_temperature :
      tel_quality t = TELEMETRY_QUALITY_GOOD →
      dlt (cfg_temp_high c) (se_max_cell_temp_c (observe e t)) = true →
      engine_step c e t (RaiseAlarm (se_next_alarm_id e) "BMS_TEMP_HIGH")
        (bump_alarm_id (with_state (observe e t) SYSTEM_STATE_FAULT))
  | step_low_soc :
      tel_quality t = TELEMETRY_QUALITY_GOOD →
      dlt (cfg_temp_high c) (se_max_cell_temp_c (observe e t)) = false →
      tel_point_id t = "soc_percent"%string →
      dle (tel_value t) (cfg_min_discharge_soc c) = true →
      engine_step c e t (RaiseAlarm (se_next_alarm_id e) "BMS_SOC_LOW") (bump_alarm_id (observe e t))
  | step_discharge kw :
      tel_quality t = TELEMETRY_QUALITY_GOOD →
      dlt (cfg_temp_high c) (se_max_cell_temp_c (observe e t)) = false →
      tel_point_id t = "grid_power_kw"%string →
      demand c (observe e t) kw →
      engine_step c e t (Discharge kw) (with_state (observe e t) SYSTEM_STATE_RUNNING)
  | step_normal :
      tel_quality t = TELEMETRY_QUALITY_GOOD →
      dlt (cfg_temp_high c) (se_max_cell_temp_c (observe e t)) = false →
      ¬ (tel_point_id t = "soc_percent"%string ∧ dle (tel_value t) (cfg_min_discharge_soc c) = true) →
      ¬ (tel_point_id t = "grid_power_kw"%string ∧ ∃ kw, demand c (observe e t) kw) →
      engine_step c e t Nothing (with_state (observe e t) SYSTEM_STATE_RUNNING).

(** The objects an outcome leaves in the caller's alarm and command. *)
Definition outcome_objects (o : outcome) (a : alarm_event_t) (cmd : command_t) (cmd_id ts : Z)
    : bool * alarm_event_t * command_t :=
  match o with
  | Nothing => (false, a, cmd)
  | RaiseAlarm id code =>
      (true,
       mk_alarm id ts "bms_001" code ALARM_LEVEL_MAJOR ALARM_STATE_ACTIVE
         (if decide (code = "BMS_TEMP_HIGH"%string) then "max cell temperature exceeds limit"
          else "SOC below minimum discharge threshold") 0,
       cmd)
  | Discharge kw =>
      (true, a,
       mk_command cmd_id ts "pcs_001" COMMAND_TYPE_SET_POINT_VALUE COMMAND_STATE_PENDING
         "target_power_kw" (dopp kw) 0 3 "")
  end.

(** The engine over a sequence of telemetries, with fresh objects for each as
    the worker has them: the alarms raised, in order. *)
Fixpoint engine_feed (c : gateway_config_t) (e : state_engine_t) (ts : list (telemetry_t * Z * Z))
    : list alarm_event_t * state_engine_t :=
  match ts with
  | [] => ([], e)
  | (t, cmd_id, now) :: ts' =>
      let '(r, e', a, _) := state_engine_process_telemetry (Some e) (Some c) (Some t)
                              (Some alarm_zero) (Some command_zero) cmd_id now in
      let '(l, e'') := engine_feed c (default e e') ts' in
      match r, a with
      | true, Some a => if decide (al_code a = EmptyString) then (l, e'') else (a :: l, e'')
      | _, _ => (l, e'')
      end
  end.

(** ** The code refines the machine *)

Lemma make_alarm_eq e a ts code msg :
  fits EDGEFLOW_ID_MAX code → fits EDGEFLOW_MESSAGE_MAX msg →
  make_alarm e a ts code msg =
    Some (mk_alarm (se_next_alarm_id e) ts "bms_001" code ALARM_LEVEL_MAJOR ALARM_STATE_ACTIVE msg 0).
Proof. intros. unfold make_alarm, alarm_make. simpl snd. by rewrite !copy_string_id by (done || (vm_compute; lia)). Qed.

Lemma observe_alarm_id e t : se_next_alarm_id (observe e t) = se_next_alarm_id e.
Proof. unfold observe, update_snapshot. by repeat case_decide. Qed.

Lemma observe_state e t : se_state (observe e t) = se_state e.
Proof. unfold observe, update_snapshot. by repeat case_decide. Qed.

Lemma observe_soc e t : tel_point_id t = "soc_percent"%string → se_soc_percent (observe e t) = tel_value t.
Proof. intros E. unfold observe, update_snapshot. by rewrite decide_True. Qed.

Lemma observe_grid e t : tel_point_id t = "grid_power_kw"%string → se_grid_power_kw (observe e t) = tel_value t.
Proof.
  intros E. unfold observe, update_snapshot. rewrite E. by rewrite !decide_False, decide_True by done.
Qed.

Lemma peak_shaving_spec e c t cmd id ts :
  (∃ kw, tel_point_id t = "grid_power_kw"%string ∧ demand c e kw ∧
     peak_shaving e c t (Some cmd) id ts =
       (true, Some (mk_command id ts "pcs_001" COMMAND_TYPE_SET_POINT_VALUE COMMAND_STATE_PENDING
                      "target_power_kw" (dopp kw) 0 3 ""))) ∨
  (¬ (tel_point_id t = "grid_power_kw"%string ∧ ∃ kw, demand c e kw) ∧
     peak_shaving e c t (Some cmd) id ts = (false, Some cmd)).
Proof.
  unfold peak_shaving. case_decide as Hp; [right; naive_solver|].
  destruct (dle (se_soc_percent e) _) eqn:E1.
  { right. split; [|done]. intros [_ [kw []]]. congruence. }
  destruct (dle (se_grid_power_kw e) _) eqn:E2.
  { right. split; [|done]. intros [_ [kw []]]. congruence. }
  destruct (dle (clamp_discharge _ _) d0) eqn:E3.
  { right. split; [|done]. intros [_ [kw []]]. congruence. }
  left. eexists. split_and!; [done|by econstructor|done].
Qed.

Lemma engine_refines_step e c t a cmd id ts :
  ∃ o e', engine_step c e t o e' ∧
    state_engine_process_telemetry (Some e) (Some c) (Some t) (Some a) (Some cmd) id ts =
      let '(r, a', cmd') := outcome_objects o a cmd id ts in (r, Some e', Some a', Some cmd').
Proof.
  unfold state_engine_process_telemetry. case_decide as Hq.
  { exists Nothing, e. split; [by constructor|done]. }
  fold (observe e t). destruct (dlt _ _) eqn:Hhot.
  { eexists (RaiseAlarm _ _), _. split; [by constructor|].
    rewrite make_alarm_eq by (vm_compute; lia). simpl. by rewrite observe_alarm_id. }
  destruct (dle (se_soc_percent (observe e t)) _ && _) eqn:Elow.
  { apply andb_true_iff in Elow as [Hl Hp]. apply bool_decide_eq_true in Hp.
    rewrite observe_soc in Hl by done. eexists (RaiseAlarm _ _), _. split; [by apply step_low_soc|].
    rewrite make_alarm_eq by (vm_compute; lia). simpl. by rewrite observe_alarm_id. }
  assert (¬ (tel_point_id t = "soc_percent"%string ∧
    dle (tel_value t) (cfg_min_discharge_soc c) = true)) as Hnl.
  { intros [Hp Hl]. rewrite observe_soc, Hl, bool_decide_eq_true_2 in Elow by done. done. }
  destruct (peak_shaving_spec (with_state (observe e t) SYSTEM_STATE_RUNNING) c t cmd id ts)
    as [(kw & Hp & Hd & ->)|[Hn ->]].
  - eexists (Discharge kw), _. split; [|done]. apply step_discharge; try done. by destruct Hd; econstructor.
  - eexists Nothing, _. split; [|done]. apply step_normal; try done.
    intros [Hp [kw Hd]]. apply Hn. split; [done|]. exists kw. by destruct Hd; econstructor.
Qed.

(** C9: the function implements the abstract machine: whatever the state, the
    configuration, the reading and the content of the two objects, there is a
    rule of the machine that gives the new state, and the returned flag, alarm
    and command are the ones of its outcome. *)
Theorem engine_refines e c t a cmd id ts :
  ∃ o e', engine_step c e t o e' ∧
    state_engine_process_telemetry (Some e) (Some c) (Some t) (Some a) (Some cmd) id ts =
      let '(r, a', cmd') := outcome_objects o a cmd id ts in (r, Some e', Some a', Some cmd').
Proof. apply engine_refines_step. Qed.

Lemma demand_fun c e k k' : demand c e k → demand c e k' → k = k'.
Proof. intros [] []. congruence. Qed.

(** The machine is deterministic. *)
Lemma engine_step_fun c e t o e' o2 e2 :
  engine_step c e t o e' → engine_step c e t o2 e2 → o = o2 ∧ e' = e2.
Proof.
  intros H1 H2. destruct H1, H2; try done; try congruence; try (exfalso; naive_solver congruence).
  split; [f_equal; by eapply demand_fun|done].
Qed.

Lemma demand_bounds c e kw :
  is_finite (se_grid_power_kw e) = true → is_finite (cfg_peak_shaving_threshold_kw c) = true →
  is_nan (cfg_max_discharge_kw c) = false → demand c e kw →
  dlt d0 kw = true ∧ dle kw (cfg_max_discharge_kw c) = true.
Proof.
  intros Hg Ht Hm [k _ _ -> Hk]. pose proof (dsub_not_nan _ _ Hg Ht) as Hn.
  unfold clamp_discharge in *. destruct (dlt _ d0); [done|].
  destruct (dlt (cfg_max_discharge_kw c) _) eqn:E.
  - split; [by apply dle_false|by apply dle_refl].
  - split; [by apply dle_false|by apply dlt_false].
Qed.

(** ** What the decisions guarantee *)

(** C12: a discharge command is issued only when it is called for and never
    exceeds what is allowed, as long as the numbers it is computed from are
    ordinary: if the reading and the threshold are finite and neither the
    maximum discharge, nor the minimum state of charge, nor the last state of
    charge seen is a NaN, then, if processing the reading changes the command,
    the reading is a reliable grid power above the threshold, the temperature
    is not above its limit, the state of charge is above the minimum, and the
    command asks the converter for minus a power that is positive and at most
    the configured maximum, with the given number and time, three retries, and
    no alarm at the same time.  The engine itself does not check this: a
    reading that is not a number gives a setpoint that is not a number
    ([nan_power_yields_nan_setpoint]). *)
Theorem discharge_command_safe e c t a cmd id ts r e' a' cmd' :
  is_finite (tel_value t) = true → is_finite (cfg_peak_shaving_threshold_kw c) = true →
  is_nan (cfg_max_discharge_kw c) = false → is_nan (cfg_min_discharge_soc c) = false →
  is_nan (se_soc_percent e) = false →
  state_engine_process_telemetry (Some e) (Some c) (Some t) (Some a) (Some cmd) id ts
    = (r, Some e', Some a', Some cmd') →
  cmd' ≠ cmd →
  r = true ∧ a' = a ∧ se_state e' = SYSTEM_STATE_RUNNING ∧
  tel_quality t = TELEMETRY_QUALITY_GOOD ∧ tel_point_id t = "grid_power_kw"%string ∧
  dlt (cfg_peak_shaving_threshold_kw c) (tel_value t) = true ∧
  dlt (cfg_min_discharge_soc c) (se_soc_percent e) = true ∧
  dlt (cfg_temp_high c) (se_max_cell_temp_c e) = false ∧
  ∃ kw, dlt d0 kw = true ∧ dle kw (cfg_max_discharge_kw c) = true ∧
    cmd' = mk_command id ts "pcs_001" COMMAND_TYPE_SET_POINT_VALUE COMMAND_STATE_PENDING
             "target_power_kw" (dopp kw) 0 3 "".
Proof.
  intros Hv Hth Hmax Hmin Hsoc Hrun Hne.
  destruct (engine_refines_step e c t a cmd id ts) as (o & e2 & Hstep & Heq).
  rewrite Heq in Hrun. clear Heq. destruct Hstep as [| | |kw Hq Hhot Hp Hd|]; simpl in Hrun; simplify_eq.
  pose proof (observe_grid e t Hp) as Hg.
  assert (se_max_cell_temp_c (observe e t) = se_max_cell_temp_c e ∧
          se_soc_percent (observe e t) = se_soc_percent e) as [Ht Hs].
  { unfold observe, update_snapshot. rewrite Hp. by rewrite !decide_False, decide_True by done. }
  destruct (demand_bounds c (observe e t) kw) as [Hpos Hle]; [by rewrite Hg|done..|].
  destruct Hd as [kw Hlow Hth' -> Hk]. rewrite Hs in Hlow. rewrite Hg in Hth'. rewrite Ht in Hhot.
  split_and!; try done.
  - apply dle_false; auto using is_finite_not_nan.
  - by apply dle_false.
  - eauto.
Qed.

(** Over-temperature interlock: after a reliable reading that leaves the
    last cell temperature above the limit, whatever the point, the system is in
    FAULT, a MAJOR alarm with the next number is active, the alarm counter
    advances and no command is issued. *)
Theorem over_temperature_interlock e c t a cmd id ts :
  tel_quality t = TELEMETRY_QUALITY_GOOD →
  dlt (cfg_temp_high c) (se_max_cell_temp_c (observe e t)) = true →
  ∃ e', state_engine_process_telemetry (Some e) (Some c) (Some t) (Some a) (Some cmd) id ts =
    (true, Some e',
     Some (mk_alarm (se_next_alarm_id e) ts "bms_001" "BMS_TEMP_HIGH" ALARM_LEVEL_MAJOR
             ALARM_STATE_ACTIVE "max cell temperature exceeds limit" 0), Some cmd) ∧
    se_state e' = SYSTEM_STATE_FAULT ∧ se_next_alarm_id e' = u64 (se_next_alarm_id e + 1).
Proof.
  intros Hq Hhot. destruct (engine_refines_step e c t a cmd id ts) as (o & e2 & Hstep & ->).
  destruct (engine_step_fun c e t o e2 _ _ Hstep (step_over_temperature c e t Hq Hhot)) as [-> ->].
  eexists. split_and!; [done|done|]. simpl. by rewrite observe_alarm_id.
Qed.

(** A grid power that is not a number passes every guard: with a charge
    above the minimum and no over-temperature, the command issued has a target
    that is not a number. *)
Theorem nan_power_yields_nan_setpoint e c t a cmd id ts :
  tel_quality t = TELEMETRY_QUALITY_GOOD → tel_point_id t = "grid_power_kw"%string →
  tel_value t = S754_nan →
  dle (se_soc_percent e) (cfg_min_discharge_soc c) = false →
  dlt (cfg_temp_high c) (se_max_cell_temp_c e) = false →
  ∃ e' cmd', state_engine_process_telemetry (Some e) (Some c) (Some t) (Some a) (Some cmd) id ts =
    (true, Some e', Some a, Some cmd') ∧ cmd_target_value cmd' = S754_nan.
Proof.
  intros Hq Hp Hv Hsoc Hhot.
  assert (demand c (observe e t) S754_nan) as Hd.
  { unfold observe, update_snapshot. rewrite Hp, Hv, !decide_False, decide_True by done. simpl.
    econstructor; try done; simpl. unfold dsub, SFsub.
    by destruct (cfg_peak_shaving_threshold_kw c), (cfg_max_discharge_kw c). }
  assert (dlt (cfg_temp_high c) (se_max_cell_temp_c (observe e t)) = false) as Hhot'.
  { unfold observe, update_snapshot. by rewrite Hp, !decide_False, decide_True by done. }
  destruct (engine_refines_step e c t a cmd id ts) as (o & e2 & Hstep & ->).
  destruct (engine_step_fun _ _ _ _ _ _ _ Hstep (step_discharge c e t _ Hq Hhot' Hp Hd)) as [-> ->].
  eexists _, _. done.
Qed.

Lemma engine_step_alarm_id c e t o e' :
  engine_step c e t o e' → is_u64 (se_next_alarm_id e) →
  se_next_alarm_id e' =
    match o with RaiseAlarm _ _ => u64 (se_next_alarm_id e + 1) | _ => se_next_alarm_id e end ∧
  (∀ id code, o = RaiseAlarm id code → id = se_next_alarm_id e ∧ code ≠ EmptyString).
Proof. intros [] Hu; simpl; rewrite ?observe_alarm_id; naive_solver. Qed.

(** The alarms of a run are numbered without gaps or repetitions: over any
    sequence of readings, the numbers of the alarms raised are consecutive,
    from the engine's counter on, and the counter ends after the last one
    (as long as the 64-bit counter does not wrap). *)
Theorem alarm_ids_consecutive c e ts l e' :
  0 <= se_next_alarm_id e → se_next_alarm_id e + Z.of_nat (length ts) < 2 ^ 64 →
  engine_feed c e ts = (l, e') →
  al_alarm_id <$> l = seqZ (se_next_alarm_id e) (Z.of_nat (length l)) ∧
  se_next_alarm_id e' = se_next_alarm_id e + Z.of_nat (length l).
Proof.
  revert e l e'. induction ts as [|[[t id] now] ts IH]; intros e l e' H0 Hb H; cbn [engine_feed] in H.
  { simplify_eq. simpl. split; [done|lia]. }
  destruct (engine_refines_step e c t alarm_zero command_zero id now) as (o & e2 & Hstep & Heq).
  rewrite Heq in H. clear Heq. cbn [length] in Hb.
  apply engine_step_alarm_id in Hstep as [Hn Ho]; [|unfold is_u64; lia].
  destruct o as [|aid code|kw]; simpl in H; destruct (engine_feed c e2 ts) as [l2 e3] eqn:Ef;
    apply IH in Ef as [Hl He]; rewrite ?Hn, ?(u64_small (_ + 1)) in * by (unfold is_u64; lia); try lia.
  - by simplify_eq.
  - destruct (Ho aid code eq_refl) as [-> Hc]. rewrite decide_False in H by done. simplify_eq.
    simpl length. rewrite fmap_cons, Hl. cbn [al_alarm_id].
    rewrite Nat2Z.inj_succ, (seqZ_cons (se_next_alarm_id e)), Z.pred_succ by lia.
    split; [done|lia].
  - by simplify_eq.
Qed.

(** ** Ranges *)

Definition engine_wf (e : state_engine_t) : Prop := is_u64 (se_next_alarm_id e).

Lemma engine_init_wf e e' : state_engine_init (Some e) = Some e' → engine_wf e'.
Proof. intros [= <-]. unfold engine_wf, is_u64. simpl. lia. Qed.

(** Processing keeps the engine and the two objects within their types:
    the counters stay 64-bit and every text fits its buffer. *)
Theorem process_preserves_wf e c t a cmd id ts r e' a' cmd' :
  engine_wf e → alarm_wf a → command_wf cmd → is_u64 id → is_u64 ts →
  state_engine_process_telemetry (Some e) (Some c) (Some t) (Some a) (Some cmd) id ts
    = (r, Some e', Some a', Some cmd') →
  engine_wf e' ∧ alarm_wf a' ∧ command_wf cmd'.
Proof.
  intros He Ha Hc Hid Hts Hrun.
  destruct (engine_refines_step e c t a cmd id ts) as (o & e2 & Hstep & Heq).
  rewrite Heq in Hrun. clear Heq. unfold engine_wf in *.
  destruct (engine_step_alarm_id _ _ _ _ _ Hstep He) as [Hn Ho].
  destruct o as [|aid code|kw]; simpl in Hrun; simplify_eq.
  - by rewrite Hn.
  - rewrite Hn. destruct (Ho _ _ eq_refl) as [-> _]. split_and!; [apply u64_range| |done].
    split; cbn -[decide]; [done|done|vm_compute; lia| |].
    + inversion Hstep; vm_compute; lia.
    + case_decide; vm_compute; lia.
  - rewrite Hn. split_and!; [done..|]. split; simpl; try done; vm_compute; lia.
Qed.

(** ** Concrete runs *)

(** Limit 55 C, threshold 100 kW, at most 30 kW, minimum charge 20 %. *)
Definition demo_config : gateway_config_t := gateway_config_defaults.

Definition demo_engine : state_engine_t := mk_engine SYSTEM_STATE_RUNNING (d_of_Z 80) (d_of_Z 30) d0 1.

Definition demo_grid (v : double) : telemetry_t :=
  mk_telemetry 5 "meter_001" "grid_power_kw" v "kW" TELEMETRY_QUALITY_GOOD 2.
Definition demo_temp (v : double) : telemetry_t :=
  mk_telemetry 5 "bms_001" "max_cell_temp_c" v "C" TELEMETRY_QUALITY_GOOD 2.

(** A grid power of 150 kW asks for the maximum discharge, 30 kW. *)
Lemma discharge_command_safe_witness :
  ∃ e' cmd', state_engine_process_telemetry (Some demo_engine) (Some demo_config)
      (Some (demo_grid (d_of_Z 150))) (Some alarm_zero) (Some command_zero) 7 5
      = (true, Some e', Some alarm_zero, Some cmd') ∧
  cmd_target_value cmd' = dopp (d_of_Z 30) ∧
  (true = true ∧ alarm_zero = alarm_zero ∧ se_state e' = SYSTEM_STATE_RUNNING ∧
   TELEMETRY_QUALITY_GOOD = TELEMETRY_QUALITY_GOOD ∧ "grid_power_kw"%string = "grid_power_kw"%string ∧
   dlt (cfg_peak_shaving_threshold_kw demo_config) (d_of_Z 150) = true ∧
   dlt (cfg_min_discharge_soc demo_config) (d_of_Z 80) = true ∧
   dlt (cfg_temp_high demo_config) (d_of_Z 30) = false ∧
   ∃ kw, dlt d0 kw = true ∧ dle kw (cfg_max_discharge_kw demo_config) = true ∧
     cmd' = mk_command 7 5 "pcs_001" COMMAND_TYPE_SET_POINT_VALUE COMMAND_STATE_PENDING
              "target_power_kw" (dopp kw) 0 3 "").
Proof.
  eexists _, _. split; [vm_compute; reflexivity|]. split; [vm_compute; reflexivity|].
  apply (discharge_command_safe demo_engine demo_config (demo_grid (d_of_Z 150)) alarm_zero
    command_zero 7 5); try (vm_compute; reflexivity). vm_compute. congruence.
Defined.

Lemma over_temperature_interlock_witness :
  ∃ e', state_engine_process_telemetry (Some demo_engine) (Some demo_config)
      (Some (demo_temp (d_of_Z 60))) (Some alarm_zero) (Some command_zero) 7 5 =
    (true, Some e',
     Some (mk_alarm 1 5 "bms_001" "BMS_TEMP_HIGH" ALARM_LEVEL_MAJOR
             ALARM_STATE_ACTIVE "max cell temperature exceeds limit" 0), Some command_zero) ∧
    se_state e' = SYSTEM_STATE_FAULT ∧ se_next_alarm_id e' = u64 (1 + 1).
Proof.
  apply (over_temperature_interlock demo_engine demo_config (demo_temp (d_of_Z 60)) alarm_zero
    command_zero 7 5); vm_compute; reflexivity.
Defined.

Lemma nan_power_yields_nan_setpoint_witness :
  ∃ e' cmd', state_engine_process_telemetry (Some demo_engine) (Some demo_config)
      (Some (demo_grid S754_nan)) (Some alarm_zero) (Some command_zero) 7 5 =
    (true, Some e', Some alarm_zero, Some cmd') ∧ cmd_target_value cmd' = S754_nan.
Proof.
  apply (nan_power_yields_nan_setpoint demo_engine demo_config (demo_grid S754_nan)); vm_compute; reflexivity.
Defined.

Lemma alarm_ids_consecutive_witness :
  let ts := [(demo_temp (d_of_Z 60), 1, 5); (demo_grid (d_of_Z 150), 2, 6); (demo_temp (d_of_Z 20), 3, 7)] in
  ∃ l e', engine_feed demo_config demo_engine ts = (l, e') ∧ length l = 2%nat ∧
  al_alarm_id <$> l = seqZ 1 (Z.of_nat (length l)) ∧
  se_next_alarm_id e' = 1 + Z.of_nat (length l).
Proof.
  intros ts. eexists _, _. split; [vm_compute; reflexivity|]. split; [vm_compute; reflexivity|].
  apply (alarm_ids_consecutive demo_config demo_engine ts); [done|done|vm_compute; reflexivity].
Defined.

Lemma process_preserves_wf_witness :
  ∃ r e' a' cmd', state_engine_process_telemetry (Some demo_engine) (Some demo_config)
      (Some (demo_grid (d_of_Z 150))) (Some alarm_zero) (Some command_zero) 7 5
      = (r, Some e', Some a', Some cmd') ∧
  engine_wf e' ∧ alarm_wf a' ∧ command_wf cmd'.
Proof.
  eexists _, _, _, _. split; [vm_compute; reflexivity|].
  apply (process_preserves_wf demo_engine demo_config (demo_grid (d_of_Z 150)) alarm_zero
    command_zero 7 5 true); try (vm_compute; reflexivity);
    try (unfold engine_wf, is_u64; simpl; lia);
    split; simpl; unfold is_u64; try lia; vm_compute; lia.
Defined.
