(* ===== verification/Io.v ===== *)
(** * The effects of the gateway

    The C code acts on its surroundings through system calls, SQLite,
    libmodbus and libc files.  The environment [Env] answers each call; an
    answer may depend on everything that happened before (the trace), so a
    theorem that holds for every [Env] holds whatever the kernel, the
    network, the disk and the field devices do.  A computation is a function
    of a fuel, which bounds the loops the environment can prolong, and of the
    world: the trace so far and the program's static variables.  [None] means
    that the fuel ran out, or that a call that may block was never
    answered. *)

From S2P Require Export Prelude Double DeviceModel Config.

#[local] Open Scope Z_scope.

(** ** Events *)

(** A value bound to an SQL parameter, or a column of a result row. *)
Inductive sqlval :=
  | SqlInt (z : Z)
  | SqlReal (d : double)
  | SqlText (s : string)
  | SqlNull.

(** write(2): bytes taken, interrupted by a signal, or failed. *)
Inductive write_result := WrOk (n : nat) | WrIntr | WrErr.

(** read(2): the bytes (none at the end of the stream), interrupted or not
    ready (EINTR, EAGAIN), or failed. *)
Inductive read_result := RdOk (data : bytes) | RdAgain | RdErr.

(** epoll_wait: the descriptors that are ready, a signal, or a failure. *)
Inductive epoll_result := EpOk (ready : list Z) | EpIntr | EpErr.

(** sqlite3_open: a connection, or a failure.  A failed open stores a handle
    all the same, which is to be closed, unless the memory for one was
    missing. *)
Inductive open_result := OpenOk | OpenErr (handle : bool).

Definition open_ok (r : open_result) : bool := match r with OpenOk => true | OpenErr _ => false end.

(** What an observer of the process sees, one event per call. *)
Inductive event :=
  | EvClock (r : option (Z * Z))
  | EvSleep (sec nsec : Z) (rem : option (Z * Z))
  | EvMkdir (path : string)
  | EvLogOpen (path : string) (ok : bool)
  | EvLogClose
  | EvLog (sink : option string) (level msg : string)
  | EvAppend (path line : string) (ok : bool)
  | EvWriteFile (path text : string) (ok : bool)
  | EvSqlOpen (path : string) (r : open_result)
  | EvSqlExec (sql : string) (ok : bool)
  | EvSqlClose
  | EvPrepare (sql : string) (ok : bool)
  | EvStep (sql : string) (args : list sqlval) (finished : bool)
  | EvRows (sql : string) (args : list sqlval) (rows : list (list sqlval))
  | EvLock
  | EvUnlock
  | EvSocket (fd : Z)
  | EvConnect (fd : Z) (host : string) (port : Z) (ok : bool)
  | EvSend (fd : Z) (data : bytes) (r : write_result)
  | EvRecv (fd : Z) (max : nat) (r : read_result)
  | EvClose (fd : Z)
  | EvNotifyOpen (path : string) (fd : Z)
  | EvTtyOpen (path : string) (fd : Z)
  | EvTtyGet (fd : Z) (ok : bool)
  | EvTtySet (fd speed : Z) (ok : bool)
  | EvSelect (fd sec usec : Z) (ready : bool)
  | EvEpollCreate (fd : Z)
  | EvTimerCreate (fd : Z)
  | EvEpollAdd (epfd fd : Z) (ok : bool)
  | EvTimerSet (fd sec nsec : Z) (ok : bool)
  | EvEpollWait (epfd : Z) (r : epoll_result)
  | EvRunning (running : bool)
  | EvStore (running : bool)
  | EvThread (name : string) (ok : bool)
  | EvJoin (name : string)
  | EvReadFile (path : string) (size : option Z)
  | EvReadText (path : string) (text : option string)
  | EvExit (requested : bool)
  | EvPrint (err : bool) (text : string)
  | EvSignal (signo : Z)
  | EvModbusTcp (host : string) (port : Z) (ok : bool)
  | EvModbusRtu (device : string) (baud : Z) (parity : Ascii.ascii) (data stop : Z) (ok : bool)
  | EvModbusSlave (slave : Z)
  | EvModbusTimeout (sec usec : Z)
  | EvModbusConnect (ok : bool)
  | EvModbusRead (regs : option (Z * Z * Z))
  | EvModbusClose
  | EvModbusFree.

(** Newest event first. *)
Abbreviation trace := (list event) (only parsing).

(** ** The environment *)

Class Env := {
  env_clock : trace → option (Z * Z);
  env_nanosleep : trace → Z → Z → option (Z * Z);
  env_fopen : trace → string → bool;
  env_malloc : trace → bool;
  env_sqlite_open : trace → string → open_result;
  env_sqlite_exec : trace → string → bool;
  env_prepare : trace → string → bool;
  env_step : trace → string → list sqlval → bool;
  env_rows : trace → string → list sqlval → list (list sqlval);
  env_last_rowid : trace → Z;
  env_socket : trace → Z;
  env_inet_pton : string → bool;
  env_connect : trace → Z → bool;
  env_write : trace → Z → bytes → write_result;
  env_read : trace → Z → nat → read_result;
  env_answers : trace → Z → bool;
  env_tty_open : trace → string → Z;
  env_tcgetattr : trace → Z → bool;
  env_tcsetattr : trace → Z → bool;
  env_select : trace → Z → bool;
  env_epoll_create : trace → Z;
  env_timerfd_create : trace → Z;
  env_epoll_ctl : trace → bool;
  env_timerfd_settime : trace → bool;
  env_epoll_wait : trace → epoll_result;
  env_running : trace → bool;
  env_pthread_create : trace → bool;
  env_file_size : trace → string → option Z;
  env_file_seek : trace → string → bool;
  env_file_data : trace → string → string;
  env_file_text : trace → string → option string;
  env_exit : trace → bool;
  env_getenv : string → option string;
  env_unix_connect : trace → string → bool;
  env_modbus_new : trace → string → bool;
  env_modbus_connect : trace → bool;
  env_modbus_read : trace → option (Z * Z * Z);
  env_strerror : trace → string
}.

(** ** The world *)

(** The static variables of the translation units: [g_stub_ctx]
    (stub_adapter.c), [g_modbus_ctx] (modbus_adapter.c), [seq]
    (modbus_rtu.c), [g_ctx] and [g_transport] (modbus_libmodbus.c),
    [g_notify_fd] and [g_enabled] (watchdog.c), and the path of the file
    behind [g_log_fp] (logger.c; [None] is stderr).  A context's [cfg] pointer
    is the configuration it points to, which is never written after the
    load. *)
Record globals := mk_globals {
  g_stub_seq : Z;
  g_stub_cfg : option gateway_config_t;
  g_modbus_cfg : option gateway_config_t;
  g_sim_seq : Z;
  g_ctx : bool;
  g_transport : string;
  g_notify_fd : Z;
  g_enabled : bool;
  g_log_fp : option string
}.

Definition globals_init : globals := mk_globals 0 None None 0 false "" (-1) false None.

Record world := mk_world { w_trace : trace; w_glob : globals }.

Definition world_init : world := mk_world [] globals_init.

(** ** Computations *)

Definition io (A : Type) : Type := nat → world → option (A * world).

#[export] Instance io_ret : MRet io := λ A a n w, Some (a, w).
#[export] Instance io_bind : MBind io := λ A B k m n w,
  match m n w with Some (a, w') => k a n w' | None => None end.

(** A call: the environment's answer, recorded as an event. *)
Definition call {A} (answer : trace → A) (ev : A → event) : io A := λ n w,
  let a := answer (w_trace w) in
  Some (a, mk_world (ev a :: w_trace w) (w_glob w)).

(** A question that leaves no trace. *)
Definition ask {A} (answer : trace → A) : io A := λ n w, Some (answer (w_trace w), w).

Definition emit (e : event) : io () := call (λ _, tt) (λ _, e).

Definition get_globals : io globals := λ n w, Some (w_glob w, w).
Definition set_globals (g : globals) : io () := λ n w, Some (tt, mk_world (w_trace w) g).

(** The loop bound, and the result of an exhausted loop. *)
Definition with_fuel {A} (k : nat → io A) : io A := λ n w, k n n w.
Definition out_of_fuel {A} : io A := λ n w, None.

Section calls.
Context {env : Env}.

(** One line of the log, to the open file or to stderr. *)
Definition log_vprint (level msg : string) : io () :=
  g ← get_globals; emit (EvLog (g_log_fp g) level msg).
Definition log_info := log_vprint "INFO".
Definition log_warn := log_vprint "WARN".
Definition log_error := log_vprint "ERROR".

Definition clock_gettime : io (option (Z * Z)) := call env_clock EvClock.
Definition nanosleep (sec nsec : Z) : io (option (Z * Z)) :=
  call (λ tr, env_nanosleep tr sec nsec) (EvSleep sec nsec).

Definition prepare (sql : string) : io bool := call (λ tr, env_prepare tr sql) (EvPrepare sql).
(** Binds the parameters and steps a statement that returns no row; true
    is SQLITE_DONE. *)
Definition step (sql : string) (args : list sqlval) : io bool :=
  call (λ tr, env_step tr sql args) (EvStep sql args).
(** The rows that successive steps deliver before one that is not
    SQLITE_ROW. *)
Definition rows (sql : string) (args : list sqlval) : io (list (list sqlval)) :=
  call (λ tr, env_rows tr sql args) (EvRows sql args).
Definition last_insert_rowid : io Z := ask env_last_rowid.

Definition pthread_mutex_lock : io () := emit EvLock.
Definition pthread_mutex_unlock : io () := emit EvUnlock.

Definition socket : io Z := call env_socket EvSocket.
Definition connect (fd : Z) (host : string) (port : Z) : io bool :=
  call (λ tr, env_connect tr fd) (EvConnect fd host port).
(** The kernel takes at most the bytes it is given. *)
Definition clip_write (len : nat) (r : write_result) : write_result :=
  match r with WrOk n => WrOk (n `min` len) | _ => r end.
Definition write (fd : Z) (data : bytes) : io write_result :=
  call (λ tr, clip_write (length data) (env_write tr fd data)) (EvSend fd data).
(** The kernel delivers at most [max] bytes. *)
Definition clip_read (max : nat) (r : read_result) : read_result :=
  match r with RdOk d => RdOk (u8 <$> take max d) | _ => r end.
Definition read (fd : Z) (max : nat) : io read_result :=
  call (λ tr, clip_read max (env_read tr fd max)) (EvRecv fd max).
Definition close (fd : Z) : io () := emit (EvClose fd).

(** A call on a descriptor that is not O_NONBLOCK waits for the other end,
    without a bound: it returns only where the environment answers. *)
Definition answered {A} (fd : Z) (m : io A) : io A := λ n w,
  if env_answers (w_trace w) fd then m n w else None.
Definition write_wait (fd : Z) (data : bytes) : io write_result := answered fd (write fd data).
Definition read_wait (fd : Z) (max : nat) : io read_result := answered fd (read fd max).
End calls.

(** ** Running computations *)

Lemma bind_run {A B} (m : io A) (k : A → io B) n w b w' :
  (m ≫= k) n w = Some (b, w') → ∃ a w1, m n w = Some (a, w1) ∧ k a n w1 = Some (b, w').
Proof. unfold mbind, io_bind. destruct (m n w) as [[a w1]|]; naive_solver. Qed.

Lemma bind_eq {A B} (m : io A) (k : A → io B) n w a w' :
  m n w = Some (a, w') → (m ≫= k) n w = k a n w'.
Proof. unfold mbind, io_bind. by intros ->. Qed.

Lemma call_run {A} (f : trace → A) ev n w :
  call f ev n w = Some (f (w_trace w), mk_world (ev (f (w_trace w)) :: w_trace w) (w_glob w)).
Proof. done. Qed.

(** A blocking call that returned ran as the call. *)
Lemma answered_run `{env : Env} {A} fd (m : io A) n w r :
  answered fd m n w = Some r → m n w = Some r.
Proof. unfold answered. by destruct (env_answers _ _). Qed.

Lemma answered_bind `{env : Env} {A B} fd (m : io A) (k : A → io B) n w r :
  (answered fd m ≫= k) n w = Some r → (m ≫= k) n w = Some r.
Proof. unfold mbind, io_bind, answered. by destruct (env_answers _ _). Qed.

Lemma answered_eq `{env : Env} {A} fd (m : io A) n w :
  env_answers (w_trace w) fd = true → answered fd m n w = m n w.
Proof. unfold answered. by intros ->. Qed.

(** A run that computes to a result, without its result. *)
Definition returns {A} (m : io A) (n : nat) (w : world) : bool :=
  match m n w with Some _ => true | None => false end.

Lemma returns_run {A} (m : io A) n w : returns m n w = true → ∃ a w', m n w = Some (a, w').
Proof. unfold returns. destruct (m n w) as [[a w']|]; [by eauto|done]. Qed.

(** [io_done H] ends a run whose computation is a [mret]. *)
Ltac io_done H := unfold mret, io_ret in H; simplify_eq; eauto.

(** The computations that are one question to the environment. *)
Ltac io_prim m :=
  lazymatch m with
  | call _ _ => idtac | emit _ => idtac | ask _ => idtac
  | get_globals => idtac | set_globals _ => idtac | mret _ => idtac
  | log_vprint _ _ => idtac | log_info _ => idtac | log_warn _ => idtac | log_error _ => idtac
  | clock_gettime => idtac | nanosleep _ _ => idtac
  | prepare _ => idtac | step _ _ => idtac | rows _ _ => idtac | last_insert_rowid => idtac
  | pthread_mutex_lock => idtac | pthread_mutex_unlock => idtac
  | socket => idtac | connect _ _ _ => idtac | write _ _ => idtac | read _ _ => idtac
  | close _ => idtac
  end.

(** [io_go H] runs the computation of [H] up to the next call that is not
    primitive, or the next branch. *)
Ltac io_go H :=
  repeat (
    cbn beta iota in H;
    lazymatch type of H with
    | mbind _ (write_wait _ _) _ _ = Some _ => unfold write_wait in H; apply answered_bind in H
    | mbind _ (read_wait _ _) _ _ = Some _ => unfold read_wait in H; apply answered_bind in H
    | mbind _ ?m _ _ = Some _ => io_prim m; erewrite bind_eq in H; [|reflexivity]
    end);
  cbn [w_trace w_glob] in H.

(** ** What a computation leaves in the trace

    [Only q m]: the computation only adds events, and each of them satisfies
    [q]. *)
Class Only (q : event → Prop) {A} (m : io A) : Prop :=
  only_run : ∀ n w a w', m n w = Some (a, w') →
    ∃ evs, w_trace w' = evs ++ w_trace w ∧ Forall q evs.

#[export] Instance only_ret q {A} (a : A) : Only q (mret a).
Proof. intros n w a' w' H. unfold mret, io_ret in H. simplify_eq. by exists []. Qed.

#[export] Instance only_bind q {A B} (m : io A) (k : A → io B) :
  Only q m → (∀ a, Only q (k a)) → Only q (m ≫= k).
Proof.
  intros Hm Hk n w b w' H. apply bind_run in H as (a & w1 & H1 & H2).
  destruct (only_run _ _ _ _ H1) as (e1 & E1 & Q1). destruct (only_run _ _ _ _ H2) as (e2 & E2 & Q2).
  exists (e2 ++ e1). split; [by rewrite E2, E1, app_assoc|by apply Forall_app_2].
Qed.

#[export] Instance only_call (q : event → Prop) {A} (f : trace → A) ev :
  (∀ a, q (ev a)) → Only q (call f ev).
Proof. intros Hq n w a w' H. rewrite call_run in H. simplify_eq. eexists [_]. by repeat constructor. Qed.

#[export] Instance only_ask q {A} (f : trace → A) : Only q (ask f).
Proof. intros n w a w' H. unfold ask in H. simplify_eq. by exists []. Qed.

#[export] Instance only_get q : Only q get_globals.
Proof. intros n w a w' H. unfold get_globals in H. simplify_eq. by exists []. Qed.

#[export] Instance only_set q g : Only q (set_globals g).
Proof. intros n w a w' H. unfold set_globals in H. simplify_eq. by exists []. Qed.

#[export] Instance only_log (q : event → Prop) level msg :
  (∀ sink, q (EvLog sink level msg)) → Only q (log_vprint level msg).
Proof.
  intros Hq. unfold log_vprint, emit. apply only_bind; [apply _|]. intros g. by apply only_call.
Qed.

#[export] Instance only_answered `{env : Env} q {A} fd (m : io A) : Only q m → Only q (answered fd m).
Proof. intros Hm n w a w' H. apply answered_run in H. by apply Hm in H. Qed.

Lemma only_fuel q {A} (m : nat → io A) : (∀ k, Only q (m k)) → Only q (with_fuel m).
Proof. intros Hm n w a w' H. by apply (Hm n) in H. Qed.

Lemma only_out_of_fuel q {A} : Only q (@out_of_fuel A).
Proof. by intros n w a w' H. Qed.

Lemma only_mono (q1 q2 : event → Prop) {A} (m : io A) :
  (∀ e, q1 e → q2 e) → Only q1 m → Only q2 m.
Proof.
  intros Hq Hm n w a w' H. apply Hm in H as (evs & E & Q). exists evs. split; [done|].
  by eapply Forall_impl.
Qed.

(** What is known of the computations of a component. *)
Create HintDb footprint.

(** Splits a computation into its calls, down to those of [footprint] and the
    hypotheses, and asks [auto] about the events. *)
Ltac solve_only :=
  repeat first
    [ progress intros | solve [auto 2 with footprint nocore]
    | lazymatch goal with
      | |- Only _ (with_fuel _) => apply only_fuel
      | |- Only _ out_of_fuel => apply only_out_of_fuel
      end
    | apply only_ret | apply only_ask | apply only_get | apply only_set
    | apply only_log; intros | apply only_call; intros
    | apply only_answered
    | apply only_bind; [|intros]
    | match goal with |- context [match ?x with _ => _ end] => destruct x eqn:? end
    | progress unfold log_info, log_warn, log_error, emit, clock_gettime, nanosleep, prepare, step,
        rows, last_insert_rowid, pthread_mutex_lock, pthread_mutex_unlock, socket, connect, write_wait,
        read_wait, write, read, close ];
  auto.

(** ** Computations that return

    [Total n m]: with the fuel [n], the computation returns from every world. *)
Class Total (n : nat) {A} (m : io A) : Prop := total_run : ∀ w, is_Some (m n w).

#[export] Instance total_ret n {A} (a : A) : Total n (mret a).
Proof. intros w. by exists (a, w). Qed.

#[export] Instance total_call n {A} (f : trace → A) ev : Total n (call f ev).
Proof. intros w. rewrite call_run. by eexists. Qed.

#[export] Instance total_ask n {A} (f : trace → A) : Total n (ask f).
Proof. intros w. by eexists (_, _). Qed.

#[export] Instance total_get n : Total n get_globals.
Proof. intros w. by eexists (_, _). Qed.

#[export] Instance total_set n g : Total n (set_globals g).
Proof. intros w. by eexists (_, _). Qed.

Lemma bind_total {A B} (m : io A) (k : A → io B) n w :
  is_Some (m n w) → (∀ a w1, m n w = Some (a, w1) → is_Some (k a n w1)) → is_Some ((m ≫= k) n w).
Proof. intros [[a w1] Hm] Hk. rewrite (bind_eq _ _ _ _ _ _ Hm). by apply Hk. Qed.

#[export] Instance total_bind n {A B} (m : io A) (k : A → io B) :
  Total n m → (∀ a, Total n (k a)) → Total n (m ≫= k).
Proof. intros Hm Hk w. apply bind_total; [apply Hm|]. intros a w1 _. apply Hk. Qed.

Lemma total_log n level msg : Total n (log_vprint level msg).
Proof. unfold log_vprint, emit. apply total_bind; [apply total_get|]. intros g. apply total_call. Qed.

Lemma total_answered `{env : Env} n {A} fd (m : io A) :
  (∀ tr, env_answers tr fd = true) → Total n m → Total n (answered fd m).
Proof. intros Ha Hm w. rewrite answered_eq by done. apply Hm. Qed.

Lemma total_fuel n {A} (m : nat → io A) : Total n (m n) → Total n (with_fuel m).
Proof. intros Hm w. apply Hm. Qed.

(** The computations of the components that return. *)
Create HintDb totality.

Ltac solve_total :=
  repeat first
    [ progress intros | solve [auto 2 with totality nocore]
    | apply total_ret | apply total_call | apply total_ask | apply total_get | apply total_set
    | apply total_log | apply total_answered; [solve [auto with totality]|]
    | apply total_bind; [|intros]
    | match goal with |- context [match ?x with _ => _ end] => destruct x eqn:? end
    | progress unfold log_info, log_warn, log_error, emit, clock_gettime, nanosleep, prepare, step,
        rows, last_insert_rowid, pthread_mutex_lock, pthread_mutex_unlock, socket, connect, write_wait,
        read_wait, write, read, close ];
  auto.

(** Closes [is_Some] of a run of a computation that returns. *)
Ltac run_total :=
  lazymatch goal with |- is_Some (?m ?n ?w) => refine (@total_run n _ m _ w); solve_total end.

(** ** What a descriptor carried, oldest byte first *)

Definition ev_received (fd : Z) (e : event) : bytes :=
  match e with
  | EvRecv fd' _ (RdOk d) => if fd' =? fd then d else []
  | _ => []
  end.

Definition ev_sent (fd : Z) (e : event) : bytes :=
  match e with
  | EvSend fd' data (WrOk n) => if fd' =? fd then take n data else []
  | _ => []
  end.

Fixpoint received (fd : Z) (tr : trace) : bytes :=
  match tr with [] => [] | e :: tr' => received fd tr' ++ ev_received fd e end.

Fixpoint sent (fd : Z) (tr : trace) : bytes :=
  match tr with [] => [] | e :: tr' => sent fd tr' ++ ev_sent fd e end.

Lemma received_app fd t1 t2 : received fd (t1 ++ t2) = received fd t2 ++ received fd t1.
Proof.
  induction t1 as [|e t1 IH]; simpl; [by rewrite app_nil_r|]. by rewrite IH, app_assoc.
Qed.

Lemma sent_app fd t1 t2 : sent fd (t1 ++ t2) = sent fd t2 ++ sent fd t1.
Proof.
  induction t1 as [|e t1 IH]; simpl; [by rewrite app_nil_r|]. by rewrite IH, app_assoc.
Qed.

(** How often a descriptor was not ready or interrupted. *)
Definition is_retry (fd : Z) (e : event) : bool :=
  match e with
  | EvRecv fd' _ RdAgain => fd' =? fd
  | EvSend fd' _ (WrIntr | WrOk O) => fd' =? fd
  | _ => false
  end.

Definition retries (fd : Z) (tr : trace) : nat := length (filter (λ e, is_retry fd e = true) tr).

Lemma retries_cons fd e tr :
  retries fd (e :: tr) = ((if is_retry fd e then 1 else 0) + retries fd tr)%nat.
Proof.
  unfold retries. rewrite filter_cons. case_decide as H; [by rewrite H|].
  by destruct (is_retry fd e).
Qed.

Lemma retries_app fd t1 t2 : retries fd (t1 ++ t2) = (retries fd t1 + retries fd t2)%nat.
Proof. unfold retries. by rewrite filter_app, length_app. Qed.

(** ** Concrete environments, for the witnesses

    Everything succeeds; a file holds what was last written to it, the clock
    stands at one second, the network delivers [input] and a query finds
    [table]. *)
Fixpoint last_text (path : string) (tr : trace) : option string :=
  match tr with
  | [] => None
  | EvWriteFile path' text true :: tr' => if decide (path' = path) then Some text else last_text path tr'
  | _ :: tr' => last_text path tr'
  end.

Definition demo_env (input : bytes) (table : list (list sqlval)) : Env := {|
  env_clock _ := Some (1, 0);
  env_nanosleep _ _ _ := None;
  env_fopen _ _ := true;
  env_malloc _ := true;
  env_sqlite_open _ _ := OpenOk;
  env_sqlite_exec _ _ := true;
  env_prepare _ _ := true;
  env_step _ _ _ := true;
  env_rows _ _ _ := table;
  env_last_rowid _ := 1;
  env_socket _ := 7;
  env_inet_pton _ := true;
  env_connect _ _ := true;
  env_write _ _ data := WrOk (length data);
  env_read _ _ _ := RdOk input;
  env_answers _ _ := true;
  env_tty_open _ _ := 7;
  env_tcgetattr _ _ := true;
  env_tcsetattr _ _ := true;
  env_select _ _ := true;
  env_epoll_create _ := 8;
  env_timerfd_create _ := 9;
  env_epoll_ctl _ := true;
  env_timerfd_settime _ := true;
  env_epoll_wait _ := EpOk [9];
  env_running tr := bool_decide (length tr < 100)%nat;
  env_pthread_create _ := true;
  env_file_size _ _ := Some 0;
  env_file_seek _ _ := true;
  env_file_data _ _ := EmptyString;
  env_file_text tr path := last_text path tr;
  env_exit tr := bool_decide (100 < length tr)%nat;
  env_getenv _ := None;
  env_unix_connect _ _ := true;
  env_modbus_new _ _ := true;
  env_modbus_connect _ := true;
  env_modbus_read _ := Some (500, 300, 1200);
  env_strerror _ := "error"
|}.
