(* ===== verification/Platform.v ===== *)
(** * Platform services

    The clock and the sleep ([src/src/common/time_util.c]), the thread
    heartbeats ([src/src/platform/heartbeat.c]), the metrics
    ([metrics.c]), the systemd watchdog ([watchdog.c]) and the opening and
    closing of the log ([logger.c]). *)

From S2P Require Export Io.

#[local] Open Scope Z_scope.

(** The static variables, one changed. *)
Definition with_notify (g : globals) (fd : Z) (enabled : bool) : globals :=
  mk_globals (g_stub_seq g) (g_stub_cfg g) (g_modbus_cfg g) (g_sim_seq g)
    (g_ctx g) (g_transport g) fd enabled (g_log_fp g).
Definition with_log (g : globals) (fp : option string) : globals :=
  mk_globals (g_stub_seq g) (g_stub_cfg g) (g_modbus_cfg g) (g_sim_seq g)
    (g_ctx g) (g_transport g) (g_notify_fd g) (g_enabled g) fp.

Section platform.
Context {env : Env}.

(** ** Time *)

Definition edgeflow_now_ms : io Z :=
  r ← clock_gettime;
  match r with
  | None => mret 0
  | Some (sec, nsec) => mret (u64 (u64 (u64 sec * 1000) + u64 nsec / 1000000))
  end.

(** The loop of the sleep, restarted with the remaining time. *)
Fixpoint sleep_loop (fuel : nat) (sec nsec : Z) : io () :=
  match fuel with
  | O => out_of_fuel
  | S fuel' =>
      r ← nanosleep sec nsec;
      match r with
      | None => mret tt
      | Some (sec', nsec') => sleep_loop fuel' sec' nsec'
      end
  end.

Definition edgeflow_sleep_ms (ms : Z) : io () :=
  with_fuel (λ fuel, sleep_loop fuel (ms / 1000) (ms mod 1000 * 1000000)).

(** ** Heartbeats *)

Inductive heartbeat_thread_t :=
  | HEARTBEAT_THREAD_INGRESS
  | HEARTBEAT_THREAD_WORKER
  | HEARTBEAT_THREAD_MONITOR
  | HEARTBEAT_THREAD_COUNT.

Definition thread_index (t : heartbeat_thread_t) : nat :=
  match t with
  | HEARTBEAT_THREAD_INGRESS => 0
  | HEARTBEAT_THREAD_WORKER => 1
  | HEARTBEAT_THREAD_MONITOR => 2
  | HEARTBEAT_THREAD_COUNT => 3
  end.

(** The [last_ms] array, one cell per thread. *)
Definition heartbeat_registry_t : Type := list Z.

Definition heartbeat_registry_init (hb : option heartbeat_registry_t)
    : io (option heartbeat_registry_t) :=
  match hb with
  | None => mret None
  | Some _ => now ← edgeflow_now_ms; mret (Some (replicate 3 now))
  end.

Definition heartbeat_touch (hb : option heartbeat_registry_t) (thread : heartbeat_thread_t)
    : io (option heartbeat_registry_t) :=
  match hb with
  | None => mret None
  | Some l =>
      if decide (3 <= thread_index thread)%nat then mret (Some l)
      else now ← edgeflow_now_ms; mret (Some (<[thread_index thread := now]> l))
  end.

Definition UINT64_MAX : Z := 2 ^ 64 - 1.

Definition heartbeat_age_ms (hb : option heartbeat_registry_t) (thread : heartbeat_thread_t)
    : io Z :=
  match hb with
  | None => mret UINT64_MAX
  | Some l =>
      if decide (3 <= thread_index thread)%nat then mret UINT64_MAX
      else
        now ← edgeflow_now_ms;
        let last := default 0 (l !! thread_index thread) in
        mret (if last <=? now then u64 (now - last) else 0)
  end.

(** ** Metrics *)

Record gateway_metrics_t := mk_metrics {
  ingress_points : Z;
  processed_points : Z;
  mqtt_publish_ok : Z;
  mqtt_publish_fail : Z;
  mqtt_replay_total : Z;
  queue_depth : Z;
  queue_dropped : Z;
  storage_pending_count : Z;
  heartbeat_ingress_age_ms : Z;
  heartbeat_worker_age_ms : Z;
  heartbeat_monitor_age_ms : Z
}.

Definition metrics_init (metrics : option gateway_metrics_t) : option gateway_metrics_t :=
  (λ _, mk_metrics 0 0 0 0 0 0 0 0 0 0 0) <$> metrics.

Definition nl : string := String (Ascii.ascii_of_nat 10) EmptyString.

Definition metrics_line (name : string) (v : Z) : string := name +:+ " " +:+ dec v +:+ nl.

(** The text of the metrics file, in Prometheus format. *)
Definition metrics_text (m : gateway_metrics_t) : string :=
  "# HELP edgeflow_ingress_points_total Total ingress telemetry points" +:+ nl +:+
  metrics_line "edgeflow_ingress_points_total" (ingress_points m) +:+
  metrics_line "edgeflow_processed_points_total" (processed_points m) +:+
  metrics_line "edgeflow_mqtt_publish_ok_total" (mqtt_publish_ok m) +:+
  metrics_line "edgeflow_mqtt_publish_fail_total" (mqtt_publish_fail m) +:+
  metrics_line "edgeflow_mqtt_replay_total" (mqtt_replay_total m) +:+
  metrics_line "edgeflow_queue_depth" (queue_depth m) +:+
  metrics_line "edgeflow_queue_dropped_total" (queue_dropped m) +:+
  metrics_line "edgeflow_storage_pending_count" (storage_pending_count m) +:+
  metrics_line "edgeflow_heartbeat_ingress_age_ms" (heartbeat_ingress_age_ms m) +:+
  metrics_line "edgeflow_heartbeat_worker_age_ms" (heartbeat_worker_age_ms m) +:+
  metrics_line "edgeflow_heartbeat_monitor_age_ms" (heartbeat_monitor_age_ms m).

Definition metrics_write_file (path : option string) (metrics : option gateway_metrics_t) : io Z :=
  match path, metrics with
  | Some path, Some m =>
      ok ← call (λ tr, env_fopen tr path) (EvWriteFile path (metrics_text m));
      mret (if (ok : bool) then 0 else -1)
  | _, _ => mret (-1)
  end.

(** ** Watchdog *)

(** [socket], [connect] and, on failure, [close]; the path is cut to the
    108 bytes of [sun_path]. *)
Definition open_notify_socket : io Z :=
  match env_getenv "NOTIFY_SOCKET" with
  | None | Some EmptyString => mret (-1)
  | Some path =>
      fd ← call env_socket (EvNotifyOpen (snprintf 108 path));
      g ← get_globals;
      set_globals (with_notify g fd (g_enabled g));;
      if fd <? 0 then mret (-1)
      else
        ok ← ask (λ tr, env_unix_connect tr (snprintf 108 path));
        if (ok : bool) then mret 0
        else
          close fd;;
          g ← get_globals;
          set_globals (with_notify g (-1) (g_enabled g));;
          mret (-1)
  end.

(** A failed or short write is ignored. *)
Definition send_notify (msg : option string) : io () :=
  g ← get_globals;
  match msg with
  | None => mret tt
  | Some msg =>
      if g_notify_fd g <? 0 then mret tt
      else write_wait (g_notify_fd g) (bytes_of_string msg);; mret tt
  end.

Definition watchdog_init (interval_ms : Z) : io () :=
  rc ← open_notify_socket;
  g ← get_globals;
  set_globals (with_notify g (g_notify_fd g) (rc =? 0)).

Definition watchdog_notify_ready : io () :=
  g ← get_globals;
  if g_enabled g then send_notify (Some ("READY=1" +:+ nl)%string) else mret tt.

Definition watchdog_notify_alive : io () :=
  g ← get_globals;
  if g_enabled g then send_notify (Some ("WATCHDOG=1" +:+ nl)%string) else mret tt.

Definition watchdog_shutdown : io () :=
  g ← get_globals;
  (if 0 <=? g_notify_fd g then close (g_notify_fd g) else mret tt);;
  set_globals (with_notify g (if 0 <=? g_notify_fd g then -1 else g_notify_fd g) false).

Definition watchdog_enabled : io bool := g ← get_globals; mret (g_enabled g).

(** ** Log file *)

Definition logger_init (log_dir : option string) : io Z :=
  match log_dir with
  | None | Some EmptyString => mret (-1)
  | Some dir =>
      emit (EvMkdir dir);;
      let path := snprintf 256 (dir +:+ "/edgeflow.log") in
      ok ← call (λ tr, env_fopen tr path) (EvLogOpen path);
      g ← get_globals;
      if (ok : bool) then set_globals (with_log g (Some path));; mret 0
      else set_globals (with_log g None);; mret (-1)
  end.

Definition logger_shutdown : io () :=
  g ← get_globals;
  match g_log_fp g with
  | None => mret tt
  | Some _ => emit EvLogClose;; set_globals (with_log g None)
  end.
End platform.

(** ** Properties *)

Lemma now_ms_run `{Env} n w t w' :
  edgeflow_now_ms n w = Some (t, w') →
  is_u64 t ∧ w' = mk_world (EvClock (env_clock (w_trace w)) :: w_trace w) (w_glob w) ∧
  t = match env_clock (w_trace w) with
      | None => 0
      | Some (sec, nsec) => u64 (u64 (u64 sec * 1000) + u64 nsec / 1000000)
      end.
Proof.
  unfold edgeflow_now_ms. intros Hr. apply bind_run in Hr as (r & w1 & H1 & H2).
  unfold clock_gettime in H1. rewrite call_run in H1. injection H1 as <- <-.
  destruct (env_clock _) as [[sec nsec]|]; io_done H2; split_and!; auto; [apply u64_range|].
  unfold is_u64. lia.
Qed.

(** What a reading of the clock is in milliseconds. *)
Definition clock_ms (r : option (Z * Z)) : Z :=
  match r with
  | None => 0
  | Some (sec, nsec) => u64 (u64 (u64 sec * 1000) + u64 nsec / 1000000)
  end.

(** ** The sleep *)

(** How often a sleep was interrupted. *)
Definition is_interrupt (e : event) : bool :=
  match e with EvSleep _ _ (Some _) => true | _ => false end.

Definition interrupts (tr : trace) : nat := length (filter (λ e, is_interrupt e = true) tr).

(** Calls, oldest first, that together sleep [sec] seconds and [nsec]
    nanoseconds: each call after the first asks for what the one before it left. *)
Inductive slept : Z → Z → list event → Prop :=
  | slept_done sec nsec : slept sec nsec [EvSleep sec nsec None]
  | slept_again sec nsec sec' nsec' evs :
      slept sec' nsec' evs → slept sec nsec (EvSleep sec nsec (Some (sec', nsec')) :: evs).

Section sleep.
Context {env : Env} (k : nat).
(** At most [k] signals arrive during sleeps. *)
Context (Hsig : ∀ tr sec nsec, (k ≤ interrupts tr)%nat → env_nanosleep tr sec nsec = None).

Lemma sleep_loop_returns fuel sec nsec n w :
  (k - interrupts (w_trace w) < fuel)%nat →
  ∃ w' evs, sleep_loop fuel sec nsec n w = Some (tt, w') ∧
    w_trace w' = reverse evs ++ w_trace w ∧ w_glob w' = w_glob w ∧ slept sec nsec evs.
Proof.
  revert sec nsec w. induction fuel as [|fuel IH]; intros sec nsec w Hf; [lia|].
  cbn [sleep_loop]. erewrite bind_eq by reflexivity. cbv beta.
  destruct (env_nanosleep (w_trace w) sec nsec) as [[sec' nsec']|] eqn:E.
  - assert (interrupts (w_trace w) < k)%nat as Hk.
    { apply Nat.nle_gt. intros Hk. by rewrite Hsig in E. }
    destruct (IH sec' nsec' (mk_world (EvSleep sec nsec (Some (sec', nsec')) :: w_trace w) (w_glob w)))
      as (w' & evs & Hrun & Htr & Hg & Hs).
    { unfold interrupts in *. cbn [w_trace]. rewrite filter_cons_True by done. cbn [length]. lia. }
    exists w', (EvSleep sec nsec (Some (sec', nsec')) :: evs). split_and!; [exact Hrun| |done|by constructor].
    rewrite Htr, reverse_cons, <- app_assoc. done.
  - exists (mk_world (EvSleep sec nsec None :: w_trace w) (w_glob w)), [EvSleep sec nsec None].
    split_and!; [done..|by constructor].
Qed.

(** A sleep returns as soon as the signals stop: with [k] signals at most it
    needs [k + 1] calls; the first call asks for exactly the milliseconds
    requested, with a valid number of nanoseconds, every further call for what
    the interrupted one left, and only the last is not interrupted. *)
Theorem sleep_returns ms n w :
  0 <= ms → (k < n)%nat →
  ∃ w' evs, edgeflow_sleep_ms ms n w = Some (tt, w') ∧ w_trace w' = reverse evs ++ w_trace w ∧
    ∃ sec nsec, slept sec nsec evs ∧ 0 <= nsec < 1000000000 ∧
      sec * 1000000000 + nsec = ms * 1000000.
Proof.
  intros Hms Hn. unfold edgeflow_sleep_ms, with_fuel.
  destruct (sleep_loop_returns n (ms / 1000) (ms mod 1000 * 1000000) n w) as (w' & evs & Hr & Htr & _ & Hs); [lia|].
  exists w', evs. split_and!; [done|done|]. exists (ms / 1000), (ms mod 1000 * 1000000).
  pose proof (Z.mod_pos_bound ms 1000). pose proof (Z.div_mod ms 1000). split_and!; [done|lia|lia|lia].
Qed.
End sleep.

(** ** The heartbeats *)

#[export] Instance heartbeat_thread_eq_dec : EqDecision heartbeat_thread_t.
Proof. solve_decision. Defined.

Section heartbeat.
Context {env : Env}.

(** The age of a thread is the time since it last touched its heartbeat, by
    the clock, and 0 when the clock ran backwards; touching one thread's
    heartbeat leaves the ages of the others alone; a thread number out of range
    is infinitely old. *)
Theorem heartbeat_age_elapsed l t l' n w w1 t' age w2 w3 :
  length l = 3%nat → (thread_index t < 3)%nat →
  heartbeat_touch (Some l) t n w = Some (Some l', w1) →
  heartbeat_age_ms (Some l') t' n w2 = Some (age, w3) →
  let last := if decide (t' = t) then clock_ms (env_clock (w_trace w))
              else default 0 (l !! thread_index t') in
  let now := clock_ms (env_clock (w_trace w2)) in
  length l' = 3%nat ∧
  age = if decide (t' = HEARTBEAT_THREAD_COUNT) then UINT64_MAX
        else if last <=? now then u64 (now - last) else 0.
Proof.
  intros Hl Ht Hr Ha. unfold heartbeat_touch in Hr. rewrite decide_False in Hr by lia.
  apply bind_run in Hr as (t1 & w4 & H1 & Hr). apply now_ms_run in H1 as (_ & _ & ->). io_done Hr.
  split; [etrans; [apply length_insert|done]|].
  unfold heartbeat_age_ms in Ha. destruct (decide (t' = HEARTBEAT_THREAD_COUNT)) as [->|Ht'].
  { rewrite decide_True in Ha by (simpl; lia). by io_done Ha. }
  rewrite decide_False in Ha by (destruct t'; simpl; (done || lia)).
  apply bind_run in Ha as (t2 & w5 & H2 & Ha). apply now_ms_run in H2 as (_ & _ & ->). io_done Ha.
  fold (clock_ms (env_clock (w_trace w))) (clock_ms (env_clock (w_trace w2))).
  assert (default 0 (<[thread_index t := clock_ms (env_clock (w_trace w))]> l !! thread_index t') =
    if decide (t' = t) then clock_ms (env_clock (w_trace w)) else default 0 (l !! thread_index t')) as E.
  { case_decide as E; [subst t'; by rewrite list_lookup_insert_eq by lia|].
    rewrite list_lookup_insert_ne; [done|]. intros Hi. apply E. by destruct t, t'. }
  unfold heartbeat_registry_t in *. by rewrite E.
Qed.
End heartbeat.

(** ** Concrete runs *)

Lemma sleep_returns_witness :
  ∃ w' evs, @edgeflow_sleep_ms (demo_env [] []) 2500 1%nat world_init = Some (tt, w') ∧
    w_trace w' = reverse evs ++ w_trace world_init ∧
    ∃ sec nsec, slept sec nsec evs ∧ 0 <= nsec < 1000000000 ∧ sec * 1000000000 + nsec = 2500 * 1000000.
Proof.
  refine (@sleep_returns (demo_env [] []) 0 _ 2500 1 world_init _ _); [done|lia|lia].
Defined.

Lemma heartbeat_age_elapsed_witness :
  ∃ l' w1 age w3,
    @heartbeat_touch (demo_env [] []) (Some [0; 0; 0]) HEARTBEAT_THREAD_WORKER 0%nat world_init = Some (Some l', w1) ∧
    @heartbeat_age_ms (demo_env [] []) (Some l') HEARTBEAT_THREAD_INGRESS 0%nat world_init = Some (age, w3) ∧
    length l' = 3%nat ∧ age = 1000.
Proof.
  eexists _, _, _, _. split; [vm_compute; reflexivity|]. split; [vm_compute; reflexivity|].
  exact (@heartbeat_age_elapsed (demo_env [] []) [0; 0; 0] HEARTBEAT_THREAD_WORKER _ 0 world_init _
    HEARTBEAT_THREAD_INGRESS 1000 world_init _ eq_refl ltac:(simpl; lia) ltac:(vm_compute; reflexivity)
    ltac:(vm_compute; reflexivity)).
Defined.
