(* ===== verification/Adapter.v ===== *)
(** * Device adapters ([src/src/ingress/adapter.h], [adapter.c])

    The plugin interface and the registry that initialises, polls and shuts
    down the registered plugins.  An adapter is its data and a table of
    functions, each possibly NULL; a function receives [self] and may be
    handed NULL pointers, which are [None]. *)

From S2P Require Export Io.

#[local] Open Scope Z_scope.

Definition ADAPTER_REGISTRY_MAX : nat := 8.

Inductive adapter_status_t :=
  | ADAPTER_OK
  | ADAPTER_ERR
  | ADAPTER_ERR_FULL
  | ADAPTER_ERR_NOT_FOUND.

(** What the [ctx] pointer of an adapter designates. *)
Inductive ctx_ref := CTX_STUB | CTX_MODBUS.

(** The data of [struct device_adapter]. *)
Record adapter_data := mk_adapter_data {
  ad_name : string;
  ad_protocol : device_protocol_t;
  ad_source_id : Z;
  ad_ctx : option ctx_ref
}.

(** [out] is the array from [&out[0]] on; a poll returns its status and the
    array's new content. *)
Definition init_fn : Type := option adapter_data → option gateway_config_t → io (Z * option adapter_data).
Definition shutdown_fn : Type := option adapter_data → io ().
Definition poll_fn : Type :=
  option adapter_data → option (list telemetry_t) → Z → io (Z * option (list telemetry_t)).
Definition write_fn : Type := option adapter_data → option command_t → io Z.

Record device_adapter_t := mk_adapter {
  ad_self : adapter_data;
  ad_init : option init_fn;
  ad_shutdown : option shutdown_fn;
  ad_poll : option poll_fn;
  ad_write_command : option write_fn
}.

(** The first [count] slots of the table. *)
Record adapter_registry_t := mk_registry { slots : list device_adapter_t }.

Definition reg_count (r : adapter_registry_t) : nat := length (slots r).

(** ** Operations *)

Definition adapter_registry_init (reg : option adapter_registry_t) : option adapter_registry_t :=
  (λ _, mk_registry []) <$> reg.

Definition is_null {A} (p : option A) : bool := match p with None => true | Some _ => false end.

Definition adapter_registry_register (reg : option adapter_registry_t)
    (adapter : option device_adapter_t) : adapter_status_t * option adapter_registry_t :=
  match reg, adapter with
  | Some r, Some a =>
      if decide (ADAPTER_REGISTRY_MAX ≤ reg_count r)%nat then (ADAPTER_ERR_FULL, reg)
      else if is_null (ad_poll a) || is_null (ad_init a) || is_null (ad_shutdown a)
      then (ADAPTER_ERR, reg)
      else (ADAPTER_OK, Some (mk_registry (slots r ++ [a])))
  | _, _ => (ADAPTER_ERR, reg)
  end.

(** The first slot with the protocol. *)
Fixpoint find_slot (l : list device_adapter_t) (protocol : device_protocol_t)
    : option device_adapter_t :=
  match l with
  | [] => None
  | a :: l' =>
      if decide (ad_protocol (ad_self a) = protocol) then Some a else find_slot l' protocol
  end.

Definition adapter_registry_find (reg : option adapter_registry_t) (protocol : device_protocol_t)
    : option device_adapter_t :=
  r ← reg; find_slot (slots r) protocol.

(** The slots after their [init], and the number of failures. *)
Fixpoint init_slots (l : list device_adapter_t) (cfg : gateway_config_t)
    : io (list device_adapter_t * Z) :=
  match l with
  | [] => mret ([], 0)
  | a :: l' =>
      '(a', failed) ←
        match ad_init a with
        | None => mret (a, 0)
        | Some init =>
            '(rc, self) ← init (Some (ad_self a)) (Some cfg);
            mret (mk_adapter (default (ad_self a) self) (ad_init a) (ad_shutdown a) (ad_poll a)
                    (ad_write_command a), if rc =? 0 then 0 else 1)
        end;
      '(l'', failures) ← init_slots l' cfg;
      mret (a' :: l'', failed + failures)
  end.

Definition adapter_registry_init_all (reg : option adapter_registry_t)
    (cfg : option gateway_config_t) : io (Z * option adapter_registry_t) :=
  match reg, cfg with
  | Some r, Some c =>
      '(l, failures) ← init_slots (slots r) c;
      mret (if 0 <? failures then -1 else 0, Some (mk_registry l))
  | _, _ => mret (-1, reg)
  end.

(** The loop over the slots: it stops at a slot without a poll function and
    as soon as the array is full. *)
Fixpoint poll_slots (l : list device_adapter_t) (out : list telemetry_t) (total max_out : Z)
    : io (Z * list telemetry_t) :=
  match l with
  | [] => mret (total, out)
  | a :: l' =>
      match ad_poll a with
      | None => mret (total, out)
      | Some poll =>
          if max_out <=? total then mret (total, out)
          else
            let i := Z.to_nat total in
            '(n, res) ← poll (Some (ad_self a)) (Some (drop i out)) (max_out - total);
            let out' := take i out ++ default (drop i out) res in
            poll_slots l' out' (if 0 <? n then total + n else total) max_out
      end
  end.

Definition adapter_registry_poll_all (reg : option adapter_registry_t)
    (out : option (list telemetry_t)) (max_out : Z) : io (Z * option (list telemetry_t)) :=
  match reg, out with
  | Some r, Some o =>
      if max_out =? 0 then mret (0, out)
      else '(total, o') ← poll_slots (slots r) o 0 max_out; mret (total, Some o')
  | _, _ => mret (0, out)
  end.

Fixpoint shutdown_slots (l : list device_adapter_t) : io () :=
  match l with
  | [] => mret tt
  | a :: l' =>
      match ad_shutdown a with None => mret tt | Some f => f (Some (ad_self a)) end;;
      shutdown_slots l'
  end.

Definition adapter_registry_shutdown_all (reg : option adapter_registry_t) : io () :=
  match reg with None => mret tt | Some r => shutdown_slots (slots r) end.

(** ** The contract of a plugin

    What [adapter.h] asks of [poll]: it writes at most [max_out] points from
    the start of [out] and returns their number, or a negative value.  The
    array keeps its length, and every point returned satisfies [good]. *)
Definition self_ok (self : option adapter_data) : Prop :=
  ∀ s, self = Some s → is_u16 (ad_source_id s).

Class PollContract (good : telemetry_t → Prop) (poll : poll_fn) : Prop :=
  poll_contract : ∀ self out max_out n w rc res w',
    self_ok self → Z.of_nat (length out) = max_out →
    poll self (Some out) max_out n w = Some ((rc, res), w') →
    ∃ out', res = Some out' ∧ length out' = length out ∧ rc <= max_out ∧
            (0 < rc → Forall good (take (Z.to_nat rc) out')).

(** Every slot of the registry keeps the contract. *)
Definition adapter_ok (good : telemetry_t → Prop) (a : device_adapter_t) : Prop :=
  is_u16 (ad_source_id (ad_self a)) ∧ ∃ poll, ad_poll a = Some poll ∧ PollContract good poll.

Definition registry_ok (good : telemetry_t → Prop) (r : adapter_registry_t) : Prop :=
  (reg_count r ≤ ADAPTER_REGISTRY_MAX)%nat ∧ Forall (adapter_ok good) (slots r).

Lemma poll_slots_ok good l out total max_out n w rc out' w' :
  Forall (adapter_ok good) l →
  Z.of_nat (length out) = max_out → 0 <= total <= max_out →
  Forall good (take (Z.to_nat total) out) →
  poll_slots l out total max_out n w = Some ((rc, out'), w') →
  length out' = length out ∧ 0 <= rc <= max_out ∧ Forall good (take (Z.to_nat rc) out').
Proof.
  intros Hl. revert out total w.
  induction Hl as [|a l (Hs & poll & Hp & Hc) _ IH]; intros out total w Hlen Ht Hg H; simpl in H.
  { unfold mret, io_ret in H. by simplify_eq. }
  rewrite Hp in H. destruct (max_out <=? total) eqn:E.
  { unfold mret, io_ret in H. by simplify_eq. }
  apply Z.leb_gt in E. apply bind_run in H as ([m res] & w1 & H1 & H2).
  apply Hc in H1 as (o1 & -> & Ho1 & Hm & Hgood); [|by intros ? [= <-]|rewrite length_drop; lia].
  rewrite length_drop in Ho1. simpl in H2.
  assert (length (take (Z.to_nat total) out ++ o1) = length out) as Hlen'
    by (rewrite length_app, length_take; lia).
  rewrite <- Hlen'. eapply IH; [lia| | |exact H2]; destruct (0 <? m) eqn:Em;
    try apply Z.ltb_lt in Em; try lia.
  - rewrite Z2Nat.inj_add, take_app by lia. rewrite length_take, Nat.min_l by lia.
    rewrite take_take, Nat.min_r by lia.
    rewrite Nat.add_comm, Nat.add_sub. by apply Forall_app_2; auto.
  - rewrite take_app_le by (rewrite length_take; lia). by rewrite take_take, Nat.min_id.
Qed.

(** C39: if every registered plugin keeps its contract, a poll of the whole
    registry returns a number of points between 0 and the size of the array,
    never writes outside the array, and every point it returns is one the
    plugins vouch for. *)
Theorem poll_all_ok good r out n w rc res w' :
  registry_ok good r →
  adapter_registry_poll_all (Some r) (Some out) (Z.of_nat (length out)) n w
    = Some ((rc, res), w') →
  ∃ out', res = Some out' ∧ length out' = length out ∧
          0 <= rc <= Z.of_nat (length out) ∧ Forall good (take (Z.to_nat rc) out').
Proof.
  intros [_ Hok] H. unfold adapter_registry_poll_all in H.
  destruct (Z.of_nat (length out) =? 0).
  { unfold mret, io_ret in H. simplify_eq. exists out. split_and!; try done; lia. }
  apply bind_run in H as ([total o'] & w1 & H1 & H2). unfold mret, io_ret in H2. simplify_eq.
  apply (poll_slots_ok good) in H1; [|done|done|lia|constructor]. naive_solver.
Qed.

(** Registration never exceeds the table and appends the adapter last. *)
Lemma register_spec r a st r' :
  adapter_registry_register (Some r) (Some a) = (st, Some r') →
  (reg_count r ≤ ADAPTER_REGISTRY_MAX)%nat →
  (reg_count r' ≤ ADAPTER_REGISTRY_MAX)%nat ∧
  (st = ADAPTER_OK ∧ slots r' = slots r ++ [a] ∧ (reg_count r < ADAPTER_REGISTRY_MAX)%nat ∨
   st ≠ ADAPTER_OK ∧ r' = r).
Proof.
  unfold adapter_registry_register. case_decide; [naive_solver|].
  destruct (_ || _); intros; simplify_eq; [naive_solver|].
  unfold reg_count in *; simpl. rewrite length_app. simpl. split; [lia|]. left. split_and!; auto. lia.
Qed.

(** The search returns the first slot with the protocol. *)
Lemma find_slot_spec l p :
  match find_slot l p with
  | Some a => ad_protocol (ad_self a) = p ∧ a ∈ l
  | None => Forall (λ a, ad_protocol (ad_self a) ≠ p) l
  end.
Proof.
  induction l as [|a l IH]; simpl; [done|]. case_decide; [split; [done|by left]|].
  destruct (find_slot l p); [|by constructor]. destruct IH. split; [done|by right].
Qed.
