(* ===== verification/Modbus.v ===== *)
(** * Modbus acquisition ([src/src/ingress/modbus_rtu.c], [modbus_serial.c],
    [modbus_libmodbus.c])

    The CRC of a Modbus frame, the serial exchange that checks it, the
    simulated poll and the poll through libmodbus, which is not part of the
    program: its calls are questions to the environment. *)

From S2P Require Export Platform.

#[local] Open Scope Z_scope.

(** ** The checksum *)

Definition crc_bit (crc : Z) : Z :=
  if negb (Z.land crc 1 =? 0) then Z.lxor (Z.shiftr crc 1) 0xA001 else Z.shiftr crc 1.

Definition crc_byte (crc b : Z) : Z := Nat.iter 8 crc_bit (Z.lxor crc b).

Definition modbus_crc16 (buf : bytes) (len : nat) : Z :=
  foldl crc_byte 0xFFFF (take len buf).

(** ** Serial line *)

Definition speed_of_baud (baud : Z) : Z :=
  if baud =? 19200 then 19200
  else if baud =? 38400 then 38400
  else if baud =? 115200 then 115200
  else 9600.

Section modbus.
Context {env : Env}.

(** The line is set raw, 8 data bits, no parity, one stop bit. *)
Definition modbus_serial_open (device_path : option string) (baud : Z) : io Z :=
  match device_path with
  | None => mret (-1)
  | Some path =>
      fd ← call (λ tr, env_tty_open tr path) (EvTtyOpen path);
      if fd <? 0 then mret (-1)
      else
        got ← call (λ tr, env_tcgetattr tr fd) (EvTtyGet fd);
        if negb got then close fd;; mret (-1)
        else
          set ← call (λ tr, env_tcsetattr tr fd) (EvTtySet fd (speed_of_baud baud));
          if negb set then close fd;; mret (-1)
          else mret fd
  end.

Definition modbus_serial_close (fd : Z) : io () :=
  if 0 <=? fd then close fd else mret tt.

(** The loop with [total] bytes in [buf]: it waits for the line, reads, and
    stops on a timeout, at the end of the stream, or with 5 bytes. *)
Fixpoint read_with_timeout (fuel : nat) (fd : Z) (buf : bytes) (total max : nat) (timeout_ms : Z)
    : io (Z * bytes) :=
  match fuel with
  | O => out_of_fuel
  | S fuel' =>
      if decide (total < max)%nat then
        ready ← call (λ tr, env_select tr fd)
                  (EvSelect fd (timeout_ms / 1000) (timeout_ms mod 1000 * 1000));
        if negb ready then mret (Z.of_nat total, buf)
        else
          r ← read fd (max - total);
          match r with
          | RdErr => mret (-1, buf)
          | RdAgain => read_with_timeout fuel' fd buf total max timeout_ms
          | RdOk [] => mret (Z.of_nat total, buf)
          | RdOk data =>
              let buf' := write_at total data buf in
              let total' := (total + length data)%nat in
              if decide (5 <= total')%nat then mret (Z.of_nat total', buf')
              else read_with_timeout fuel' fd buf' total' max timeout_ms
          end
      else mret (Z.of_nat total, buf)
  end.

(** The two bytes that follow the [n - 2] checked ones, low byte first. *)
Definition frame_crc (response : bytes) (n : nat) : Z :=
  Z.lor (default 0 (response !! (n - 2)%nat)) (Z.shiftl (default 0 (response !! (n - 1)%nat)) 8).

Definition modbus_serial_exchange (fd : Z) (request : option bytes) (request_len : nat)
    (response : option bytes) (response_max : nat) (timeout_ms : Z) : io (Z * option bytes) :=
  match request, response with
  | Some req, Some resp =>
      if (fd <? 0) || bool_decide (request_len < 4)%nat || bool_decide (response_max < 5)%nat
      then mret (-1, response)
      else
        r ← write fd (take request_len req);
        if match r with WrOk k => bool_decide (k = request_len) | _ => false end then
          '(n, resp') ← with_fuel (λ fuel, read_with_timeout fuel fd resp 0 response_max timeout_ms);
          if n <? 5 then mret (-1, Some resp')
          else if modbus_crc16 resp' (Z.to_nat n - 2) =? frame_crc resp' (Z.to_nat n)
          then mret (n, Some resp')
          else mret (-1, Some resp')
        else mret (-1, response)
  | _, _ => mret (-1, response)
  end.

(** ** The points of one poll *)

(** [out[0..2]] filled by three [telemetry_init]. *)
Definition fill3 (out : list telemetry_t) (now src : Z) (soc temp power : double)
    : list telemetry_t :=
  write_at 0
    [telemetry_init now (Some "bms_001") (Some "soc_percent") soc (Some "%") src;
     telemetry_init now (Some "bms_001") (Some "max_cell_temp_c") temp (Some "C") src;
     telemetry_init now (Some "meter_001") (Some "grid_power_kw") power (Some "kW") src]%string out.

(** The simulated readings at sequence number [seq]. *)
Definition sim_soc (seq : Z) : double := dsub (d_of_Z 80) (dmul (d_of_Z (seq mod 30)) (dlit 2 10)).
Definition sim_temp (seq : Z) : double := dadd (d_of_Z 28) (dmul (d_of_Z (seq mod 20)) (dlit 2 10)).
Definition sim_power (seq : Z) : double := dadd (d_of_Z 90) (d_of_Z (seq mod 80)).

Definition with_sim_seq (g : globals) (seq : Z) : globals :=
  mk_globals (g_stub_seq g) (g_stub_cfg g) (g_modbus_cfg g) seq
    (g_ctx g) (g_transport g) (g_notify_fd g) (g_enabled g) (g_log_fp g).

(** The request, built and left unused by the code. *)
Definition sim_request : bytes :=
  let req := [0x01; 0x03; 0x00; 0x00; 0x00; 0x03; 0x00; 0x00] in
  let crc := modbus_crc16 req 6 in
  <[7%nat := u8 (Z.shiftr crc 8)]> (<[6%nat := u8 (Z.land crc 0xFF)]> req).

Definition modbus_poll_simulate (cfg : gateway_config_t) (out : option (list telemetry_t))
    (max_out : Z) : io (Z * option (list telemetry_t)) :=
  match out with
  | None => mret (-1, out)
  | Some o =>
      if max_out <? 3 then mret (-1, out)
      else
        now ← edgeflow_now_ms;
        g ← get_globals;
        let seq := g_sim_seq g in
        set_globals (with_sim_seq g (u32 (seq + 1)));;
        mret (3, Some (fill3 o now 2 (sim_soc seq) (sim_temp seq) (sim_power seq)))
  end.

(** ** libmodbus *)

Definition with_ctx (g : globals) (ctx : bool) (transport : string) : globals :=
  mk_globals (g_stub_seq g) (g_stub_cfg g) (g_modbus_cfg g) (g_sim_seq g)
    ctx transport (g_notify_fd g) (g_enabled g) (g_log_fp g).

Definition modbus_libmodbus_shutdown : io () :=
  g ← get_globals;
  if g_ctx g then
    emit EvModbusClose;; emit EvModbusFree;; set_globals (with_ctx g false "")
  else mret tt.

Definition copy_transport_label (src : option string) (len : nat) (dst : string) : string :=
  if decide (len = 0)%nat then dst else snprintf len (default "rtu"%string src).

(** libmodbus's own guard; the context is not NULL here. *)
Definition modbus_set_response_timeout (to_sec to_usec : Z) : io Z :=
  if (to_sec =? 0) && (to_usec =? 0) || (999999 <? to_usec) then mret (-1)
  else emit (EvModbusTimeout to_sec to_usec);; mret 0.

Definition ensure_context (cfg : gateway_config_t) : io Z :=
  let want := cfg_modbus_transport cfg in
  g ← get_globals;
  if g_ctx g && bool_decide (g_transport g = want) then mret 0
  else
    modbus_libmodbus_shutdown;;
    created ← call (λ tr, env_modbus_new tr want)
      (if decide (want = "tcp"%string)
       then EvModbusTcp (cfg_modbus_tcp_host cfg) (cfg_modbus_tcp_port cfg)
       else EvModbusRtu (cfg_serial_device cfg) (cfg_modbus_baud_rate cfg)
              (cfg_modbus_parity cfg) (cfg_modbus_data_bits cfg) (cfg_modbus_stop_bits cfg));
    if negb created then
      log_error ("libmodbus: create context failed transport=" +:+ want);; mret (-1)
    else
      emit (EvModbusSlave (cfg_modbus_slave_id cfg));;
      modbus_set_response_timeout 0 (u32 (cfg_modbus_timeout_ms cfg * 1000));;
      connected ← call env_modbus_connect EvModbusConnect;
      if negb connected then
        e ← ask env_strerror;
        log_warn ("libmodbus connect failed: " +:+ e);;
        emit EvModbusFree;;
        g ← get_globals;
        set_globals (with_ctx g false (g_transport g));;
        mret (-1)
      else
        g ← get_globals;
        set_globals (with_ctx g true (copy_transport_label (Some want) 8 (g_transport g)));;
        log_info ("libmodbus connected: transport=" +:+ want +:+ " slave=" +:+
                  dec (cfg_modbus_slave_id cfg));;
        mret 0.

(** A register is an unsigned 16-bit tenth of the unit. *)
Definition reg_value (r : Z) : double := dmul (d_of_Z (u16 r)) (dlit 1 10).

Definition map_registers_to_telemetry (regs : Z * Z * Z) (out : list telemetry_t) (max_out : Z)
    : io (Z * list telemetry_t) :=
  now ← edgeflow_now_ms;
  if max_out <? 3 then mret (-1, out)
  else
    let '(r0, r1, r2) := regs in
    mret (3, fill3 out now 2 (reg_value r0) (reg_value r1) (reg_value r2)).

Definition modbus_libmodbus_poll (cfg : option gateway_config_t) (out : option (list telemetry_t))
    (max_out : Z) : io (Z * option (list telemetry_t)) :=
  match cfg, out with
  | Some cfg, Some o =>
      if max_out <? 3 then mret (-1, out)
      else
        rc ← ensure_context cfg;
        if negb (rc =? 0) then mret (-1, out)
        else
          regs ← call env_modbus_read EvModbusRead;
          match regs with
          | None =>
              e ← ask env_strerror;
              log_warn ("libmodbus read failed: " +:+ e);;
              modbus_libmodbus_shutdown;;
              mret (-1, out)
          | Some regs =>
              '(n, o') ← map_registers_to_telemetry regs o max_out;
              mret (n, Some o')
          end
  | _, _ => mret (-1, out)
  end.

Definition modbus_rtu_poll (cfg : option gateway_config_t) (out : option (list telemetry_t))
    (max_out : Z) : io (Z * option (list telemetry_t)) :=
  match cfg, out with
  | Some c, Some _ =>
      if max_out <? 3 then mret (-1, out)
      else if cfg_simulate c then modbus_poll_simulate c out max_out
      else modbus_libmodbus_poll cfg out max_out
  | _, _ => mret (-1, out)
  end.

End modbus.

(** ** The checksum detects errors *)

Definition crc_in (c : Z) : Prop := 0 <= c < 2 ^ 16.

Lemma lxor_small_range k a b : 0 <= k → 0 <= a < 2 ^ k → 0 <= b < 2 ^ k → 0 <= Z.lxor a b < 2 ^ k.
Proof.
  intros Hk Ha Hb.
  assert (Z.lxor a b = Z.lxor a b `mod` 2 ^ k) as ->; [|apply Z.mod_pos_bound; lia].
  rewrite <- Z.land_ones by lia. apply Z.bits_inj'. intros n Hn.
  rewrite Z.land_spec, Z.lxor_spec. destruct (decide (n < k)).
  - rewrite Z.ones_spec_low by lia. by rewrite andb_true_r.
  - rewrite <- (Z.mod_small a (2 ^ k)), <- (Z.mod_small b (2 ^ k)) by lia.
    rewrite !Z.mod_pow2_bits_high by lia. done.
Qed.

Lemma crc_bit_testbit c : negb (Z.land c 1 =? 0) = Z.testbit c 0.
Proof.
  change 1 with (Z.ones 1). rewrite (Z.land_ones c 1) by lia. change (2 ^ 1) with 2. rewrite Z.bit0_odd, Zmod_odd. by destruct (Z.odd c).
Qed.

Lemma crc_bit_range c : crc_in c → crc_in (crc_bit c).
Proof.
  intros H. unfold crc_bit, crc_in in *.
  assert (0 <= Z.shiftr c 1 < 2 ^ 16).
  { rewrite Z.shiftr_div_pow2 by lia. change (2 ^ 1) with 2.
    pose proof (Z.div_pos c 2). pose proof (Z.div_le_upper_bound c 2 (2 ^ 16 - 1)). lia. }
  destruct (negb _); [|done]. apply lxor_small_range; lia.
Qed.

(** The step loses no information: the top bit says whether the polynomial
    was added. *)
Lemma crc_bit_inj c d : crc_in c → crc_in d → crc_bit c = crc_bit d → c = d.
Proof.
  intros Hc Hd. unfold crc_bit. rewrite !crc_bit_testbit.
  assert (∀ x n, crc_in x → 15 <= n → Z.testbit (Z.shiftr x 1) n = false) as Htop.
  { intros x n Hx Hn. rewrite Z.shiftr_spec by lia. unfold crc_in in Hx.
    rewrite <- (Z.mod_small x (2 ^ 16)) by lia. apply Z.mod_pow2_bits_high. lia. }
  assert (∀ x y, Z.testbit x 0 = Z.testbit y 0 → Z.shiftr x 1 = Z.shiftr y 1 → x = y) as Hsplit.
  { intros x y E0 E1. apply Z.bits_inj'. intros n Hn. destruct (decide (n = 0)) as [->|]; [done|].
    replace n with ((n - 1) + 1) by lia. rewrite <- !Z.shiftr_spec by lia. by rewrite E1. }
  destruct (Z.testbit c 0) eqn:Ec, (Z.testbit d 0) eqn:Ed; intros E.
  - apply Hsplit; [congruence|].
    apply (f_equal (λ z, Z.lxor z 0xA001)) in E.
    by rewrite !Z.lxor_assoc, Z.lxor_nilpotent, !Z.lxor_0_r in E.
  - apply (f_equal (λ z, Z.testbit z 15)) in E. rewrite Z.lxor_spec, !Htop in E by (done || lia). done.
  - apply (f_equal (λ z, Z.testbit z 15)) in E. rewrite Z.lxor_spec, !Htop in E by (done || lia). done.
  - apply Hsplit; congruence.
Qed.

Lemma crc_iter_range k c : crc_in c → crc_in (Nat.iter k crc_bit c).
Proof. intros. induction k; simpl; auto using crc_bit_range. Qed.

Lemma crc_iter_inj k c d :
  crc_in c → crc_in d → Nat.iter k crc_bit c = Nat.iter k crc_bit d → c = d.
Proof.
  intros Hc Hd. induction k as [|k IH]; simpl; [done|]. intros E.
  apply IH, crc_bit_inj; auto using crc_iter_range.
Qed.

(** Bits above the low [k] ones only move down. *)
Lemma crc_bit_xor x y : crc_bit (Z.lxor x (Z.shiftl y 1)) = Z.lxor (crc_bit x) y.
Proof.
  unfold crc_bit. rewrite !crc_bit_testbit, Z.lxor_spec, Z.shiftl_spec_low, xorb_false_r by lia.
  rewrite Z.shiftr_lxor, Z.shiftr_shiftl_l, Z.shiftl_0_r by lia.
  destruct (Z.testbit x 0); [|done].
  rewrite !Z.lxor_assoc. f_equal. apply Z.lxor_comm.
Qed.

Lemma crc_iter_xor k x y :
  Nat.iter k crc_bit (Z.lxor x (Z.shiftl y (Z.of_nat k))) = Z.lxor (Nat.iter k crc_bit x) y.
Proof.
  revert x. induction k as [|k IH]; intros x; [by rewrite Z.shiftl_0_r|].
  rewrite !Nat.iter_succ_r. rewrite <- IH, <- crc_bit_xor. do 2 f_equal.
  rewrite Z.shiftl_shiftl by lia. do 2 f_equal. lia.
Qed.

Lemma crc_iter_shiftl k y : Nat.iter k crc_bit (Z.shiftl y (Z.of_nat k)) = y.
Proof.
  rewrite <- (Z.lxor_0_l (Z.shiftl _ _)), crc_iter_xor.
  assert (Nat.iter k crc_bit 0 = 0) as ->; [|apply Z.lxor_0_l].
  induction k as [|k IH]; simpl; [done|by rewrite IH].
Qed.

Lemma crc_byte_range c b : crc_in c → is_u8 b → crc_in (crc_byte c b).
Proof.
  unfold is_u8, crc_in. intros. apply crc_iter_range. apply lxor_small_range; lia.
Qed.

(** Two bytes at once. *)
Lemma crc_two_bytes c a b :
  crc_byte (crc_byte c a) b = Nat.iter 16 crc_bit (Z.lxor c (Z.lxor a (Z.shiftl b 8))).
Proof.
  unfold crc_byte. rewrite <- (crc_iter_xor 8 (Z.lxor c a) b), <- Nat.iter_add.
  by rewrite Z.lxor_assoc.
Qed.

Lemma crc_fold_range c l : crc_in c → Forall is_u8 l → crc_in (foldl crc_byte c l).
Proof.
  intros Hc Hl. revert c Hc. induction Hl as [|b l Hb _ IH]; simpl; intros; auto using crc_byte_range.
Qed.

Lemma crc_fold_inj c d l :
  crc_in c → crc_in d → Forall is_u8 l → foldl crc_byte c l = foldl crc_byte d l → c = d.
Proof.
  intros Hc Hd Hl. revert c d Hc Hd. induction Hl as [|b l Hb _ IH]; simpl; [done|].
  intros c d Hc Hd E. apply IH in E; auto using crc_byte_range.
  unfold crc_byte, is_u8, crc_in in *. apply crc_iter_inj in E; try (apply lxor_small_range; lia).
  apply (f_equal (λ z, Z.lxor z b)) in E.
  by rewrite !Z.lxor_assoc, Z.lxor_nilpotent, !Z.lxor_0_r in E.
Qed.

Lemma lxor_cancel_l c x y : Z.lxor c x = Z.lxor c y → x = y.
Proof.
  intros E. apply (f_equal (Z.lxor c)) in E.
  by rewrite <- !Z.lxor_assoc, Z.lxor_nilpotent, !Z.lxor_0_l in E.
Qed.

Lemma two_bytes_inj a b a' b' :
  is_u8 a → is_u8 b → is_u8 a' → is_u8 b' →
  Z.lxor a (Z.shiftl b 8) = Z.lxor a' (Z.shiftl b' 8) → a = a' ∧ b = b'.
Proof.
  unfold is_u8. intros Ha Hb Ha' Hb' E.
  assert (∀ x y, 0 <= x < 2 ^ 8 → Z.lxor x (Z.shiftl y 8) = x + y * 2 ^ 8) as Hadd.
  { intros x y Hx. rewrite Z.lxor_lor, <- Z.add_lor_land.
    - rewrite (Z.shiftl_mul_pow2 y 8) by lia.
      assert (Z.land x (y * 2 ^ 8) = 0) as ->; [|lia].
      apply Z.bits_inj'. intros n Hn. rewrite Z.land_spec, Z.bits_0.
      destruct (decide (n < 8)).
      + rewrite Z.mul_pow2_bits_low by lia. by rewrite andb_false_r.
      + rewrite <- (Z.mod_small x (2 ^ 8)), Z.mod_pow2_bits_high by lia. done.
    - apply Z.bits_inj'. intros n Hn. rewrite Z.land_spec, Z.bits_0.
      destruct (decide (n < 8)).
      + rewrite Z.shiftl_spec_low by lia. by rewrite andb_false_r.
      + rewrite <- (Z.mod_small x (2 ^ 8)), Z.mod_pow2_bits_high by lia. done. }
  rewrite !Hadd in E by done. lia.
Qed.

Lemma modbus_crc16_all l n : n = length l → modbus_crc16 l n = foldl crc_byte 0xFFFF l.
Proof. intros ->. unfold modbus_crc16. by rewrite firstn_all. Qed.

(** A frame whose last two bytes are the checksum of the rest, low byte
    first, as the code sends and receives it. *)
Definition crc_frame (msg : bytes) : bytes :=
  let crc := modbus_crc16 msg (length msg) in msg ++ [u8 (Z.land crc 0xFF); u8 (Z.shiftr crc 8)].

(** The test of [modbus_serial_exchange]. *)
Definition frame_ok (f : bytes) : bool :=
  modbus_crc16 f (length f - 2) =? frame_crc f (length f).

Lemma crc_init_in : crc_in 0xFFFF.
Proof. unfold crc_in. lia. Qed.
#[local] Hint Resolve crc_init_in crc_fold_range crc_byte_range : core.

Lemma frame_split (f : bytes) : (2 <= length f)%nat → ∃ m lo hi, f = m ++ [lo; hi].
Proof.
  intros Hl. exists (take (length f - 2) f).
  destruct (drop (length f - 2) f) as [|lo [|hi [|]]] eqn:E;
    apply (f_equal length) in E as E'; rewrite length_drop in E'; simpl in E'; try lia.
  exists lo, hi. rewrite <- E. by rewrite take_drop.
Qed.

Lemma frame_prefix (f : bytes) n :
  (2 <= n <= length f)%nat →
  (modbus_crc16 f (n - 2) =? frame_crc f n) = frame_ok (take n f).
Proof.
  intros. unfold frame_ok, modbus_crc16, frame_crc.
  rewrite take_take, length_take, !lookup_take_lt by lia.
  by rewrite Nat.min_l, Nat.min_l by lia.
Qed.

(** The test succeeds exactly when the checksum of the whole frame is zero. *)
Lemma frame_ok_residue f :
  Forall is_u8 f → (2 <= length f)%nat → frame_ok f = true ↔ foldl crc_byte 0xFFFF f = 0.
Proof.
  intros Hf Hl. destruct (frame_split f Hl) as (m & lo & hi & ->).
  apply Forall_app in Hf as [Hm Hlh].
  pose proof Hlh as Hlh'. apply Forall_cons in Hlh' as [Hlo Hlh']. apply Forall_cons in Hlh' as [Hhi _].
  unfold frame_ok, frame_crc, modbus_crc16. rewrite length_app. simpl.
  replace (length m + 2 - 2)%nat with (length m) by lia.
  replace (length m + 2 - 1)%nat with (S (length m)) by lia.
  rewrite take_app_length. rewrite !lookup_app_r by lia.
  replace (length m - length m)%nat with 0%nat by lia.
  replace (S (length m) - length m)%nat with 1%nat by lia. simpl.
  rewrite foldl_app. simpl. rewrite crc_two_bytes.
  set (c := foldl crc_byte 0xFFFF m). assert (crc_in c) as Hc by (subst c; auto).
  assert (Z.lxor lo (Z.shiftl hi 8) = Z.lor lo (Z.shiftl hi 8)) as El.
  { apply Z.lxor_lor. apply Z.bits_inj'. intros n Hn. rewrite Z.land_spec, Z.bits_0.
    destruct (decide (n < 8)).
    - rewrite Z.shiftl_spec_low by lia. by rewrite andb_false_r.
    - unfold is_u8 in Hlo. rewrite <- (Z.mod_small lo (2 ^ 8)), Z.mod_pow2_bits_high by lia. done. }
  rewrite <- El, Z.eqb_eq. set (r := Z.lxor lo (Z.shiftl hi 8)).
  assert (crc_in r) as Hr.
  { subst r. unfold crc_in, is_u8 in *. apply lxor_small_range; [lia..|].
    rewrite Z.shiftl_mul_pow2 by lia. lia. }
  split.
  - intros ->. by rewrite Z.lxor_nilpotent.
  - intros E0. apply (crc_iter_inj 16 _ 0) in E0.
    + apply (lxor_cancel_l r). by rewrite Z.lxor_nilpotent, Z.lxor_comm.
    + unfold crc_in in *. apply lxor_small_range; lia.
    + unfold crc_in. lia.
Qed.

Lemma crc_fold_mid c pre a b post :
  foldl crc_byte c (pre ++ [a; b] ++ post) =
  foldl crc_byte (Nat.iter 16 crc_bit (Z.lxor (foldl crc_byte c pre) (Z.lxor a (Z.shiftl b 8)))) post.
Proof. rewrite <- crc_two_bytes, !foldl_app. reflexivity. Qed.

(** C16: the checksum test of the serial exchange detects every error confined
    to two consecutive bytes: if a frame passes the test and two neighbouring
    bytes of it are replaced by any two others, the damaged frame fails it. *)
Theorem crc_detects_burst pre a b a' b' post :
  Forall is_u8 (pre ++ [a; b] ++ post) → is_u8 a' → is_u8 b' → (a', b') ≠ (a, b) →
  frame_ok (pre ++ [a; b] ++ post) = true →
  frame_ok (pre ++ [a'; b'] ++ post) = false.
Proof.
  intros Hf Ha' Hb' Hne Hok. apply not_true_iff_false. intros Hok'.
  apply Forall_app in Hf as [Hpre Hf]. apply Forall_app in Hf as [Hab Hpost].
  pose proof Hab as Hab'. apply Forall_cons in Hab' as [Ha Hb]. apply Forall_cons in Hb as [Hb _].
  rewrite frame_ok_residue in Hok, Hok'
    by (rewrite ?length_app; simpl; try lia; auto using Forall_app_2).
  rewrite crc_fold_mid in Hok, Hok'. rewrite <- Hok' in Hok. clear Hok'. set (c := foldl crc_byte 0xFFFF pre) in *.
  assert (crc_in c) as Hc by (subst c; auto).
  assert (∀ x y, is_u8 x → is_u8 y → crc_in (Z.lxor c (Z.lxor x (Z.shiftl y 8)))) as Hr.
  { unfold crc_in, is_u8 in *. intros x y Hx Hy. rewrite Z.shiftl_mul_pow2 by lia.
    apply lxor_small_range; [lia..|]. apply lxor_small_range; lia. }
  apply crc_fold_inj in Hok; [|apply crc_iter_range; auto..|done].
  apply crc_iter_inj in Hok; [|auto..]. apply lxor_cancel_l, two_bytes_inj in Hok as [-> ->]; auto.
Qed.

(** A frame closed with the checksum of its body, low byte first, passes
    the test, whatever the body; the checksum is a 16-bit value. *)
Theorem crc_frame_accepted msg :
  Forall is_u8 msg → frame_ok (crc_frame msg) = true ∧ is_u16 (modbus_crc16 msg (length msg)).
Proof.
  intros Hm. rewrite modbus_crc16_all by done.
  assert (crc_in (foldl crc_byte 0xFFFF msg)) as Hc by auto. split; [|done].
  unfold frame_ok, frame_crc, crc_frame. rewrite (modbus_crc16_all msg) by done.
  set (c := foldl crc_byte 0xFFFF msg) in *. rewrite length_app. simpl.
  replace (length msg + 2 - 2)%nat with (length msg) by lia.
  replace (length msg + 2 - 1)%nat with (S (length msg)) by lia.
  unfold modbus_crc16. rewrite take_app_length. rewrite !lookup_app_r by lia.
  replace (length msg - length msg)%nat with 0%nat by lia.
  replace (S (length msg) - length msg)%nat with 1%nat by lia. simpl.
  fold c. apply Z.eqb_eq. change 255 with (Z.ones 8). unfold crc_in in Hc.
  rewrite !u8_small.
  - apply Z.bits_inj'. intros n Hn. rewrite Z.lor_spec, Z.land_spec.
    destruct (decide (n < 8)).
    + rewrite Z.ones_spec_low, Z.shiftl_spec_low, andb_true_r, orb_false_r by lia. done.
    + rewrite Z.ones_spec_high, Z.shiftl_spec, Z.shiftr_spec, andb_false_r by lia. simpl.
      f_equal. lia.
  - unfold is_u8. rewrite Z.shiftr_div_pow2 by lia. split; [apply Z.div_pos; lia|].
    apply Z.div_lt_upper_bound; lia.
  - unfold is_u8. rewrite Z.land_ones by lia. apply Z.mod_pos_bound. lia.
Qed.

(** ** The serial exchange *)

Section exchange.
Context {env : Env}.

Lemma read_with_timeout_spec fuel fd buf total max tmo n w rc buf' w' :
  (total ≤ max)%nat → (max ≤ length buf)%nat →
  read_with_timeout fuel fd buf total max tmo n w = Some ((rc, buf'), w') →
  length buf' = length buf ∧
  ∃ evs, w_trace w' = evs ++ w_trace w ∧
    (rc = -1 ∨
     let k := length (received fd evs) in
     (total + k ≤ max)%nat ∧ rc = Z.of_nat (total + k) ∧
     take (total + k) buf' = take total buf ++ received fd evs).
Proof.
  revert buf total w. induction fuel as [|fuel IH]; intros buf total w Ht Hm Hrun; simpl in Hrun;
    [done|].
  assert (∀ w2 evs, w_trace w2 = evs ++ w_trace w → received fd evs = [] →
    (rc, buf', w') = (Z.of_nat total, buf, w2) →
    length buf' = length buf ∧ ∃ evs, w_trace w' = evs ++ w_trace w ∧
      (rc = -1 ∨ let k := length (received fd evs) in
       (total + k ≤ max)%nat ∧ rc = Z.of_nat (total + k) ∧
       take (total + k) buf' = take total buf ++ received fd evs)) as Hstop.
  { intros w2 evs Etr Er E. simplify_eq. split; [done|]. exists evs. split; [done|]. right.
    rewrite Er. simpl. rewrite Nat.add_0_r, app_nil_r. auto. }
  case_decide; [|unfold mret, io_ret in Hrun; simplify_eq; by refine (Hstop _ [] _ _ eq_refl)].
  apply bind_run in Hrun as (ready & w1 & H1 & H2). rewrite call_run in H1. injection H1 as <- <-.
  destruct (env_select _ _) eqn:Es; simpl in H2;
    [|unfold mret, io_ret in H2; simplify_eq; by refine (Hstop _ [_] _ _ eq_refl)].
  apply bind_run in H2 as (r & w2 & H2 & H3). unfold read in H2. rewrite call_run in H2.
  simpl in H2. injection H2 as Hr <-.
  destruct r as [data| |]; simpl in H3.
  - assert (length data ≤ max - total)%nat as Hlen.
    { destruct (env_read _ _ _); simpl in Hr; simplify_eq.
      rewrite length_fmap, length_take. lia. }
    destruct data as [|b data].
    { unfold mret, io_ret in H3. simplify_eq.
      refine (Hstop _ [_; _] _ _ eq_refl); [done|]. simpl. rewrite Hr. simpl. by destruct (fd =? fd). }
    set (d := b :: data) in *. clearbody d.
    assert (∀ evs0, received fd (evs0 ++ [EvRecv fd (max - total) (RdOk d);
      EvSelect fd (tmo / 1000) (tmo mod 1000 * 1000) true]) = d ++ received fd evs0) as Hev.
    { intros. rewrite received_app. simpl. by rewrite Z.eqb_refl. }
    rewrite Hr in H3.
    assert (take (total + length d) (write_at total d buf) = take total buf ++ d) as Hw
      by (apply write_at_take; lia).
    case_decide.
    + unfold mret, io_ret in H3. simplify_eq. rewrite write_at_length. split; [done|].
      eexists [_; _]. split; [done|]. right. specialize (Hev []). simpl app in Hev. rewrite Hev.
      rewrite app_nil_r. cbv zeta. split_and!; [lia|done|done].
    + apply IH in H3 as (Hl & evs & Etr & Hrest); [|lia|rewrite write_at_length; lia].
      rewrite write_at_length in Hl. split; [done|].
      exists (evs ++ [EvRecv fd (max - total) (RdOk d);
        EvSelect fd (tmo / 1000) (tmo mod 1000 * 1000) true]).
      split; [by rewrite <- app_assoc, Etr|]. destruct Hrest as [|(Hk & -> & Htk)]; [by left|right].
      rewrite Hev, length_app. cbv zeta in *. rewrite Nat.add_assoc.
      split_and!; [lia|done|]. by rewrite Htk, Hw, app_assoc.
  - apply IH in H3 as (Hl & evs & Etr & Hrest); [|done..].
    split; [done|]. rewrite Hr in Etr.
    exists (evs ++ [EvRecv fd (max - total) RdAgain;
        EvSelect fd (tmo / 1000) (tmo mod 1000 * 1000) true]).
    split; [by rewrite <- app_assoc, Etr|].
    by rewrite received_app.
  - unfold mret, io_ret in H3. simplify_eq. split; [done|]. eexists [_; _]. split; [done|]. by left.
Qed.

(** C14: when the exchange answers a length, that many bytes of the response
    are exactly what the line delivered, at least five and never more than the
    buffer holds, they pass the checksum test, and the whole request went out;
    in every other case it answers -1.  The response never grows. *)
Theorem serial_exchange_sound fd req req_len resp max tmo n w rc res w' :
  (max ≤ length resp)%nat →
  modbus_serial_exchange fd (Some req) req_len (Some resp) max tmo n w = Some ((rc, res), w') →
  ∃ resp', res = Some resp' ∧ length resp' = length resp ∧
  (rc = -1 ∨
   ∃ evs, w_trace w' = evs ++ EvSend fd (take req_len req) (WrOk req_len) :: w_trace w ∧
     5 <= rc <= Z.of_nat max ∧
     take (Z.to_nat rc) resp' = received fd evs ∧
     rc = Z.of_nat (length (received fd evs)) ∧
     frame_ok (received fd evs) = true).
Proof.
  intros Hmax H. unfold modbus_serial_exchange in H.
  destruct (fd <? 0); simpl in H; [by io_done H|].
  case_bool_decide; simpl in H; [by io_done H|]. case_bool_decide; simpl in H; [by io_done H|].
  apply bind_run in H as (r & w1 & Hw & H). unfold write in Hw. rewrite call_run in Hw.
  injection Hw as Hr <-.
  destruct r as [k| |]; simpl in H; [|by io_done H..].
  case_bool_decide; [|by io_done H]. subst k. rewrite Hr in H.
  apply bind_run in H as ([m resp'] & w2 & Hrd & H). unfold with_fuel in Hrd. simpl in H.
  apply read_with_timeout_spec in Hrd as (Hl & evs & Etr & Hres); [|lia|done]. simpl in Etr.
  destruct (m <? 5) eqn:E5; [io_done H; eauto|]. apply Z.ltb_ge in E5.
  destruct Hres as [->|(Hk & -> & Htk)]; [lia|]. simpl in Hk, Htk. rewrite Nat2Z.id in H.
  destruct (_ =? _) eqn:Ecrc in H; io_done H.
  exists resp'. split_and!; [done..|]. right. exists evs. rewrite Nat2Z.id.
  split_and!; [done|lia..|done|done|].
  rewrite <- Ecrc, frame_prefix by lia. simpl plus. by rewrite Htk.
Qed.

Lemma read_with_timeout_returns k fuel fd buf total max tmo n w :
  (∀ tr m, env_read tr fd m = RdAgain → retries fd tr < k)%nat →
  ((k - retries fd (w_trace w)) + (5 - total) < fuel)%nat →
  is_Some (read_with_timeout fuel fd buf total max tmo n w).
Proof.
  intros Hk. revert buf total w.
  induction fuel as [|fuel IH]; intros buf total w Hf; simpl; [lia|].
  case_decide; [|by eexists].
  unfold mbind, io_bind, call. destruct (env_select _ _); simpl; [|by eexists].
  unfold read, call. simpl. set (tr := EvSelect _ _ _ _ :: _).
  assert (retries fd tr = retries fd (w_trace w)) as Etr by done.
  destruct (env_read tr fd (max - total)) eqn:Er; simpl; [|apply IH|by eexists].
  - destruct (u8 <$> take (max - total) data) as [|b d]; [by eexists|].
    case_decide; [by eexists|]. apply IH. cbn [w_trace]. rewrite retries_cons, Etr. simpl in *. lia.
  - pose proof (Hk _ _ Er). cbn [w_trace]. rewrite retries_cons, Etr in *. cbn [is_retry].
    rewrite Z.eqb_refl. lia.
Qed.

(** The exchange terminates: if the line answers not ready or interrupted
    at most [k] times, [k + 6] rounds of the reading loop are enough, whatever
    the sizes, the timeout and the bytes delivered. *)
Theorem serial_exchange_returns fd req req_len resp max tmo k fuel w :
  (∀ tr m, env_read tr fd m = RdAgain → retries fd tr < k)%nat →
  (k + 6 ≤ fuel)%nat →
  is_Some (modbus_serial_exchange fd req req_len resp max tmo fuel w).
Proof.
  intros Hk Hf. unfold modbus_serial_exchange.
  destruct req as [req|]; [|by eexists]. destruct resp as [resp|]; [|by eexists].
  destruct (_ || _); [by eexists|].
  erewrite bind_eq; [|reflexivity]. set (w1 := mk_world (EvSend _ _ _ :: _) _).
  destruct (match clip_write _ _ with WrOk _ => _ | _ => _ end); [|by eexists].
  unfold mbind, io_bind, with_fuel.
  destruct (read_with_timeout_returns k fuel fd resp 0 max tmo fuel w1 Hk) as [[[m r] w2] ->]; [lia|].
  destruct (m <? 5); [by eexists|]. destruct (_ =? _); by eexists.
Qed.

(** The exchange decides on the first chunk of at least five bytes: with a
    line that delivers [chunk] first, the answer is the length of [chunk] when
    it passes the checksum test and -1 otherwise, whatever follows it; a frame
    that arrives in two pieces is judged by its first piece. *)
Theorem serial_exchange_first_chunk fd req req_len resp max tmo chunk fuel w :
  0 <= fd → (4 ≤ req_len ≤ length req)%nat → (5 ≤ max)%nat →
  env_write (w_trace w) fd (take req_len req) = WrOk req_len →
  (∀ tr, env_select tr fd = true) → (∀ tr m, env_read tr fd m = RdOk chunk) →
  Forall is_u8 chunk → (5 ≤ length chunk ≤ max)%nat → (max ≤ length resp)%nat →
  ∃ w', modbus_serial_exchange fd (Some req) req_len (Some resp) max tmo (S fuel) w =
    Some (if frame_ok chunk then Z.of_nat (length chunk) else -1,
          Some (write_at 0 chunk resp), w').
Proof.
  intros Hfd Hreq Hmax Hw Hs Hr Hu Hc Hresp. unfold modbus_serial_exchange.
  destruct (Z.ltb_spec fd 0); [lia|]. rewrite !bool_decide_eq_false_2 by lia. cbn [orb].
  erewrite bind_eq; [|reflexivity]. rewrite Hw. cbn [clip_write].
  rewrite bool_decide_eq_true_2 by (rewrite length_take; lia).
  assert (u8 <$> take (max - 0) chunk = chunk) as Eclip.
  { rewrite take_ge by lia. by apply u8_fmap_id. }
  assert (take (length chunk) (write_at 0 chunk resp) = chunk) as Ht
    by exact (write_at_take 0 chunk resp ltac:(lia)).
  erewrite bind_eq.
  2: { unfold with_fuel. simpl read_with_timeout. rewrite decide_True by lia.
    erewrite bind_eq; [|reflexivity]. rewrite Hs. cbn [negb].
    erewrite bind_eq; [|reflexivity]. rewrite Hr. unfold clip_read at 1 2. rewrite Eclip.
    destruct chunk as [|b chunk'] eqn:Ec; [simpl in Hc; lia|]. rewrite <- Ec.
    rewrite decide_True by (subst; lia). reflexivity. }
  cbn beta iota. rewrite Nat2Z.id, frame_prefix by (rewrite write_at_length; lia).
  rewrite Ht. destruct (Z.ltb_spec (Z.of_nat (length chunk)) 5); [lia|].
  destruct (frame_ok chunk); by eexists.
Qed.

End exchange.

(** ** The points delivered *)

(** A point as the sensors deliver it: within its buffers, of good quality,
    with a value that is a number and not negative. *)
Record sensor_point (t : telemetry_t) : Prop := {
  sp_wf : telemetry_wf t;
  sp_quality : tel_quality t = TELEMETRY_QUALITY_GOOD;
  sp_value : nonneg (tel_value t) = true
}.

Lemma fill3_points out now src a b c :
  (3 ≤ length out)%nat → is_u64 now → is_u16 src →
  nonneg a = true → nonneg b = true → nonneg c = true →
  length (fill3 out now src a b c) = length out ∧
  Forall sensor_point (take 3 (fill3 out now src a b c)) ∧
  tel_value <$> take 3 (fill3 out now src a b c) = [a; b; c].
Proof.
  intros Hl Hn Hs Ha Hb Hc. unfold fill3. rewrite write_at_length.
  set (pts := [_; _; _]).
  assert (take 3 (write_at 0 pts out) = pts) as -> by exact (write_at_take 0 pts out Hl).
  split_and!; [done| |done].
  repeat constructor; try done; auto using telemetry_init_wf; by apply telemetry_init_wf.
Qed.

Lemma sim_values_nonneg seq :
  nonneg (sim_soc seq) = true ∧ nonneg (sim_temp seq) = true ∧ nonneg (sim_power seq) = true.
Proof.
  assert (∀ m x, 0 < m <= 80 → x mod m ∈ seqZ 0 80) as Hin.
  { intros m x Hm. apply elem_of_seqZ. pose proof (Z.mod_pos_bound x m). lia. }
  assert (forallb (λ k,
    nonneg (dsub (d_of_Z 80) (dmul (d_of_Z k) (dlit 2 10)))
    && nonneg (dadd (d_of_Z 28) (dmul (d_of_Z k) (dlit 2 10)))
    && nonneg (dadd (d_of_Z 90) (d_of_Z k))) (seqZ 0 80) = true) as Hall by (vm_compute; reflexivity).
  rewrite forallb_forall in Hall. setoid_rewrite <- list_elem_of_In in Hall.
  unfold sim_soc, sim_temp, sim_power.
  split_and!; [specialize (Hall _ (Hin 30 seq ltac:(lia)))|specialize (Hall _ (Hin 20 seq ltac:(lia)))|
    specialize (Hall _ (Hin 80 seq ltac:(lia)))]; apply andb_true_iff in Hall as [Hall ?];
    apply andb_true_iff in Hall as [? ?]; auto.
Qed.

Lemma reg_value_nonneg r : nonneg (reg_value r) = true.
Proof.
  pose proof (u16_range r) as Hr. unfold is_u16 in Hr. apply dmul_nonneg; [|done| |done].
  - apply d_of_Z_finite. unfold prec. lia.
  - apply d_of_Z_nonneg. lia.
Qed.

(** ** libmodbus *)

Section libmodbus.
Context {env : Env}.

Lemma libmodbus_shutdown_run n w :
  modbus_libmodbus_shutdown n w =
    Some (tt, if g_ctx (w_glob w)
              then mk_world (EvModbusFree :: EvModbusClose :: w_trace w)
                     (with_ctx (w_glob w) false "")
              else w).
Proof.
  unfold modbus_libmodbus_shutdown. erewrite bind_eq by reflexivity. by destruct (g_ctx (w_glob w)).
Qed.

Lemma set_timeout_run sec usec n w rc w' :
  modbus_set_response_timeout sec usec n w = Some (rc, w') →
  ∃ evs, w' = mk_world (evs ++ w_trace w) (w_glob w) ∧
    evs = if (sec =? 0) && (usec =? 0) || (999999 <? usec) then [] else [EvModbusTimeout sec usec].
Proof.
  unfold modbus_set_response_timeout. intros H. destruct (_ || _).
  - io_done H. exists []. by destruct w'.
  - io_go H. io_done H. by exists [EvModbusTimeout sec usec].
Qed.

(** The response timeouts a trace hands to libmodbus. *)
Definition ev_timeout (e : event) : option (Z * Z) :=
  match e with EvModbusTimeout s u => Some (s, u) | _ => None end.

Definition timeouts (evs : list event) : list (Z * Z) := omap ev_timeout evs.

(** The context after [ensure_context], and the response timeout of a context
    it created. *)
Lemma ensure_context_run cfg n w rc w' :
  ensure_context cfg n w = Some (rc, w') →
  (rc = 0 ∧ g_ctx (w_glob w') = true ∧
     (fits 8 (cfg_modbus_transport cfg) → g_transport (w_glob w') = cfg_modbus_transport cfg) ∨
   rc = -1 ∧ g_ctx (w_glob w') = false) ∧
  (g_ctx (w_glob w) = false → env_modbus_new (w_trace w) (cfg_modbus_transport cfg) = true →
   let u := u32 (cfg_modbus_timeout_ms cfg * 1000) in
   ∃ evs, w_trace w' = evs ++ w_trace w ∧
     timeouts evs = if (u =? 0) || (999999 <? u) then [] else [(0, u)]).
Proof.
  unfold ensure_context. intros H. io_go H. set (u := u32 _) in *.
  destruct (g_ctx (w_glob w) && _) eqn:Euse.
  { apply andb_true_iff in Euse as [Eg Et]. apply bool_decide_eq_true in Et. io_done H.
    split; [left; auto|congruence]. }
  clear Euse. erewrite bind_eq in H by apply libmodbus_shutdown_run.
  set (w1 := if g_ctx (w_glob w) then _ else w) in H.
  assert (g_ctx (w_glob w1) = false) as Eoff by (subst w1; by destruct (g_ctx (w_glob w)) eqn:E).
  assert (g_ctx (w_glob w) = false → w1 = w) as Ew1 by (subst w1; by intros ->).
  clearbody w1. io_go H. destruct (env_modbus_new (w_trace w1) _) eqn:Enew; cbn [negb] in H.
  2: { io_go H. io_done H. split; [by right|]. intros E ?. rewrite Ew1 in Enew by done. congruence. }
  io_go H. apply bind_run in H as (rc1 & w2 & Ht & H).
  apply set_timeout_run in Ht as (evs & -> & Hevs). io_go H. cbn [Z.eqb andb] in Hevs.
  set (ev0 := if decide _ then _ else _) in H.
  assert (∀ evs', timeouts evs' = [] → g_ctx (w_glob w) = false →
    w_trace w' = evs' ++ evs ++ EvModbusSlave (cfg_modbus_slave_id cfg) :: ev0 true :: w_trace w1 →
    ∃ evs, w_trace w' = evs ++ w_trace w ∧
      timeouts evs = if (u =? 0) || (999999 <? u) then [] else [(0, u)]) as Hend.
  { intros evs' Hno Eg Etr. rewrite Ew1 in Etr by done.
    eexists (evs' ++ evs ++ [_; _]). split; [by rewrite Etr, <- !app_assoc|].
    unfold timeouts in *. rewrite !omap_app, Hno, Hevs. subst ev0.
    destruct (decide (cfg_modbus_transport cfg = _)), ((u =? 0) || _); done. }
  destruct (env_modbus_connect _) eqn:Econn; cbn [negb] in H; io_go H; io_done H.
  - split; [left; split_and!; [done..|]|].
    + simpl. intros. by apply snprintf_id.
    + simpl. intros Eg _. eapply (Hend [_; _]); [|done|reflexivity]; done.
  - split; [by right|]. intros Eg _. eapply (Hend [_; _; _]); [|done|reflexivity]; done.
Qed.

(** The response timeout reaches libmodbus only when it is shorter than
    one second: when a context is created, the configured number of
    milliseconds is set exactly if it is between 1 and 999; from 1000 on,
    libmodbus rejects the call and keeps its own default. *)
Theorem response_timeout_below_one_second cfg n w rc w' :
  ensure_context cfg n w = Some (rc, w') →
  g_ctx (w_glob w) = false → env_modbus_new (w_trace w) (cfg_modbus_transport cfg) = true →
  0 <= cfg_modbus_timeout_ms cfg <= 4294967 →
  ∃ evs, w_trace w' = evs ++ w_trace w ∧
    timeouts evs = if bool_decide (1 <= cfg_modbus_timeout_ms cfg <= 999)
                   then [(0, cfg_modbus_timeout_ms cfg * 1000)] else [].
Proof.
  intros H Hg Hn Hms. apply ensure_context_run in H as [_ H].
  destruct (H Hg Hn) as (evs & Etr & Ets). exists evs. split; [done|]. rewrite Ets.
  rewrite u32_small by (unfold is_u32; lia).
  destruct (Z.eqb_spec (cfg_modbus_timeout_ms cfg * 1000) 0),
    (Z.ltb_spec 999999 (cfg_modbus_timeout_ms cfg * 1000)); cbn [orb];
    (rewrite bool_decide_eq_false_2 by lia) || (rewrite bool_decide_eq_true_2 by lia); done.
Qed.

Lemma libmodbus_poll_run cfg out n w rc res w' :
  3 <= Z.of_nat (length out) →
  modbus_libmodbus_poll (Some cfg) (Some out) (Z.of_nat (length out)) n w = Some ((rc, res), w') →
  (rc = 3 ∧ g_ctx (w_glob w') = true ∧
     ∃ out' r0 r1 r2 tr, res = Some out' ∧ length out' = length out ∧
       env_modbus_read tr = Some (r0, r1, r2) ∧ tr `suffix_of` w_trace w' ∧
       Forall sensor_point (take 3 out') ∧
       tel_value <$> take 3 out' = [reg_value r0; reg_value r1; reg_value r2]) ∨
  (rc = -1 ∧ g_ctx (w_glob w') = false ∧ res = Some out).
Proof.
  intros Hmax H. unfold modbus_libmodbus_poll in H.
  destruct (Z.ltb_spec (Z.of_nat (length out)) 3); [lia|].
  apply bind_run in H as (rc1 & w1 & Hens & H). apply ensure_context_run in Hens as [Hens _].
  destruct Hens as [(-> & Hon & _)|(-> & Hoff)]; cbn [Z.eqb negb] in H; [|right; by io_done H].
  io_go H. destruct (env_modbus_read (w_trace w1)) as [[[r0 r1] r2]|] eqn:Er.
  - apply bind_run in H as ([m o'] & w2 & Hmap & H).
    unfold map_registers_to_telemetry in Hmap. apply bind_run in Hmap as (now & w3 & Hnow & Hmap).
    apply now_ms_run in Hnow as (Hu & -> & _).
    destruct (Z.ltb_spec (Z.of_nat (length out)) 3); [lia|]. io_done Hmap. io_done H.
    left. split_and!; [done..|].
    destruct (fill3_points out now 2 (reg_value r0) (reg_value r1) (reg_value r2))
      as (Hl & Hf & Hv); auto using reg_value_nonneg; [lia|unfold is_u16; lia|].
    eexists _, r0, r1, r2, (w_trace w1). split_and!; [done..| |done|done].
    by eexists [_; _].
  - io_go H. erewrite bind_eq in H by apply libmodbus_shutdown_run.
    cbn [w_glob] in H. rewrite Hon in H. io_done H.
Qed.

(** C40: a poll through libmodbus either delivers the three registers it read,
    in tenths, as three good points with non-negative values, and keeps the
    connection; or it answers -1, leaves the output untouched and the
    connection closed, so that the next poll opens it again. *)
Theorem libmodbus_poll_spec cfg out max_out n w rc res w' :
  3 <= max_out → max_out = Z.of_nat (length out) →
  modbus_libmodbus_poll (Some cfg) (Some out) max_out n w = Some ((rc, res), w') →
  (rc = 3 ∧ g_ctx (w_glob w') = true ∧
     ∃ out' r0 r1 r2 tr, res = Some out' ∧ length out' = length out ∧
       env_modbus_read tr = Some (r0, r1, r2) ∧ tr `suffix_of` w_trace w' ∧
       Forall sensor_point (take 3 out') ∧
       tel_value <$> take 3 out' = [reg_value r0; reg_value r1; reg_value r2]) ∨
  (rc = -1 ∧ g_ctx (w_glob w') = false ∧ res = Some out).
Proof.
  intros Hmax ->. by apply libmodbus_poll_run.
Qed.

Lemma modbus_rtu_poll_ok cfg out n w rc res w' :
  modbus_rtu_poll (Some cfg) (Some out) (Z.of_nat (length out)) n w = Some ((rc, res), w') →
  ∃ out', res = Some out' ∧ length out' = length out ∧ rc <= Z.of_nat (length out) ∧
    (0 < rc → Forall sensor_point (take (Z.to_nat rc) out')).
Proof.
  unfold modbus_rtu_poll. destruct (Z.ltb_spec (Z.of_nat (length out)) 3).
  { intros E. io_done E. exists out. split_and!; [done..|lia|lia]. }
  destruct (cfg_simulate cfg).
  - unfold modbus_poll_simulate. destruct (Z.ltb_spec (Z.of_nat (length out)) 3); [lia|]. intros E.
    apply bind_run in E as (now & w1 & Hnow & E). apply now_ms_run in Hnow as (Hu & -> & _).
    io_go E. io_done E. destruct (sim_values_nonneg (g_sim_seq (w_glob w))) as (? & ? & ?).
    destruct (fill3_points out now 2 (sim_soc (g_sim_seq (w_glob w)))
      (sim_temp (g_sim_seq (w_glob w))) (sim_power (g_sim_seq (w_glob w)))) as (Hl & Hf & _);
      auto; [lia|unfold is_u16; lia|].
    eexists. split_and!; [done|done|lia|]. by intros _.
  - intros E. apply libmodbus_poll_run in E as [(-> & _ & out' & r0 & r1 & r2 & tr & -> & Hl & _ & _ & Hf & _)|(-> & _ & ->)];
      [..|lia].
    + exists out'. split_and!; [done|done|lia|]. by intros _.
    + exists out. split_and!; [done|done|lia|lia].
Qed.
End libmodbus.

(** ** Concrete runs *)

(** The reading of three registers, 500, 300 and 1200. *)
Definition demo_reply : bytes := crc_frame [0x01; 0x03; 0x06; 0x01; 0xF4; 0x01; 0x2C; 0x04; 0xB0].
Definition demo_request : bytes := crc_frame [0x01; 0x03; 0x00; 0x00; 0x00; 0x03].

Lemma crc_detects_burst_witness :
  frame_ok ([0x01; 0x03; 0x02] ++ [0x02; 0x58] ++ [0xB8; 0xDE]) = true ∧
  frame_ok ([0x01; 0x03; 0x02] ++ [0x02; 0x59] ++ [0xB8; 0xDE]) = false.
Proof.
  split; [reflexivity|].
  apply (crc_detects_burst [0x01; 0x03; 0x02] 0x02 0x58 0x02 0x59 [0xB8; 0xDE]);
    [repeat constructor; unfold is_u8; lia|unfold is_u8; lia|unfold is_u8; lia|congruence|reflexivity].
Defined.

Lemma crc_frame_accepted_witness :
  frame_ok (crc_frame [0x01; 0x03]) = true ∧ is_u16 (modbus_crc16 [0x01; 0x03] 2).
Proof. apply (crc_frame_accepted [0x01; 0x03]). repeat constructor; unfold is_u8; lia. Defined.

(** The whole reply is accepted; its first six bytes, delivered alone first,
    are not. *)
Lemma serial_exchange_first_chunk_witness :
  (∃ w', @modbus_serial_exchange (demo_env demo_reply []) 7 (Some demo_request) 8
           (Some (replicate 64 0)) 64 100 1%nat world_init
         = Some (11, Some (write_at 0 demo_reply (replicate 64 0)), w')) ∧
  (∃ w', @modbus_serial_exchange (demo_env (take 6 demo_reply) []) 7 (Some demo_request) 8
           (Some (replicate 64 0)) 64 100 1%nat world_init
         = Some (-1, Some (write_at 0 (take 6 demo_reply) (replicate 64 0)), w')).
Proof.
  split.
  - apply (@serial_exchange_first_chunk (demo_env demo_reply []) 7 demo_request 8
      (replicate 64 0) 64 100 demo_reply 0 world_init);
      try done; try lia; try (vm_compute; lia).
    repeat constructor; vm_compute; intros; congruence.
  - apply (@serial_exchange_first_chunk (demo_env (take 6 demo_reply) []) 7 demo_request 8
      (replicate 64 0) 64 100 (take 6 demo_reply) 0 world_init);
      try done; try lia; try (vm_compute; lia).
    repeat constructor; vm_compute; intros; congruence.
Defined.

Lemma serial_exchange_sound_witness :
  ∃ res w', @modbus_serial_exchange (demo_env demo_reply []) 7 (Some demo_request) 8
              (Some (replicate 64 0)) 64 100 1%nat world_init = Some ((11, res), w') ∧
  ∃ resp', res = Some resp' ∧ length resp' = 64%nat ∧
  (11 = -1 ∨
   ∃ evs, w_trace w' = evs ++ [EvSend 7 demo_request (WrOk 8)] ∧
     5 <= 11 <= 64 ∧ take 11 resp' = received 7 evs ∧ 11 = Z.of_nat (length (received 7 evs)) ∧
     frame_ok (received 7 evs) = true).
Proof.
  eexists _, _. split; [vm_compute; reflexivity|].
  apply (@serial_exchange_sound (demo_env demo_reply []) 7 demo_request 8 (replicate 64 0) 64 100 1
    world_init); [vm_compute; lia|vm_compute; reflexivity].
Defined.

Lemma serial_exchange_returns_witness :
  is_Some (@modbus_serial_exchange (demo_env demo_reply []) 7 (Some demo_request) 8
             (Some (replicate 64 0)) 64 100 6%nat world_init).
Proof.
  apply (@serial_exchange_returns (demo_env demo_reply []) 7 (Some demo_request) 8
    (Some (replicate 64 0)) 64 100 0 6 world_init); [discriminate|lia].
Defined.

(** The default timeout, 500 ms, is set. *)
Lemma response_timeout_witness :
  ∃ w', @ensure_context (demo_env [] []) gateway_config_defaults 0%nat world_init = Some (0, w') ∧
  ∃ evs, w_trace w' = evs ++ [] ∧
    timeouts evs = if bool_decide (1 <= cfg_modbus_timeout_ms gateway_config_defaults <= 999)
                   then [(0, cfg_modbus_timeout_ms gateway_config_defaults * 1000)] else [].
Proof.
  eexists. split; [vm_compute; reflexivity|].
  apply (@response_timeout_below_one_second (demo_env [] []) gateway_config_defaults 0 world_init 0);
    [vm_compute; reflexivity|done|done|vm_compute; split; congruence].
Defined.

Lemma libmodbus_poll_spec_witness :
  ∃ res w', @modbus_libmodbus_poll (demo_env [] []) (Some gateway_config_defaults)
      (Some (replicate 4 telemetry_zero)) 4 0%nat world_init = Some ((3, res), w') ∧
  ((3 = 3 ∧ g_ctx (w_glob w') = true ∧
     ∃ out' r0 r1 r2 tr, res = Some out' ∧ length out' = 4%nat ∧
       @env_modbus_read (demo_env [] []) tr = Some (r0, r1, r2) ∧ tr `suffix_of` w_trace w' ∧
       Forall sensor_point (take 3 out') ∧
       tel_value <$> take 3 out' = [reg_value r0; reg_value r1; reg_value r2]) ∨
   (3 = -1 ∧ g_ctx (w_glob w') = false ∧ res = Some (replicate 4 telemetry_zero))).
Proof.
  eexists _, _. split; [vm_compute; reflexivity|].
  apply (@libmodbus_poll_spec (demo_env [] []) gateway_config_defaults (replicate 4 telemetry_zero) 4 0
    world_init); [lia|done|vm_compute; reflexivity].
Defined.
