(* ===== verification/Crc.v ===== *)
(** * The Modbus checksum is a polynomial remainder

    The bit loop of [modbus_crc16] ([src/src/ingress/modbus_rtu.c]) against the
    definition of the checksum in the Modbus specification: the remainder of a
    division of polynomials over GF(2) by [x^16 + x^15 + x^2 + 1], every byte
    sent low bit first.  A polynomial is an integer, whose bits are the
    coefficients; the code keeps its register mirrored. *)

From S2P Require Export Modbus.

#[local] Open Scope Z_scope.

(** ** Polynomials modulo the generator *)

Definition generator : Z := 0x18005.

(** The generator times a polynomial, given by its coefficients, the constant
    one first. *)
Fixpoint times_generator (q : list bool) : Z :=
  match q with
  | [] => 0
  | b :: q' => Z.lxor (if b then generator else 0) (Z.shiftl (times_generator q') 1)
  end.

(** Two polynomials are congruent when the generator divides their sum. *)
Definition congruent (a b : Z) : Prop := ∃ q, Z.lxor a b = times_generator q.

(** Closes an equation of sums by comparing bits. *)
Ltac bitwise := apply Z.bits_inj'; intros ?n ?Hn; rewrite ?Z.lxor_spec, ?Z.bits_0;
  repeat match goal with |- context [Z.testbit ?a ?n] => destruct (Z.testbit a n) end; try done.

(** Sum of two polynomials of any degree. *)
Fixpoint add_poly (p q : list bool) : list bool :=
  match p, q with
  | [], _ => q
  | _, [] => p
  | a :: p', b :: q' => xorb a b :: add_poly p' q'
  end.

Lemma times_add p q : times_generator (add_poly p q) = Z.lxor (times_generator p) (times_generator q).
Proof.
  revert q. induction p as [|a p IH]; intros [|b q]; simpl; rewrite ?Z.lxor_0_l, ?Z.lxor_0_r; [done..|].
  rewrite IH, Z.shiftl_lxor. destruct a, b; simpl; bitwise.
Qed.

#[export] Instance congruent_equivalence : Equivalence congruent.
Proof.
  split.
  - intros a. exists []. apply Z.lxor_nilpotent.
  - intros a b [q E]. exists q. by rewrite Z.lxor_comm.
  - intros a b c [p E1] [q E2]. exists (add_poly p q). rewrite times_add, <- E1, <- E2. bitwise.
Qed.

#[export] Instance lxor_congruent : Proper (congruent ==> congruent ==> congruent) Z.lxor.
Proof.
  intros a a' [p E1] b b' [q E2]. exists (add_poly p q). rewrite times_add, <- E1, <- E2. bitwise.
Qed.

Lemma shift1_congruent a b : congruent a b → congruent (Z.shiftl a 1) (Z.shiftl b 1).
Proof. intros [q E]. exists (false :: q). by rewrite <- Z.shiftl_lxor, E. Qed.

#[export] Instance shiftl_congruent (k : nat) : Proper (congruent ==> congruent) (λ a, Z.shiftl a (Z.of_nat k)).
Proof.
  induction k as [|k IH]; intros a b H; [by rewrite !Z.shiftl_0_r|].
  rewrite Nat2Z.inj_succ, <- Z.add_1_r, <- !Z.shiftl_shiftl by lia. by apply shift1_congruent, IH.
Qed.

(** ** Remainders are unique *)

(** A multiple that is not zero has a degree of 16 or more. *)
Lemma times_degree q :
  times_generator q = 0 ∨
  ∃ d, 16 <= d ∧ Z.testbit (times_generator q) d = true ∧ ∀ j, d < j → Z.testbit (times_generator q) j = false.
Proof.
  induction q as [|b q [IH|(d & Hd & Ht & Hh)]]; simpl; [by left|..].
  - rewrite IH, Z.shiftl_0_l, Z.lxor_0_r. destruct b; [right|by left]. exists 16. split_and!; [done|done|].
    intros j Hj. apply Z.bits_above_log2; [done|]. by change (Z.log2 generator) with 16.
  - right. exists (d + 1).
    assert (∀ j, d + 1 <= j → Z.testbit (Z.lxor (if b then generator else 0) (Z.shiftl (times_generator q) 1)) j
                             = Z.testbit (times_generator q) (j - 1)) as E.
    { intros j Hj. rewrite Z.lxor_spec, Z.shiftl_spec by lia. destruct b; [|by rewrite Z.bits_0].
      rewrite (Z.bits_above_log2 generator); [done..|]. change (Z.log2 generator) with 16. lia. }
    split_and!; [lia| |].
    + rewrite E by lia. by replace (d + 1 - 1) with d by lia.
    + intros j Hj. rewrite E by lia. apply Hh. lia.
Qed.

Lemma congruent_small a b : crc_in a → crc_in b → congruent a b → a = b.
Proof.
  intros Ha Hb [q E]. apply Z.lxor_eq. destruct (times_degree q) as [Hz|(d & Hd & Ht & _)]; [congruence|].
  rewrite <- E in Ht. pose proof (lxor_small_range 16 a b ltac:(lia) Ha Hb) as Hr.
  rewrite <- (Z.mod_small (Z.lxor a b) (2 ^ 16)), Z.mod_pow2_bits_high in Ht by lia. done.
Qed.

(** ** Mirrored registers *)

Fixpoint mirror (n : nat) (z : Z) : Z :=
  match n with
  | O => 0
  | S n' => Z.lxor (if Z.odd z then Z.shiftl 1 (Z.of_nat n') else 0) (mirror n' (Z.div2 z))
  end.

Lemma mirror_spec n z j :
  0 <= j → Z.testbit (mirror n z) j = (j <? Z.of_nat n) && Z.testbit z (Z.of_nat n - 1 - j).
Proof.
  intros Hj. revert z. induction n as [|n IH]; intros z; simpl mirror.
  { rewrite Z.bits_0. by rewrite (proj2 (Z.ltb_ge j (Z.of_nat 0))) by lia. }
  rewrite Z.lxor_spec, IH.
  assert (Z.testbit (if Z.odd z then Z.shiftl 1 (Z.of_nat n) else 0) j = (j =? Z.of_nat n) && Z.odd z) as ->.
  { destruct (Z.odd z); [|by rewrite Z.bits_0, andb_false_r]. rewrite andb_true_r, Z.shiftl_spec by done.
    destruct (Z.eqb_spec j (Z.of_nat n)) as [->|Hne]; [by rewrite Z.sub_diag|].
    destruct (Z.ltb_spec j (Z.of_nat n)); [by rewrite Z.testbit_neg_r by lia|].
    apply Z.bits_above_log2; simpl; lia. }
  destruct (Z.eqb_spec j (Z.of_nat n)) as [->|Hne].
  - rewrite Z.ltb_irrefl, (proj2 (Z.ltb_lt _ _)) by lia. simpl. rewrite xorb_false_r.
    replace (Z.of_nat (S n) - 1 - Z.of_nat n) with 0 by lia. by rewrite Z.bit0_odd.
  - simpl xorb. destruct (Z.ltb_spec j (Z.of_nat n)).
    + rewrite (proj2 (Z.ltb_lt j (Z.of_nat (S n)))) by lia. cbn [andb].
      rewrite Z.div2_spec, Z.shiftr_spec by lia. f_equal. lia.
    + by rewrite (proj2 (Z.ltb_ge j (Z.of_nat (S n)))) by lia.
Qed.

Lemma mirror_range n z : 0 <= mirror n z < 2 ^ Z.of_nat n.
Proof.
  assert (mirror n z = mirror n z `mod` 2 ^ Z.of_nat n) as ->; [|apply Z.mod_pos_bound; lia].
  rewrite <- Z.land_ones by lia. apply Z.bits_inj'. intros j Hj.
  rewrite Z.land_spec, mirror_spec by done. destruct (Z.ltb_spec j (Z.of_nat n)).
  - by rewrite Z.ones_spec_low, andb_true_r by lia.
  - done.
Qed.

Lemma mirror_lxor n a b : mirror n (Z.lxor a b) = Z.lxor (mirror n a) (mirror n b).
Proof.
  apply Z.bits_inj'. intros j Hj. rewrite Z.lxor_spec, !mirror_spec, Z.lxor_spec by done.
  by destruct (j <? Z.of_nat n).
Qed.

(** A byte at the low end of the register is at the high end of its mirror. *)
Lemma mirror_byte b : is_u8 b → mirror 16 b = Z.shiftl (mirror 8 b) 8.
Proof.
  intros Hb. apply Z.bits_inj'. intros j Hj. rewrite Z.shiftl_spec, mirror_spec by done.
  destruct (Z.ltb_spec j 8).
  - rewrite (Z.testbit_neg_r _ (j - 8)) by lia. rewrite (proj2 (Z.ltb_lt _ _)) by lia. cbn [andb].
    unfold is_u8 in Hb. rewrite <- (Z.mod_small b (2 ^ 8)) by lia. apply Z.mod_pow2_bits_high. lia.
  - rewrite mirror_spec by lia. f_equal; [|f_equal; lia].
    destruct (Z.ltb_spec j (Z.of_nat 16)), (Z.ltb_spec (j - 8) (Z.of_nat 8)); (done || lia).
Qed.

(** ** One bit, one byte, a message *)

(** In the mirror, a step of the loop multiplies by [x] and adds the generator
    when the degree reaches 16. *)
Lemma mirror_step c :
  crc_in c →
  mirror 16 (crc_bit c) = Z.lxor (Z.shiftl (mirror 16 c) 1) (if Z.testbit c 0 then generator else 0).
Proof.
  intros Hc. apply Z.bits_inj'. intros j Hj. unfold crc_bit. rewrite crc_bit_testbit.
  assert (Z.testbit c 16 = false) as H16.
  { unfold crc_in in Hc. rewrite <- (Z.mod_small c (2 ^ 16)) by lia. by apply Z.mod_pow2_bits_high. }
  rewrite Z.lxor_spec, Z.shiftl_spec, mirror_spec by done.
  destruct (decide (16 < j)) as [Hh|Hh].
  { rewrite (proj2 (Z.ltb_ge j _)), mirror_spec, (proj2 (Z.ltb_ge (j - 1) _)) by lia. cbn [andb xorb].
    destruct (Z.testbit c 0); [|by rewrite Z.bits_0]. symmetry. apply Z.bits_above_log2; [done|].
    change (Z.log2 generator) with 16. lia. }
  assert (j = 0 ∨ j = 16 ∨ 1 <= j <= 15) as [->|[->|Hm]] by lia.
  - rewrite (Z.testbit_neg_r _ (0 - 1)) by lia. change ((0 <? Z.of_nat 16) && ?b) with b.
    change (Z.of_nat 16 - 1 - 0) with 15.
    destruct (Z.testbit c 0); rewrite ?Z.lxor_spec, Z.shiftr_spec by lia; change (15 + 1) with 16; by rewrite H16.
  - rewrite mirror_spec by lia. change (Z.of_nat 16 - 1 - (16 - 1)) with 0. by destruct (Z.testbit c 0).
  - rewrite mirror_spec by lia. rewrite !(proj2 (Z.ltb_lt _ _)) by lia. cbn [andb].
    assert (Z.testbit 0xA001 (Z.of_nat 16 - 1 - j) = Z.testbit generator j) as E.
    { clear -Hm. assert (j ∈ seqZ 1 15) as Hj by (apply elem_of_seqZ; lia). revert j Hm Hj.
      assert (Forall (λ j, Z.testbit 0xA001 (Z.of_nat 16 - 1 - j) = Z.testbit generator j) (seqZ 1 15)) as F
        by (repeat constructor).
      intros j _ Hj. by eapply Forall_forall in F. }
    destruct (Z.testbit c 0); rewrite ?Z.lxor_spec, Z.shiftr_spec, ?E, ?Z.bits_0, ?xorb_false_r by lia;
      repeat f_equal; lia.
Qed.

Lemma mirror_iter k c :
  crc_in c → congruent (mirror 16 (Nat.iter k crc_bit c)) (Z.shiftl (mirror 16 c) (Z.of_nat k)).
Proof.
  intros Hc. induction k as [|k IH]; [by rewrite Z.shiftl_0_r|].
  rewrite Nat.iter_succ, mirror_step by (by apply crc_iter_range).
  apply shift1_congruent in IH. rewrite Z.shiftl_shiftl in IH by lia.
  rewrite Nat2Z.inj_succ, <- Z.add_1_r. trans (Z.shiftl (mirror 16 (Nat.iter k crc_bit c)) 1); [|done].
  exists [Z.testbit (Nat.iter k crc_bit c) 0]. cbn [times_generator].
  rewrite Z.shiftl_0_l. destruct (Z.testbit (Nat.iter k crc_bit c) 0); bitwise.
Qed.

Lemma mirror_crc_byte c b :
  crc_in c → is_u8 b →
  congruent (mirror 16 (crc_byte c b)) (Z.lxor (Z.shiftl (mirror 16 c) 8) (Z.shiftl (mirror 8 b) 16)).
Proof.
  intros Hc Hb. unfold crc_byte.
  assert (crc_in (Z.lxor c b)) as Hcb by (unfold crc_in, is_u8 in *; apply lxor_small_range; lia).
  rewrite (mirror_iter 8 _ Hcb), mirror_lxor, (mirror_byte b Hb), Z.shiftl_lxor.
  rewrite (Z.shiftl_shiftl (mirror 8 b) 8) by lia. done.
Qed.

(** The polynomial of a message: the first bit sent is the highest coefficient. *)
Definition message_poly (msg : bytes) : Z := foldl (λ m b, Z.lxor (Z.shiftl m 8) (mirror 8 b)) 0 msg.

(** The dividend: the message and 16 zeros, its first two bytes complemented. *)
Definition dividend (msg : bytes) : Z :=
  Z.lxor (Z.shiftl (message_poly msg) 16) (Z.shiftl 0xFFFF (8 * Z.of_nat (length msg))).

Lemma mirror_fold msg :
  Forall is_u8 msg → crc_in (foldl crc_byte 0xFFFF msg) ∧
  congruent (mirror 16 (foldl crc_byte 0xFFFF msg)) (dividend msg).
Proof.
  induction msg as [|b msg IH] using rev_ind; intros H; [done|].
  apply Forall_app in H as [H [Hb _]%Forall_cons]. destruct (IH H) as [Hr Hc]. clear IH.
  rewrite foldl_snoc. split; [by apply crc_byte_range|]. rewrite mirror_crc_byte by done.
  apply (shiftl_congruent 8) in Hc. rewrite Hc.
  unfold dividend, message_poly. rewrite foldl_snoc, length_app. change (Z.of_nat 8) with 8.
  rewrite !Z.shiftl_lxor, !Z.shiftl_shiftl by lia. simpl length.
  replace (8 * Z.of_nat (length msg + 1)) with (8 * Z.of_nat (length msg) + 8) by lia.
  change (16 + 8) with 24. change (8 + 16) with 24. exists []. bitwise.
Qed.

(** C17: the checksum is the one of the specification: mirrored, it is a
    polynomial of degree below 16 congruent, modulo the generator, to the
    message (every byte low bit first) followed by 16 zeros, with the first 16
    bits complemented; and it is the only one, so that the bit loop computes
    the remainder of the division, for messages of any length. *)
Theorem crc_is_remainder msg :
  Forall is_u8 msg →
  let r := mirror 16 (modbus_crc16 msg (length msg)) in
  0 <= r < 2 ^ 16 ∧ congruent r (dividend msg) ∧
  ∀ r', 0 <= r' < 2 ^ 16 → congruent r' (dividend msg) → r' = r.
Proof.
  intros H. cbv zeta. rewrite modbus_crc16_all by done. destruct (mirror_fold msg H) as [Hr Hc].
  pose proof (mirror_range 16 (foldl crc_byte 0xFFFF msg)) as Hm. split_and!; [apply Hm..|done|].
  intros r' Hr' Hc'. apply congruent_small; [done|done|]. by rewrite Hc', Hc.
Qed.

(** The request of the Modbus documentation: 01 03 00 00 00 02, checksum C4 0B. *)
Lemma crc_is_remainder_witness :
  let msg := [0x01; 0x03; 0x00; 0x00; 0x00; 0x02] in
  modbus_crc16 msg 6 = 0x0BC4 ∧ congruent (mirror 16 0x0BC4) (dividend msg).
Proof.
  cbv zeta. split; [vm_compute; reflexivity|].
  refine (proj1 (proj2 (crc_is_remainder [0x01; 0x03; 0x00; 0x00; 0x00; 0x02] _))).
  repeat constructor; unfold is_u8; lia.
Defined.
