(* ===== verification/Plugins.v ===== *)
(** * The two plugins ([src/src/ingress/stub_adapter.c], [modbus_adapter.c])

    The simulated source and the Modbus source, as instances of the adapter
    interface, and the proof that both keep its contract. *)

From S2P Require Export Adapter Modbus.

#[local] Open Scope Z_scope.

Definition with_stub (g : globals) (seq : Z) (cfg : option gateway_config_t) : globals :=
  mk_globals seq cfg (g_modbus_cfg g) (g_sim_seq g)
    (g_ctx g) (g_transport g) (g_notify_fd g) (g_enabled g) (g_log_fp g).
Definition with_modbus_cfg (g : globals) (cfg : option gateway_config_t) : globals :=
  mk_globals (g_stub_seq g) (g_stub_cfg g) cfg (g_sim_seq g)
    (g_ctx g) (g_transport g) (g_notify_fd g) (g_enabled g) (g_log_fp g).

Definition bool_text (b : bool) : string := if b then "true" else "false".

Section plugins.
Context {env : Env}.

(** ** The stub *)

(** The [ctx] of a stub is [g_stub_ctx] or NULL. *)
Definition stub_init : init_fn := λ self cfg,
  match self, cfg with
  | Some s, Some c =>
      match ad_ctx s with
      | None => mret (-1, self)
      | Some _ =>
          g ← get_globals;
          set_globals (with_stub g 0 (Some c));;
          log_info ("stub adapter init: name=" +:+ ad_name s +:+ " simulate=" +:+
                    bool_text (cfg_simulate c) +:+ " source_id=" +:+ dec (ad_source_id s));;
          mret (0, self)
      end
  | _, _ => mret (-1, self)
  end.

Definition stub_shutdown : shutdown_fn := λ self,
  match self with
  | None => mret tt
  | Some s => log_info ("stub adapter shutdown: name=" +:+ ad_name s)
  end.

Definition stub_poll : poll_fn := λ self out max_out,
  match self, out with
  | Some s, Some o =>
      if max_out <? 3 then mret (-1, out)
      else
        match ad_ctx s with
        | None => mret (-1, out)
        | Some _ =>
            g ← get_globals;
            match g_stub_cfg g with
            | None => mret (-1, out)
            | Some c =>
                if negb (cfg_simulate c) then mret (0, out)
                else
                  let seq := g_stub_seq g in
                  set_globals (with_stub g (u32 (seq + 1)) (g_stub_cfg g));;
                  now ← edgeflow_now_ms;
                  mret (3, Some (fill3 o now (ad_source_id s)
                                   (sim_soc seq) (sim_temp seq) (sim_power seq)))
            end
        end
  | _, _ => mret (-1, out)
  end.

Definition stub_write_command : write_fn := λ self cmd, mret (-1).

Definition stub_adapter_fill (out : option device_adapter_t) : option device_adapter_t :=
  (λ _, mk_adapter
          (mk_adapter_data (snprintf EDGEFLOW_ID_MAX "stub") DEVICE_PROTOCOL_SIMULATOR 1
             (Some CTX_STUB))
          (Some stub_init) (Some stub_shutdown) (Some stub_poll) (Some stub_write_command))
    <$> out.

(** ** Modbus *)

Definition modbus_init : init_fn := λ self cfg,
  match self, cfg with
  | Some s, Some c =>
      match ad_ctx s with
      | None => mret (-1, self)
      | Some _ =>
          g ← get_globals;
          set_globals (with_modbus_cfg g (Some c));;
          let s' := mk_adapter_data (ad_name s)
                      (if decide (cfg_modbus_transport c = "tcp"%string)
                       then DEVICE_PROTOCOL_MODBUS_TCP else DEVICE_PROTOCOL_MODBUS_RTU)
                      (ad_source_id s) (ad_ctx s) in
          log_info ("modbus adapter init: simulate=" +:+ bool_text (cfg_simulate c) +:+
                    " transport=" +:+ cfg_modbus_transport c +:+
                    " serial=" +:+ cfg_serial_device c);;
          mret (0, Some s')
      end
  | _, _ => mret (-1, self)
  end.

Definition modbus_shutdown : shutdown_fn := λ self,
  modbus_libmodbus_shutdown;; log_info "modbus adapter shutdown".

Definition modbus_poll : poll_fn := λ self out max_out,
  match self with
  | None => mret (-1, out)
  | Some s =>
      match ad_ctx s with
      | None => mret (-1, out)
      | Some _ =>
          g ← get_globals;
          match g_modbus_cfg g with
          | None => mret (-1, out)
          | Some c => modbus_rtu_poll (Some c) out max_out
          end
      end
  end.

Definition modbus_write_command : write_fn := λ self cmd,
  match cmd with
  | None => mret (-1)
  | Some c =>
      log_info ("modbus write_command simulate: target=" +:+ cmd_target_device_id c +:+
                " point=" +:+ cmd_point_id c +:+ " value=" +:+ fmt_fixed 2 (cmd_target_value c));;
      mret 0
  end.

Definition modbus_adapter_fill (out : option device_adapter_t) : option device_adapter_t :=
  (λ _, mk_adapter
          (mk_adapter_data (snprintf EDGEFLOW_ID_MAX "modbus") DEVICE_PROTOCOL_MODBUS_RTU 2
             (Some CTX_MODBUS))
          (Some modbus_init) (Some modbus_shutdown) (Some modbus_poll) (Some modbus_write_command))
    <$> out.

(** ** Both keep the contract *)

Lemma poll_refused (out : list telemetry_t) rc res :
  rc <= 0 ∧ res = Some out →
  ∃ out', res = Some out' ∧ length out' = length out ∧ rc <= Z.of_nat (length out) ∧
    (0 < rc → Forall sensor_point (take (Z.to_nat rc) out')).
Proof. intros [Hrc ->]. exists out. split_and!; [done|done|lia|lia]. Qed.

#[export] Instance modbus_poll_contract : PollContract sensor_point modbus_poll.
Proof.
  intros self out max_out n w rc res w' _ <- H. unfold modbus_poll in H.
  destruct self as [s|]; [|apply poll_refused; by io_done H].
  destruct (ad_ctx s); [|apply poll_refused; by io_done H]. io_go H.
  destruct (g_modbus_cfg _); [|apply poll_refused; by io_done H].
  by apply modbus_rtu_poll_ok in H.
Qed.

#[export] Instance stub_poll_contract : PollContract sensor_point stub_poll.
Proof.
  intros self out max_out n w rc res w' Hself <- H. unfold stub_poll in H.
  destruct self as [s|]; [|apply poll_refused; by io_done H].
  destruct (Z.ltb_spec (Z.of_nat (length out)) 3); [apply poll_refused; by io_done H|].
  destruct (ad_ctx s); [|apply poll_refused; by io_done H]. io_go H.
  destruct (g_stub_cfg _); [|apply poll_refused; by io_done H].
  destruct (cfg_simulate _); cbn [negb] in H; [|apply poll_refused; by io_done H].
  io_go H. apply bind_run in H as (now & w1 & Hnow & H). apply now_ms_run in Hnow as (Hu & -> & _).
  io_done H. set (q := g_stub_seq (w_glob w)). destruct (sim_values_nonneg q) as (? & ? & ?).
  destruct (fill3_points out now (ad_source_id s) (sim_soc q) (sim_temp q) (sim_power q))
    as (Hl & Hf & _); auto; [lia|].
  eexists. split_and!; [done|done|lia|]. by intros _.
Qed.

End plugins.

(** ** The registry of both plugins *)

Lemma stub_adapter_ok `{Env} a b : stub_adapter_fill (Some a) = Some b → adapter_ok sensor_point b.
Proof.
  intros [= <-]. split; [simpl; unfold is_u16; lia|]. exists stub_poll. split; [done|apply _].
Qed.

Lemma modbus_adapter_ok `{Env} a b : modbus_adapter_fill (Some a) = Some b → adapter_ok sensor_point b.
Proof.
  intros [= <-]. split; [simpl; unfold is_u16; lia|]. exists modbus_poll. split; [done|apply _].
Qed.

(** A registry with the two plugins, a configuration that simulates, and a
    world in which both are initialised. *)
Definition null_adapter : device_adapter_t :=
  mk_adapter (mk_adapter_data "" DEVICE_PROTOCOL_MODBUS_RTU 0 None) None None None None.

Definition demo_slots `{Env} : list device_adapter_t :=
  default [] (mapM id [stub_adapter_fill (Some null_adapter); modbus_adapter_fill (Some null_adapter)]).

Definition demo_registry `{Env} : adapter_registry_t := mk_registry demo_slots.

Definition demo_glob : globals :=
  with_stub (with_modbus_cfg globals_init (Some gateway_config_defaults)) 0
    (Some gateway_config_defaults).

Lemma poll_all_ok_witness :
  let E := demo_env [] [] in
  ∃ res w', adapter_registry_poll_all (Some demo_registry) (Some (replicate 16 telemetry_zero)) 16 0%nat
      (mk_world [] demo_glob) = Some ((6, res), w') ∧
  ∃ out', res = Some out' ∧ length out' = 16%nat ∧ 0 <= 6 <= 16 ∧
          Forall sensor_point (take 6 out').
Proof.
  intros E. eexists _, _. split; [vm_compute; reflexivity|].
  eapply (poll_all_ok sensor_point demo_registry (replicate 16 telemetry_zero) 0 (mk_world [] demo_glob));
    [|vm_compute; reflexivity].
  split; [vm_compute; lia|]. apply Forall_cons; split; [by apply (stub_adapter_ok null_adapter)|].
  apply Forall_cons; split; [by apply (modbus_adapter_ok null_adapter)|constructor].
Defined.
