(* ===== verification/Storage.v ===== *)
(** * Storage ([src/src/platform/storage.c])

    Every point, alarm and command is appended to the JSONL audit file and,
    when enabled, to an SQLite database whose [telemetry] table is the outbox
    of the gateway: a row is pending until its publication marks it uploaded.
    SQLite is not part of the program: a statement is an event with its text
    and bindings, and [SqliteSpec] states what the documentation of SQLite
    promises for the statements the code uses. *)

From S2P Require Export Platform.
From stdpp Require Import sorting.

#[local] Open Scope Z_scope.

(** [db] is false for the NULL connection. *)
Record storage_ctx_t := mk_storage { st_cfg : gateway_config_t; st_db : bool }.

Record storage_telemetry_row_t := mk_row { row_id : Z; row_point : telemetry_t }.

(** ** Statements *)

Definition sql_schema : string :=
  "PRAGMA journal_mode=WAL;" +:+
  "CREATE TABLE IF NOT EXISTS telemetry (" +:+
  "  id INTEGER PRIMARY KEY AUTOINCREMENT," +:+
  "  ts_ms INTEGER NOT NULL," +:+
  "  device_id TEXT NOT NULL," +:+
  "  point_id TEXT NOT NULL," +:+
  "  value REAL NOT NULL," +:+
  "  unit TEXT," +:+
  "  quality TEXT NOT NULL," +:+
  "  uploaded INTEGER NOT NULL DEFAULT 0" +:+
  ");" +:+
  "CREATE INDEX IF NOT EXISTS idx_telemetry_upload ON telemetry(uploaded, id);" +:+
  "CREATE TABLE IF NOT EXISTS alarms (" +:+
  "  id INTEGER PRIMARY KEY AUTOINCREMENT," +:+
  "  alarm_id INTEGER, ts_ms INTEGER, device_id TEXT, code TEXT, level INTEGER," +:+
  "  state TEXT, message TEXT, uploaded INTEGER DEFAULT 0" +:+
  ");" +:+
  "CREATE TABLE IF NOT EXISTS commands (" +:+
  "  id INTEGER PRIMARY KEY AUTOINCREMENT," +:+
  "  command_id INTEGER, target TEXT, point_id TEXT, value REAL," +:+
  "  state TEXT, message TEXT, uploaded INTEGER DEFAULT 0" +:+
  ");".

Definition sql_insert_telemetry : string :=
  "INSERT INTO telemetry(ts_ms,device_id,point_id,value,unit,quality,uploaded)" +:+
  " VALUES(?,?,?,?,?,?,0);".
Definition sql_insert_alarm : string :=
  "INSERT INTO alarms(alarm_id,ts_ms,device_id,code,level,state,message,uploaded)" +:+
  " VALUES(?,?,?,?,?,?,?,0);".
Definition sql_insert_command : string :=
  "INSERT INTO commands(command_id,target,point_id,value,state,message,uploaded)" +:+
  " VALUES(?,?,?,?,?,?,0);".
Definition sql_select_pending : string :=
  "SELECT id,ts_ms,device_id,point_id,value,unit,quality FROM telemetry " +:+
  "WHERE uploaded=0 ORDER BY id ASC LIMIT ?;".
Definition sql_mark_uploaded : string := "UPDATE telemetry SET uploaded=1 WHERE id=?;".
Definition sql_count_pending : string := "SELECT COUNT(*) FROM telemetry WHERE uploaded=0;".

(** The conversions of [sqlite3_column_*]. *)
Definition column_int64 (row : list sqlval) (i : nat) : Z :=
  match row !! i with Some (SqlInt z) => z | _ => 0 end.
Definition column_text (row : list sqlval) (i : nat) : option string :=
  match row !! i with Some (SqlText s) => Some s | _ => None end.
Definition column_double (row : list sqlval) (i : nat) : double :=
  match row !! i with Some (SqlReal d) => d | _ => d0 end.

(** A JSON member ["name":"value"], and one without quotes around the value. *)
Definition jstring (name value : string) : string :=
  dq +:+ name +:+ dq +:+ ":" +:+ dq +:+ value +:+ dq.
Definition jraw (name value : string) : string := dq +:+ name +:+ dq +:+ ":" +:+ value.

Definition telemetry_line (point : telemetry_t) : string :=
  snprintf 512
    ("{" +:+ jstring "type" "telemetry" +:+ "," +:+ jraw "ts_ms" (dec (tel_ts_ms point)) +:+ "," +:+
     jstring "device_id" (tel_device_id point) +:+ "," +:+
     jstring "point_id" (tel_point_id point) +:+ "," +:+
     jraw "value" (fmt_fixed 4 (tel_value point)) +:+ "," +:+
     jstring "unit" (tel_unit point) +:+ "," +:+
     jstring "quality" (telemetry_quality_to_string (tel_quality point)) +:+ "}").

(** The parameters bound to an inserted point. *)
Definition telemetry_binding (point : telemetry_t) : list sqlval :=
  [SqlInt (i64 (tel_ts_ms point)); SqlText (tel_device_id point); SqlText (tel_point_id point);
   SqlReal (tel_value point); SqlText (tel_unit point);
   SqlText (telemetry_quality_to_string (tel_quality point))].

Section storage.
Context {env : Env}.

(** ** Operations *)

Definition append_jsonl_line (path line : string) : io Z :=
  ok ← call (λ tr, env_fopen tr path) (EvAppend path line);
  mret (if (ok : bool) then 0 else -1).

Definition jsonl_append_telemetry (path : string) (point : telemetry_t) : io Z :=
  append_jsonl_line path (telemetry_line point).

Definition sqlite_exec_schema : io Z :=
  ok ← call (λ tr, env_sqlite_exec tr sql_schema) (EvSqlExec sql_schema);
  mret (if (ok : bool) then 0 else -1).

(** [out] is the pointer the handle is stored through; the handle is the
    second result. *)
Definition storage_open (out : option (option storage_ctx_t)) (cfg : option gateway_config_t)
    : io (Z * option (option storage_ctx_t)) :=
  match out, cfg with
  | Some _, Some c =>
      got ← ask env_malloc;
      if negb got then mret (-1, out)
      else if negb (cfg_use_sqlite c) then mret (0, Some (Some (mk_storage c false)))
      else
        r ← call (λ tr, env_sqlite_open tr (cfg_sqlite_path c)) (EvSqlOpen (cfg_sqlite_path c));
        if negb (open_ok r) then mret (-1, out)
        else
          rc ← sqlite_exec_schema;
          if negb (rc =? 0) then emit EvSqlClose;; mret (-1, out)
          else mret (0, Some (Some (mk_storage c true)))
  | _, _ => mret (-1, out)
  end.

Definition storage_close (ctx : option storage_ctx_t) : io () :=
  match ctx with
  | None => mret tt
  | Some c => if st_db c then emit EvSqlClose else mret tt
  end.

(** No database to write to. *)
Definition no_db (c : storage_ctx_t) : bool := negb (cfg_use_sqlite (st_cfg c)) || negb (st_db c).

Definition storage_append_telemetry (ctx : option storage_ctx_t) (point : option telemetry_t)
    (row_id : option Z) : io (Z * option Z) :=
  match ctx, point with
  | Some c, Some p =>
      jsonl_append_telemetry (cfg_cache_path (st_cfg c)) p;;
      if no_db c then mret (0, (λ _, 0) <$> row_id)
      else
        ok ← prepare sql_insert_telemetry;
        if negb ok then mret (-1, row_id)
        else
          finished ← step sql_insert_telemetry (telemetry_binding p);
          if negb finished then mret (-1, row_id)
          else
            match row_id with
            | None => mret (0, None)
            | Some _ => id ← last_insert_rowid; mret (0, Some id)
            end
  | _, _ => mret (-1, row_id)
  end.

Definition storage_append_point (ctx : option storage_ctx_t) (point : option telemetry_t) : io Z :=
  '(rc, _) ← storage_append_telemetry ctx point None; mret rc.

(** [prepare], bind and [step] of a statement without rows. *)
Definition run_statement (sql : string) (args : list sqlval) : io Z :=
  ok ← prepare sql;
  if negb ok then mret (-1)
  else finished ← step sql args; mret (if (finished : bool) then 0 else -1).

Definition alarm_line (a : alarm_event_t) : string :=
  snprintf 640
    ("{" +:+ jstring "type" "alarm" +:+ "," +:+ jstring "code" (al_code a) +:+ "," +:+
     jstring "device_id" (al_device_id a) +:+ "}").

Definition alarm_state_text (s : alarm_state_t) : string :=
  match s with ALARM_STATE_ACTIVE => "ACTIVE" | ALARM_STATE_RECOVERED => "RECOVERED" end.

Definition storage_append_alarm (ctx : option storage_ctx_t) (alarm : option alarm_event_t) : io Z :=
  match ctx, alarm with
  | Some c, Some a =>
      append_jsonl_line (cfg_cache_path (st_cfg c)) (alarm_line a);;
      if no_db c then mret 0
      else
        run_statement sql_insert_alarm
          [SqlInt (i64 (al_alarm_id a)); SqlInt (i64 (al_ts_ms a)); SqlText (al_device_id a);
           SqlText (al_code a); SqlInt (alarm_level_int (al_level a));
           SqlText (alarm_state_text (al_state a)); SqlText (al_message a)]
  | _, _ => mret (-1)
  end.

Definition command_line (c : command_t) : string :=
  snprintf 640
    ("{" +:+ jstring "type" "command" +:+ "," +:+ jraw "id" (dec (cmd_command_id c)) +:+ "," +:+
     jstring "state" (command_state_to_string (cmd_state c)) +:+ "}").

Definition command_binding (c : command_t) : list sqlval :=
  [SqlInt (i64 (cmd_command_id c)); SqlText (cmd_target_device_id c); SqlText (cmd_point_id c);
   SqlReal (cmd_target_value c); SqlText (command_state_to_string (cmd_state c));
   SqlText (cmd_result_message c)].

Definition storage_append_command (ctx : option storage_ctx_t) (command : option command_t) : io Z :=
  match ctx, command with
  | Some c, Some cmd =>
      append_jsonl_line (cfg_cache_path (st_cfg c)) (command_line cmd);;
      if no_db c then mret 0 else run_statement sql_insert_command (command_binding cmd)
  | _, _ => mret (-1)
  end.

(** A row as the code rebuilds it. *)
Definition row_of_columns (cols : list sqlval) : storage_telemetry_row_t :=
  let p := telemetry_init (u64 (column_int64 cols 1)) (column_text cols 2) (column_text cols 3)
             (column_double cols 4) (column_text cols 5) 0 in
  mk_row (column_int64 cols 0)
    (mk_telemetry (tel_ts_ms p) (tel_device_id p) (tel_point_id p) (tel_value p) (tel_unit p)
       TELEMETRY_QUALITY_GOOD (tel_source_id p)).

(** The result, the rows written from [rows[0]] on, and [*out_count]; [rows]
    is false for NULL. *)
Definition storage_fetch_pending_telemetry (ctx : option storage_ctx_t) (have_rows : bool)
    (max_rows : nat) : io (Z * list storage_telemetry_row_t) :=
  match ctx with
  | None => mret (0, [])
  | Some c =>
      if negb have_rows || bool_decide (max_rows = 0)%nat || no_db c then mret (0, [])
      else
        ok ← prepare sql_select_pending;
        if negb ok then mret (-1, [])
        else
          found ← rows sql_select_pending [SqlInt (Z.of_nat max_rows)];
          let l := row_of_columns <$> take max_rows found in
          mret (Z.of_nat (length l), l)
  end.

Definition storage_mark_telemetry_uploaded (ctx : option storage_ctx_t) (row_id : Z) : io Z :=
  match ctx with
  | None => mret (-1)
  | Some c =>
      if (row_id <=? 0) || negb (st_db c) then mret (-1)
      else run_statement sql_mark_uploaded [SqlInt row_id]
  end.

Definition storage_pending_telemetry_count (ctx : option storage_ctx_t) : io Z :=
  match ctx with
  | None => mret 0
  | Some c =>
      if negb (st_db c) then mret 0
      else
        ok ← prepare sql_count_pending;
        if negb ok then mret 0
        else
          found ← rows sql_count_pending [];
          match found with
          | row :: _ => mret (u64 (column_int64 row 0))
          | [] => mret 0
          end
  end.

End storage.

(** ** The outbox

    The content of the [telemetry] table, oldest row first, as the statements
    of a trace change it. *)

Record db_row := mk_db_row { dr_id : Z; dr_columns : list sqlval; dr_uploaded : bool }.

Abbreviation outbox := (list db_row) (only parsing).

(** AUTOINCREMENT: above every number in use. *)
Definition next_id (db : outbox) : Z := foldr Z.max 0 (dr_id <$> db) + 1.

Definition mark_row (id : Z) (r : db_row) : db_row :=
  if decide (dr_id r = id) then mk_db_row (dr_id r) (dr_columns r) true else r.

(** A statement that does not finish leaves the table as it was. *)
Definition apply_event (e : event) (db : outbox) : outbox :=
  match e with
  | EvStep sql args true =>
      if decide (sql = sql_insert_telemetry) then db ++ [mk_db_row (next_id db) args false]
      else if decide (sql = sql_mark_uploaded) then
        match args with [SqlInt id] => mark_row id <$> db | _ => db end
      else db
  | _ => db
  end.

Definition db_of (db0 : outbox) (tr : trace) : outbox := foldr apply_event db0 tr.

Definition pending (db : outbox) : outbox := filter (λ r, dr_uploaded r = false) db.

Definition select_row (r : db_row) : list sqlval := SqlInt (dr_id r) :: dr_columns r.

(** Positive numbers, in order. *)
Definition outbox_wf (db : outbox) : Prop :=
  StronglySorted Z.lt (dr_id <$> db) ∧ Forall (λ r, 0 < dr_id r) db.

(** What the documentation of SQLite promises: the number of an inserted row,
    the rows of a SELECT (a failing step may cut them short), the count, and
    that a NaN, which is bound as NULL, violates NOT NULL. *)
Class SqliteSpec (env : Env) (db0 : outbox) : Prop := {
  sqlite_start : outbox_wf db0;
  sqlite_rowid : ∀ tr args,
    env_last_rowid (EvStep sql_insert_telemetry args true :: tr) = next_id (db_of db0 tr);
  sqlite_select : ∀ tr n,
    ∃ k, env_rows tr sql_select_pending [SqlInt (Z.of_nat n)]
         = select_row <$> take k (take n (pending (db_of db0 tr)));
  sqlite_count : ∀ tr,
    env_rows tr sql_count_pending [] = [] ∨
    env_rows tr sql_count_pending [] = [[SqlInt (Z.of_nat (length (pending (db_of db0 tr))))]];
  sqlite_not_null : ∀ tr args,
    env_step tr sql_insert_telemetry args = true → SqlReal S754_nan ∉ args
}.

(** ** A conforming database *)

(** The events are answered from the table they have built. *)
Definition sqlite_env (base : Env) (db0 : outbox) : Env := {|
  env_clock := env_clock; env_nanosleep := env_nanosleep; env_fopen := env_fopen;
  env_malloc := env_malloc; env_sqlite_open := env_sqlite_open;
  env_sqlite_exec := env_sqlite_exec; env_prepare := env_prepare;
  env_step tr sql args :=
    forallb (λ v, match v with SqlReal S754_nan => false | _ => true end) args;
  env_rows tr sql args :=
    if decide (sql = sql_select_pending) then
      match args with
      | [SqlInt n] => select_row <$> take (Z.to_nat n) (pending (db_of db0 tr))
      | _ => []
      end
    else if decide (sql = sql_count_pending)
    then [[SqlInt (Z.of_nat (length (pending (db_of db0 tr))))]] else [];
  env_last_rowid tr := next_id (db_of db0 (tail tr));
  env_socket := env_socket; env_inet_pton := env_inet_pton; env_connect := env_connect;
  env_write := env_write; env_read := env_read; env_answers := env_answers; env_tty_open := env_tty_open;
  env_tcgetattr := env_tcgetattr; env_tcsetattr := env_tcsetattr; env_select := env_select;
  env_epoll_create := env_epoll_create; env_timerfd_create := env_timerfd_create;
  env_epoll_ctl := env_epoll_ctl; env_timerfd_settime := env_timerfd_settime;
  env_epoll_wait := env_epoll_wait; env_running := env_running;
  env_pthread_create := env_pthread_create; env_file_size := env_file_size;
  env_file_seek := env_file_seek; env_file_data := env_file_data; env_file_text := env_file_text;
  env_exit := env_exit;
  env_getenv := env_getenv; env_unix_connect := env_unix_connect;
  env_modbus_new := env_modbus_new; env_modbus_connect := env_modbus_connect;
  env_modbus_read := env_modbus_read; env_strerror := env_strerror
|}.

Lemma sqlite_env_spec base db0 : outbox_wf db0 → SqliteSpec (sqlite_env base db0) db0.
Proof.
  intros Hwf. split; [done|done| |by right|].
  - intros tr n. exists n. simpl. by rewrite Nat2Z.id, take_take, Nat.min_id.
  - intros tr args H Hin. simpl in H. rewrite forallb_forall in H.
    apply list_elem_of_In in Hin. by apply H in Hin.
Qed.

(** ** The outbox stays in order *)

Lemma next_id_gt db r : r ∈ db → dr_id r < next_id db.
Proof.
  unfold next_id. induction db as [|a db IH]; [by intros ?%elem_of_nil|].
  rewrite elem_of_cons, fmap_cons. cbn [foldr]. intros [->|H]; [lia|]. apply IH in H. lia.
Qed.

Lemma next_id_pos db : 0 < next_id db.
Proof. unfold next_id. induction db; [done|]. rewrite fmap_cons. cbn [foldr]. lia. Qed.

Lemma mark_row_ids id (db : outbox) : dr_id <$> (mark_row id <$> db) = dr_id <$> db.
Proof.
  rewrite <- list_fmap_compose. apply list_fmap_ext. intros i r _. unfold mark_row. simpl.
  by case_decide.
Qed.

Lemma mark_row_next id (db : outbox) : next_id (mark_row id <$> db) = next_id db.
Proof. unfold next_id. by rewrite mark_row_ids. Qed.

Lemma outbox_insert_wf db cols : outbox_wf db → outbox_wf (db ++ [mk_db_row (next_id db) cols false]).
Proof.
  intros [Hs Hp]. split.
  - rewrite fmap_app. apply StronglySorted_app_2; [|done|by repeat constructor].
    intros x y Hx Hy. apply list_elem_of_fmap in Hx as (r & -> & Hr). simpl in Hy.
    apply list_elem_of_singleton in Hy as ->. by apply next_id_gt.
  - apply Forall_app_2; [done|]. repeat constructor. simpl. apply next_id_pos.
Qed.

Lemma outbox_mark_wf (db : outbox) id : outbox_wf db → outbox_wf (mark_row id <$> db).
Proof.
  intros [Hs Hp]. split; [by rewrite mark_row_ids|].
  apply Forall_fmap. eapply Forall_impl; [exact Hp|]. intros r Hr. unfold mark_row. simpl. by case_decide.
Qed.

Lemma apply_event_wf e db : outbox_wf db → outbox_wf (apply_event e db).
Proof.
  intros H. destruct e; try done. simpl. destruct finished; [|done].
  repeat case_decide; auto using outbox_insert_wf. destruct args as [|[] []]; auto using outbox_mark_wf.
Qed.

Lemma db_of_wf db0 tr : outbox_wf db0 → outbox_wf (db_of db0 tr).
Proof. intros H. induction tr; simpl; auto using apply_event_wf. Qed.

Lemma db_of_app db0 t1 t2 : db_of db0 (t1 ++ t2) = db_of (db_of db0 t2) t1.
Proof. unfold db_of. by rewrite foldr_app. Qed.

(** Events other than the statements leave the table alone. *)
Definition is_step (e : event) : bool := match e with EvStep _ _ _ => true | _ => false end.

Lemma db_of_quiet db0 evs tr :
  Forall (λ e, is_step e = false) evs → db_of db0 (evs ++ tr) = db_of db0 tr.
Proof. induction 1 as [|e evs He _ IH]; simpl; [done|]. by destruct e. Qed.

Lemma mark_not_insert : sql_mark_uploaded ≠ sql_insert_telemetry.
Proof. discriminate. Qed.

Lemma apply_insert args db :
  apply_event (EvStep sql_insert_telemetry args true) db = db ++ [mk_db_row (next_id db) args false].
Proof. unfold apply_event. by rewrite decide_True. Qed.

Lemma apply_mark id db :
  apply_event (EvStep sql_mark_uploaded [SqlInt id] true) db = mark_row id <$> db.
Proof. unfold apply_event. by rewrite decide_False, decide_True by (done || apply mark_not_insert). Qed.

(** ** The operations on the outbox *)

Section operations.
Context {env : Env} {db0 : outbox} {spec : SqliteSpec env db0}.

Lemma append_run c p rid n w rc rid' w' :
  no_db c = false →
  storage_append_telemetry (Some c) (Some p) rid n w = Some ((rc, rid'), w') →
  (∃ ok evs, w_trace w' = evs ++ EvAppend (cfg_cache_path (st_cfg c)) (telemetry_line p) ok :: w_trace w) ∧
  let db := db_of db0 (w_trace w) in
  (rc = 0 ∧ rid' = (λ _, next_id db) <$> rid ∧ tel_value p ≠ S754_nan ∧
     db_of db0 (w_trace w') = db ++ [mk_db_row (next_id db) (telemetry_binding p) false] ∨
   rc = -1 ∧ rid' = rid ∧ db_of db0 (w_trace w') = db).
Proof.
  intros Hdb H. unfold storage_append_telemetry, jsonl_append_telemetry, append_jsonl_line in H.
  erewrite bind_eq in H by reflexivity. rewrite Hdb in H. io_go H.
  destruct (env_prepare _ _); cbn [negb] in H.
  2: { io_done H. split; [by eexists _, [_]|]. by right. }
  io_go H. destruct (env_step _ _ _) eqn:Estep; cbn [negb] in H.
  2: { io_done H. split; [by eexists _, [_; _]|]. by right. }
  assert (tel_value p ≠ S754_nan) as Hnan.
  { intros E. apply sqlite_not_null in Estep. apply Estep. unfold telemetry_binding. rewrite E.
    rewrite !elem_of_cons. auto. }
  destruct rid; io_go H; io_done H; (split; [by eexists _, [_; _]|]; left);
    cbn [w_trace db_of foldr]; rewrite apply_insert; split_and!; try done.
  rewrite sqlite_rowid. done.
Qed.

Lemma mark_run c id n w rc w' :
  storage_mark_telemetry_uploaded (Some c) id n w = Some (rc, w') →
  let db := db_of db0 (w_trace w) in
  (rc = 0 ∧ 0 < id ∧ st_db c = true ∧ db_of db0 (w_trace w') = mark_row id <$> db ∨
   rc = -1 ∧ db_of db0 (w_trace w') = db).
Proof.
  unfold storage_mark_telemetry_uploaded, run_statement. intros H.
  destruct (Z.leb_spec id 0); cbn [orb] in H; [io_done H|]. destruct (st_db c) eqn:Edb; cbn [negb orb] in H; [|io_done H].
  io_go H. destruct (env_prepare _ _); cbn [negb] in H; [|io_done H].
  io_go H. io_done H. destruct (env_step _ _ _).
  - left. cbn [w_trace db_of foldr]. by rewrite apply_mark.
  - by right.
Qed.

Lemma fetch_run c max n w rc l w' :
  storage_fetch_pending_telemetry (Some c) true max n w = Some ((rc, l), w') →
  let db := db_of db0 (w_trace w) in
  db_of db0 (w_trace w') = db ∧
  (rc = -1 ∧ l = [] ∨
   rc = Z.of_nat (length l) ∧
   ∃ k, (k ≤ max)%nat ∧ l = (row_of_columns ∘ select_row) <$> take k (pending db)).
Proof.
  unfold storage_fetch_pending_telemetry. intros H. cbn [negb orb] in H.
  case_bool_decide; cbn [orb] in H. { io_done H. split; [done|right]. split; [done|]. by exists 0%nat. }
  destruct (no_db c). { io_done H. split; [done|right]. split; [done|]. exists 0%nat. split; [lia|done]. }
  io_go H. destruct (env_prepare _ _); cbn [negb] in H; [|io_done H; by auto].
  io_go H. io_done H. split; [done|right]. split; [done|].
  destruct (sqlite_select (EvPrepare sql_select_pending true :: w_trace w) max) as [k Hk].
  exists (k `min` max)%nat. split; [lia|]. cbn in Hk |- *. rewrite Hk.
  rewrite <- fmap_take, !take_take, list_fmap_compose. do 3 f_equal. lia.
Qed.

Lemma count_run c n w rc w' :
  storage_pending_telemetry_count (Some c) n w = Some (rc, w') →
  let db := db_of db0 (w_trace w) in
  db_of db0 (w_trace w') = db ∧ (rc = 0 ∨ rc = u64 (Z.of_nat (length (pending db)))).
Proof.
  unfold storage_pending_telemetry_count. intros H. destruct (st_db c); cbn [negb] in H; [|io_done H].
  io_go H. destruct (env_prepare _ _); cbn [negb] in H; [|io_done H].
  io_go H. destruct (sqlite_count (EvPrepare sql_count_pending true :: w_trace w)) as [E|E];
    rewrite E in H; io_done H.
Qed.

End operations.

(** The point a pending row is republished as: quality and source are lost. *)
Definition replay_point (p : telemetry_t) : telemetry_t :=
  mk_telemetry (tel_ts_ms p) (tel_device_id p) (tel_point_id p) (tel_value p) (tel_unit p)
    TELEMETRY_QUALITY_GOOD 0.

Lemma row_roundtrip id p u :
  telemetry_wf p →
  row_of_columns (select_row (mk_db_row id (telemetry_binding p) u)) = mk_row id (replay_point p).
Proof.
  intros []. unfold row_of_columns, telemetry_init, replay_point, column_int64, column_text, column_double.
  cbn [lookup list_lookup select_row telemetry_binding dr_columns dr_id tel_ts_ms tel_device_id
    tel_point_id tel_value tel_unit tel_source_id].
  by rewrite u64_i64, !copy_string_id.
Qed.

Section outbox_properties.
Context {env : Env} (db0 : outbox) {spec : SqliteSpec env db0}.

(** C26: storing a point refines appending to the outbox: the audit line is
    written first; then either the table gains exactly one pending row, with
    the next number and the point's own fields, and that number is returned,
    or the call fails and the table is unchanged; a value that is not a number
    is never stored. *)
Theorem storage_append_refines c p n w rc rid' w' :
  no_db c = false →
  storage_append_telemetry (Some c) (Some p) (Some 0) n w = Some ((rc, rid'), w') →
  (∃ ok evs, w_trace w' = evs ++ EvAppend (cfg_cache_path (st_cfg c)) (telemetry_line p) ok :: w_trace w) ∧
  let db := db_of db0 (w_trace w) in
  (rc = 0 ∧ rid' = Some (next_id db) ∧ tel_value p ≠ S754_nan ∧
     db_of db0 (w_trace w') = db ++ [mk_db_row (next_id db) (telemetry_binding p) false] ∨
   rc = -1 ∧ rid' = Some 0 ∧ db_of db0 (w_trace w') = db).
Proof. intros Hdb H. by apply (append_run (db0 := db0)) in H. Qed.

(** C27: a fetch of the pending points returns the oldest pending rows, at most
    the number asked for, each with the number, the time, the names, the value
    and the unit that were stored, but always with good quality and source 0;
    it does not change the table. *)
Theorem storage_fetch_refines c max n w rc l w' :
  storage_fetch_pending_telemetry (Some c) true max n w = Some ((rc, l), w') →
  db_of db0 (w_trace w') = db_of db0 (w_trace w) ∧
  (rc = -1 ∧ l = [] ∨
   rc = Z.of_nat (length l) ∧ (length l ≤ max)%nat ∧
   Forall2 (λ row r, dr_uploaded r = false ∧ row_id row = dr_id r ∧
              ∀ p, telemetry_wf p → dr_columns r = telemetry_binding p →
                row_point row = replay_point p)
     l (take (length l) (pending (db_of db0 (w_trace w))))).
Proof.
  intros H. apply (fetch_run (db0 := db0)) in H as [E H]. split; [done|].
  destruct H as [[-> ->]|(-> & k & Hk & ->)]; [by left|right].
  rewrite length_fmap, length_take. split_and!; [done|lia|].
  set (q := pending _). assert (take (k `min` length q) q = take k q) as ->.
  { destruct (decide (k ≤ length q)%nat); [by rewrite Nat.min_l by lia|].
    by rewrite Nat.min_r, !take_ge by lia. }
  apply Forall2_fmap_l, Forall_Forall2_diag, Forall_take, Forall_forall. intros r Hr.
  apply list_elem_of_filter in Hr as [Hu Hr]. split_and!; [done|done|].
  intros p Hp Hc. destruct r as [id cols u]. simpl in Hc. subst cols.
  unfold compose. by rewrite row_roundtrip.
Qed.

(** Marking a row uploaded changes that row only, and only when the call
    succeeds; the numbers stay distinct, positive and in order. *)
Theorem storage_mark_refines c id n w rc w' :
  storage_mark_telemetry_uploaded (Some c) id n w = Some (rc, w') →
  let db := db_of db0 (w_trace w) in
  outbox_wf (db_of db0 (w_trace w')) ∧
  (rc = 0 ∧ 0 < id ∧ st_db c = true ∧ db_of db0 (w_trace w') = mark_row id <$> db ∨
   rc = -1 ∧ db_of db0 (w_trace w') = db).
Proof.
  intros H. split; [apply db_of_wf, sqlite_start|]. by apply (mark_run (db0 := db0)) in H.
Qed.

(** The pending count is the number of rows not yet uploaded, or 0 when
    the database cannot answer; counting changes nothing. *)
Theorem storage_count_refines c n w rc w' :
  storage_pending_telemetry_count (Some c) n w = Some (rc, w') →
  db_of db0 (w_trace w') = db_of db0 (w_trace w) ∧
  (rc = 0 ∨ rc = u64 (Z.of_nat (length (pending (db_of db0 (w_trace w)))))).
Proof. intros H. by apply (count_run (db0 := db0)) in H. Qed.

End outbox_properties.

(** A row after more events: still there, unchanged but for its mark, which is
    never taken back. *)
Definition row_kept (r r' : db_row) : Prop :=
  dr_id r' = dr_id r ∧ dr_columns r' = dr_columns r ∧ (dr_uploaded r = true → dr_uploaded r' = true).

#[export] Instance row_kept_preorder : PreOrder row_kept.
Proof.
  split; [by intros r|]. intros r1 r2 r3 (? & ? & ?) (? & ? & ?).
  unfold row_kept. split_and!; [congruence..|auto].
Qed.

Lemma apply_event_keeps e db :
  ∃ extra, Forall2 row_kept db (take (length db) (apply_event e db)) ∧
    apply_event e db = take (length db) (apply_event e db) ++ extra.
Proof.
  assert (∃ extra, Forall2 row_kept db (take (length db) db) ∧ db = take (length db) db ++ extra) as Hsame.
  { exists []. by rewrite app_nil_r, firstn_all. }
  destruct e; try exact Hsame. simpl. destruct finished; [|exact Hsame].
  case_decide.
  - eexists. by rewrite take_app_length.
  - case_decide; [|exact Hsame]. destruct args as [|[id| | |] [|]]; try exact Hsame.
    exists []. rewrite app_nil_r, take_ge by (by rewrite length_fmap). split; [|done].
    apply Forall2_fmap_r, Forall_Forall2_diag, Forall_forall. intros r _.
    unfold row_kept, compose, mark_row. by destruct (decide _).
Qed.

(** Over any further events, every row stays in the table, in its place and
    with its content, and a row marked uploaded is never pending again. *)
Lemma outbox_never_loses db0 tr evs :
  Forall2 row_kept (db_of db0 tr) (take (length (db_of db0 tr)) (db_of db0 (evs ++ tr))).
Proof.
  rewrite db_of_app. set (db := db_of db0 tr). clearbody db. clear db0 tr.
  induction evs as [|e evs IH]; simpl.
  - by rewrite firstn_all.
  - set (db1 := db_of db evs) in *. destruct (apply_event_keeps e db1) as (extra & Hk & Eq).
    pose proof (Forall2_length _ _ _ IH) as Hl. rewrite length_take in Hl.
    assert (take (length db) (apply_event e db1) = take (length db) (take (length db1) (apply_event e db1))) as ->
      by (rewrite take_take; f_equal; lia).
    apply (Forall2_take _ _ _ (length db)) in Hk. by trans (take (length db) db1).
Qed.

(** ** Concrete runs *)

Definition demo_storage : storage_ctx_t := mk_storage gateway_config_defaults true.
Definition demo_db_env : Env := sqlite_env (demo_env [] []) [].
Definition demo_point : telemetry_t :=
  mk_telemetry 5 "bms_001" "max_cell_temp_c" (d_of_Z 60) "C" TELEMETRY_QUALITY_BAD 2.

#[export] Instance demo_db_spec : SqliteSpec demo_db_env [].
Proof. apply sqlite_env_spec. split; constructor. Qed.

(** The world after one point was stored. *)
Definition demo_stored : world :=
  mk_world [EvStep sql_insert_telemetry (telemetry_binding demo_point) true] globals_init.

Lemma storage_append_refines_witness :
  ∃ w', @storage_append_telemetry demo_db_env (Some demo_storage) (Some demo_point) (Some 0) 0%nat
          world_init = Some ((0, Some 1), w') ∧
  (∃ ok evs, w_trace w' = evs ++ [EvAppend (cfg_cache_path (st_cfg demo_storage)) (telemetry_line demo_point) ok]) ∧
  (0 = 0 ∧ Some 1 = Some (next_id []) ∧ tel_value demo_point ≠ S754_nan ∧
     db_of [] (w_trace w') = [] ++ [mk_db_row (next_id []) (telemetry_binding demo_point) false] ∨
   0 = -1 ∧ Some 1 = Some 0 ∧ db_of [] (w_trace w') = []).
Proof.
  eexists. split; [vm_compute; reflexivity|].
  apply (@storage_append_refines demo_db_env [] demo_db_spec demo_storage demo_point 0 world_init);
    [reflexivity|vm_compute; reflexivity].
Defined.

(** The BAD point that was stored is fetched as a good one. *)
Lemma storage_fetch_refines_witness :
  ∃ w', @storage_fetch_pending_telemetry demo_db_env (Some demo_storage) true 8 0%nat demo_stored
          = Some ((1, [mk_row 1 (replay_point demo_point)]), w') ∧
  db_of [] (w_trace w') = db_of [] (w_trace demo_stored) ∧
  (1 = -1 ∧ [mk_row 1 (replay_point demo_point)] = [] ∨
   1 = Z.of_nat (length [mk_row 1 (replay_point demo_point)]) ∧
   (length [mk_row 1 (replay_point demo_point)] ≤ 8)%nat ∧
   Forall2 (λ row r, dr_uploaded r = false ∧ row_id row = dr_id r ∧
              ∀ p, telemetry_wf p → dr_columns r = telemetry_binding p →
                row_point row = replay_point p)
     [mk_row 1 (replay_point demo_point)]
     (take (length [mk_row 1 (replay_point demo_point)]) (pending (db_of [] (w_trace demo_stored))))).
Proof.
  eexists. split; [vm_compute; reflexivity|].
  apply (@storage_fetch_refines demo_db_env [] demo_db_spec demo_storage 8 0 demo_stored).
  vm_compute; reflexivity.
Defined.

Lemma storage_mark_refines_witness :
  ∃ w', @storage_mark_telemetry_uploaded demo_db_env (Some demo_storage) 1 0%nat demo_stored
          = Some (0, w') ∧
  outbox_wf (db_of [] (w_trace w')) ∧
  (0 = 0 ∧ 0 < 1 ∧ st_db demo_storage = true ∧
     db_of [] (w_trace w') = mark_row 1 <$> db_of [] (w_trace demo_stored) ∨
   0 = -1 ∧ db_of [] (w_trace w') = db_of [] (w_trace demo_stored)).
Proof.
  eexists. split; [vm_compute; reflexivity|].
  apply (@storage_mark_refines demo_db_env [] demo_db_spec demo_storage 1 0 demo_stored).
  vm_compute; reflexivity.
Defined.

Lemma storage_count_refines_witness :
  ∃ w', @storage_pending_telemetry_count demo_db_env (Some demo_storage) 0%nat demo_stored
          = Some (1, w') ∧
  db_of [] (w_trace w') = db_of [] (w_trace demo_stored) ∧
  (1 = 0 ∨ 1 = u64 (Z.of_nat (length (pending (db_of [] (w_trace demo_stored)))))).
Proof.
  eexists. split; [vm_compute; reflexivity|].
  apply (@storage_count_refines demo_db_env [] demo_db_spec demo_storage 0 demo_stored).
  vm_compute; reflexivity.
Defined.
