(* ===== verification/Mqtt.v ===== *)
(** * MQTT frames ([src/src/egress/mqtt_session.c], the encoding half)

    The variable-length integer, the CONNECT, PUBLISH and PINGREQ packets, the
    loop that writes them, and the JSON payload of a point.  The decoders of
    this file are the specification: what a broker reads according to MQTT
    3.1.1. *)

From S2P Require Export Storage.

#[local] Open Scope Z_scope.

(** ** Encoding *)

(** The do-while loop with [room] bytes left in [out]. *)
Fixpoint encode_loop (room : nat) (remaining : Z) : bytes :=
  match room with
  | O => []
  | S room' =>
      let byte := remaining mod 128 in
      let remaining := remaining / 128 in
      let byte := if 0 <? remaining then Z.lor byte 0x80 else byte in
      byte :: (if 0 <? remaining then encode_loop room' remaining else [])
  end.

Definition mqtt_encode_remaining_length (remaining : Z) : bytes := encode_loop 4 remaining.
#[global] Arguments mqtt_encode_remaining_length _ : simpl never.

(** A 16-bit length, high byte first. *)
Definition be16 (n : Z) : bytes := [u8 (Z.shiftr n 8); u8 (Z.land n 0xFF)].

(** The frame [header, remaining length, body] if the buffer holds it. *)
Definition frame (size : nat) (header : Z) (body : bytes) : option bytes :=
  let remaining := Z.of_nat (length body) in
  let len := mqtt_encode_remaining_length remaining in
  if decide (size < 1 + length len + length body)%nat then None
  else Some (header :: len ++ body).

Definition connect_body (client_id : string) (keepalive_sec : Z) : bytes :=
  [0x00; 0x04] ++ bytes_of_string "MQTT" ++ [0x04; 0x02] ++
  [u8 (Z.shiftr keepalive_sec 8); u8 (Z.land keepalive_sec 0xFF)] ++
  be16 (Z.of_nat (String.length client_id)) ++ bytes_of_string client_id.

Definition connect_frame (client_id : string) (keepalive_sec : Z) : option bytes :=
  frame 160 0x10 (connect_body client_id keepalive_sec).

Definition publish_body (topic payload : string) : bytes :=
  be16 (Z.of_nat (String.length topic)) ++ bytes_of_string topic ++ bytes_of_string payload.

Definition publish_frame (topic payload : string) : option bytes :=
  frame 1024 0x30 (publish_body topic payload).

Definition ping_frame : bytes := [0xC0; 0x00].

Definition telemetry_json (point : telemetry_t) : string :=
  "{" +:+ jstring "device_id" (tel_device_id point) +:+ "," +:+
  jstring "point_id" (tel_point_id point) +:+ "," +:+
  jraw "value" (fmt_fixed 4 (tel_value point)) +:+ "," +:+
  jstring "unit" (tel_unit point) +:+ "," +:+
  jraw "ts_ms" (dec (tel_ts_ms point)) +:+ "," +:+
  jstring "quality" (telemetry_quality_to_string (tel_quality point)) +:+ "}".

Definition telemetry_to_json (point : telemetry_t) (out_len : nat) : string :=
  snprintf out_len (telemetry_json point).

(** ** Writing *)

Section writing.
Context {env : Env}.

(** The loop with [buf] the bytes still to write. *)
Fixpoint write_loop (fuel : nat) (fd : Z) (buf : bytes) : io Z :=
  match fuel with
  | O => out_of_fuel
  | S fuel' =>
      match buf with
      | [] => mret 0
      | _ =>
          r ← write_wait fd buf;
          match r with
          | WrIntr => write_loop fuel' fd buf
          | WrErr => mret (-1)
          | WrOk n => write_loop fuel' fd (drop n buf)
          end
      end
  end.

Definition mqtt_write_all (fd : Z) (buf : bytes) : io Z := with_fuel (λ fuel, write_loop fuel fd buf).

(** The answer must be a CONNACK that accepts. *)
Definition connack_ok (r : read_result) : bool :=
  match r with
  | RdOk data =>
      bool_decide (4 <= length data)%nat && (default 0 (data !! 0%nat) =? 0x20)
      && (default 1 (data !! 3%nat) =? 0x00)
  | _ => false
  end.

Definition mqtt_send_connect (fd : Z) (client_id : string) (keepalive_sec : Z) : io Z :=
  match connect_frame client_id keepalive_sec with
  | None => mret (-1)
  | Some buf =>
      rc ← mqtt_write_all fd buf;
      if negb (rc =? 0) then mret (-1)
      else r ← read_wait fd 160; mret (if connack_ok r then 0 else -1)
  end.

Definition mqtt_send_publish (fd : Z) (topic payload : string) : io Z :=
  match publish_frame topic payload with
  | None => mret (-1)
  | Some buf => mqtt_write_all fd buf
  end.

Definition mqtt_send_ping (fd : Z) : io Z := mqtt_write_all fd ping_frame.

End writing.

(** ** What a broker decodes *)

(** The algorithm of MQTT 3.1.1, section 2.2.3: seven bits per byte, least
    significant first, at most four bytes. *)
Fixpoint decode_length_loop (room : nat) (mult acc : Z) (l : bytes) : option (Z * bytes) :=
  match room, l with
  | S room', b :: l' =>
      let acc := acc + Z.land b 127 * mult in
      if Z.testbit b 7 then decode_length_loop room' (mult * 128) acc l' else Some (acc, l')
  | _, _ => None
  end.

Definition decode_remaining_length (l : bytes) : option (Z * bytes) := decode_length_loop 4 1 0 l.

(** One packet off the stream: its header byte, its body, and the rest. *)
Definition decode_packet (l : bytes) : option (Z * bytes * bytes) :=
  match l with
  | [] => None
  | h :: l' =>
      '(n, l'') ← decode_remaining_length l';
      if decide (length l'' < Z.to_nat n)%nat then None
      else Some (h, take (Z.to_nat n) l'', drop (Z.to_nat n) l'')
  end.

(** The topic and the payload of a QoS 0 PUBLISH. *)
Definition decode_publish (body : bytes) : option (string * string) :=
  match body with
  | hi :: lo :: l =>
      let n := Z.to_nat (hi * 256 + lo) in
      if decide (length l < n)%nat then None
      else Some (string_of_bytes (take n l), string_of_bytes (drop n l))
  | _ => None
  end.

(** The messages of a stream of PUBLISH packets. *)
Fixpoint decode_stream (fuel : nat) (l : bytes) : option (list (string * string)) :=
  match fuel with
  | O => None
  | S fuel' =>
      match l with
      | [] => Some []
      | _ =>
          '(h, body, rest) ← decode_packet l;
          if h =? 0x30 then
            m ← decode_publish body; ms ← decode_stream fuel' rest; Some (m :: ms)
          else None
      end
  end.

(** ** Round trips *)

Lemma lor_continuation b : 0 <= b < 128 → Z.lor b 0x80 = b + 128.
Proof.
  intros Hb.
  assert (forallb (λ b, Z.lor b 0x80 =? b + 128) (seqZ 0 128) = true) as Hall by reflexivity.
  rewrite forallb_forall in Hall. apply Z.eqb_eq, Hall, list_elem_of_In, elem_of_seqZ. lia.
Qed.

Lemma continuation_bits b : 0 <= b < 128 →
  Z.testbit (b + 128) 7 = true ∧ Z.land (b + 128) 127 = b ∧ Z.testbit b 7 = false ∧ Z.land b 127 = b.
Proof.
  intros Hb.
  assert (forallb (λ b, Z.testbit (b + 128) 7 && (Z.land (b + 128) 127 =? b) &&
    negb (Z.testbit b 7) && (Z.land b 127 =? b)) (seqZ 0 128) = true) as Hall by reflexivity.
  rewrite forallb_forall in Hall. specialize (Hall b).
  rewrite <- list_elem_of_In, elem_of_seqZ in Hall. specialize (Hall ltac:(lia)).
  rewrite !andb_true_iff, negb_true_iff, !Z.eqb_eq in Hall. tauto.
Qed.

Lemma encode_decode_loop room r mult acc rest :
  0 <= r < 128 ^ Z.of_nat room → (0 < room)%nat →
  decode_length_loop room mult acc (encode_loop room r ++ rest) = Some (acc + r * mult, rest).
Proof.
  revert r mult acc. induction room as [|room IH]; intros r mult acc Hr H0; [lia|].
  cbn [encode_loop decode_length_loop app].
  pose proof (Z.mod_pos_bound r 128 ltac:(lia)) as Hm. pose proof (Z.div_mod r 128 ltac:(lia)) as Hd.
  rewrite Nat2Z.inj_succ, Z.pow_succ_r in Hr by lia.
  destruct (continuation_bits _ Hm) as (E1 & E2 & E3 & E4).
  destruct (Z.ltb_spec 0 (r / 128)) as [Hq|Hq].
  - rewrite lor_continuation, E1, E2 by done.
    assert (r / 128 < 128 ^ Z.of_nat room) by (apply Z.div_lt_upper_bound; lia).
    destruct room as [|room]; [change (128 ^ Z.of_nat 0) with 1 in *; lia|]. rewrite IH by lia. do 2 f_equal. lia.
  - rewrite E3, E4. pose proof (Z.div_pos r 128 ltac:(lia) ltac:(lia)).
    assert (r mod 128 = r) as -> by lia. done.
Qed.

Lemma encode_loop_length room r : (0 < room)%nat → (1 ≤ length (encode_loop room r) ≤ room)%nat.
Proof.
  revert r. induction room as [|room IH]; intros r H; [lia|]. simpl.
  destruct (0 <? r / 128); [|simpl; lia]. destruct room; [simpl; lia|]. specialize (IH (r / 128)). lia.
Qed.

Lemma encode_decode r rest :
  0 <= r < 128 ^ 4 →
  decode_remaining_length (mqtt_encode_remaining_length r ++ rest) = Some (r, rest).
Proof.
  intros Hr. unfold decode_remaining_length, mqtt_encode_remaining_length.
  rewrite encode_decode_loop by lia. do 2 f_equal. lia.
Qed.

(** The remaining length of a packet is encoded in one to four bytes, each
    of them a byte, and a reader that follows the MQTT algorithm gets the
    length back and stops exactly after it, for every length the protocol
    allows. *)
Theorem remaining_length_roundtrip r rest :
  0 <= r < 128 ^ 4 →
  decode_remaining_length (mqtt_encode_remaining_length r ++ rest) = Some (r, rest) ∧
  (1 ≤ length (mqtt_encode_remaining_length r) ≤ 4)%nat ∧
  Forall is_u8 (mqtt_encode_remaining_length r).
Proof.
  intros Hr. split; [by apply encode_decode|]. split; [by apply encode_loop_length; lia|].
  unfold mqtt_encode_remaining_length. clear Hr. generalize 4%nat. intros room. revert r.
  induction room as [|room IH]; intros r; cbn [encode_loop]; [constructor|].
  pose proof (Z.mod_pos_bound r 128 ltac:(lia)) as Hm. constructor.
  - unfold is_u8. destruct (0 <? r / 128); [rewrite lor_continuation by done|]; lia.
  - destruct (0 <? r / 128); auto.
Qed.

Lemma frame_some size header body f :
  frame size header body = Some f →
  f = header :: mqtt_encode_remaining_length (Z.of_nat (length body)) ++ body ∧
  (length f ≤ size)%nat.
Proof.
  unfold frame. set (len := mqtt_encode_remaining_length _). clearbody len.
  case_decide; [done|]. intros [= <-]. split; [done|]. cbn [length]. rewrite length_app. lia.
Qed.

Lemma decode_frame size header body f rest :
  frame size header body = Some f → (size ≤ 1024)%nat →
  decode_packet (f ++ rest) = Some (header, body, rest).
Proof.
  intros Hf Hs. apply frame_some in Hf as [-> Hl]. cbn [length] in Hl. rewrite length_app in Hl.
  unfold decode_packet. cbn [app]. rewrite <- app_assoc, encode_decode by (change (128 ^ 4) with 268435456; lia).
  cbn [mbind option_bind]. rewrite Nat2Z.id, decide_False by (rewrite length_app; lia).
  by rewrite take_app_length, drop_app_length.
Qed.

Lemma string_of_bytes_app s t :
  take (String.length s) (bytes_of_string s ++ bytes_of_string t) = bytes_of_string s ∧
  drop (String.length s) (bytes_of_string s ++ bytes_of_string t) = bytes_of_string t.
Proof. rewrite <- (bytes_of_string_length s). by rewrite take_app_length, drop_app_length. Qed.

Lemma be16_value n : 0 <= n < 2 ^ 16 → ∃ hi lo, be16 n = [hi; lo] ∧ hi * 256 + lo = n.
Proof.
  intros Hn. eexists _, _. split; [reflexivity|].
  change 255 with (Z.ones 8). rewrite Z.land_ones, Z.shiftr_div_pow2 by lia. unfold u8.
  change (2 ^ 8) with 256. rewrite Zmod_mod.
  rewrite (Z.mod_small (n / 256)) by (split; [apply Z.div_pos; lia|apply Z.div_lt_upper_bound; lia]).
  pose proof (Z.div_mod n 256 ltac:(lia)). lia.
Qed.

Lemma decode_publish_body topic payload :
  Z.of_nat (String.length topic) < 2 ^ 16 →
  decode_publish (publish_body topic payload) = Some (topic, payload).
Proof.
  intros Ht. unfold publish_body.
  destruct (be16_value (Z.of_nat (String.length topic))) as (hi & lo & -> & E); [lia|].
  cbn [app decode_publish]. rewrite E, Nat2Z.id, decide_False
    by (rewrite length_app, !bytes_of_string_length; lia).
  destruct (string_of_bytes_app topic payload) as [-> ->]. by rewrite !string_of_bytes_of_string.
Qed.

(** C11: a broker recovers exactly the messages that were published: the
    concatenation of the frames of any sequence of messages decodes, packet by
    packet, to the same topics and payloads in the same order, with nothing
    left over; and every frame fits the buffer it is built in. *)
Theorem publish_stream_roundtrip (ms : list (string * string)) fs :
  mapM (λ m, publish_frame m.1 m.2) ms = Some fs →
  decode_stream (S (length ms)) (concat fs) = Some ms ∧ Forall (λ f, (length f ≤ 1024)%nat) fs.
Proof.
  rewrite mapM_Some. induction 1 as [|[topic payload] f ms fs' Ef _ [Hd Hl]]; [by split|].
  cbn [fst snd] in Ef. pose proof (frame_some _ _ _ _ Ef) as [Ef' Hle].
  split; [|by constructor]. cbn [concat length].
  assert (String.length topic < 1024)%nat as Ht.
  { rewrite Ef' in Hle. cbn [length] in Hle. rewrite length_app in Hle. unfold publish_body in Hle.
    rewrite !length_app, !bytes_of_string_length in Hle. lia. }
  destruct (f ++ concat fs') as [|b l] eqn:El; [by rewrite Ef' in El|].
  cbn [decode_stream]. rewrite <- El, (decode_frame _ _ _ _ _ Ef) by lia.
  cbn [mbind option_bind Z.eqb Pos.eqb]. rewrite decode_publish_body by lia.
  cbn [mbind option_bind]. cbn [decode_stream] in Hd. by rewrite Hd.
Qed.

(** ** Every telemetry fits *)

Lemma frame_fits size h body : (5 + length body ≤ size)%nat → is_Some (frame size h body).
Proof.
  intros Hl. unfold frame. pose proof (encode_loop_length 4 (Z.of_nat (length body)) ltac:(lia)).
  unfold mqtt_encode_remaining_length. rewrite decide_False by lia. by eexists.
Qed.

Lemma publish_fits topic payload :
  (String.length topic < 128)%nat → (String.length payload < 384)%nat → is_Some (publish_frame topic payload).
Proof.
  intros Ht Hp. apply frame_fits. unfold publish_body, be16.
  rewrite ?length_app, ?bytes_of_string_length; cbn [length]; lia.
Qed.

Lemma connect_fits id keepalive : (String.length id < 64)%nat → is_Some (connect_frame id keepalive).
Proof.
  intros Hi. apply frame_fits. unfold connect_body, be16.
  rewrite ?length_app, ?bytes_of_string_length; cbn [length String.length]; lia.
Qed.

Lemma telemetry_json_fits p : (String.length (telemetry_to_json p 384) < 384)%nat.
Proof. apply snprintf_fits. lia. Qed.

(** C36: a packet is never refused for its size in normal operation: for a
    loaded configuration, the CONNECT of the session and the PUBLISH of any
    telemetry or heartbeat payload fit their buffers. *)
Theorem session_frames_fit c p payload :
  config_wf c → (String.length payload < 384)%nat →
  is_Some (connect_frame (snprintf 64 ("edgeflow-" +:+ cfg_device_id c)) (cfg_mqtt_keepalive_sec c)) ∧
  is_Some (publish_frame (cfg_mqtt_topic c) (telemetry_to_json p 384)) ∧
  is_Some (publish_frame (cfg_mqtt_heartbeat_topic c) payload).
Proof.
  intros [] Hp. unfold fits in *. split_and!; [|apply publish_fits; [lia|apply telemetry_json_fits]|by apply publish_fits; [lia|]].
  apply connect_fits, snprintf_fits. lia.
Qed.

(** ** Writing a frame *)

Definition is_send (fd : Z) (e : event) : Prop := ∃ d r, e = EvSend fd d r.

Section write_properties.
Context {env : Env}.

Lemma write_loop_run fuel fd buf n w rc w' :
  write_loop fuel fd buf n w = Some (rc, w') →
  ∃ evs, w' = mk_world (evs ++ w_trace w) (w_glob w) ∧ Forall (is_send fd) evs ∧
    (rc = 0 ∧ sent fd evs = buf ∨
     rc = -1 ∧ ∃ k, (k < length buf)%nat ∧ sent fd evs = take k buf).
Proof.
  revert buf w. induction fuel as [|fuel IH]; intros buf w H; [done|]. cbn [write_loop] in H.
  destruct buf as [|b buf'] eqn:Eb.
  { io_done H. exists []. destruct w'. split_and!; [done|constructor|by left]. }
  rewrite <- Eb in H |- *. assert (0 < length buf)%nat as Hpos by (subst; simpl; lia).
  clear b buf' Eb. io_go H. destruct (clip_write _ _) as [k| |] eqn:Er.
  - assert (k ≤ length buf)%nat as Hk by (destruct (env_write _ _ _); simpl in Er; simplify_eq; lia).
    apply IH in H as (evs & -> & Hs & Hrest). cbn [w_trace w_glob].
    exists (evs ++ [EvSend fd buf (WrOk k)]). rewrite <- app_assoc. split; [done|].
    split; [apply Forall_app_2; [done|]; repeat constructor; by eexists _, _|].
    rewrite sent_app. cbn [sent ev_sent app]. rewrite Z.eqb_refl.
    destruct Hrest as [[-> ->]|(-> & j & Hj & ->)]; [left|right].
    + split; [done|]. by rewrite take_drop.
    + split; [done|]. rewrite length_drop in Hj. exists (k + j)%nat. split; [lia|].
      by rewrite take_take_drop.
  - apply IH in H as (evs & -> & Hs & Hrest). cbn [w_trace w_glob].
    exists (evs ++ [EvSend fd buf WrIntr]). rewrite <- app_assoc. split; [done|].
    split; [apply Forall_app_2; [done|]; repeat constructor; by eexists _, _|].
    by rewrite sent_app.
  - io_done H. exists [EvSend fd buf WrErr]. split; [done|].
    split; [repeat constructor; by eexists _, _|]. right. split; [done|]. by exists 0%nat.
Qed.

(** When the write of a frame succeeds, exactly its bytes went out, in
    order, once each, however the kernel cut them; when it fails, a strict
    prefix went out.  Nothing else happens on any descriptor. *)
Theorem write_all_exact fd buf n w rc w' :
  mqtt_write_all fd buf n w = Some (rc, w') →
  ∃ evs, w_trace w' = evs ++ w_trace w ∧ Forall (is_send fd) evs ∧
    (rc = 0 ∧ sent fd evs = buf ∨
     rc = -1 ∧ ∃ k, (k < length buf)%nat ∧ sent fd evs = take k buf).
Proof. intros H. apply write_loop_run in H as (evs & -> & H). by exists evs. Qed.

Lemma write_loop_returns k fuel fd buf n w :
  (∀ tr, env_answers tr fd = true) →
  (∀ tr d, d ≠ [] → env_write tr fd d = WrIntr ∨ env_write tr fd d = WrOk 0 → retries fd tr < k)%nat →
  (length buf + (k - retries fd (w_trace w)) < fuel)%nat →
  is_Some (write_loop fuel fd buf n w).
Proof.
  intros Ha Hk. revert buf w. induction fuel as [|fuel IH]; intros buf w Hf; [lia|]. cbn [write_loop].
  destruct buf as [|b buf'] eqn:Eb; [by eexists|]. rewrite <- Eb in Hf |- *.
  assert (0 < length buf)%nat as Hpos by (subst; simpl; lia). clear b buf' Eb.
  assert (buf ≠ []) as Hne by (intros ->; simpl in Hpos; lia). unfold write_wait.
  erewrite bind_eq by (rewrite answered_eq by done; reflexivity).
  destruct (clip_write _ _) as [j| |] eqn:Er; [|..|by eexists];
    apply IH; cbn [w_trace]; rewrite Er, retries_cons; cbn [is_retry].
  - rewrite length_drop. destruct j as [|j]; [|lia]. rewrite Z.eqb_refl.
    assert (retries fd (w_trace w) < k)%nat; [|lia].
    apply (Hk _ buf Hne). right. destruct (env_write _ _ _); simpl in Er; simplify_eq. f_equal. lia.
  - rewrite Z.eqb_refl. assert (retries fd (w_trace w) < k)%nat; [|lia].
    apply (Hk _ buf Hne). left. by destruct (env_write _ _ _); simpl in Er; simplify_eq.
Qed.

End write_properties.

(** ** Concrete runs *)

Lemma remaining_length_roundtrip_witness :
  decode_remaining_length (mqtt_encode_remaining_length 321 ++ [7]) = Some (321, [7]) ∧
  (1 ≤ length (mqtt_encode_remaining_length 321) ≤ 4)%nat ∧
  Forall is_u8 (mqtt_encode_remaining_length 321).
Proof. apply (remaining_length_roundtrip 321 [7]). lia. Defined.

Lemma publish_stream_roundtrip_witness :
  ∃ fs, mapM (λ m : string * string, publish_frame m.1 m.2) [("t", "on"); ("u", "off")]%string = Some fs ∧
  decode_stream 3 (concat fs) = Some [("t", "on"); ("u", "off")]%string ∧
  Forall (λ f : bytes, (length f ≤ 1024)%nat) fs.
Proof.
  eexists. split; [vm_compute; reflexivity|].
  apply (publish_stream_roundtrip [("t", "on"); ("u", "off")]%string). vm_compute; reflexivity.
Defined.

Lemma session_frames_fit_witness :
  is_Some (connect_frame (snprintf 64 ("edgeflow-" +:+ cfg_device_id gateway_config_defaults))
             (cfg_mqtt_keepalive_sec gateway_config_defaults)) ∧
  is_Some (publish_frame (cfg_mqtt_topic gateway_config_defaults) (telemetry_to_json demo_point 384)) ∧
  is_Some (publish_frame (cfg_mqtt_heartbeat_topic gateway_config_defaults) "{}").
Proof. apply session_frames_fit; [exact defaults_wf|vm_compute; lia]. Defined.

Lemma write_all_exact_witness :
  ∃ w', @mqtt_write_all (demo_env [] []) 7 [1; 2; 3] 2%nat world_init = Some (0, w') ∧
  ∃ evs, w_trace w' = evs ++ w_trace world_init ∧ Forall (is_send 7) evs ∧
    (0 = 0 ∧ sent 7 evs = [1; 2; 3] ∨
     0 = -1 ∧ ∃ k, (k < length [1; 2; 3])%nat ∧ sent 7 evs = take k [1; 2; 3]).
Proof.
  eexists. split; [vm_compute; reflexivity|].
  apply (@write_all_exact (demo_env [] []) 7 [1; 2; 3] 2 world_init). vm_compute; reflexivity.
Defined.

