(* ===== verification/MqttSession.v ===== *)
(** * The MQTT session ([src/src/egress/mqtt_session.c], the connection half,
    and [mqtt_client.c])

    One connection to the broker, shared by the worker thread and the monitor
    thread under a lock: it is opened on demand, closed on any failure, and
    the pending points of the outbox are replayed through it. *)

From S2P Require Export Mqtt.

#[local] Open Scope Z_scope.

(** The lock is in the events. *)
Record mqtt_session_t := mk_session { ms_cfg : gateway_config_t; ms_fd : Z; ms_connected : bool }.

(** What memset leaves in a configuration. *)
Definition config_zero : gateway_config_t :=
  mk_config "" false "" 0 0 d0 d0 d0 d0 d0 "" 0 "" "" "" "" "" "" false "" 0 0 0 0 "" "" 0 0 0
    (Ascii.ascii_of_nat 0) 0 0 0.

Definition with_connection (s : mqtt_session_t) (fd : Z) (connected : bool) : mqtt_session_t :=
  mk_session (ms_cfg s) fd connected.

Definition with_replay_total (m : gateway_metrics_t) (v : Z) : gateway_metrics_t :=
  mk_metrics (ingress_points m) (processed_points m) (mqtt_publish_ok m) (mqtt_publish_fail m) v
    (queue_depth m) (queue_dropped m) (storage_pending_count m) (heartbeat_ingress_age_ms m)
    (heartbeat_worker_age_ms m) (heartbeat_monitor_age_ms m).

Definition with_pending (m : gateway_metrics_t) (v : Z) : gateway_metrics_t :=
  mk_metrics (ingress_points m) (processed_points m) (mqtt_publish_ok m) (mqtt_publish_fail m)
    (mqtt_replay_total m) (queue_depth m) (queue_dropped m) v (heartbeat_ingress_age_ms m)
    (heartbeat_worker_age_ms m) (heartbeat_monitor_age_ms m).

Definition mqtt_session_init (session : option mqtt_session_t) (cfg : option gateway_config_t)
    : option mqtt_session_t :=
  (λ _, mk_session (default config_zero cfg) (-1) false) <$> session.

Section session.
Context {env : Env}.

(** ** Operations *)

Definition mqtt_open_tcp (cfg : gateway_config_t) : io Z :=
  fd ← socket;
  if fd <? 0 then mret (-1)
  else if negb (env_inet_pton (cfg_broker_host cfg)) then close fd;; mret (-1)
  else
    ok ← connect fd (cfg_broker_host cfg) (cfg_broker_port cfg);
    if negb ok then close fd;; mret (-1) else mret fd.

Definition mqtt_shutdown_locked (s : mqtt_session_t) : io mqtt_session_t :=
  (if 0 <=? ms_fd s then close (ms_fd s) else mret tt);;
  mret (with_connection s (if 0 <=? ms_fd s then -1 else ms_fd s) false).

Definition client_id (cfg : gateway_config_t) : string := snprintf 64 ("edgeflow-" +:+ cfg_device_id cfg).

Definition mqtt_ensure_connected_locked (s : mqtt_session_t) : io (Z * mqtt_session_t) :=
  if ms_connected s && (0 <=? ms_fd s) then mret (0, s)
  else
    s ← mqtt_shutdown_locked s;
    fd ← mqtt_open_tcp (ms_cfg s);
    let s := with_connection s fd (ms_connected s) in
    if fd <? 0 then mret (-1, with_connection s fd false)
    else
      rc ← mqtt_send_connect fd (client_id (ms_cfg s)) (u16 (cfg_mqtt_keepalive_sec (ms_cfg s)));
      if negb (rc =? 0) then s ← mqtt_shutdown_locked s; mret (-1, s)
      else mret (0, with_connection s fd true).

Definition mqtt_session_shutdown (session : option mqtt_session_t) : io (option mqtt_session_t) :=
  match session with
  | None => mret None
  | Some s =>
      pthread_mutex_lock;;
      s ← mqtt_shutdown_locked s;
      pthread_mutex_unlock;;
      mret (Some s)
  end.

Definition mqtt_session_ensure_connected (session : option mqtt_session_t)
    : io (Z * option mqtt_session_t) :=
  match session with
  | None => mret (-1, None)
  | Some s =>
      pthread_mutex_lock;;
      '(rc, s) ← mqtt_ensure_connected_locked s;
      pthread_mutex_unlock;;
      mret (rc, Some s)
  end.

(** The critical section of a publication. *)
Definition publish_locked (s : mqtt_session_t) (topic payload : string) : io (Z * mqtt_session_t) :=
  '(rc, s) ← mqtt_ensure_connected_locked s;
  if rc =? 0 then
    rc ← mqtt_send_publish (ms_fd s) topic payload;
    if rc =? 0 then mret (0, s)
    else s ← mqtt_shutdown_locked s; mret (-1, s)
  else mret (-1, s).

Definition mqtt_session_publish_telemetry (session : option mqtt_session_t)
    (point : option telemetry_t) : io (Z * option mqtt_session_t) :=
  match session, point with
  | Some s, Some p =>
      let payload := telemetry_to_json p 384 in
      pthread_mutex_lock;;
      '(rc, s) ← publish_locked s (cfg_mqtt_topic (ms_cfg s)) payload;
      pthread_mutex_unlock;;
      mret (rc, Some s)
  | _, _ => mret (-1, session)
  end.

Definition mqtt_session_publish_heartbeat (session : option mqtt_session_t)
    (payload : option string) : io (Z * option mqtt_session_t) :=
  match session, payload with
  | Some s, Some payload =>
      pthread_mutex_lock;;
      '(rc, s) ← publish_locked s (cfg_mqtt_heartbeat_topic (ms_cfg s)) payload;
      pthread_mutex_unlock;;
      mret (rc, Some s)
  | _, _ => mret (-1, session)
  end.

(** The loop over the fetched rows: publish, then mark; the first failed
    publication closes the connection and ends it. *)
Fixpoint replay_rows (storage : option storage_ctx_t) (l : list storage_telemetry_row_t)
    (s : mqtt_session_t) (metrics : option gateway_metrics_t) (replayed : Z)
    : io (Z * mqtt_session_t * option gateway_metrics_t) :=
  match l with
  | [] => mret (replayed, s, metrics)
  | row :: l' =>
      let payload := telemetry_to_json (row_point row) 384 in
      rc ← mqtt_send_publish (ms_fd s) (cfg_mqtt_topic (ms_cfg s)) payload;
      if negb (rc =? 0) then
        s ← mqtt_shutdown_locked s; mret (replayed, s, metrics)
      else
        rc ← storage_mark_telemetry_uploaded storage (row_id row);
        if rc =? 0 then
          replay_rows storage l' s
            ((λ m, with_replay_total m (u64 (mqtt_replay_total m + 1))) <$> metrics) (replayed + 1)
        else replay_rows storage l' s metrics replayed
  end.

Definition replay_batch (cfg : gateway_config_t) : nat :=
  let batch := cfg_mqtt_replay_batch cfg in
  let batch := if batch =? 0 then 50 else batch in
  Z.to_nat (if 64 <? batch then 64 else batch).

Definition mqtt_session_replay_pending (session : option mqtt_session_t)
    (storage : option storage_ctx_t) (metrics : option gateway_metrics_t)
    : io (Z * option mqtt_session_t * option gateway_metrics_t) :=
  match session, storage with
  | Some s, Some _ =>
      '(n, l) ← storage_fetch_pending_telemetry storage true (replay_batch (ms_cfg s));
      if n <? 0 then mret (0, session, metrics)
      else
        pthread_mutex_lock;;
        '(rc, s) ← mqtt_ensure_connected_locked s;
        '(replayed, s, metrics) ←
          (if rc =? 0 then replay_rows storage l s metrics 0 else mret (0, s, metrics));
        pthread_mutex_unlock;;
        match metrics with
        | None => mret (replayed, Some s, None)
        | Some m =>
            count ← storage_pending_telemetry_count storage;
            mret (replayed, Some s, Some (with_pending m (u32 count)))
        end
  | _, _ => mret (0, session, metrics)
  end.

Definition mqtt_session_ping (session : option mqtt_session_t) : io (Z * option mqtt_session_t) :=
  match session with
  | None => mret (-1, None)
  | Some s =>
      pthread_mutex_lock;;
      '(rc, s) ←
        (if ms_connected s && (0 <=? ms_fd s) then
           rc ← mqtt_send_ping (ms_fd s);
           if rc =? 0 then mret (0, s) else s ← mqtt_shutdown_locked s; mret (-1, s)
         else mret (-1, s));
      pthread_mutex_unlock;;
      mret (rc, Some s)
  end.

(** [mqtt_client.c]: one publication over a connection of its own. *)
Definition mqtt_publish_point (cfg : option gateway_config_t) (point : option telemetry_t) : io Z :=
  match cfg, point with
  | Some c, Some p =>
      let session := mqtt_session_init (Some (mk_session config_zero 0 false)) (Some c) in
      '(rc, session) ← mqtt_session_publish_telemetry session (Some p);
      mqtt_session_shutdown session;;
      mret rc
  | _, _ => mret (-1)
  end.

End session.

(** ** Discipline of descriptors and lock *)

(** A session is connected exactly when it holds a descriptor. *)
Definition session_ok (s : mqtt_session_t) : Prop :=
  if ms_connected s then 0 <= ms_fd s else ms_fd s = -1.

Definition held (s : mqtt_session_t) : list Z := if ms_connected s then [ms_fd s] else [].

(** The sockets open after an event, and after a trace. *)
Definition fd_step (e : event) (l : list Z) : list Z :=
  match e with
  | EvSocket fd => if 0 <=? fd then fd :: l else l
  | EvClose fd => filter (λ fd', fd' ≠ fd) l
  | _ => l
  end.

Definition fds (l : list Z) (evs : trace) : list Z := foldr fd_step l evs.

(** Traffic on sockets, which needs the lock. *)
Definition is_net (e : event) : bool :=
  match e with
  | EvSocket _ | EvConnect _ _ _ _ | EvSend _ _ _ | EvRecv _ _ _ | EvClose _ => true
  | _ => false
  end.

(** The lock after an event: [None] when a held lock is taken again, a free one
    is released, or a socket is used without it. *)
Definition lock_step (e : event) (locked : option bool) : option bool :=
  match e, locked with
  | EvLock, Some false => Some true
  | EvUnlock, Some true => Some false
  | EvLock, _ | EvUnlock, _ => None
  | _, _ => if is_net e then (if decide (locked = Some true) then locked else None) else locked
  end.

Definition locks (start : bool) (evs : trace) : option bool := foldr lock_step (Some start) evs.

Lemma close_held (fd : Z) : filter (λ fd', fd' ≠ fd) [fd] = [].
Proof. by rewrite filter_cons_False by (intros []; done). Qed.

Lemma fds_app l e1 e2 : fds l (e1 ++ e2) = fds (fds l e2) e1.
Proof. unfold fds. by rewrite foldr_app. Qed.

Lemma locks_app b e1 e2 b' : locks b e2 = Some b' → locks b (e1 ++ e2) = locks b' e1.
Proof. unfold locks. rewrite foldr_app. by intros ->. Qed.

(** Neither takes nor releases the lock. *)
Definition lockless (e : event) : bool := match e with EvLock | EvUnlock => false | _ => true end.

Lemma locks_lockless evs : Forall (λ e, lockless e = true) evs → locks true evs = Some true.
Proof. induction 1 as [|e evs He _ IH]; simpl; [done|]. rewrite IH. by destruct e. Qed.

Lemma net_lockless evs : Forall (λ e, is_net e = true) evs → Forall (λ e, lockless e = true) evs.
Proof. intros H. eapply Forall_impl; [exact H|]. by intros []. Qed.

(** Traffic that opens and closes nothing. *)
Definition is_talk (fd : Z) (e : event) : Prop :=
  is_send fd e ∨ ∃ n r, e = EvRecv fd n r.

Lemma talk_net fd evs : Forall (is_talk fd) evs → Forall (λ e, is_net e = true) evs.
Proof. intros H. eapply Forall_impl; [exact H|]. by intros e [(? & ? & ->)|(? & ? & ->)]. Qed.

Lemma talk_fds fd l evs : Forall (is_talk fd) evs → fds l evs = l.
Proof.
  induction 1 as [|e evs He _ IH]; simpl; [done|]. rewrite IH.
  by destruct He as [(? & ? & ->)|(? & ? & ->)].
Qed.

Lemma send_talk fd evs : Forall (is_send fd) evs → Forall (is_talk fd) evs.
Proof. intros H. eapply Forall_impl; [exact H|]. by left. Qed.

Section runs.
Context {env : Env}.

Lemma shutdown_open s n w :
  0 <= ms_fd s →
  mqtt_shutdown_locked s n w =
    Some (with_connection s (-1) false, mk_world (EvClose (ms_fd s) :: w_trace w) (w_glob w)).
Proof. intros H. unfold mqtt_shutdown_locked. by destruct (Z.leb_spec 0 (ms_fd s)); [|lia]. Qed.

Lemma shutdown_locked_run s n w :
  session_ok s →
  ∃ evs, mqtt_shutdown_locked s n w =
    Some (with_connection s (-1) false, mk_world (evs ++ w_trace w) (w_glob w)) ∧
    Forall (λ e, is_net e = true) evs ∧ fds (held s) evs = [].
Proof.
  unfold session_ok, mqtt_shutdown_locked, held. intros Hok. destruct (ms_connected s).
  - exists [EvClose (ms_fd s)]. destruct (Z.leb_spec 0 (ms_fd s)); [|lia]. split; [done|].
    split; [by repeat constructor|]. simpl. by rewrite close_held.
  - exists []. rewrite Hok. split_and!; [by destruct w|constructor|done].
Qed.

Lemma open_tcp_run cfg n w fd w' :
  mqtt_open_tcp cfg n w = Some (fd, w') →
  ∃ evs, w' = mk_world (evs ++ w_trace w) (w_glob w) ∧ Forall (λ e, is_net e = true) evs ∧
    (0 <= fd ∧ fds [] evs = [fd] ∧ sent fd evs = [] ∨ fd = -1 ∧ fds [] evs = []).
Proof.
  unfold mqtt_open_tcp. intros H. io_go H. revert H. generalize (env_socket (w_trace w)) as s. intros s H.
  destruct (Z.ltb_spec s 0) as [Hs|Hs].
  { io_done H. exists [EvSocket s]. split_and!; [done|by repeat constructor|right].
    split; [done|]. simpl. by destruct (Z.leb_spec 0 s); [lia|]. }
  assert (∀ evs, fds [s] evs = [s] → fds [] (EvClose s :: evs ++ [EvSocket s]) = []) as Hclose.
  { intros evs E. simpl. rewrite fds_app. simpl. destruct (Z.leb_spec 0 s); [|lia].
    rewrite E. by rewrite close_held. }
  destruct (env_inet_pton _); cbn [negb] in H; io_go H.
  2: { io_done H. exists [EvClose s; EvSocket s].
       split_and!; [done|by repeat constructor|right]. split; [done|]. by apply (Hclose []). }
  destruct (env_connect _ _); cbn [negb] in H; io_go H; io_done H.
  - eexists [EvConnect _ _ _ true; EvSocket _].
    split_and!; [done|by repeat constructor|left]. split_and!; [done| |done].
    simpl. by destruct (Z.leb_spec 0 fd); [|lia].
  - eexists [EvClose s; EvConnect _ _ _ false; EvSocket s].
    split_and!; [done|by repeat constructor|right]. split; [done|]. by apply (Hclose [_]).
Qed.

Lemma send_connect_run fd id ka n w rc w' :
  mqtt_send_connect fd id ka n w = Some (rc, w') →
  ∃ evs, w' = mk_world (evs ++ w_trace w) (w_glob w) ∧ Forall (is_talk fd) evs ∧
    (rc = 0 ∧ (∃ f, connect_frame id ka = Some f ∧ sent fd evs = f) ∨ rc = -1).
Proof.
  unfold mqtt_send_connect. intros H. destruct (connect_frame id ka) as [f|].
  2: { io_done H. exists []. destruct w'. split_and!; [done|constructor|by right]. }
  apply bind_run in H as (rc1 & w1 & Hw & H). apply write_loop_run in Hw as (evs & -> & Hs & Hrc).
  destruct Hrc as [[-> Hf]|(-> & _)]; cbn [Z.eqb negb] in H.
  - io_go H. io_done H. eexists (_ :: evs). split; [done|].
    split; [constructor; [right; by eexists _, _|by apply send_talk]|].
    destruct (connack_ok _); [left|by right]. split; [done|]. eexists. split; [done|].
    cbn [sent ev_sent]. by rewrite app_nil_r.
  - io_done H. exists evs. split_and!; [done|by apply send_talk|by right].
Qed.

(** What the critical sections do to the session: the connection that results
    and the bytes that opened it. *)
Lemma ensure_run s n w rc s' w' :
  session_ok s →
  mqtt_ensure_connected_locked s n w = Some ((rc, s'), w') →
  ∃ evs, w' = mk_world (evs ++ w_trace w) (w_glob w) ∧ Forall (λ e, is_net e = true) evs ∧
    session_ok s' ∧ ms_cfg s' = ms_cfg s ∧ fds (held s) evs = held s' ∧
    (rc = 0 ∧ ms_connected s' = true ∧
       (if ms_connected s then s' = s ∧ evs = []
        else ∃ f, connect_frame (client_id (ms_cfg s)) (u16 (cfg_mqtt_keepalive_sec (ms_cfg s))) = Some f ∧
                  sent (ms_fd s') evs = f) ∨
     rc = -1 ∧ s' = with_connection s (-1) false).
Proof.
  unfold mqtt_ensure_connected_locked. intros Hok H.
  destruct (ms_connected s && (0 <=? ms_fd s)) eqn:Ec.
  { io_done H. apply andb_true_iff in Ec as [Ec _]. rewrite Ec. exists []. destruct w'.
    split_and!; [done|constructor|done|done|done|]. left. auto. }
  assert (ms_connected s = false) as Ed.
  { unfold session_ok in Hok. destruct (ms_connected s); [|done].
    destruct (Z.leb_spec 0 (ms_fd s)); [done|lia]. }
  destruct (shutdown_locked_run s n w Hok) as (e0 & Hsd & Hn0 & Hf0).
  unfold held in Hf0 |- *. rewrite Ed in *.
  assert (e0 = []) as ->.
  { unfold mqtt_shutdown_locked, session_ok in Hsd, Hok. rewrite Ed in Hok. rewrite Hok in Hsd.
    cbn in Hsd. unfold mret, io_ret in Hsd. destruct w as [tr g]. simpl in Hsd. injection Hsd as E.
    destruct e0; [done|]. apply (f_equal length) in E. simpl in E. rewrite length_app in E. lia. }
  erewrite bind_eq in H by exact Hsd. clear Hsd. cbn [app ms_cfg with_connection ms_connected] in H.
  apply bind_run in H as (fd & w1 & Ho & H). apply open_tcp_run in Ho as (e1 & -> & Hn1 & Hfd).
  cbn [w_trace w_glob] in H.
  destruct Hfd as [(Hpos & Hf1 & Hs1)|(-> & Hf1)]; cbn [Z.ltb Z.compare] in H.
  2: { io_done H. exists e1. split_and!; try done. right. split; [done|]. by destruct s. }
  destruct (Z.ltb_spec fd 0); [lia|].
  apply bind_run in H as (rc1 & w2 & Hc & H).
  apply send_connect_run in Hc as (e2 & -> & Ht & Hrc). cbn [w_trace w_glob] in H.
  destruct Hrc as [(-> & f & Hf & <-)| ->]; cbn [Z.eqb negb] in H.
  - io_done H. exists (e2 ++ e1). rewrite <- app_assoc.
    split_and!; [done|by apply Forall_app_2; eauto using talk_net|done|done| |].
    + by rewrite fds_app, Hf1, (talk_fds fd).
    + left. split_and!; [done|done|]. eexists. split; [done|].
      cbn [with_connection ms_fd]. by rewrite sent_app, Hs1.
  - (* the handshake failed: the socket is closed again *)
    erewrite bind_eq in H by (by apply shutdown_open). cbn [ms_fd with_connection w_trace w_glob] in H.
    io_done H.
    exists (EvClose fd :: e2 ++ e1). cbn [app]. rewrite <- app_assoc.
    split_and!; [done|constructor; [done|by apply Forall_app_2; eauto using talk_net]|done|done| |].
    + simpl. rewrite fds_app, Hf1, (talk_fds fd) by done. by rewrite close_held.
    + right. split; [done|]. by destruct s.
Qed.

Lemma send_publish_run fd topic payload n w rc w' :
  mqtt_send_publish fd topic payload n w = Some (rc, w') →
  ∃ evs, w' = mk_world (evs ++ w_trace w) (w_glob w) ∧ Forall (is_send fd) evs ∧
    (rc = 0 ∧ publish_frame topic payload = Some (sent fd evs) ∨ rc = -1).
Proof.
  unfold mqtt_send_publish. intros H. destruct (publish_frame topic payload) as [f|].
  - apply write_loop_run in H as (evs & -> & Hs & Hrc). exists evs. split_and!; [done|done|].
    destruct Hrc as [[-> ->]|[-> _]]; auto.
  - io_done H. exists []. destruct w'. split_and!; [done|constructor|by right].
Qed.

Lemma publish_locked_run s topic payload n w rc s' w' :
  session_ok s →
  publish_locked s topic payload n w = Some ((rc, s'), w') →
  ∃ evs, w' = mk_world (evs ++ w_trace w) (w_glob w) ∧ Forall (λ e, is_net e = true) evs ∧
    session_ok s' ∧ fds (held s) evs = held s' ∧
    (rc = 0 ∧ ms_connected s' = true ∧
       (∃ hs f, publish_frame topic payload = Some f ∧ sent (ms_fd s') evs = hs ++ f ∧
         (if ms_connected s then s' = s ∧ hs = []
          else connect_frame (client_id (ms_cfg s)) (u16 (cfg_mqtt_keepalive_sec (ms_cfg s))) = Some hs)) ∨
     rc = -1 ∧ s' = with_connection s (-1) false).
Proof.
  unfold publish_locked. intros Hok H. apply bind_run in H as ([rc1 s1] & w1 & He & H).
  apply ensure_run in He as (e1 & -> & Hn1 & Hok1 & Hcfg & Hf1 & Hc1); [|done].
  destruct Hc1 as [(-> & Hon & Hhs)|(-> & ->)]; cbn [Z.eqb] in H.
  2: { io_done H. exists e1. split_and!; try done. by right. }
  apply bind_run in H as (rc2 & w2 & Hp & H). apply send_publish_run in Hp as (e2 & -> & Hs2 & Hc2).
  cbn [w_trace w_glob] in H. pose proof (talk_net _ _ (send_talk _ _ Hs2)) as Hn2.
  destruct Hc2 as [[-> Hf]| ->]; cbn [Z.eqb] in H.
  - io_done H. exists (e2 ++ e1). rewrite <- app_assoc.
    split_and!; [done|by apply Forall_app_2|done| |].
    + by rewrite fds_app, Hf1, (talk_fds (ms_fd s')) by (by apply send_talk).
    + left. split_and!; [done|done|]. exists (sent (ms_fd s') e1), (sent (ms_fd s') e2).
      split_and!; [done|by rewrite sent_app|].
      destruct (ms_connected s); [destruct Hhs as [-> ->]; done|].
      destruct Hhs as (f & Hf' & ->). done.
  - unfold session_ok in Hok1. rewrite Hon in Hok1.
    erewrite bind_eq in H by (by apply shutdown_open). cbn [w_trace w_glob] in H. io_done H.
    exists (EvClose (ms_fd s1) :: e2 ++ e1). cbn [app]. rewrite <- app_assoc.
    split_and!; [done|constructor; [done|by apply Forall_app_2]|done| |].
    + simpl. rewrite fds_app, Hf1. unfold held at 1. rewrite Hon, (talk_fds (ms_fd s1))
        by (by apply send_talk). by rewrite close_held.
    + right. split; [done|]. destruct s, s1. simpl in *. by subst.
Qed.

End runs.

(** ** The replay *)

(** The frame of a fetched row. *)
Definition row_frame (c : gateway_config_t) (row : storage_telemetry_row_t) : option bytes :=
  publish_frame (cfg_mqtt_topic c) (telemetry_to_json (row_point row) 384).

(** [marks_ok fd ok base evs]: every mark in [evs] is for a row that the bytes
    sent on [fd] before it, after [base], justify. *)
Fixpoint marks_ok (fd : Z) (ok : Z → bytes → Prop) (base : bytes) (evs : trace) : Prop :=
  match evs with
  | [] => True
  | e :: evs' =>
      marks_ok fd ok base evs' ∧
      match e with
      | EvStep sql [SqlInt id] _ => sql = sql_mark_uploaded → ok id (base ++ sent fd evs')
      | _ => True
      end
  end.

(** The row is one of [l], and it and all rows before it were sent whole. *)
Definition published (c : gateway_config_t) (l : list storage_telemetry_row_t) (base : bytes)
    (id : Z) (wire : bytes) : Prop :=
  ∃ i row fs, l !! i = Some row ∧ row_id row = id ∧
    mapM (row_frame c) (take (S i) l) = Some fs ∧ (base ++ concat fs) `prefix_of` wire.

Lemma marks_ok_app fd ok base e1 e2 :
  marks_ok fd ok base (e1 ++ e2) ↔ marks_ok fd ok base e2 ∧ marks_ok fd ok (base ++ sent fd e2) e1.
Proof.
  induction e1 as [|e e1 IH]; simpl; [tauto|]. rewrite IH, sent_app, app_assoc. tauto.
Qed.

Lemma marks_ok_mono fd (ok ok' : Z → bytes → Prop) base evs :
  (∀ id b, ok id b → ok' id b) → marks_ok fd ok base evs → marks_ok fd ok' base evs.
Proof.
  intros H. induction evs as [|e evs IH]; simpl; [done|]. intros [H1 H2]. split; [auto|].
  destruct e; try done. destruct args as [|[] []]; auto.
Qed.

Lemma marks_ok_send fd ok base fd' evs : Forall (is_send fd') evs → marks_ok fd ok base evs.
Proof. induction 1 as [|e evs (d & r & ->) _ IH]; simpl; auto. Qed.

Lemma published_cons c row l base f id wire :
  row_frame c row = Some f → published c l (base ++ f) id wire → published c (row :: l) base id wire.
Proof.
  intros Hf (i & r & fs & Hi & Hid & Hfs & Hp). exists (S i), r, (f :: fs).
  split_and!; [done|done| |by cbn [concat]; rewrite app_assoc].
  cbn [take mapM]. rewrite Hf. cbn [mbind option_bind]. by rewrite Hfs.
Qed.

Section replay.
Context {env : Env}.

Lemma mark_events st id n w rc w' :
  storage_mark_telemetry_uploaded (Some st) id n w = Some (rc, w') →
  ∃ evs, w' = mk_world (evs ++ w_trace w) (w_glob w) ∧
    (evs = [] ∨ (∃ ok, evs = [EvPrepare sql_mark_uploaded ok]) ∨
     ∃ fin, evs = [EvStep sql_mark_uploaded [SqlInt id] fin; EvPrepare sql_mark_uploaded true]) ∧
    (rc = 0 → evs = [EvStep sql_mark_uploaded [SqlInt id] true; EvPrepare sql_mark_uploaded true]).
Proof.
  unfold storage_mark_telemetry_uploaded, run_statement. intros H. destruct (_ || _).
  { io_done H. exists []. destruct w'. split_and!; [done|by left|done]. }
  io_go H. destruct (env_prepare _ _); cbn [negb] in H; io_go H; io_done H.
  - eexists [_; _]. split_and!; [done|eauto|]. by destruct (env_step _ _ _).
  - eexists [_]. split_and!; [done|eauto|done].
Qed.

Lemma mark_events_quiet id evs :
  (evs = [] ∨ (∃ ok, evs = [EvPrepare sql_mark_uploaded ok]) ∨
   ∃ fin, evs = [EvStep sql_mark_uploaded [SqlInt id] fin; EvPrepare sql_mark_uploaded true]) →
  Forall (λ e, lockless e = true) evs ∧ (∀ fd, sent fd evs = []) ∧ (∀ l, fds l evs = l) ∧
  (∀ fd (ok : Z → bytes → Prop) base, ok id base → marks_ok fd ok base evs).
Proof.
  intros [->|[[ok ->]|[fin ->]]]; (split; [by repeat constructor|]); (split; [done|]); (split; [done|]).
  - done.
  - done.
  - intros fd P base HP. simpl. by rewrite app_nil_r.
Qed.

Lemma replay_rows_run st l s m k n w k' s' m' w' base :
  session_ok s → ms_connected s = true →
  replay_rows (Some st) l s m k n w = Some ((k', s', m'), w') →
  ∃ evs, w' = mk_world (evs ++ w_trace w) (w_glob w) ∧
    Forall (λ e, lockless e = true) evs ∧ session_ok s' ∧ fds [ms_fd s] evs = held s' ∧
    k <= k' <= k + Z.of_nat (length l) ∧ (s' = s ∨ s' = with_connection s (-1) false) ∧
    marks_ok (ms_fd s) (published (ms_cfg s) l base) base evs.
Proof.
  intros Hok Hon. revert m k w base. induction l as [|row l IH]; intros m k w base H; cbn [replay_rows] in H.
  { io_done H. exists []. destruct w'. split_and!; try done; try lia; [|by left].
    unfold held. by rewrite Hon. }
  apply bind_run in H as (rc & w1 & Hp & H). apply send_publish_run in Hp as (e1 & -> & Hs1 & Hc1).
  pose proof (talk_net _ _ (send_talk _ _ Hs1)) as Hn1. cbn [w_trace w_glob] in H.
  destruct Hc1 as [[-> Hf]| ->]; cbn [Z.eqb negb] in H.
  2: { assert (0 <= ms_fd s) as Hfd by (unfold session_ok in Hok; by rewrite Hon in Hok).
       erewrite bind_eq in H by (by apply shutdown_open). cbn [w_trace w_glob] in H. io_done H.
       exists (EvClose (ms_fd s) :: e1). split_and!; [done|constructor; [done|by apply net_lockless]|done| |lia|lia|by right|].
       - simpl. rewrite (talk_fds (ms_fd s)) by (by apply send_talk). by rewrite close_held.
       - simpl. split; [by eapply marks_ok_send|done]. }
  apply bind_run in H as (rc2 & w2 & Hm & H). apply mark_events in Hm as (e2 & -> & Hq & _).
  destruct (mark_events_quiet _ _ Hq) as (Hl2 & Hsent2 & Hf2 & Hmk2). cbn [w_trace w_glob] in H.
  assert (∀ m1 k1, replay_rows (Some st) l s m1 k1 n (mk_world (e2 ++ e1 ++ w_trace w) (w_glob w)) =
      Some ((k', s', m'), w') → k <= k1 <= k + 1 →
    ∃ evs, w' = mk_world (evs ++ w_trace w) (w_glob w) ∧
      Forall (λ e, lockless e = true) evs ∧ session_ok s' ∧ fds [ms_fd s] evs = held s' ∧
      k <= k' <= k + Z.of_nat (length (row :: l)) ∧ (s' = s ∨ s' = with_connection s (-1) false) ∧
      marks_ok (ms_fd s) (published (ms_cfg s) (row :: l) base) base evs) as Hgo.
  { intros m1 k1 H1 Hk. apply (IH _ _ _ (base ++ sent (ms_fd s) e1)) in H1
      as (e3 & -> & Hl3 & Hok3 & Hf3 & Hk3 & Hs3 & Hm3). cbn [w_trace w_glob].
    exists (e3 ++ e2 ++ e1). rewrite <- !app_assoc. split; [done|].
    split; [by repeat apply Forall_app_2; auto using net_lockless|]. split; [done|].
    rewrite !fds_app, (talk_fds (ms_fd s) _ e1), Hf2 by (by apply send_talk).
    split_and!; [done|cbn [length]; lia|cbn [length]; lia|done|].
    apply marks_ok_app. rewrite sent_app, Hsent2, app_nil_r. split.
    - apply marks_ok_app. split; [by eapply marks_ok_send|]. apply Hmk2.
      exists 0%nat, row, [sent (ms_fd s) e1]. split_and!; [done|done| |].
      + cbn [take mapM]. unfold row_frame. by rewrite Hf.
      + simpl. by rewrite app_nil_r.
    - eapply marks_ok_mono; [|exact Hm3]. intros id b. by apply published_cons. }
  destruct (rc2 =? 0); eapply Hgo; try exact H; lia.
Qed.

End replay.

(** ** Sequences of operations

    The two threads serialise their operations on the session by its lock; a
    run is any sequence of operations. *)
Inductive session_op :=
  | OpEnsure
  | OpPublish (point : telemetry_t)
  | OpHeartbeat (payload : string)
  | OpPing
  | OpReplay (metrics : gateway_metrics_t)
  | OpShutdown.

(** Neither sockets nor lock. *)
Definition quiet (e : event) : bool := negb (is_net e) && lockless e.

Lemma quiet_run l evs :
  Forall (λ e, quiet e = true) evs →
  fds l evs = l ∧ (∀ b, locks b evs = Some b) ∧ ∀ fd, sent fd evs = [].
Proof.
  unfold quiet. induction 1 as [|e evs He _ (IH1 & IH2 & IH3)]; [done|].
  apply andb_true_iff in He as [He1 He2]. apply negb_true_iff in He1.
  split_and!; [simpl; rewrite IH1; by destruct e| |intros fd; simpl; rewrite IH3; by destruct e].
  intros b. unfold locks in *. simpl. rewrite IH2. by destruct e.
Qed.

Section operations.
Context {env : Env}.

Definition run_op (st : storage_ctx_t) (op : session_op) (s : mqtt_session_t)
    : io (option mqtt_session_t) :=
  match op with
  | OpEnsure => '(_, s) ← mqtt_session_ensure_connected (Some s); mret s
  | OpPublish p => '(_, s) ← mqtt_session_publish_telemetry (Some s) (Some p); mret s
  | OpHeartbeat payload => '(_, s) ← mqtt_session_publish_heartbeat (Some s) (Some payload); mret s
  | OpPing => '(_, s) ← mqtt_session_ping (Some s); mret s
  | OpReplay m => '(_, s, _) ← mqtt_session_replay_pending (Some s) (Some st) (Some m); mret s
  | OpShutdown => mqtt_session_shutdown (Some s)
  end.

Fixpoint run_ops (st : storage_ctx_t) (ops : list session_op) (s : mqtt_session_t)
    : io (option mqtt_session_t) :=
  match ops with
  | [] => mret (Some s)
  | op :: ops' =>
      s ← run_op st op s;
      match s with None => mret None | Some s => run_ops st ops' s end
  end.

(** One operation, as a whole: its sockets and its lock balance. *)
Definition balanced (s s' : mqtt_session_t) (evs : trace) : Prop :=
  session_ok s' ∧ fds (held s) evs = held s' ∧ locks false evs = Some false.

Lemma balanced_critical s s' evs :
  session_ok s' → Forall (λ e, lockless e = true) evs → fds (held s) evs = held s' →
  balanced s s' (EvUnlock :: evs ++ [EvLock]).
Proof.
  intros Hok Hl Hf. split_and!; [done| |].
  - simpl. rewrite fds_app. simpl. done.
  - unfold locks. cbn [foldr]. rewrite foldr_app. cbn [foldr lock_step].
    change (foldr lock_step (Some true) evs) with (locks true evs). by rewrite locks_lockless.
Qed.

Lemma fetch_events c max n w rc l w' :
  storage_fetch_pending_telemetry c true max n w = Some ((rc, l), w') →
  ∃ evs, w' = mk_world (evs ++ w_trace w) (w_glob w) ∧ Forall (λ e, quiet e = true) evs ∧
    (∀ fd ok base, marks_ok fd ok base evs) ∧ (length l ≤ max)%nat.
Proof.
  unfold storage_fetch_pending_telemetry. intros H. destruct c as [c|].
  2: { io_done H. exists []. destruct w'. split_and!; [done|constructor|done|simpl; lia]. }
  destruct (_ || _). { io_done H. exists []. destruct w'. split_and!; [done|constructor|done|simpl; lia]. }
  io_go H. destruct (env_prepare _ _); cbn [negb] in H; io_go H; io_done H.
  - eexists [_; _]. split_and!; [done|by repeat constructor|done|].
    rewrite length_fmap, length_take. lia.
  - eexists [_]. split_and!; [done|by repeat constructor|done|simpl; lia].
Qed.

Lemma count_events c n w rc w' :
  storage_pending_telemetry_count c n w = Some (rc, w') →
  ∃ evs, w' = mk_world (evs ++ w_trace w) (w_glob w) ∧ Forall (λ e, quiet e = true) evs ∧
    (∀ fd ok base, marks_ok fd ok base evs).
Proof.
  unfold storage_pending_telemetry_count. intros H. destruct c as [c|].
  2: { io_done H. exists []. destruct w'. split_and!; [done|constructor|done]. }
  destruct (negb _). { io_done H. exists []. destruct w'. split_and!; [done|constructor|done]. }
  io_go H. destruct (env_prepare _ _); cbn [negb] in H; io_go H.
  - destruct (env_rows _ _ _); io_done H; (eexists [_; _]; split_and!; [done|by repeat constructor|done]).
  - io_done H. eexists [_]. split_and!; [done|by repeat constructor|done].
Qed.

Lemma net_marks fd ok base evs : Forall (λ e, is_net e = true) evs → marks_ok fd ok base evs.
Proof. induction 1 as [|e evs He _ IH]; simpl; [done|]. split; [done|]. by destruct e. Qed.

(** The whole replay. *)
Lemma replay_run s st m n w k res m' w' :
  session_ok s →
  mqtt_session_replay_pending (Some s) (Some st) m n w = Some ((k, res, m'), w') →
  ∃ s' evs rc l w1, res = Some s' ∧ w_trace w' = evs ++ w_trace w ∧ balanced s s' evs ∧
    storage_fetch_pending_telemetry (Some st) true (replay_batch (ms_cfg s)) n w = Some ((rc, l), w1) ∧
    0 <= k <= Z.of_nat (length l) ∧ (length l ≤ replay_batch (ms_cfg s))%nat ∧
    ∃ fd hs, (hs = [] ∨ connect_frame (client_id (ms_cfg s)) (u16 (cfg_mqtt_keepalive_sec (ms_cfg s))) = Some hs) ∧
      marks_ok fd (published (ms_cfg s) l hs) [] evs.
Proof.
  intros Hok H. unfold mqtt_session_replay_pending in H.
  apply bind_run in H as ([rc l] & w1 & Hf & H). pose proof Hf as Hf'.
  apply fetch_events in Hf' as (e0 & -> & Hq0 & Hm0 & Hlen).
  destruct (quiet_run (held s) e0 Hq0) as (Hfd0 & Hl0 & Hs0).
  destruct (Z.ltb_spec rc 0).
  { io_done H. eexists s, e0, rc, l, _. split; [done|]. split; [done|].
    split; [by split_and!|]. split; [exact Hf|]. split; [lia|]. split; [done|].
    exists 0, []. split; [by left|apply Hm0]. }
  io_go H. cbn [w_trace w_glob] in H.
  apply bind_run in H as ([rc1 s1] & w2 & He & H).
  apply ensure_run in He as (e1 & -> & Hn1 & Hok1 & Hcfg & Hf1 & Hc1); [|done]. cbn [w_trace w_glob] in H.
  apply bind_run in H as ([[k2 s2] m2] & w3 & Hr & H).
  assert (∃ e2 hs, w3 = mk_world (e2 ++ e1 ++ EvLock :: e0 ++ w_trace w) (w_glob w) ∧
    Forall (λ e, lockless e = true) e2 ∧ session_ok s2 ∧ fds (held s1) e2 = held s2 ∧
    0 <= k2 <= Z.of_nat (length l) ∧
    (hs = [] ∨ connect_frame (client_id (ms_cfg s)) (u16 (cfg_mqtt_keepalive_sec (ms_cfg s))) = Some hs) ∧
    marks_ok (ms_fd s1) (published (ms_cfg s) l hs) (sent (ms_fd s1) e1) e2)
    as (e2 & hs & -> & Hl2 & Hok2 & Hf2 & Hk2 & Hhs & Hm2).
  { destruct Hc1 as [(-> & Hon & Hhs)|(-> & ->)]; cbn [Z.eqb] in Hr.
    - apply (replay_rows_run _ _ _ _ _ _ _ _ _ _ _ (sent (ms_fd s1) e1)) in Hr
        as (e2 & -> & Hl2 & Hok2 & Hf2 & Hk2 & Hs2 & Hm2); [|done|done].
      exists e2, (sent (ms_fd s1) e1). cbn [w_trace w_glob]. rewrite Hcfg in Hm2.
      split_and!; try done; try lia.
      + unfold held. by rewrite Hon.
      + destruct (ms_connected s); [left; by destruct Hhs as [_ ->]|right].
        by destruct Hhs as (f & Hf1' & ->).
    - io_done Hr. exists [], []. split_and!; try done; try lia. by left. }
  cbn [w_trace w_glob] in H. io_go H.
  assert (balanced s s2 (EvUnlock :: (e2 ++ e1) ++ [EvLock])) as (_ & Hbf & Hbl).
  { apply balanced_critical; [done|apply Forall_app_2; auto using net_lockless|].
    by rewrite fds_app, Hf1. }
  assert (∀ e3, Forall (λ e, quiet e = true) e3 → (∀ fd ok base, marks_ok fd ok base e3) →
    balanced s s2 (e3 ++ (EvUnlock :: (e2 ++ e1) ++ [EvLock]) ++ e0) ∧
    marks_ok (ms_fd s1) (published (ms_cfg s) l hs) [] (e3 ++ (EvUnlock :: (e2 ++ e1) ++ [EvLock]) ++ e0))
    as Hall.
  { intros e3 Hq3 Hm3. destruct (quiet_run (held s2) e3 Hq3) as (Hfd3 & Hl3 & _). split.
    - split_and!; [done| |].
      + by rewrite (fds_app _ e3), (fds_app _ (EvUnlock :: _) e0), Hfd0, Hbf.
      + erewrite locks_app by (erewrite locks_app by apply Hl0; exact Hbl). apply Hl3.
    - apply marks_ok_app. split; [|apply Hm3]. apply marks_ok_app. split; [apply Hm0|].
      cbn [app marks_ok]. split; [|done]. rewrite Hs0. cbn [app]. rewrite <- app_assoc.
      apply marks_ok_app. split.
      + apply marks_ok_app. split; [by split|]. by apply net_marks.
      + rewrite sent_app. exact Hm2. }
  destruct m2 as [m2|].
  - apply bind_run in H as (cnt & w4 & Hc & H). apply count_events in Hc as (e3 & -> & Hq3 & Hm3).
    io_done H. destruct (Hall e3 Hq3 Hm3) as [Hb Hmk].
    eexists s2, (e3 ++ (EvUnlock :: (e2 ++ e1) ++ [EvLock]) ++ e0), rc, l, _.
    split_and!; [done| |done|exact Hf|lia|lia|done|by exists (ms_fd s1), hs].
    cbn [w_trace]. by repeat first [progress cbn [app]|rewrite <- app_assoc].
  - io_done H. destruct (Hall [] ltac:(constructor) ltac:(done)) as [Hb Hmk].
    eexists s2, ((EvUnlock :: (e2 ++ e1) ++ [EvLock]) ++ e0), rc, l, _.
    split_and!; [done| |done|exact Hf|lia|lia|done|by exists (ms_fd s1), hs].
    cbn [w_trace]. by repeat first [progress cbn [app]|rewrite <- app_assoc].
Qed.

End operations.

(** ** Properties *)

Section properties.
Context {env : Env}.

(** One critical section with a publication. *)
Lemma publish_op_run s topic payload n w rc s' w' :
  session_ok s →
  (pthread_mutex_lock;; '(rc, s) ← publish_locked s topic payload; pthread_mutex_unlock;; mret (rc, Some s))
    n w = Some ((rc, s'), w') →
  ∃ s1 evs, s' = Some s1 ∧ w_trace w' = (EvUnlock :: evs ++ [EvLock]) ++ w_trace w ∧
    balanced s s1 (EvUnlock :: evs ++ [EvLock]) ∧
    (rc = 0 ∧ ms_connected s1 = true ∧
       (∃ hs f, publish_frame topic payload = Some f ∧ sent (ms_fd s1) evs = hs ++ f ∧
         (if ms_connected s then s1 = s ∧ hs = []
          else connect_frame (client_id (ms_cfg s)) (u16 (cfg_mqtt_keepalive_sec (ms_cfg s))) = Some hs)) ∨
     rc = -1 ∧ s1 = with_connection s (-1) false).
Proof.
  intros Hok H. io_go H. apply bind_run in H as ([rc1 s1] & w1 & Hp & H).
  apply publish_locked_run in Hp as (evs & -> & Hn & Hok1 & Hf & Hrc); [|done].
  io_go H. io_done H. exists s1, evs. split; [done|]. split.
  { cbn [w_trace]. by repeat first [progress cbn [app]|rewrite <- app_assoc]. }
  split; [by apply balanced_critical; auto using net_lockless|done].
Qed.

(** Publishing a point either succeeds, and then exactly its PUBLISH frame
    went out on the session's connection, preceded only by the CONNECT frame
    when the connection had to be opened; or it answers -1 and leaves the
    session closed, so that the next call reconnects. *)
Theorem publish_telemetry_outcome s p n w rc res w' :
  session_ok s →
  mqtt_session_publish_telemetry (Some s) (Some p) n w = Some ((rc, res), w') →
  ∃ s' evs, res = Some s' ∧ w_trace w' = evs ++ w_trace w ∧
    (rc = 0 ∧ ms_connected s' = true ∧
       (∃ hs f, publish_frame (cfg_mqtt_topic (ms_cfg s)) (telemetry_to_json p 384) = Some f ∧
         sent (ms_fd s') evs = hs ++ f ∧
         (if ms_connected s then s' = s ∧ hs = []
          else connect_frame (client_id (ms_cfg s)) (u16 (cfg_mqtt_keepalive_sec (ms_cfg s))) = Some hs)) ∨
     rc = -1 ∧ s' = with_connection s (-1) false).
Proof.
  intros Hok H. apply publish_op_run in H as (s1 & evs & -> & Htr & _ & Hrc); [|done].
  exists s1, (EvUnlock :: evs ++ [EvLock]). split; [done|]. split; [done|].
  destruct Hrc as [(-> & Hon & hs & f & Hf & Hs & Hc)|]; [left|by right].
  split_and!; [done|done|]. exists hs, f. split_and!; [done| |done].
  cbn [sent ev_sent]. rewrite sent_app. cbn [sent ev_sent app]. by rewrite app_nil_r.
Qed.

(** C8: a stored point is marked uploaded only after it was sent whole: in a
    replay, every mark in the events is for a row that was fetched, and the
    frames of that row and of all the rows before it had been written
    completely, in order, on the connection (after its CONNECT frame when it
    was opened for the replay); at most one batch of at most 64 rows is
    replayed, and the count returned never exceeds the rows fetched. *)
Theorem replay_marks_only_sent s st m n w k res m' w' :
  session_ok s →
  mqtt_session_replay_pending (Some s) (Some st) m n w = Some ((k, res, m'), w') →
  ∃ s' evs rc l w1, res = Some s' ∧ w_trace w' = evs ++ w_trace w ∧ session_ok s' ∧
    storage_fetch_pending_telemetry (Some st) true (replay_batch (ms_cfg s)) n w = Some ((rc, l), w1) ∧
    0 <= k <= Z.of_nat (length l) ∧ (length l ≤ 64)%nat ∧
    ∃ fd hs, (hs = [] ∨ connect_frame (client_id (ms_cfg s)) (u16 (cfg_mqtt_keepalive_sec (ms_cfg s))) = Some hs) ∧
      marks_ok fd (published (ms_cfg s) l hs) [] evs.
Proof.
  intros Hok H. apply replay_run in H as (s' & evs & rc & l & w1 & -> & Htr & [Hok' _] & Hf & Hk & Hl & Hm); [|done].
  exists s', evs, rc, l, w1. assert (replay_batch (ms_cfg s) ≤ 64)%nat; [|split_and!; try done; lia].
  unfold replay_batch. destruct (_ =? 0); [vm_compute; lia|].
  destruct (Z.ltb_spec 64 (cfg_mqtt_replay_batch (ms_cfg s))); lia.
Qed.

Lemma ping_run s n w rc s' w' :
  session_ok s →
  mqtt_session_ping (Some s) n w = Some ((rc, s'), w') →
  ∃ s1 evs, s' = Some s1 ∧ w_trace w' = evs ++ w_trace w ∧ balanced s s1 evs.
Proof.
  intros Hok H. unfold mqtt_session_ping in H. io_go H.
  apply bind_run in H as ([rc1 s1] & w1 & Hp & H).
  assert (∃ evs, w1 = mk_world (evs ++ EvLock :: w_trace w) (w_glob w) ∧
    Forall (λ e, is_net e = true) evs ∧ session_ok s1 ∧ fds (held s) evs = held s1)
    as (evs & -> & Hn & Hok1 & Hf).
  { destruct (ms_connected s) eqn:Hon; cbn [andb] in Hp.
    2: { io_done Hp. exists []. split_and!; try done; constructor. }
    assert (0 <= ms_fd s) as Hfd by (unfold session_ok in Hok; by rewrite Hon in Hok).
    destruct (Z.leb_spec 0 (ms_fd s)); [|lia].
    apply bind_run in Hp as (rc2 & w2 & Hw & Hp). apply write_loop_run in Hw as (evs & -> & Hs & Hrc).
    cbn [w_trace w_glob] in Hp. pose proof (send_talk _ _ Hs) as Ht.
    destruct Hrc as [[-> _]|[-> _]]; cbn [Z.eqb] in Hp.
    - io_done Hp. exists evs. split_and!; [done|by eapply talk_net|done|by rewrite (talk_fds (ms_fd s1))].
    - erewrite bind_eq in Hp by (by apply shutdown_open). cbn [w_trace w_glob] in Hp. io_done Hp.
      exists (EvClose (ms_fd s) :: evs). split_and!; [done|constructor; [done|by eapply talk_net]|done|].
      simpl. rewrite (talk_fds (ms_fd s)) by done. unfold held. by rewrite Hon, close_held. }
  io_go H. io_done H. exists s1, (EvUnlock :: evs ++ [EvLock]). split; [done|]. split.
  { cbn [w_trace]. by repeat first [progress cbn [app]|rewrite <- app_assoc]. }
  by apply balanced_critical; auto using net_lockless.
Qed.

Lemma run_op_balanced st op s n w res w' :
  session_ok s → run_op st op s n w = Some (res, w') →
  ∃ s' evs, res = Some s' ∧ w_trace w' = evs ++ w_trace w ∧ balanced s s' evs.
Proof.
  intros Hok H. destruct op; cbn [run_op] in H.
  - apply bind_run in H as ([rc r] & w1 & H1 & H). io_done H.
    unfold mqtt_session_ensure_connected in H1. io_go H1.
    apply bind_run in H1 as ([rc1 s1] & w2 & He & H1).
    apply ensure_run in He as (evs & -> & Hn & Hok1 & _ & Hf & _); [|done]. io_go H1. io_done H1.
    exists s1, (EvUnlock :: evs ++ [EvLock]). split; [done|]. split.
    { cbn [w_trace]. by repeat first [progress cbn [app]|rewrite <- app_assoc]. }
    by apply balanced_critical; auto using net_lockless.
  - apply bind_run in H as ([rc r] & w1 & H1 & H). io_done H.
    apply publish_op_run in H1 as (s1 & evs & -> & Htr & Hb & _); [|done]. eauto.
  - apply bind_run in H as ([rc r] & w1 & H1 & H). io_done H.
    apply publish_op_run in H1 as (s1 & evs & -> & Htr & Hb & _); [|done]. eauto.
  - apply bind_run in H as ([rc r] & w1 & H1 & H). io_done H. by apply ping_run in H1.
  - apply bind_run in H as ([[k r] m'] & w1 & H1 & H). io_done H.
    apply replay_run in H1 as (s1 & evs & _ & _ & _ & -> & Htr & Hb & _); [|done]. eauto.
  - unfold mqtt_session_shutdown in H. io_go H.
    destruct (shutdown_locked_run s n (mk_world (EvLock :: w_trace w) (w_glob w)) Hok)
      as (evs & Hs & Hn & Hf).
    erewrite bind_eq in H by exact Hs. io_go H. io_done H.
    exists (with_connection s (-1) false), (EvUnlock :: evs ++ [EvLock]). split; [done|]. split.
    { cbn [w_trace]. by repeat first [progress cbn [app]|rewrite <- app_assoc]. }
    by apply balanced_critical; auto using net_lockless.
Qed.

(** Whatever the threads do with the session and whatever the network
    answers, the session is connected exactly when it holds a descriptor, the
    only socket left open is that descriptor (none leaks, none is closed
    twice), the lock is released as often as it is taken and never taken while
    held, and no socket is used without it. *)
Theorem session_discipline st c ops n w res w' s0 :
  mqtt_session_init (Some s0) (Some c) = Some s0 →
  run_ops st ops s0 n w = Some (res, w') →
  ∃ s evs, res = Some s ∧ w_trace w' = evs ++ w_trace w ∧
    session_ok s ∧ fds [] evs = held s ∧ locks false evs = Some false.
Proof.
  intros [= Hinit] H. assert (session_ok s0 ∧ held s0 = []) as [Hok <-] by (by rewrite <- Hinit).
  clear Hinit. revert s0 w Hok H. induction ops as [|op ops IH]; intros s0 w Hok H; cbn [run_ops] in H.
  { io_done H. by exists s0, []. }
  apply bind_run in H as (r & w1 & H1 & H). apply run_op_balanced in H1 as (s1 & e1 & -> & Htr & Hok1 & Hf1 & Hl1); [|done].
  apply IH in H as (s & e2 & -> & Htr2 & Hok2 & Hf2 & Hl2); [|done].
  exists s, (e2 ++ e1). split_and!; [done|by rewrite Htr2, Htr, app_assoc|done| |].
  - by rewrite fds_app, Hf1.
  - by erewrite locks_app.
Qed.

End properties.

(** ** Concrete runs *)

(** A broker that accepts, and a database with one pending point. *)
Definition demo_net : Env :=
  sqlite_env (demo_env [0x20; 0x02; 0x00; 0x00] [])
    [mk_db_row 1 (telemetry_binding demo_point) false].

Definition demo_session : mqtt_session_t := mk_session gateway_config_defaults (-1) false.

Lemma publish_telemetry_outcome_witness :
  ∃ res w', @mqtt_session_publish_telemetry demo_net (Some demo_session) (Some demo_point) 3%nat world_init
    = Some ((0, res), w') ∧
  ∃ s' evs, res = Some s' ∧ w_trace w' = evs ++ w_trace world_init ∧
    (0 = 0 ∧ ms_connected s' = true ∧
       (∃ hs f, publish_frame (cfg_mqtt_topic (ms_cfg demo_session)) (telemetry_to_json demo_point 384) = Some f ∧
         sent (ms_fd s') evs = hs ++ f ∧
         (if ms_connected demo_session then s' = demo_session ∧ hs = []
          else connect_frame (client_id (ms_cfg demo_session))
                 (u16 (cfg_mqtt_keepalive_sec (ms_cfg demo_session))) = Some hs)) ∨
     0 = -1 ∧ s' = with_connection demo_session (-1) false).
Proof.
  eexists _, _. split; [vm_compute; reflexivity|].
  eapply (@publish_telemetry_outcome demo_net demo_session demo_point 3 world_init);
    [reflexivity|vm_compute; reflexivity].
Defined.

Lemma replay_marks_only_sent_witness :
  ∃ res m' w', @mqtt_session_replay_pending demo_net (Some demo_session) (Some demo_storage) None 3%nat
      world_init = Some ((1, res, m'), w') ∧
  ∃ s' evs rc l w1, res = Some s' ∧ w_trace w' = evs ++ w_trace world_init ∧ session_ok s' ∧
    @storage_fetch_pending_telemetry demo_net (Some demo_storage) true
      (replay_batch (ms_cfg demo_session)) 3%nat world_init = Some ((rc, l), w1) ∧
    0 <= 1 <= Z.of_nat (length l) ∧ (length l ≤ 64)%nat ∧
    ∃ fd hs, (hs = [] ∨ connect_frame (client_id (ms_cfg demo_session))
                (u16 (cfg_mqtt_keepalive_sec (ms_cfg demo_session))) = Some hs) ∧
      marks_ok fd (published (ms_cfg demo_session) l hs) [] evs.
Proof.
  eexists _, _, _. split; [vm_compute; reflexivity|].
  eapply (@replay_marks_only_sent demo_net demo_session demo_storage None 3 world_init);
    [reflexivity|vm_compute; reflexivity].
Defined.

Lemma session_discipline_witness :
  ∃ res w', @run_ops demo_net demo_storage [OpPublish demo_point; OpPing; OpShutdown] demo_session 3%nat
      world_init = Some (res, w') ∧
  ∃ s evs, res = Some s ∧ w_trace w' = evs ++ w_trace world_init ∧
    session_ok s ∧ fds [] evs = held s ∧ locks false evs = Some false.
Proof.
  eexists _, _. split; [vm_compute; reflexivity|].
  eapply (@session_discipline demo_net demo_storage gateway_config_defaults
    [OpPublish demo_point; OpPing; OpShutdown] 3 world_init); [reflexivity|vm_compute; reflexivity].
Defined.
