(* ===== verification/Recovery.v ===== *)
(** * Recovery of the outbox

    What the replay ([mqtt_session_replay_pending] of
    [src/src/egress/mqtt_session.c]) achieves once the broker and the database
    answer: it sends the oldest pending rows and marks them, and repeated
    replays empty the outbox. *)

From S2P Require Export MqttSession.

#[local] Open Scope Z_scope.

(** The broker is reachable, answers and accepts; writes make progress; the statements
    of the replay succeed and the query of the pending rows is not cut short. *)
Class Online (env : Env) (db0 : list db_row) : Prop := {
  online_socket tr : 0 <= env_socket tr;
  online_host host : env_inet_pton host = true;
  online_connect tr fd : env_connect tr fd = true;
  online_answers tr fd : env_answers tr fd = true;
  online_write tr fd d : d ≠ [] → ∃ k, env_write tr fd d = WrOk (S k);
  online_connack tr fd : connack_ok (clip_read 160 (env_read tr fd 160)) = true;
  online_prepare tr sql : env_prepare tr sql = true;
  online_mark tr id : env_step tr sql_mark_uploaded [SqlInt id] = true;
  online_select tr n :
    env_rows tr sql_select_pending [SqlInt (Z.of_nat n)] = select_row <$> take n (pending (db_of db0 tr))
}.

(** Marking the first pending row. *)
Lemma pending_mark db r l : outbox_wf db → pending db = r :: l → pending (mark_row (dr_id r) <$> db) = l.
Proof.
  intros [Hs _]. revert l. induction db as [|x db IH]; intros l; [done|].
  rewrite fmap_cons in Hs. apply Sorted.StronglySorted_inv in Hs as [Hs Hx]. rewrite fmap_cons. unfold pending in *.
  assert (∀ id, (∀ y, y ∈ db → dr_id y ≠ id) → mark_row id <$> db = db) as Hsame.
  { intros id Hne. clear -Hne. induction db as [|y db IH]; [done|]. rewrite fmap_cons, IH.
    - unfold mark_row. rewrite decide_False; [done|]. apply Hne. by left.
    - intros z Hz. apply Hne. by right. }
  rewrite !filter_cons. destruct (decide (dr_uploaded x = false)) as [Eu|Eu].
  - intros [= <- <-]. rewrite Hsame.
    + rewrite decide_False; [done|]. unfold mark_row. by rewrite decide_True.
    + intros y Hy E. rewrite Forall_fmap, Forall_forall in Hx. specialize (Hx y Hy). simpl in Hx. lia.
  - intros Hl. rewrite decide_False; [by apply IH|]. unfold mark_row. by destruct (decide (dr_id x = dr_id r)).
Qed.

Lemma pending_wf_head db r l : outbox_wf db → pending db = r :: l → 0 < dr_id r.
Proof.
  intros [_ Hp] H. assert (r ∈ pending db) as Hr by (rewrite H; by left).
  apply list_elem_of_filter in Hr as [_ Hr]. rewrite Forall_forall in Hp. by apply Hp.
Qed.

(** Runs of a computation, one call after the other. *)
Lemma bind_reaches {A B} (m : io A) (k : A → io B) n w a w1 (P : B → world → Prop) :
  m n w = Some (a, w1) → (∃ b w', k a n w1 = Some (b, w') ∧ P b w') →
  ∃ b w', (m ≫= k) n w = Some (b, w') ∧ P b w'.
Proof. intros H (b & w' & Hk & HP). exists b, w'. split; [|done]. by erewrite bind_eq by exact H. Qed.

Section recovery.
Context {env : Env} {db0 : list db_row} {online : Online env db0}.
Context {n : nat} (Hn : (1024 < n)%nat).

Lemma write_online fuel fd buf m w :
  (length buf < fuel)%nat → ∃ w', write_loop fuel fd buf m w = Some (0, w').
Proof.
  revert buf w. induction fuel as [|fuel IH]; intros buf w Hl; [lia|]. cbn [write_loop].
  destruct buf as [|b buf]; [by eexists|].
  destruct (online_write (w_trace w) fd (b :: buf)) as [k Hk]; [done|].
  unfold write_wait. erewrite bind_eq by (rewrite answered_eq by apply online_answers; reflexivity).
  cbv beta. rewrite Hk. cbn [clip_write]. apply IH.
  rewrite length_drop. simpl length in *. lia.
Qed.

Lemma send_online fd topic payload w :
  (String.length topic < 128)%nat → (String.length payload < 384)%nat →
  ∃ evs, mqtt_send_publish fd topic payload n w = Some (0, mk_world (evs ++ w_trace w) (w_glob w)) ∧
    Forall (is_send fd) evs ∧ publish_frame topic payload = Some (sent fd evs).
Proof.
  intros Ht Hp. destruct (publish_fits topic payload Ht Hp) as [f Hf].
  assert (∃ w', mqtt_send_publish fd topic payload n w = Some (0, w')) as [w' H].
  { unfold mqtt_send_publish. rewrite Hf. unfold mqtt_write_all, with_fuel. apply write_online.
    apply frame_some in Hf as [_ Hl]. lia. }
  pose proof H as (evs & -> & Hs & [[_ Hfr]|?])%send_publish_run; [|done]. by exists evs.
Qed.

Lemma connect_online fd id keepalive w :
  (String.length id < 64)%nat → ∃ w', mqtt_send_connect fd id keepalive n w = Some (0, w').
Proof.
  intros Hi. unfold mqtt_send_connect. destruct (connect_fits id keepalive Hi) as [f Hf]. rewrite Hf.
  destruct (write_online n fd f n w) as [w' Hw]. { apply frame_some in Hf as [_ Hl]. lia. }
  unfold mqtt_write_all, with_fuel. erewrite bind_eq by exact Hw. cbn [Z.eqb negb].
  unfold read_wait. erewrite bind_eq by (rewrite answered_eq by apply online_answers; reflexivity).
  cbv beta. rewrite online_connack. by eexists.
Qed.

Lemma ensure_online s w :
  session_ok s → ∃ s' w', mqtt_ensure_connected_locked s n w = Some ((0, s'), w').
Proof.
  intros Hok. unfold mqtt_ensure_connected_locked.
  destruct (ms_connected s && (0 <=? ms_fd s)) eqn:Ec; [by eexists _, _|].
  destruct (shutdown_locked_run s n w Hok) as (e0 & Hsd & _ & _).
  erewrite bind_eq by exact Hsd. cbn [with_connection ms_cfg ms_connected].
  pose proof (proj2 (Z.ltb_ge _ _) (online_socket (e0 ++ w_trace w))) as Hs.
  erewrite bind_eq.
  2: { unfold mqtt_open_tcp. erewrite bind_eq by reflexivity. cbv beta. cbn [w_trace].
       rewrite Hs, online_host. cbn [negb].
       erewrite bind_eq by reflexivity. cbv beta. rewrite online_connect. reflexivity. }
  cbv beta. rewrite Hs. edestruct connect_online as [w' Hc]; [|erewrite bind_eq by exact Hc; by eexists _, _].
  apply snprintf_fits. lia.
Qed.

(** What a session reads as: its connection, opened first if it must. *)
Definition opens (s : mqtt_session_t) (s' : mqtt_session_t) (hs : bytes) : Prop :=
  if ms_connected s then s' = s ∧ hs = []
  else connect_frame (client_id (ms_cfg s)) (u16 (cfg_mqtt_keepalive_sec (ms_cfg s))) = Some hs.

Lemma publish_online s topic payload w :
  session_ok s → (String.length topic < 128)%nat → (String.length payload < 384)%nat →
  ∃ s' evs hs f, publish_locked s topic payload n w = Some ((0, s'), mk_world (evs ++ w_trace w) (w_glob w)) ∧
    Forall (λ e, is_net e = true) evs ∧ session_ok s' ∧ ms_connected s' = true ∧ ms_cfg s' = ms_cfg s ∧
    opens s s' hs ∧ publish_frame topic payload = Some f ∧ sent (ms_fd s') evs = hs ++ f.
Proof.
  intros Hok Ht Hp. destruct (ensure_online s w Hok) as (s1 & w1 & H1). pose proof H1 as H2.
  apply ensure_run in H2 as (e1 & -> & N1 & Hok1 & Hcfg & _ & [(_ & Hon & Hs)|[? _]]); [|done|done].
  destruct (send_online (ms_fd s1) topic payload (mk_world (e1 ++ w_trace w) (w_glob w)) Ht Hp)
    as (e2 & H2 & S2 & Hf).
  exists s1, (e2 ++ e1).
  assert (∃ hs, opens s s1 hs ∧ sent (ms_fd s1) e1 = hs) as (hs & Ho & Hsent).
  { unfold opens. destruct (ms_connected s).
    - destruct Hs as [-> ->]. by exists [].
    - destruct Hs as (f & Hf1 & Hs). by exists f. }
  exists hs, (sent (ms_fd s1) e2). split_and!; try done.
  - unfold publish_locked. erewrite bind_eq by exact H1. cbn [Z.eqb].
    erewrite bind_eq by exact H2. cbn [Z.eqb]. cbn [w_trace w_glob]. by rewrite app_assoc.
  - apply Forall_app_2; [|done]. eapply Forall_impl; [exact S2|]. by intros e (? & ? & ->).
  - by rewrite sent_app, Hsent.
Qed.

Lemma mark_online st id w :
  st_db st = true → 0 < id →
  ∃ w', storage_mark_telemetry_uploaded (Some st) id n w = Some (0, w').
Proof.
  intros Hdb Hid. unfold storage_mark_telemetry_uploaded, run_statement. rewrite Hdb.
  destruct (Z.leb_spec id 0); [lia|]. cbn [orb negb]. erewrite bind_eq by reflexivity. cbv beta.
  rewrite online_prepare. cbn [negb]. erewrite bind_eq by reflexivity. cbv beta. rewrite online_mark.
  by eexists.
Qed.

Context {spec : SqliteSpec env db0}.

Abbreviation outbox_at w := (db_of db0 (w_trace w)).

(** The loop sends and marks every row it was given, the oldest pending ones. *)
Lemma replay_rows_online st s m k w rs rest :
  st_db st = true → session_ok s → ms_connected s = true → (String.length (cfg_mqtt_topic (ms_cfg s)) < 128)%nat →
  pending (outbox_at w) = rs ++ rest →
  ∃ m' w', replay_rows (Some st) (row_of_columns ∘ select_row <$> rs) s (Some m) k n w =
      Some ((k + Z.of_nat (length rs), s, Some m'), w') ∧ pending (outbox_at w') = rest ∧
    w_glob w' = w_glob w.
Proof.
  intros Hdb Hok Hon Ht. revert m k w. induction rs as [|r rs IH]; intros m k w Hp; cbn [fmap list_fmap replay_rows].
  { exists m, w. rewrite Z.add_0_r. by split_and!. }
  set (row := (row_of_columns ∘ select_row) r).
  destruct (send_online (ms_fd s) (cfg_mqtt_topic (ms_cfg s)) (telemetry_to_json (row_point row) 384) w)
    as (e1 & H1 & Hs1 & _); [done|apply telemetry_json_fits|].
  erewrite bind_eq by exact H1. cbn [Z.eqb negb].
  assert (outbox_wf (outbox_at w)) as Hwf by apply db_of_wf, sqlite_start.
  set (w1 := mk_world (e1 ++ w_trace w) (w_glob w)).
  assert (outbox_at w1 = outbox_at w) as Ew1.
  { apply db_of_quiet. eapply Forall_impl; [exact Hs1|]. by intros e (? & ? & ->). }
  destruct (mark_online st (row_id row) w1) as [w2 H2]; [done|by eapply pending_wf_head|].
  erewrite bind_eq by exact H2. cbn [Z.eqb].
  pose proof H2 as (e2 & -> & _)%mark_events. apply (mark_run (db0 := db0)) in H2. cbv zeta in H2.
  destruct H2 as [(_ & _ & _ & E2)|[? _]]; [|done]. rewrite Ew1 in E2.
  change (row_id row) with (dr_id r) in *.
  edestruct (IH (with_replay_total m (u64 (mqtt_replay_total m + 1))) (k + 1)) as (m' & w' & H & Hr & Hg).
  { rewrite E2. by apply pending_mark. }
  exists m', w'. cbn [fmap option_fmap option_map]. rewrite H. split_and!; [|done|done]. do 3 f_equal. cbn [length]. f_equal. lia.
Qed.

Lemma fetch_online st max w :
  no_db st = false → (0 < max)%nat →
  ∃ rc w', storage_fetch_pending_telemetry (Some st) true max n w =
      Some ((rc, row_of_columns ∘ select_row <$> take max (pending (outbox_at w))), w') ∧ 0 <= rc ∧
    outbox_at w' = outbox_at w.
Proof.
  intros Hdb Hm. unfold storage_fetch_pending_telemetry. cbn [negb orb].
  rewrite bool_decide_eq_false_2 by lia. rewrite Hdb. cbn [orb].
  erewrite bind_eq by reflexivity. cbv beta. rewrite online_prepare. cbn [negb].
  erewrite bind_eq by reflexivity. cbv beta. cbn [w_trace].
  rewrite (online_select (db0 := db0)).
  change (db_of db0 (EvPrepare sql_select_pending true :: w_trace w)) with (outbox_at w).
  rewrite <- fmap_take, take_take, Nat.min_id, <- list_fmap_compose.
  eexists _, _. split; [reflexivity|]. split; [lia|done].
Qed.

Lemma count_online st w :
  ∃ k w', storage_pending_telemetry_count (Some st) n w = Some (k, w') ∧ outbox_at w' = outbox_at w.
Proof.
  assert (∃ k w', storage_pending_telemetry_count (Some st) n w = Some (k, w')) as (k & w' & H).
  { unfold storage_pending_telemetry_count. destruct (negb _); [by eexists _, _|].
    erewrite bind_eq by reflexivity. cbv beta. destruct (negb _); [by eexists _, _|].
    erewrite bind_eq by reflexivity. cbv beta. destruct (env_rows _ _ _); by eexists _, _. }
  exists k, w'. split; [done|]. by apply (count_run (db0 := db0)) in H as [? _].
Qed.

Lemma batch_pos cfg : 0 <= cfg_mqtt_replay_batch cfg → (0 < replay_batch cfg)%nat.
Proof.
  intros H. unfold replay_batch. destruct (Z.eqb_spec (cfg_mqtt_replay_batch cfg) 0); [vm_compute; lia|].
  destruct (Z.ltb_spec 64 (cfg_mqtt_replay_batch cfg)); lia.
Qed.

(** What a replay leaves: the connection is up, the batch is uploaded. *)
Definition replayed_batch (s : mqtt_session_t) (w : world)
    (res : Z * option mqtt_session_t * option gateway_metrics_t) (w' : world) : Prop :=
  let batch := replay_batch (ms_cfg s) in
  ∃ s' m', res = (Z.of_nat (length (take batch (pending (outbox_at w)))), Some s', Some m') ∧
    session_ok s' ∧ ms_connected s' = true ∧ ms_cfg s' = ms_cfg s ∧
    pending (outbox_at w') = drop batch (pending (outbox_at w)).

Lemma replay_online s st m w :
  session_ok s → config_wf (ms_cfg s) → no_db st = false →
  ∃ res w', mqtt_session_replay_pending (Some s) (Some st) (Some m) n w = Some (res, w') ∧
    replayed_batch s w res w'.
Proof.
  intros Hok Hc Hdb. unfold mqtt_session_replay_pending.
  destruct (fetch_online st (replay_batch (ms_cfg s)) w Hdb) as (rc & w1 & H1 & Hrc & E1).
  { apply batch_pos. apply (gwf_batch _ Hc). }
  eapply bind_reaches; [exact H1|]. cbn beta iota. destruct (Z.ltb_spec rc 0); [lia|].
  eapply bind_reaches; [reflexivity|]. cbn beta.
  set (w2 := mk_world (EvLock :: w_trace w1) (w_glob w1)).
  destruct (ensure_online s w2 Hok) as (s1 & w3 & H3). eapply bind_reaches; [exact H3|]. cbn beta iota.
  apply ensure_run in H3 as (e3 & -> & Hn3 & Hok1 & Hcfg & _ & [(_ & Hon & _)|[? _]]); [|done|done].
  assert (outbox_at (mk_world (e3 ++ w_trace w2) (w_glob w2)) = outbox_at w) as E3.
  { rewrite <- E1. change (outbox_at w1) with (db_of db0 (w_trace w2)). apply db_of_quiet.
    eapply Forall_impl; [exact Hn3|]. by intros []. }
  edestruct (replay_rows_online st s1 m 0) as (m4 & w4 & H4 & Hp4 & _).
  { unfold no_db in Hdb. apply orb_false_iff in Hdb as [_ Hdb]. by apply negb_false_iff. }
  { done. } { done. } { rewrite Hcfg. apply (gwf_topic _ Hc). }
  { rewrite E3. symmetry. apply (take_drop (replay_batch (ms_cfg s))). }
  eapply bind_reaches; [exact H4|]. cbn beta iota. eapply bind_reaches; [reflexivity|]. cbn beta iota.
  destruct (count_online st (mk_world (EvUnlock :: w_trace w4) (w_glob w4))) as (cnt & w5 & H5 & E5).
  eapply bind_reaches; [exact H5|]. eexists _, _. split; [reflexivity|].
  eexists s1, _. split; [reflexivity|]. split_and!; [done|done|done|]. rewrite E5. exact Hp4.
Qed.

(** Replays, one after the other. *)
Fixpoint replays (j : nat) (st : storage_ctx_t) (s : mqtt_session_t) (m : gateway_metrics_t)
    : io (option mqtt_session_t * option gateway_metrics_t) :=
  match j with
  | O => mret (Some s, Some m)
  | S j' =>
      '(_, s', m') ← mqtt_session_replay_pending (Some s) (Some st) (Some m);
      match s', m' with
      | Some s', Some m' => replays j' st s' m'
      | _, _ => mret (s', m')
      end
  end.

Lemma replays_online j s st m w :
  session_ok s → config_wf (ms_cfg s) → no_db st = false →
  ∃ res w', replays j st s m n w = Some (res, w') ∧
    pending (outbox_at w') = drop (j * replay_batch (ms_cfg s)) (pending (outbox_at w)).
Proof.
  intros Hok Hc Hdb. revert s m w Hok Hc. induction j as [|j IH]; intros s m w Hok Hc; cbn [replays].
  { eexists _, _. by split. }
  destruct (replay_online s st m w Hok Hc Hdb) as (res & w1 & H1 & (s1 & m1 & -> & Hok1 & _ & Hcfg & Hp)).
  eapply bind_reaches; [exact H1|]. cbn beta iota.
  destruct (IH s1 m1 w1) as (res & w2 & H2 & Hp2); [done|by rewrite Hcfg|].
  exists res, w2. split; [done|]. rewrite Hp2, Hp, drop_drop, Hcfg. f_equal; lia.
Qed.
End recovery.

(** ** Properties *)

Section properties.
Context {env : Env} {db0 : list db_row} {online : Online env db0} {spec : SqliteSpec env db0}.

(** C4: the outbox drains: when the broker and the database answer, a replay
    returns, with fuel 1025, reconnects if it must, uploads exactly the oldest
    batch of pending rows and reports how many they were; so [j] replays upload
    the [j * batch] oldest rows, and once that covers the backlog nothing is
    pending any more. *)
Theorem outbox_drains n j s st m w :
  (1024 < n)%nat → session_ok s → config_wf (ms_cfg s) → no_db st = false →
  (∃ res w', mqtt_session_replay_pending (Some s) (Some st) (Some m) n w = Some (res, w') ∧
     replayed_batch (db0 := db0) s w res w') ∧
  (∃ res w', replays j st s m n w = Some (res, w') ∧
     pending (db_of db0 (w_trace w')) =
       drop (j * replay_batch (ms_cfg s)) (pending (db_of db0 (w_trace w))) ∧
     (length (pending (db_of db0 (w_trace w))) ≤ j * replay_batch (ms_cfg s) →
      pending (db_of db0 (w_trace w')) = [])%nat).
Proof.
  intros Hn Hok Hc Hdb. split; [by apply (replay_online Hn)|].
  destruct (replays_online Hn j s st m w Hok Hc Hdb) as (res & w' & H & Hp).
  exists res, w'. split_and!; [done|done|]. intros Hl. by rewrite Hp, drop_ge.
Qed.
End properties.

(** ** A concrete broker *)

Definition demo_backlog : list db_row :=
  [mk_db_row 1 (telemetry_binding demo_point) false; mk_db_row 2 (telemetry_binding demo_point) true;
   mk_db_row 3 (telemetry_binding demo_point) false].

Definition demo_online_env : Env := sqlite_env (demo_env [0x20; 0x02; 0x00; 0x00] []) demo_backlog.

#[export] Instance demo_online : Online demo_online_env demo_backlog.
Proof.
  split; try done.
  - intros tr fd [|b d] Hd; [done|]. by exists (length d).
  - intros tr m. simpl. by rewrite Nat2Z.id.
Qed.

#[export] Instance demo_backlog_sqlite : SqliteSpec demo_online_env demo_backlog.
Proof. apply sqlite_env_spec. split; [repeat constructor|]; vm_compute; repeat constructor. Qed.

Lemma outbox_drains_witness :
  (length (pending (db_of demo_backlog (w_trace world_init))) = 2)%nat ∧
  ∃ res w', @replays demo_online_env 1 demo_storage demo_session (mk_metrics 0 0 0 0 0 0 0 0 0 0 0) 1025%nat world_init =
      Some (res, w') ∧ pending (db_of demo_backlog (w_trace w')) = [].
Proof.
  split; [reflexivity|].
  destruct (@outbox_drains demo_online_env demo_backlog _ _ 1025%nat 1%nat demo_session demo_storage
    (mk_metrics 0 0 0 0 0 0 0 0 0 0 0) world_init) as (_ & res & w' & H & _ & Hp);
    [lia|split; reflexivity|apply defaults_wf|reflexivity|].
  exists res, w'. split; [exact H|]. apply Hp. apply Nat.leb_le. vm_compute. reflexivity.
Defined.
