(* ===== verification/Scheduler.v ===== *)
(** * Command scheduler ([src/src/runtime/command_scheduler.c])

    A bounded queue of commands; a tick sends every pending command through an
    adapter, records its fate and empties the queue. *)

From S2P Require Export Plugins Storage.

#[local] Open Scope Z_scope.

Definition COMMAND_QUEUE_MAX : nat := 32.

(** [queue] is the first [count] cells. *)
Record command_scheduler_t := mk_scheduler {
  sc_queue : list command_t;
  sc_next_command_id : Z
}.

Definition command_scheduler_init (scheduler : option command_scheduler_t)
    : option command_scheduler_t := (λ _, mk_scheduler [] 1) <$> scheduler.

Definition with_command_id (c : command_t) (id : Z) : command_t :=
  mk_command id (cmd_created_ts_ms c) (cmd_target_device_id c) (cmd_type c) (cmd_state c)
    (cmd_point_id c) (cmd_target_value c) (cmd_retry_count c) (cmd_max_retries c)
    (cmd_result_message c).

Definition with_command_state (c : command_t) (state : command_state_t) : command_t :=
  command_with c state (cmd_result_message c).

Definition command_scheduler_submit (scheduler : option command_scheduler_t)
    (command : option command_t) : io (Z * option command_scheduler_t * option command_t) :=
  match scheduler, command with
  | Some s, Some c =>
      if decide (COMMAND_QUEUE_MAX ≤ length (sc_queue s))%nat then
        log_warn "command queue full, drop command";; mret (-1, scheduler, command)
      else
        let '(c, next) :=
          if cmd_command_id c =? 0
          then (with_command_id c (sc_next_command_id s), u64 (sc_next_command_id s + 1))
          else if sc_next_command_id s <=? cmd_command_id c
          then (c, u64 (cmd_command_id c + 1))
          else (c, sc_next_command_id s) in
        let c := with_command_state c COMMAND_STATE_PENDING in
        mret (0, Some (mk_scheduler (sc_queue s ++ [c]) next), Some c)
  | _, _ => mret (-1, scheduler, command)
  end.

Definition is_pending (c : command_t) : Prop := cmd_state c = COMMAND_STATE_PENDING.
#[export] Instance is_pending_dec c : Decision (is_pending c).
Proof. unfold is_pending. apply _. Defined.

Section scheduler.
Context {env : Env}.

(** The body of the second loop: one command through the adapter. *)
Definition send_command (adapter : device_adapter_t) (storage : option storage_ctx_t)
    (cmd : command_t) : io command_t :=
  let cmd := with_command_state cmd COMMAND_STATE_SENT in
  failed ←
    match ad_write_command adapter with
    | None => mret false
    | Some write_command =>
        rc ← write_command (Some (ad_self adapter)) (Some cmd); mret (negb (rc =? 0))
    end;
  let cmd :=
    if (failed : bool) then
      command_with cmd COMMAND_STATE_FAILED (snprintf EDGEFLOW_MESSAGE_MAX "adapter write failed")
    else
      default cmd (snd (command_mark_verified (Some (with_command_state cmd COMMAND_STATE_ACKED))
                          (Some "simulator readback verified"%string))) in
  (match storage with
   | None => mret 0
   | Some _ => storage_append_command storage (Some cmd)
   end);;
  log_info ("command " +:+ command_state_to_string (cmd_state cmd) +:+ ": id=" +:+
            dec (cmd_command_id cmd) +:+ " target=" +:+ cmd_target_device_id cmd +:+
            " value=" +:+ fmt_fixed 2 (cmd_target_value cmd));;
  mret cmd.

Fixpoint send_commands (adapter : device_adapter_t) (storage : option storage_ctx_t)
    (pending : list command_t) (processed : Z) : io Z :=
  match pending with
  | [] => mret processed
  | cmd :: pending' => send_command adapter storage cmd;; send_commands adapter storage pending' (processed + 1)
  end.

Definition command_scheduler_tick (scheduler : option command_scheduler_t)
    (adapter : option device_adapter_t) (cfg : option gateway_config_t)
    (storage : option storage_ctx_t) : io (Z * option command_scheduler_t) :=
  match scheduler, adapter, cfg with
  | Some s, Some a, Some _ =>
      let pending := filter is_pending (sc_queue s) in
      n ← send_commands a storage pending 0;
      mret (n, Some (mk_scheduler [] (sc_next_command_id s)))
  | _, _, _ => mret (0, scheduler)
  end.

End scheduler.

(** ** Submission *)

Record scheduler_wf (s : command_scheduler_t) : Prop := {
  swf_room : (length (sc_queue s) ≤ COMMAND_QUEUE_MAX)%nat;
  swf_next : 0 < sc_next_command_id s < 2 ^ 64;
  swf_ids : Forall (λ c, 0 < cmd_command_id c < sc_next_command_id s) (sc_queue s);
  swf_pending : Forall is_pending (sc_queue s)
}.

Lemma scheduler_init_wf s s' : command_scheduler_init (Some s) = Some s' → scheduler_wf s'.
Proof. intros [= <-]. split; simpl; [unfold COMMAND_QUEUE_MAX; lia|lia|constructor|constructor]. Qed.

(** C28: a submission is refused exactly when the queue holds 32 commands, and then
    changes nothing but the log; otherwise the command is queued last, pending,
    with nothing else of it changed but a number of 0, which becomes the next
    one; the next number is then above it, so a command that carried 0, or a
    number not below the next one, has a number above every number in the
    queue; and the queue stays well formed.  (Numbers stay below 2^64 - 1.) *)
Theorem submit_spec s c n w rc res res_c w' :
  scheduler_wf s → 0 <= cmd_command_id c < 2 ^ 64 - 1 → sc_next_command_id s < 2 ^ 64 - 1 →
  command_scheduler_submit (Some s) (Some c) n w = Some ((rc, res, res_c), w') →
  (length (sc_queue s) = COMMAND_QUEUE_MAX ∧ rc = -1 ∧ res = Some s ∧ res_c = Some c ∧
   w' = mk_world (EvLog (g_log_fp (w_glob w)) "WARN" "command queue full, drop command" :: w_trace w) (w_glob w)) ∨
  ((length (sc_queue s) < COMMAND_QUEUE_MAX)%nat ∧ rc = 0 ∧ w' = w ∧
   ∃ id s' c', id = (if cmd_command_id c =? 0 then sc_next_command_id s else cmd_command_id c) ∧
     c' = with_command_state (with_command_id c id) COMMAND_STATE_PENDING ∧
     res = Some s' ∧ res_c = Some c' ∧ scheduler_wf s' ∧ sc_queue s' = sc_queue s ++ [c'] ∧
     sc_next_command_id s' = Z.max (sc_next_command_id s) (id + 1) ∧
     (sc_next_command_id s <= id → Forall (λ q, cmd_command_id q < id) (sc_queue s))).
Proof.
  intros [Hroom Hnext Hids Hpend] Hc Hn H. unfold command_scheduler_submit in H.
  case_decide as Hfull.
  { io_go H. io_done H. left. split_and!; [lia|done..]. }
  right. split; [lia|].
  assert (∀ id, sc_next_command_id s <= id →
    Forall (λ q, cmd_command_id q < id) (sc_queue s)) as Hlt.
  { intros id Hid. eapply Forall_impl; [exact Hids|]. simpl. intros q Hq. lia. }
  assert (∀ c' next, 0 < cmd_command_id c' < next → sc_next_command_id s <= next < 2 ^ 64 →
    is_pending c' → scheduler_wf (mk_scheduler (sc_queue s ++ [c']) next)) as Hwf.
  { intros c' next Hid Hnx Hp. split; simpl.
    - rewrite length_app. simpl. lia.
    - lia.
    - apply Forall_app_2; [|by repeat constructor; simpl; lia].
      eapply Forall_impl; [exact Hids|]. simpl. intros q Hq. lia.
    - apply Forall_app_2; [done|by repeat constructor]. }
  assert (with_command_id c (cmd_command_id c) = c) as Hsame by by destruct c.
  destruct (Z.eqb_spec (cmd_command_id c) 0);
    [|destruct (Z.leb_spec (sc_next_command_id s) (cmd_command_id c))];
    io_done H; (split; [done|]; split; [done|]);
    eexists _, _, _; (split; [reflexivity|]); rewrite ?Hsame;
    (split; [reflexivity|]; split; [reflexivity|]; split; [reflexivity|]);
    (split; [apply Hwf; simpl; try done; rewrite ?u64_small; unfold is_u64; lia|]);
    (split; [reflexivity|]); (split; [simpl; rewrite ?u64_small by (unfold is_u64; lia); lia|apply Hlt]).
Qed.

(** ** The tick *)

(** What [adapter.h] asks of a write: it only does protocol writes and logging,
    here: it appends nothing to the audit file. *)
Definition ev_append (e : event) : option (string * string) :=
  match e with EvAppend path line _ => Some (path, line) | _ => None end.

(** The lines appended, newest first. *)
Definition appended (evs : list event) : list (string * string) := omap ev_append evs.

Class WriteContract (write_command : write_fn) : Prop :=
  write_contract : ∀ self cmd n w rc w',
    write_command self cmd n w = Some (rc, w') →
    ∃ evs, w_trace w' = evs ++ w_trace w ∧ appended evs = [].

#[export] Instance modbus_write_contract : WriteContract modbus_write_command.
Proof.
  intros self cmd n w rc w' H. unfold modbus_write_command in H. destruct cmd; io_go H; io_done H.
  - by eexists [_].
  - by exists [].
Qed.

#[export] Instance stub_write_contract : WriteContract stub_write_command.
Proof. intros self cmd n w rc w' H. unfold stub_write_command in H. io_done H. by exists []. Qed.

(** How a command ends: as the adapter answered. *)
Definition ended_as (ok : bool) (c : command_t) : command_t :=
  if ok then command_with c COMMAND_STATE_VERIFIED "simulator readback verified"
  else command_with c COMMAND_STATE_FAILED "adapter write failed".

(** The events of the audit, the alarm and command tables, and the log. *)
Definition bookkeeping (e : event) : Prop :=
  match e with EvAppend _ _ _ | EvPrepare _ _ | EvStep _ _ _ | EvLog _ _ _ => True | _ => False end.

Section tick.
Context {env : Env} (a : device_adapter_t).

(** The adapter's write was run from [w] to [w1] with the command in state
    SENT, and accepted it or not; an adapter without a write accepts. *)
Definition asked (n : nat) (c : command_t) (ok : bool) (w w1 : world) : Prop :=
  match ad_write_command a with
  | None => ok = true ∧ w1 = w
  | Some write_command => ∃ rc,
      write_command (Some (ad_self a)) (Some (with_command_state c COMMAND_STATE_SENT)) n w = Some (rc, w1) ∧
      ok = (rc =? 0)
  end.

(** The commands are sent one after the other: for each the write is run once,
    and what follows is its line in the audit file and bookkeeping. *)
Inductive sends (path : string) (n : nat) : list command_t → list command_t → world → world → Prop :=
  | sends_nil w : sends path n [] [] w w
  | sends_cons c l l' ok evs w w1 w2 w' :
      asked n c ok w w1 →
      w2 = mk_world (evs ++ w_trace w1) (w_glob w1) →
      appended evs = [(path, command_line (ended_as ok c))] → Forall bookkeeping evs →
      sends path n l l' w2 w' → sends path n (c :: l) (ended_as ok c :: l') w w'.

Context {Hwrite : ∀ f, ad_write_command a = Some f → WriteContract f}.

Lemma append_command_run st c n w rc w' :
  storage_append_command (Some st) (Some c) n w = Some (rc, w') →
  ∃ evs, w' = mk_world (evs ++ w_trace w) (w_glob w) ∧
    appended evs = [(cfg_cache_path (st_cfg st), command_line c)] ∧ Forall bookkeeping evs.
Proof.
  unfold storage_append_command, append_jsonl_line, run_statement. intros H.
  erewrite bind_eq in H by reflexivity. destruct (no_db st).
  { io_done H. eexists [_]. by split_and!; [..|repeat constructor]. }
  io_go H. destruct (env_prepare _ _); cbn [negb] in H; io_go H; io_done H.
  - eexists [_; _; _]. by split_and!; [..|repeat constructor].
  - eexists [_; _]. by split_and!; [..|repeat constructor].
Qed.

Lemma send_command_run st c n w c' w' :
  send_command a (Some st) c n w = Some (c', w') →
  ∃ ok w1 evs, asked n c ok w w1 ∧ c' = ended_as ok c ∧ w' = mk_world (evs ++ w_trace w1) (w_glob w1) ∧
    appended evs = [(cfg_cache_path (st_cfg st), command_line c')] ∧ Forall bookkeeping evs.
Proof.
  unfold send_command. intros H. apply bind_run in H as (failed & w1 & H1 & H).
  assert (asked n c (negb failed) w w1) as Hasked.
  { unfold asked. destruct (ad_write_command a) as [f|]; [|by io_done H1].
    apply bind_run in H1 as (rc & w2 & Hw & H1). io_done H1. exists rc. by rewrite negb_involutive. }
  set (cmd := if failed then _ else _) in H.
  assert (cmd = ended_as (negb failed) c) as -> by (by subst cmd; destruct failed).
  apply bind_run in H as (rc & w2 & (e2 & -> & Ha2 & Hb2)%append_command_run & H). io_go H. io_done H.
  eexists (negb failed), w1, (_ :: e2). split; [done|]. split; [done|]. split; [reflexivity|].
  split; [exact Ha2|by constructor].
Qed.

Lemma send_commands_run st l k n w k' w' :
  send_commands a (Some st) l k n w = Some (k', w') →
  k' = k + Z.of_nat (length l) ∧ ∃ l', sends (cfg_cache_path (st_cfg st)) n l l' w w'.
Proof.
  revert k w. induction l as [|c l IH]; intros k w H; cbn [send_commands] in H.
  { io_done H. split; [simpl; lia|]. exists []. constructor. }
  apply bind_run in H as (c' & w1 & H1 & H). apply send_command_run in H1 as (ok & w0 & e1 & Hs & -> & -> & Ha & Hb).
  apply IH in H as (-> & l' & Hl). split; [simpl; lia|]. eexists. by eapply sends_cons.
Qed.

(** The audit file gets one line for each command, in order. *)
Lemma sends_audit path n l l' w w' :
  sends path n l l' w w' → ∃ evs, w_trace w' = evs ++ w_trace w ∧
    reverse (appended evs) = (λ c, (path, command_line c)) <$> l'.
Proof.
  induction 1 as [w|c l l' ok evs w w1 w2 w' Hs -> Ha _ _ (e2 & E2 & A2)]; [by exists []|].
  assert (∃ e1, w_trace w1 = e1 ++ w_trace w ∧ appended e1 = []) as (e1 & E1 & A1).
  { unfold asked in Hs. destruct (ad_write_command a) as [f|] eqn:Ef.
    - destruct Hs as (rc & Hs & _). by eapply Hwrite in Hs.
    - destruct Hs as [_ ->]. by exists []. }
  exists (e2 ++ evs ++ e1). split; [by rewrite E2; cbn [w_trace]; rewrite E1, !app_assoc|].
  unfold appended in *. by rewrite !omap_app, A1, app_nil_r, reverse_app, A2, Ha.
Qed.

(** C29: a tick empties the queue and sends every pending command once, in order:
    it runs the adapter's write with the command in state SENT, and the command
    ends VERIFIED if the write answered 0 (or the adapter has none) and FAILED
    otherwise, its identity, target and retry count unchanged (none is ever
    retried); then its line is added to the audit file, before the next command
    is sent.  The tick returns their number, and the audit file gets these lines
    and no other. *)
Theorem tick_outcome s cfg st n w k res w' :
  command_scheduler_tick (Some s) (Some a) (Some cfg) (Some st) n w = Some ((k, res), w') →
  let path := cfg_cache_path (st_cfg st) in
  let pending := filter is_pending (sc_queue s) in
  k = Z.of_nat (length pending) ∧ res = Some (mk_scheduler [] (sc_next_command_id s)) ∧
  ∃ ended evs, sends path n pending ended w w' ∧ w_trace w' = evs ++ w_trace w ∧
    reverse (appended evs) = (λ c, (path, command_line c)) <$> ended.
Proof.
  intros H path pending. unfold command_scheduler_tick in H. apply bind_run in H as (k1 & w1 & H1 & H).
  apply send_commands_run in H1 as (-> & l' & Hl). io_done H. split; [done|]. split; [done|].
  destruct (sends_audit _ _ _ _ _ _ Hl) as (evs & E & A). by exists l', evs.
Qed.

End tick.

(** ** Concrete runs *)

Definition demo_command : command_t :=
  mk_command 1 5 "pcs_001" COMMAND_TYPE_SET_POINT_VALUE COMMAND_STATE_PENDING "target_power_kw"
    (dopp (d_of_Z 30)) 0 3 "".

Definition demo_scheduler : command_scheduler_t := mk_scheduler [demo_command] 2.

Lemma demo_scheduler_wf : scheduler_wf demo_scheduler.
Proof. split; simpl; [vm_compute; lia|lia|by repeat constructor; simpl; lia|by repeat constructor]. Qed.

Lemma submit_spec_witness :
  ∃ res res_c w', command_scheduler_submit (Some demo_scheduler) (Some command_zero) 0%nat world_init
    = Some ((0, res, res_c), w') ∧
  ((length (sc_queue demo_scheduler) = COMMAND_QUEUE_MAX ∧ 0 = -1 ∧ res = Some demo_scheduler ∧
    res_c = Some command_zero ∧
    w' = mk_world [EvLog None "WARN" "command queue full, drop command"] globals_init) ∨
   ((length (sc_queue demo_scheduler) < COMMAND_QUEUE_MAX)%nat ∧ 0 = 0 ∧ w' = world_init ∧
    ∃ id s' c', id = 2 ∧ c' = with_command_state (with_command_id command_zero id) COMMAND_STATE_PENDING ∧
      res = Some s' ∧ res_c = Some c' ∧ scheduler_wf s' ∧ sc_queue s' = sc_queue demo_scheduler ++ [c'] ∧
      sc_next_command_id s' = Z.max (sc_next_command_id demo_scheduler) (id + 1) ∧
      (sc_next_command_id demo_scheduler <= id →
       Forall (λ q, cmd_command_id q < id) (sc_queue demo_scheduler)))).
Proof.
  eexists _, _, _. split; [vm_compute; reflexivity|].
  apply (submit_spec demo_scheduler command_zero 0 world_init);
    [exact demo_scheduler_wf|simpl; lia|simpl; lia|vm_compute; reflexivity].
Defined.

Definition demo_adapter : device_adapter_t :=
  default null_adapter (@modbus_adapter_fill (demo_env [] []) (Some null_adapter)).

Lemma tick_outcome_witness :
  ∃ res w', @command_scheduler_tick (demo_env [] []) (Some demo_scheduler) (Some demo_adapter)
      (Some gateway_config_defaults) (Some demo_storage) 0%nat world_init = Some ((1, res), w') ∧
  let path := cfg_cache_path (st_cfg demo_storage) in
  let pending := filter is_pending (sc_queue demo_scheduler) in
  1 = Z.of_nat (length pending) ∧ res = Some (mk_scheduler [] (sc_next_command_id demo_scheduler)) ∧
  ∃ ended evs, sends demo_adapter path 0 pending ended world_init w' ∧ w_trace w' = evs ++ w_trace world_init ∧
    reverse (appended evs) = (λ c, (path, command_line c)) <$> ended.
Proof.
  eexists _, _. split; [vm_compute; reflexivity|].
  refine (@tick_outcome (demo_env [] []) demo_adapter _ demo_scheduler gateway_config_defaults
    demo_storage 0 world_init _ _ _ _); [intros f [= <-]; apply _|vm_compute; reflexivity].
Defined.
