(* ===== verification/Reactor.v ===== *)
(** * Reactor ([src/src/core/reactor.c])

    An epoll instance that watches one periodic timer.  The callback works on
    a state of type [S], which [user_data] points to. *)

From S2P Require Export Platform.

#[local] Open Scope Z_scope.

Record reactor_t (S : Type) := mk_reactor {
  re_epfd : Z;
  re_timer_fd : Z;
  re_cb : option (S → io S);
  re_running : bool
}.
Arguments mk_reactor {S}.
Arguments re_epfd {S}.
Arguments re_timer_fd {S}.
Arguments re_cb {S}.
Arguments re_running {S}.

Definition REACTOR_MAX_EVENTS : nat := 8.

Section reactor.
Context {env : Env} {S : Type}.

(** [out] is where the handle is stored; on failure everything opened is
    closed again. *)
Definition reactor_init (out : option (option (reactor_t S))) : io (Z * option (option (reactor_t S))) :=
  match out with
  | None => mret (-1, out)
  | Some _ =>
      got ← ask env_malloc;
      if negb got then mret (-1, out)
      else
        epfd ← call env_epoll_create EvEpollCreate;
        if epfd <? 0 then mret (-1, out)
        else
          timer_fd ← call env_timerfd_create EvTimerCreate;
          if timer_fd <? 0 then close epfd;; mret (-1, out)
          else
            added ← call env_epoll_ctl (EvEpollAdd epfd timer_fd);
            if negb added then close timer_fd;; close epfd;; mret (-1, out)
            else mret (0, Some (Some (mk_reactor epfd timer_fd None true)))
  end.

Definition reactor_destroy (reactor : option (reactor_t S)) : io () :=
  match reactor with
  | None => mret tt
  | Some r =>
      (if 0 <=? re_timer_fd r then close (re_timer_fd r) else mret tt);;
      (if 0 <=? re_epfd r then close (re_epfd r) else mret tt)
  end.

Definition reactor_add_timer_ms (reactor : option (reactor_t S)) (interval_ms : Z)
    (cb : option (S → io S)) : io (Z * option (reactor_t S)) :=
  match reactor, cb with
  | Some r, Some f =>
      if interval_ms =? 0 then mret (-1, reactor)
      else
        let r := mk_reactor (re_epfd r) (re_timer_fd r) cb (re_running r) in
        ok ← call env_timerfd_settime
               (EvTimerSet (re_timer_fd r) (interval_ms / 1000) (interval_ms mod 1000 * 1000000));
        mret (if (ok : bool) then 0 else -1, Some r)
  | _, _ => mret (-1, reactor)
  end.

(** The loop over the ready descriptors. *)
Fixpoint reactor_events (r : reactor_t S) (ready : list Z) (s : S) : io S :=
  match ready with
  | [] => mret s
  | fd :: ready' =>
      s ← (if fd =? re_timer_fd r then
             d ← read (re_timer_fd r) 8;
             match d with
             | RdOk (_ :: _) => match re_cb r with Some cb => cb s | None => mret s end
             | _ => mret s
             end
           else mret s);
      reactor_events r ready' s
  end.

Definition reactor_run_once (reactor : option (reactor_t S)) (s : S) : io (Z * S) :=
  match reactor with
  | None => mret (-1, s)
  | Some r =>
      if negb (re_running r) then mret (-1, s)
      else
        e ← call env_epoll_wait (EvEpollWait (re_epfd r));
        match e with
        | EpIntr => mret (0, s)
        | EpErr => mret (-1, s)
        | EpOk ready => s ← reactor_events r (take REACTOR_MAX_EVENTS ready) s; mret (0, s)
        end
  end.

Definition reactor_stop (reactor : option (reactor_t S)) : option (reactor_t S) :=
  (λ r, mk_reactor (re_epfd r) (re_timer_fd r) (re_cb r) false) <$> reactor.

End reactor.

(** ** The descriptors of a reactor

    [opened evs]: the epoll and timer descriptors that the events (newest
    first) create and do not close afterwards. *)
Definition opened_step (e : event) (l : list Z) : list Z :=
  match e with
  | EvEpollCreate fd | EvTimerCreate fd => if fd <? 0 then l else fd :: l
  | EvClose fd => match l with fd' :: l' => if fd' =? fd then l' else l | [] => [] end
  | _ => l
  end.

Definition opened (evs : trace) (l : list Z) : list Z := foldr opened_step l evs.

(** How often the timer delivered an expiration. *)
Definition is_tick (fd : Z) (e : event) : bool :=
  match e with EvRecv fd' _ (RdOk (_ :: _)) => fd' =? fd | _ => false end.

Definition ticks (fd : Z) (evs : trace) : nat := length (filter (λ e, is_tick fd e = true) evs).

Lemma ticks_cons fd e evs : ticks fd (e :: evs) = ((if is_tick fd e then 1 else 0) + ticks fd evs)%nat.
Proof. unfold ticks. rewrite filter_cons. case_decide as H; [by rewrite H|]. by destruct (is_tick fd e). Qed.

Lemma ticks_app fd t1 t2 : ticks fd (t1 ++ t2) = (ticks fd t1 + ticks fd t2)%nat.
Proof. unfold ticks. by rewrite filter_app, length_app. Qed.

Section reactor_laws.
Context {env : Env} {S : Type}.

Definition reactor_ok (r : reactor_t S) : Prop := 0 <= re_epfd r ∧ 0 <= re_timer_fd r.

(** A reactor either comes up with an epoll instance that watches its
    timer, both open, running and without a callback; or the call answers -1,
    stores nothing and has closed whatever it had opened.  Destroying the
    reactor closes the two descriptors, the timer first. *)
Theorem reactor_init_outcome (out : option (reactor_t S)) n w rc res w' l :
  reactor_init (Some out) n w = Some ((rc, res), w') →
  ∃ evs, w_trace w' = evs ++ w_trace w ∧
    ((rc = 0 ∧ ∃ r, res = Some (Some r) ∧ reactor_ok r ∧ re_running r = true ∧ re_cb r = None ∧
       opened evs l = re_timer_fd r :: re_epfd r :: l ∧
       EvEpollAdd (re_epfd r) (re_timer_fd r) true ∈ evs ∧
       (∀ w1, ∃ w2 evs2, reactor_destroy (Some r) n w1 = Some (tt, w2) ∧
          w_trace w2 = evs2 ++ w_trace w1 ∧ opened evs2 (re_timer_fd r :: re_epfd r :: l) = l)) ∨
     (rc = -1 ∧ res = Some out ∧ opened evs l = l)).
Proof.
  unfold reactor_init. intros H. io_go H. destruct (negb _).
  { io_done H. exists []. naive_solver. }
  io_go H. destruct (Z.ltb_spec (env_epoll_create (w_trace w)) 0) as [Hp|Hp].
  { io_done H. eexists [_]. split; [done|]. right. split_and!; [done..|]. cbn. by rewrite (proj2 (Z.ltb_lt _ _) Hp). }
  set (epfd := env_epoll_create (w_trace w)) in *. set (t1 := _ :: w_trace w) in H.
  io_go H. set (tfd := env_timerfd_create t1) in *. destruct (Z.ltb_spec tfd 0) as [Ht|Ht]; io_go H.
  { io_done H. eexists [_; _; _]. split; [done|]. right. split_and!; [done..|]. cbn.
    by rewrite (proj2 (Z.ltb_lt _ _) Ht), (proj2 (Z.ltb_ge _ _) Hp), Z.eqb_refl. }
  destruct (env_epoll_ctl _) eqn:Ec; cbn [negb] in H; io_go H; io_done H.
  2:{ eexists [_; _; _; _; _]. split; [done|]. right. split_and!; [done..|]. cbn.
      by rewrite (proj2 (Z.ltb_ge _ _) Ht), (proj2 (Z.ltb_ge _ _) Hp), !Z.eqb_refl. }
  eexists [_; _; _]. split; [done|]. left. split; [done|]. eexists. split; [done|]. cbn [re_epfd re_timer_fd].
  split_and!; [done..| | |].
  - cbn. by rewrite (proj2 (Z.ltb_ge _ _) Ht), (proj2 (Z.ltb_ge _ _) Hp).
  - apply list_elem_of_here.
  - intros w1. eexists _, [_; _]. cbn. rewrite (proj2 (Z.leb_le _ _) Ht), (proj2 (Z.leb_le _ _) Hp).
    split_and!; [done..|]. cbn. by rewrite !Z.eqb_refl.
Qed.

Lemma reactor_events_run (r : reactor_t S) f ready s n w s' w' :
  re_cb r = Some (λ s, mret (f s)) → reactor_events r ready s n w = Some (s', w') →
  ∃ evs, w_trace w' = evs ++ w_trace w ∧ s' = Nat.iter (ticks (re_timer_fd r) evs) f s ∧
    (length evs ≤ length ready)%nat.
Proof.
  intros Hcb. revert s w. induction ready as [|fd ready IH]; intros s w H; cbn [reactor_events] in H.
  { io_done H. by exists []. }
  apply bind_run in H as (s1 & w1 & H1 & H). apply IH in H as (evs & E & -> & Hl).
  assert (∃ e, w_trace w1 = e ++ w_trace w ∧ s1 = Nat.iter (ticks (re_timer_fd r) e) f s ∧ (length e ≤ 1)%nat)
    as (e & E1 & -> & Hl1).
  { destruct (fd =? re_timer_fd r); [|io_done H1; exists []; split_and!; [done..|simpl; lia]]. io_go H1.
    set (d := clip_read _ _) in H1.
    assert (w_trace w1 = EvRecv (re_timer_fd r) 8 d :: w_trace w ∧
      s1 = if is_tick (re_timer_fd r) (EvRecv (re_timer_fd r) 8 d) then f s else s) as [E1 ->].
    { unfold is_tick. rewrite Z.eqb_refl.
      destruct d as [[|b d]| |]; rewrite ?Hcb in H1; by io_done H1. }
    eexists [_]. split; [done|]. rewrite ticks_cons. destruct (is_tick _ _); simpl; split; (done || lia). }
  exists (evs ++ e). rewrite ticks_app, Nat.iter_add, !length_app. simpl. split_and!; [by rewrite E, E1, app_assoc|done|lia].
Qed.

(** Setting the timer sets the callback, when it succeeds. *)
Lemma add_timer_cb (r : option (reactor_t S)) ms cb n w rc r' w' :
  reactor_add_timer_ms r ms (Some cb) n w = Some ((rc, r'), w') → negb (rc =? 0) = false →
  ∃ r1, r' = Some r1 ∧ re_cb r1 = Some cb.
Proof.
  unfold reactor_add_timer_ms. intros H E. destruct r as [r|]; [|by unfold mret, io_ret in H; simplify_eq/=].
  destruct (ms =? 0); [by unfold mret, io_ret in H; simplify_eq/=|].
  io_go H. unfold mret, io_ret in H. simplify_eq. by eexists.
Qed.

(** With a callback that computes [f], a round of the reactor applies [f] once
    for every ready timer whose read delivers an expiration, at most
    [REACTOR_MAX_EVENTS] times, and for nothing else; an interrupted wait is no
    error, and a failed one changes nothing. *)
Theorem reactor_run_once_dispatch (r : reactor_t S) f s n w rc s' w' :
  re_cb r = Some (λ s, mret (f s)) → reactor_run_once (Some r) s n w = Some ((rc, s'), w') →
  ∃ evs, w_trace w' = evs ++ w_trace w ∧ s' = Nat.iter (ticks (re_timer_fd r) evs) f s ∧
    (ticks (re_timer_fd r) evs ≤ REACTOR_MAX_EVENTS)%nat ∧ (rc = 0 ∨ rc = -1 ∧ s' = s).
Proof.
  intros Hcb H. unfold reactor_run_once in H. destruct (negb _).
  { io_done H. exists []. split_and!; [done|done|apply Nat.le_0_l|by right]. }
  io_go H. destruct (env_epoll_wait _) as [ready| |].
  2,3: io_done H; eexists [_]; rewrite ticks_cons; split_and!; [done|done|apply Nat.le_0_l|auto].
  apply bind_run in H as (s1 & w1 & H1 & H). io_done H.
  apply (reactor_events_run r f) in H1 as (evs & E & -> & Hl); [|done].
  exists (evs ++ [EvEpollWait (re_epfd r) (EpOk ready)]). rewrite ticks_app, ticks_cons. simpl. rewrite Nat.add_0_r.
  split_and!; [by rewrite E, <-app_assoc|done| |by left].
  unfold ticks. etrans; [apply length_filter|]. rewrite length_take in Hl. lia.
Qed.
End reactor_laws.

Lemma reactor_init_outcome_witness :
  ∃ w' evs, @reactor_init (demo_env [] []) nat (Some None) 0%nat world_init =
      Some ((0, Some (Some (mk_reactor 8 9 None true))), w') ∧
    w_trace w' = evs ++ w_trace world_init ∧ opened evs [] = [9; 8].
Proof.
  eexists _, _. split; [vm_compute; reflexivity|].
  destruct (@reactor_init_outcome (demo_env [] []) nat None 0 world_init 0 _ _ [] ltac:(vm_compute; reflexivity))
    as (evs & E & [(_ & r & Hr & _ & _ & _ & Ho & _)|(Hc & _)]); [|discriminate Hc].
  injection Hr as <-. rewrite app_nil_r in E. split; [by rewrite app_nil_r|]. by rewrite E.
Defined.
