(* ===== verification/App.v ===== *)
(** * The runtime ([src/src/runtime/app.c])

    Three threads over one application object: the ingress thread polls the
    adapters into the ring, the worker thread takes points out of it through
    storage, engine, scheduler and MQTT, and the monitor thread runs the
    watchdog, the heartbeats and the replay.  The body of each thread's loop is
    one definition; [AppInv.app_step] runs whole bodies in any order, and
    [Interleave] cuts them into the pieces that other threads can come between.
    [running] is written by the thread that stops the application: a thread
    asks the environment for its value. *)

From S2P Require Export Ring StateEngine MqttSession Scheduler Reactor.

#[local] Open Scope Z_scope.

(** The thread handles carry nothing. *)
Record gateway_app_t := mk_app {
  app_cfg : gateway_config_t;
  app_registry : adapter_registry_t;
  app_ring : spsc_ring_t;
  app_state_engine : state_engine_t;
  app_command_scheduler : command_scheduler_t;
  app_metrics : gateway_metrics_t;
  app_storage : option storage_ctx_t;
  app_mqtt : mqtt_session_t;
  app_heartbeat : heartbeat_registry_t
}.

Definition with_ring (a : gateway_app_t) (r : spsc_ring_t) : gateway_app_t :=
  mk_app (app_cfg a) (app_registry a) r (app_state_engine a) (app_command_scheduler a)
    (app_metrics a) (app_storage a) (app_mqtt a) (app_heartbeat a).
Definition with_engine (a : gateway_app_t) (e : state_engine_t) : gateway_app_t :=
  mk_app (app_cfg a) (app_registry a) (app_ring a) e (app_command_scheduler a)
    (app_metrics a) (app_storage a) (app_mqtt a) (app_heartbeat a).
Definition with_scheduler (a : gateway_app_t) (s : command_scheduler_t) : gateway_app_t :=
  mk_app (app_cfg a) (app_registry a) (app_ring a) (app_state_engine a) s
    (app_metrics a) (app_storage a) (app_mqtt a) (app_heartbeat a).
Definition with_metrics (a : gateway_app_t) (m : gateway_metrics_t) : gateway_app_t :=
  mk_app (app_cfg a) (app_registry a) (app_ring a) (app_state_engine a) (app_command_scheduler a)
    m (app_storage a) (app_mqtt a) (app_heartbeat a).
Definition with_mqtt (a : gateway_app_t) (s : mqtt_session_t) : gateway_app_t :=
  mk_app (app_cfg a) (app_registry a) (app_ring a) (app_state_engine a) (app_command_scheduler a)
    (app_metrics a) (app_storage a) s (app_heartbeat a).
Definition with_hb (a : gateway_app_t) (h : heartbeat_registry_t) : gateway_app_t :=
  mk_app (app_cfg a) (app_registry a) (app_ring a) (app_state_engine a) (app_command_scheduler a)
    (app_metrics a) (app_storage a) (app_mqtt a) h.
Definition with_storage (a : gateway_app_t) (s : option storage_ctx_t) : gateway_app_t :=
  mk_app (app_cfg a) (app_registry a) (app_ring a) (app_state_engine a) (app_command_scheduler a)
    (app_metrics a) s (app_mqtt a) (app_heartbeat a).
Definition with_registry (a : gateway_app_t) (r : adapter_registry_t) : gateway_app_t :=
  mk_app (app_cfg a) r (app_ring a) (app_state_engine a) (app_command_scheduler a)
    (app_metrics a) (app_storage a) (app_mqtt a) (app_heartbeat a).

(** The metrics, some changed. *)
Definition add_ingress (m : gateway_metrics_t) : gateway_metrics_t :=
  mk_metrics (u64 (ingress_points m + 1)) (processed_points m) (mqtt_publish_ok m)
    (mqtt_publish_fail m) (mqtt_replay_total m) (queue_depth m) (queue_dropped m)
    (storage_pending_count m) (heartbeat_ingress_age_ms m) (heartbeat_worker_age_ms m)
    (heartbeat_monitor_age_ms m).
Definition add_processed (m : gateway_metrics_t) : gateway_metrics_t :=
  mk_metrics (ingress_points m) (u64 (processed_points m + 1)) (mqtt_publish_ok m)
    (mqtt_publish_fail m) (mqtt_replay_total m) (queue_depth m) (queue_dropped m)
    (storage_pending_count m) (heartbeat_ingress_age_ms m) (heartbeat_worker_age_ms m)
    (heartbeat_monitor_age_ms m).
Definition add_published (ok : bool) (m : gateway_metrics_t) : gateway_metrics_t :=
  mk_metrics (ingress_points m) (processed_points m)
    (if ok then u64 (mqtt_publish_ok m + 1) else mqtt_publish_ok m)
    (if ok then mqtt_publish_fail m else u64 (mqtt_publish_fail m + 1))
    (mqtt_replay_total m) (queue_depth m) (queue_dropped m)
    (storage_pending_count m) (heartbeat_ingress_age_ms m) (heartbeat_worker_age_ms m)
    (heartbeat_monitor_age_ms m).
Definition with_queue (m : gateway_metrics_t) (depth drops : Z) : gateway_metrics_t :=
  mk_metrics (ingress_points m) (processed_points m) (mqtt_publish_ok m) (mqtt_publish_fail m)
    (mqtt_replay_total m) depth drops (storage_pending_count m) (heartbeat_ingress_age_ms m)
    (heartbeat_worker_age_ms m) (heartbeat_monitor_age_ms m).
Definition with_ages (m : gateway_metrics_t) (ingress worker monitor : Z) : gateway_metrics_t :=
  mk_metrics (ingress_points m) (processed_points m) (mqtt_publish_ok m) (mqtt_publish_fail m)
    (mqtt_replay_total m) (queue_depth m) (queue_dropped m) (storage_pending_count m)
    ingress worker monitor.

(** Both queue gauges, from the ring. *)
Definition store_queue (a : gateway_app_t) : gateway_app_t :=
  with_metrics a (with_queue (app_metrics a) (spsc_ring_count (Some (app_ring a)))
                    (spsc_ring_dropped (Some (app_ring a)))).

Definition with_quality (t : telemetry_t) (q : telemetry_quality_t) : telemetry_t :=
  mk_telemetry (tel_ts_ms t) (tel_device_id t) (tel_point_id t) (tel_value t) (tel_unit t) q
    (tel_source_id t).

Definition apply_quality_rules (cfg : gateway_config_t) (point : telemetry_t) : telemetry_t :=
  if bool_decide (tel_point_id point = "max_cell_temp_c"%string) && dlt (cfg_temp_high cfg) (tel_value point)
  then with_quality point TELEMETRY_QUALITY_BAD else point.

Section app.
Context {env : Env}.

Definition load_running : io bool := call env_running EvRunning.

Definition touch (a : gateway_app_t) (t : heartbeat_thread_t) : io gateway_app_t :=
  h ← heartbeat_touch (Some (app_heartbeat a)) t; mret (with_hb a (default (app_heartbeat a) h)).

Definition update_heartbeat_metrics (a : gateway_app_t) : io gateway_app_t :=
  i ← heartbeat_age_ms (Some (app_heartbeat a)) HEARTBEAT_THREAD_INGRESS;
  w ← heartbeat_age_ms (Some (app_heartbeat a)) HEARTBEAT_THREAD_WORKER;
  m ← heartbeat_age_ms (Some (app_heartbeat a)) HEARTBEAT_THREAD_MONITOR;
  mret (with_metrics a (with_ages (app_metrics a) (u32 i) (u32 w) (u32 m))).

(** ** Ingress *)

(** The pushes of the points of one poll. *)
Fixpoint push_points (a : gateway_app_t) (points : list telemetry_t) : gateway_app_t :=
  match points with
  | [] => a
  | p :: points' =>
      match spsc_ring_push (Some (app_ring a)) (Some p) with
      | (ok, r) =>
          let a := with_ring a (default (app_ring a) r) in
          push_points (if ok then with_metrics a (add_ingress (app_metrics a)) else a) points'
      end
  end.

Definition ingress_body (a : gateway_app_t) : io gateway_app_t :=
  '(n, points) ← adapter_registry_poll_all (Some (app_registry a))
                   (Some (replicate 8 telemetry_zero)) 8;
  let a := if 0 <? n then push_points a (take (Z.to_nat n) (default [] points)) else a in
  a ← touch a HEARTBEAT_THREAD_INGRESS;
  let a := store_queue a in
  edgeflow_sleep_ms (cfg_poll_interval_ms (app_cfg a));;
  mret a.

Fixpoint ingress_loop (fuel : nat) (a : gateway_app_t) : io gateway_app_t :=
  match fuel with
  | O => out_of_fuel
  | S fuel' =>
      running ← load_running;
      if (running : bool) then a ← ingress_body a; ingress_loop fuel' a else mret a
  end.

Definition ingress_main (a : gateway_app_t) : io gateway_app_t :=
  with_fuel (λ fuel, ingress_loop fuel a).

(** ** Worker *)

Definition find_modbus_adapter (a : gateway_app_t) : option device_adapter_t :=
  match adapter_registry_find (Some (app_registry a)) DEVICE_PROTOCOL_MODBUS_RTU with
  | Some d => Some d
  | None => adapter_registry_find (Some (app_registry a)) DEVICE_PROTOCOL_MODBUS_TCP
  end.

(** What the engine asked for: the alarm is stored, the command goes through
    the scheduler. *)
Definition handle_outcome (a : gateway_app_t) (alarm : alarm_event_t) (command : command_t)
    : io gateway_app_t :=
  (if negb (al_alarm_id alarm =? 0) then
     storage_append_alarm (app_storage a) (Some alarm);;
     log_warn ("alarm: " +:+ al_code alarm +:+ " " +:+ al_message alarm)
   else mret tt);;
  if decide (cmd_point_id command = EmptyString) then mret a
  else
    '(rc, s, _) ← command_scheduler_submit (Some (app_command_scheduler a)) (Some command);
    let a := with_scheduler a (default (app_command_scheduler a) s) in
    if negb (rc =? 0) then mret a
    else
      match find_modbus_adapter a with
      | None => mret a
      | Some modbus =>
          '(_, s) ← command_scheduler_tick (Some (app_command_scheduler a)) (Some modbus)
                      (Some (app_cfg a)) (app_storage a);
          mret (with_scheduler a (default (app_command_scheduler a) s))
      end.

(** One point that was popped. *)
Definition process_point (a : gateway_app_t) (point : telemetry_t) : io gateway_app_t :=
  let point := apply_quality_rules (app_cfg a) point in
  '(rc, row_id) ← storage_append_telemetry (app_storage a) (Some point) (Some 0);
  (if negb (rc =? 0) then log_warn "storage append telemetry failed" else mret tt);;
  let a := with_metrics a (add_processed (app_metrics a)) in
  let '(r, e, alarm, command) :=
    state_engine_process_telemetry (Some (app_state_engine a)) (Some (app_cfg a)) (Some point)
      (Some alarm_zero) (Some command_zero)
      (sc_next_command_id (app_command_scheduler a)) (tel_ts_ms point) in
  let a := with_engine a (default (app_state_engine a) e) in
  a ← (if (r : bool) then handle_outcome a (default alarm_zero alarm) (default command_zero command)
       else mret a);
  '(rc, s) ← mqtt_session_publish_telemetry (Some (app_mqtt a)) (Some point);
  let a := with_mqtt a (default (app_mqtt a) s) in
  let a := with_metrics a (add_published (rc =? 0) (app_metrics a)) in
  (if (rc =? 0) && (0 <? default 0 row_id)
   then storage_mark_telemetry_uploaded (app_storage a) (default 0 row_id);; mret tt else mret tt);;
  mret a.

(** The rest of the body after the point: heartbeat and metrics. *)
Definition finish_round (a : gateway_app_t) (last_metrics_ms : Z) : io (gateway_app_t * Z) :=
  a ← touch a HEARTBEAT_THREAD_WORKER;
  let a := store_queue a in
  count ← storage_pending_telemetry_count (app_storage a);
  let a := with_metrics a (with_pending (app_metrics a) (u32 count)) in
  now ← edgeflow_now_ms;
  if 1000 <? u64 (now - last_metrics_ms) then
    a ← update_heartbeat_metrics a;
    metrics_write_file (Some (cfg_metrics_path (app_cfg a))) (Some (app_metrics a));;
    last ← edgeflow_now_ms;
    mret (a, last)
  else mret (a, last_metrics_ms).

Definition worker_body (a : gateway_app_t) (last_metrics_ms : Z) : io (gateway_app_t * Z) :=
  match spsc_ring_pop (Some (app_ring a)) (Some telemetry_zero) with
  | (true, Some point, r) =>
      let a := with_ring a (default (app_ring a) r) in
      a ← process_point a point;
      finish_round a last_metrics_ms
  | _ =>
      a ← touch a HEARTBEAT_THREAD_WORKER;
      edgeflow_sleep_ms 20;;
      mret (a, last_metrics_ms)
  end.

Fixpoint worker_loop (fuel : nat) (a : gateway_app_t) (last_metrics_ms : Z) : io gateway_app_t :=
  match fuel with
  | O => out_of_fuel
  | S fuel' =>
      running ← load_running;
      if (running : bool) then '(a, last) ← worker_body a last_metrics_ms; worker_loop fuel' a last
      else mret a
  end.

Definition worker_main (a : gateway_app_t) : io gateway_app_t :=
  a ← with_fuel (λ fuel, worker_loop fuel a 0);
  a ← update_heartbeat_metrics a;
  metrics_write_file (Some (cfg_metrics_path (app_cfg a))) (Some (app_metrics a));;
  mret a.

(** ** Monitor *)

(** [heartbeat_interval_ms * 3U], in 32 bits. *)
Definition stale_limit (cfg : gateway_config_t) : Z := u32 (cfg_heartbeat_interval_ms cfg * 3).

Definition heartbeat_payload (cfg : gateway_config_t) (now count : Z) : string :=
  snprintf 128
    ("{" +:+ jstring "device_id" (cfg_device_id cfg) +:+ "," +:+ jraw "ts_ms" (dec now) +:+ "," +:+
     jraw "pending" (dec count) +:+ "}").

(** The part after the test of [running]. *)
Definition monitor_round (a : gateway_app_t) : io gateway_app_t :=
  a ← touch a HEARTBEAT_THREAD_MONITOR;
  watchdog_notify_alive;;
  ingress_age ← heartbeat_age_ms (Some (app_heartbeat a)) HEARTBEAT_THREAD_INGRESS;
  worker_age ← heartbeat_age_ms (Some (app_heartbeat a)) HEARTBEAT_THREAD_WORKER;
  (if stale_limit (app_cfg a) <? ingress_age
   then log_warn ("ingress heartbeat stale: age_ms=" +:+ dec ingress_age) else mret tt);;
  (if stale_limit (app_cfg a) <? worker_age
   then log_warn ("worker heartbeat stale: age_ms=" +:+ dec worker_age) else mret tt);;
  '(_, s, m) ← mqtt_session_replay_pending (Some (app_mqtt a)) (app_storage a) (Some (app_metrics a));
  let a := with_metrics (with_mqtt a (default (app_mqtt a) s)) (default (app_metrics a) m) in
  '(_, s) ← mqtt_session_ping (Some (app_mqtt a));
  let a := with_mqtt a (default (app_mqtt a) s) in
  now ← edgeflow_now_ms;
  count ← storage_pending_telemetry_count (app_storage a);
  '(_, s) ← mqtt_session_publish_heartbeat (Some (app_mqtt a))
              (Some (heartbeat_payload (app_cfg a) now (u32 count)));
  let a := with_mqtt a (default (app_mqtt a) s) in
  a ← update_heartbeat_metrics a;
  metrics_write_file (Some (cfg_metrics_path (app_cfg a))) (Some (app_metrics a));;
  mret a.

Definition monitor_on_timer (a : gateway_app_t) : io gateway_app_t :=
  running ← load_running;
  if (running : bool) then monitor_round a else mret a.

(** The fallback without a timer. *)
Fixpoint monitor_fallback (fuel : nat) (a : gateway_app_t) : io gateway_app_t :=
  match fuel with
  | O => out_of_fuel
  | S fuel' =>
      running ← load_running;
      if (running : bool) then
        a ← monitor_on_timer a;
        edgeflow_sleep_ms (cfg_watchdog_interval_ms (app_cfg a));;
        monitor_fallback fuel' a
      else mret a
  end.

Fixpoint monitor_loop (fuel : nat) (r : option (reactor_t gateway_app_t)) (a : gateway_app_t)
    : io gateway_app_t :=
  match fuel with
  | O => out_of_fuel
  | S fuel' =>
      running ← load_running;
      if (running : bool) then
        '(rc, a) ← reactor_run_once r a;
        if negb (rc =? 0) then mret a else monitor_loop fuel' r a
      else mret a
  end.

Definition monitor_main (a : gateway_app_t) : io gateway_app_t :=
  '(rc, out) ← reactor_init (Some None);
  if negb (rc =? 0) then
    log_warn "reactor init failed, monitor thread fallback sleep loop";;
    with_fuel (λ fuel, monitor_fallback fuel a)
  else
    let reactor := default None out in
    '(rc, reactor) ← reactor_add_timer_ms reactor (cfg_watchdog_interval_ms (app_cfg a))
                       (Some monitor_on_timer);
    if negb (rc =? 0) then
      log_warn "reactor timer setup failed";;
      reactor_destroy reactor;;
      with_fuel (λ fuel, monitor_fallback fuel a)
    else
      a ← with_fuel (λ fuel, monitor_loop fuel reactor a);
      let reactor := reactor_stop reactor in
      reactor_destroy reactor;;
      mret a.

(** ** Life cycle *)

(** The object after [memset]. *)
Definition app_zero : gateway_app_t :=
  mk_app config_zero (mk_registry []) (mk_ring None 0 0 0 0)
    (mk_engine SYSTEM_STATE_INIT d0 d0 d0 0) (mk_scheduler [] 0)
    (mk_metrics 0 0 0 0 0 0 0 0 0 0 0) None (mk_session config_zero 0 false) [0; 0; 0].

Definition gateway_app_init (app : option gateway_app_t) (cfg : option gateway_config_t)
    : io (Z * option gateway_app_t) :=
  match app, cfg with
  | Some _, Some c =>
      let a := app_zero in
      let a := mk_app c (app_registry a) (app_ring a)
                 (default (app_state_engine a) (state_engine_init (Some (app_state_engine a))))
                 (default (app_command_scheduler a) (command_scheduler_init (Some (app_command_scheduler a))))
                 (default (app_metrics a) (metrics_init (Some (app_metrics a))))
                 None (app_mqtt a) (app_heartbeat a) in
      h ← heartbeat_registry_init (Some (app_heartbeat a));
      let a := with_hb a (default (app_heartbeat a) h) in
      let a := with_mqtt a (default (app_mqtt a) (mqtt_session_init (Some (app_mqtt a)) (Some c))) in
      '(rc, st) ← storage_open (Some None) (Some c);
      if negb (rc =? 0) then log_error "storage_open failed";; mret (-1, Some a)
      else
        let a := with_storage a (default None st) in
        let reg := adapter_registry_init (Some (app_registry a)) in
        let modbus := modbus_adapter_fill (Some null_adapter) in
        match adapter_registry_register reg modbus with
        | (ADAPTER_OK, reg) =>
            '(rc, reg) ← adapter_registry_init_all reg (Some c);
            (if negb (rc =? 0) then log_warn "adapter init reported failures" else mret tt);;
            let a := with_registry a (default (mk_registry []) reg) in
            got ← ask env_malloc;
            match spsc_ring_init got (Some (app_ring a)) (cfg_queue_size c) with
            | (0, r) =>
                let a := with_ring a (default (app_ring a) r) in
                watchdog_init (cfg_watchdog_interval_ms c);;
                mret (0, Some a)
            | (_, r) =>
                let a := with_ring a (default (app_ring a) r) in
                adapter_registry_shutdown_all (Some (app_registry a));;
                storage_close (app_storage a);;
                mret (-1, Some (with_storage a None))
            end
        | (_, reg) =>
            storage_close (app_storage a);;
            mret (-1, Some (with_storage (with_registry a (default (mk_registry []) reg)) None))
        end
  | _, _ => mret (-1, app)
  end.

Definition store_running (b : bool) : io () := emit (EvStore b).
Definition pthread_create (name : string) : io bool := call env_pthread_create (EvThread name).
Definition pthread_join (name : string) : io () := emit (EvJoin name).

(** The threads that were started are joined when a later one fails. *)
Definition gateway_app_run (app : option gateway_app_t) : io Z :=
  match app with
  | None => mret (-1)
  | Some a =>
      store_running true;;
      i ← pthread_create "ingress";
      if negb i then store_running false;; mret (-1)
      else
        w ← pthread_create "worker";
        if negb w then store_running false;; pthread_join "ingress";; mret (-1)
        else
          m ← pthread_create "monitor";
          if negb m then
            store_running false;; pthread_join "ingress";; pthread_join "worker";; mret (-1)
          else
            watchdog_notify_ready;;
            log_info ("edgeflow running (advanced): device_id=" +:+ cfg_device_id (app_cfg a) +:+
                      " simulate=" +:+ bool_text (cfg_simulate (app_cfg a)) +:+ " sqlite=" +:+
                      (if cfg_use_sqlite (app_cfg a) then cfg_sqlite_path (app_cfg a) else "disabled"));;
            mret 0
  end.

Definition gateway_app_stop (app : option gateway_app_t) : io (option gateway_app_t) :=
  match app with
  | None => mret None
  | Some a =>
      store_running false;;
      pthread_join "ingress";; pthread_join "worker";; pthread_join "monitor";;
      s ← mqtt_session_shutdown (Some (app_mqtt a));
      watchdog_shutdown;;
      log_info "edgeflow stopped";;
      mret (Some (with_mqtt a (default (app_mqtt a) s)))
  end.

Definition gateway_app_destroy (app : option gateway_app_t) : io (option gateway_app_t) :=
  match app with
  | None => mret None
  | Some a =>
      adapter_registry_shutdown_all (Some (app_registry a));;
      let a := with_ring a (default (app_ring a) (spsc_ring_destroy (Some (app_ring a)))) in
      match app_storage a with
      | None => mret (Some a)
      | Some _ => storage_close (app_storage a);; mret (Some (with_storage a None))
      end
  end.

End app.

(** The object before the fallible steps of the initialisation. *)
Definition app_ready (c : gateway_config_t) (now : Z) : gateway_app_t :=
  mk_app c (mk_registry []) (mk_ring None 0 0 0 0) (mk_engine SYSTEM_STATE_INIT (d_of_Z 80) d0 d0 1)
    (mk_scheduler [] 1) (mk_metrics 0 0 0 0 0 0 0 0 0 0 0) None (mk_session c (-1) false) [now; now; now].

(** The one adapter the gateway registers. *)
Definition modbus_slot `{Env} : device_adapter_t :=
  default null_adapter (modbus_adapter_fill (Some null_adapter)).
