(* ===== verification/AppInv.v ===== *)
(** * The runtime: invariants of the threads

    The worker's quality rule against the engine, the accounting of the ingress
    thread, the worker's effect on the outbox, and the invariant of the
    application object over every interleaving of the bodies of the three
    threads ([src/src/runtime/app.c], defined in [App.v]). *)

From S2P Require Export App.

#[local] Open Scope Z_scope.

(** ** The quality rule and the engine *)

(** The telemetries as the worker hands them to the engine. *)
Definition ruled (cfg : gateway_config_t) (ts : list (telemetry_t * Z * Z)) : list (telemetry_t * Z * Z) :=
  (λ '(t, id, now), (apply_quality_rules cfg t, id, now)) <$> ts.

(** The last temperature is not above the limit and no fault is recorded. *)
Definition cool (c : gateway_config_t) (e : state_engine_t) : Prop :=
  dlt (cfg_temp_high c) (se_max_cell_temp_c e) = false ∧ se_state e ≠ SYSTEM_STATE_FAULT.

Lemma ruled_observe c e t :
  dlt (cfg_temp_high c) (se_max_cell_temp_c e) = false →
  tel_quality (apply_quality_rules c t) = TELEMETRY_QUALITY_GOOD →
  dlt (cfg_temp_high c) (se_max_cell_temp_c (observe e (apply_quality_rules c t))) = false.
Proof.
  intros He. unfold apply_quality_rules. case_bool_decide as Hp; simpl.
  - destruct (dlt _ (tel_value t)) eqn:Ht; simpl; [done|]. intros _.
    unfold observe, update_snapshot. by repeat case_decide.
  - intros _. unfold observe, update_snapshot. by repeat case_decide.
Qed.

Lemma ruled_step c e t o e' :
  cool c e → engine_step c e (apply_quality_rules c t) o e' →
  cool c e' ∧ ∀ id, o ≠ RaiseAlarm id "BMS_TEMP_HIGH".
Proof.
  intros [Hc Hs] Hstep. unfold cool. inversion Hstep as [|? Hhot|? ?|? ? ?|]; subst; try by split_and!; [done..|intros ? [=]].
  - by rewrite ruled_observe in Hhot.
  - split; [|by intros ? [=]]. simpl. rewrite observe_state. by split.
Qed.

Lemma ruled_feed c ts e :
  cool c e →
  let '(alarms, e') := engine_feed c e (ruled c ts) in
  Forall (λ a, al_code a ≠ "BMS_TEMP_HIGH"%string) alarms ∧ se_state e' ≠ SYSTEM_STATE_FAULT.
Proof.
  revert e. induction ts as [|[[t id] now] ts IH]; intros e He.
  { split; [by constructor|apply He]. }
  change (ruled c ((t, id, now) :: ts)) with ((apply_quality_rules c t, id, now) :: ruled c ts).
  cbn [engine_feed].
  destruct (engine_refines_step e c (apply_quality_rules c t) alarm_zero command_zero id now)
    as (o & e' & Hstep & ->).
  apply ruled_step in Hstep as [He' Ho]; [|done].
  specialize (IH e' He').
  destruct o as [|aid code|kw]; unfold outcome_objects;
    change (default e (Some e')) with e';
    destruct (engine_feed c e' (ruled c ts)) as [l e''];
    cbn [al_code]; try (by repeat case_decide).
  case_decide; [done|]. destruct IH as [IHl IHe]. split; [|done]. constructor; [|done].
  cbn [al_code]. intros ->. by apply (Ho aid).
Qed.

(** C33: in the worker the over-temperature protection is dead: from the initial
    engine, whatever telemetries arrive and however hot they are, the rule that
    marks an over-temperature reading bad before the engine sees it keeps the
    engine from ever raising BMS_TEMP_HIGH or entering the fault state (for a
    limit that is not negative). *)
Theorem over_temperature_never_alarms c ts e :
  dlt (cfg_temp_high c) d0 = false →
  state_engine_init (Some (app_state_engine app_zero)) = Some e →
  let '(alarms, e') := engine_feed c e (ruled c ts) in
  Forall (λ a, al_code a ≠ "BMS_TEMP_HIGH"%string) alarms ∧ se_state e' ≠ SYSTEM_STATE_FAULT.
Proof. intros Hc [= <-]. by apply ruled_feed. Qed.

(** ** Ingress, counted *)

Lemma u64_add_mod a b : u64 (u64 a + b) = u64 (a + b).
Proof. unfold u64. by rewrite Zplus_mod_idemp_l. Qed.

Lemma u32_add_mod a b : u32 (u32 a + b) = u32 (a + b).
Proof. unfold u32. by rewrite Zplus_mod_idemp_l. Qed.

Lemma push_one a p pts :
  ring_wf (app_ring a) →
  ∃ a1, push_points a (p :: pts) = push_points a1 pts ∧ ring_wf (app_ring a1) ∧
    capacity (app_ring a1) = capacity (app_ring a) ∧
    if decide (length (contents (app_ring a)) = capacity (app_ring a))
    then contents (app_ring a1) = contents (app_ring a) ∧ app_metrics a1 = app_metrics a ∧
         dropped (app_ring a1) = u32 (dropped (app_ring a) + 1)
    else contents (app_ring a1) = contents (app_ring a) ++ [p] ∧
         app_metrics a1 = add_ingress (app_metrics a) ∧ dropped (app_ring a1) = dropped (app_ring a).
Proof.
  intros Hw. cbn [push_points]. unfold spsc_ring_push, on_ptr. pose proof (ring_push_spec _ p Hw) as Hp.
  destruct (ring_push (app_ring a) p) as [ok r]. destruct Hp as (Hwr & Hsz & Hp).
  eexists. split; [done|].
  case_decide; destruct Hp as (-> & Hc & Hd); cbn [app_ring app_metrics with_ring with_metrics default from_option id];
    (split; [done|]; split; [by apply capacity_size|done]).
Qed.

(** The places left in the ring. *)
Definition ring_room (a : gateway_app_t) : nat :=
  capacity (app_ring a) - length (contents (app_ring a)).

Lemma push_points_room a pts :
  ring_wf (app_ring a) →
  let a' := push_points a pts in
  let room := ring_room a in
  ring_wf (app_ring a') ∧ capacity (app_ring a') = capacity (app_ring a) ∧
  contents (app_ring a') = contents (app_ring a) ++ take room pts ∧
  u64 (ingress_points (app_metrics a')) =
    u64 (ingress_points (app_metrics a) + Z.of_nat (length (take room pts))) ∧
  dropped (app_ring a') = u32 (dropped (app_ring a) + Z.of_nat (length (drop room pts))).
Proof.
  revert a. induction pts as [|p pts IH]; intros a Hw; cbv zeta.
  { cbn [push_points]. rewrite take_nil, drop_nil, app_nil_r. simpl. rewrite !Z.add_0_r. split_and!; try done.
    symmetry. apply u32_small. by destruct Hw. }
  destruct (push_one a p pts Hw) as (a1 & Heq & Hw1 & Hcap & H1). rewrite Heq.
  destruct (IH a1 Hw1) as (Hw' & Hcap' & Hc & Hi & Hd). clear IH.
  pose proof (contents_bound _ Hw) as Hle. rewrite Hcap', Hcap, Hc, Hi, Hd. unfold ring_room. rewrite Hcap. clear Hc Hi Hd Hcap' Heq.
  split; [done|]. split; [done|]. case_decide as Hfull; destruct H1 as (Hc1 & Hm1 & Hd1).
  - rewrite Hc1, Hm1, Hd1, Hfull, Nat.sub_diag. cbn [take drop length].
    rewrite take_0, drop_0, u32_add_mod. split_and!; try done. f_equal. lia.
  - rewrite Hc1, Hm1, Hd1, length_app. simpl length.
    destruct (capacity (app_ring a) - length (contents (app_ring a)))%nat as [|k] eqn:Ek; [lia|].
    replace (capacity (app_ring a) - (length (contents (app_ring a)) + 1))%nat with k by lia.
    cbn [take drop length ingress_points add_ingress]. rewrite <- app_assoc, u64_add_mod.
    split_and!; try done. f_equal. lia.
Qed.

(** C32: the ingress thread loses points only by overflow, and counts every one:
    of the points of a poll the ring takes, in order, as many as it has room
    for; the ingress counter grows by the number taken and the drop counter by
    the number lost, each modulo its width. *)
Theorem push_points_accounting a pts :
  ring_wf (app_ring a) →
  let a' := push_points a pts in
  let room := ring_room a in
  ring_wf (app_ring a') ∧ capacity (app_ring a') = capacity (app_ring a) ∧
  contents (app_ring a') = contents (app_ring a) ++ take room pts ∧
  u64 (ingress_points (app_metrics a')) =
    u64 (ingress_points (app_metrics a) + Z.of_nat (length (take room pts))) ∧
  dropped (app_ring a') = u32 (dropped (app_ring a) + Z.of_nat (length (drop room pts))).
Proof. apply push_points_room. Qed.

(** ** The worker and the outbox *)

(** An event that leaves the table of points alone. *)
Definition outbox_quiet (e : event) : Prop := ∀ db, apply_event e db = db.

Lemma quiet_no_step e : is_step e = false → outbox_quiet e.
Proof. intros H db. by destruct e. Qed.

Lemma quiet_step sql args ok :
  sql ≠ sql_insert_telemetry → sql ≠ sql_mark_uploaded → outbox_quiet (EvStep sql args ok).
Proof. intros H1 H2 db. simpl. by rewrite !decide_False by done; destruct ok. Qed.

Lemma quiet_db_of db0 evs tr : Forall outbox_quiet evs → db_of db0 (evs ++ tr) = db_of db0 tr.
Proof. induction 1 as [|e evs He _ IH]; simpl; [done|]. by rewrite IH, He. Qed.

Lemma net_quiet evs : Forall (λ e, is_net e = true) evs → Forall outbox_quiet evs.
Proof. intros H. eapply Forall_impl; [exact H|]. intros [] ?; by apply quiet_no_step. Qed.

Lemma insert_alarm_quiet args ok : outbox_quiet (EvStep sql_insert_alarm args ok).
Proof. by apply quiet_step. Qed.

Lemma insert_command_quiet args ok : outbox_quiet (EvStep sql_insert_command args ok).
Proof. by apply quiet_step. Qed.

#[export] Hint Resolve insert_alarm_quiet insert_command_quiet : edge.
#[export] Hint Extern 3 (outbox_quiet _) => apply quiet_no_step; reflexivity : edge.

(** Marking the row that was just inserted. *)
Lemma mark_new_row (db : list db_row) cols :
  mark_row (next_id db) <$> (db ++ [mk_db_row (next_id db) cols false]) =
    db ++ [mk_db_row (next_id db) cols true].
Proof.
  rewrite fmap_app. f_equal; [|by simpl; unfold mark_row; rewrite decide_True].
  etrans; [apply (list_fmap_ext _ id)|apply list_fmap_id]. intros i r Hr.
  apply list_elem_of_lookup_2, next_id_gt in Hr. unfold mark_row. rewrite decide_False by lia. done.
Qed.

Section worker.
Context {env : Env} {db0 : list db_row} {spec : SqliteSpec env db0}.

(** The writes of the adapter the commands go to leave the points alone. *)
Definition quiet_adapter (a : gateway_app_t) : Prop :=
  ∀ d f self cmd, find_modbus_adapter a = Some d → ad_write_command d = Some f →
    Only outbox_quiet (f self cmd).

Lemma only_quiet_db {A} (m : io A) n w x w' :
  Only outbox_quiet m → m n w = Some (x, w') → db_of db0 (w_trace w') = db_of db0 (w_trace w).
Proof. intros Hm H. apply Hm in H as (evs & -> & Q). by apply quiet_db_of. Qed.

Lemma warn_quiet (b : bool) msg : Only outbox_quiet (if b then log_warn msg else mret tt).
Proof. solve_only; auto with edge. Qed.

Lemma append_alarm_quiet st alarm : Only outbox_quiet (storage_append_alarm st alarm).
Proof. unfold storage_append_alarm, append_jsonl_line, run_statement. solve_only; auto with edge. Qed.

Lemma append_command_quiet st cmd : Only outbox_quiet (storage_append_command st cmd).
Proof. unfold storage_append_command, append_jsonl_line, run_statement. solve_only; auto with edge. Qed.

Lemma send_commands_quiet d st l k :
  (∀ f self cmd, ad_write_command d = Some f → Only outbox_quiet (f self cmd)) →
  Only outbox_quiet (send_commands d st l k).
Proof.
  intros Hf. revert k. induction l as [|c l IH]; intros k; simpl; [apply _|].
  apply only_bind; [|intros _; apply IH]. unfold send_command. apply only_bind.
  { case_match; [|apply _]. apply only_bind; [by apply Hf|intros; apply _]. }
  intros failed. apply only_bind; [destruct st; [apply append_command_quiet|apply _]|].
  solve_only; auto with edge.
Qed.

Lemma handle_outcome_run a al cmd n w a' w' :
  quiet_adapter a → handle_outcome a al cmd n w = Some (a', w') →
  db_of db0 (w_trace w') = db_of db0 (w_trace w) ∧ ∃ s, a' = with_scheduler a s.
Proof.
  intros Hq H. unfold handle_outcome in H. apply bind_run in H as (u & w1 & H1 & H).
  assert (db_of db0 (w_trace w1) = db_of db0 (w_trace w)) as E1.
  { assert (Only outbox_quiet (if negb (al_alarm_id al =? 0) then
      storage_append_alarm (app_storage a) (Some al);;
      log_warn ("alarm: " +:+ al_code al +:+ " " +:+ al_message al) else mret tt)) as Ho.
    { destruct (negb _); [|apply _]. apply only_bind; [apply append_alarm_quiet|intros]. solve_only; auto with edge. }
    apply Ho in H1 as (evs & -> & Q). by apply quiet_db_of. }
  rewrite <- E1. clear E1 H1 w u. case_decide.
  { io_done H. split; [done|]. exists (app_command_scheduler a'). by destruct a'. }
  apply bind_run in H as ([[rc s] c'] & w2 & H2 & H).
  assert (db_of db0 (w_trace w2) = db_of db0 (w_trace w1)) as <-.
  { assert (Only outbox_quiet (command_scheduler_submit (Some (app_command_scheduler a)) (Some cmd))) as Ho.
    { unfold command_scheduler_submit. solve_only; auto with edge. }
    apply Ho in H2 as (evs & -> & Q). by apply quiet_db_of. }
  clear H2 w1. destruct (negb _); [io_done H|].
  destruct (find_modbus_adapter _) as [d|] eqn:Ed; [|io_done H].
  apply bind_run in H as ([k s'] & w3 & H3 & H). io_done H. split; [|by eexists].
  unfold command_scheduler_tick in H3. apply bind_run in H3 as (k' & w4 & H4 & H3). io_done H3.
  apply send_commands_quiet in H4 as (evs & -> & Q); [by apply quiet_db_of|].
  intros f self c. by apply (Hq d).
Qed.

(** The publication of the worker: the session stays consistent, the table
    is left alone. *)
Lemma publish_quiet s p n w rc res w' :
  session_ok s →
  mqtt_session_publish_telemetry (Some s) (Some p) n w = Some ((rc, res), w') →
  db_of db0 (w_trace w') = db_of db0 (w_trace w) ∧ session_ok (default s res).
Proof.
  intros Hok H. unfold mqtt_session_publish_telemetry in H. io_go H.
  apply bind_run in H as ([rc1 s1] & w1 & Hp & H).
  apply publish_locked_run in Hp as (evs & -> & Hn & Hok1 & _); [|done]. io_go H. io_done H.
  split; [|done]. cbn [w_trace].
  replace (EvUnlock :: evs ++ EvLock :: w_trace w) with ((EvUnlock :: evs ++ [EvLock]) ++ w_trace w)
    by (cbn [app]; by rewrite <- app_assoc).
  apply quiet_db_of. constructor; [by apply quiet_no_step|].
  apply Forall_app_2; [by apply net_quiet|]. by repeat constructor; apply quiet_no_step.
Qed.

(** The worker's step on the outbox: the point, after the quality rule, is
    either refused by the database, which then stays as it was, or becomes one
    new row, the last; whatever alarm or command it triggers, no other row
    changes; the row is marked uploaded only if the publication succeeded, so a
    point that could not be sent stays pending for the replay; the counters
    follow, the ring and the database handle are untouched, and the session
    stays consistent. *)
Theorem process_point_outbox a c p n w a' w' :
  app_storage a = Some c → no_db c = false → session_ok (app_mqtt a) → quiet_adapter a →
  process_point a p n w = Some (a', w') →
  let p' := apply_quality_rules (app_cfg a) p in
  let db := db_of db0 (w_trace w) in
  app_storage a' = Some c ∧ app_ring a' = app_ring a ∧ session_ok (app_mqtt a') ∧
  ∃ sent, app_metrics a' = add_published sent (add_processed (app_metrics a)) ∧
    (db_of db0 (w_trace w') = db ∨
     ∃ up, (up = true → sent = true) ∧
       db_of db0 (w_trace w') = db ++ [mk_db_row (next_id db) (telemetry_binding p') up]).
Proof.
  intros Hst Hdb Hok Hq H. cbv zeta. unfold process_point in H.
  set (p' := apply_quality_rules (app_cfg a) p) in *. clearbody p'. clear p.
  rewrite Hst in H. apply bind_run in H as ([rc row] & w1 & H1 & H).
  apply (append_run (db0 := db0)) in H1 as [_ H1]; [|done]. cbv zeta in H1.
  apply bind_run in H as (u & w2 & H2 & H).
  apply only_quiet_db in H2; [|apply warn_quiet]. rewrite <- H2 in H1. clear H2 u w1.
  destruct (state_engine_process_telemetry _ _ _ _ _ _ _) as [[[r e] al] cmd].
  set (a1 := with_engine _ _) in H. apply bind_run in H as (a2 & w3 & H3 & H).
  assert (db_of db0 (w_trace w3) = db_of db0 (w_trace w2) ∧ ∃ s, a2 = with_scheduler a1 s)
    as (E3 & s2 & ->).
  { destruct r; [by eapply handle_outcome_run in H3|]. io_done H3. }
  rewrite <- E3 in H1. clear E3 H3 w2. apply bind_run in H as ([rc2 s3] & w4 & H4 & H).
  apply publish_quiet in H4 as [E4 Hok4]; [|done]. rewrite <- E4 in H1. clear E4 w3.
  apply bind_run in H as (u & w5 & H5 & H). io_done H.
  cbn [app_storage app_ring app_mqtt app_metrics with_metrics with_mqtt with_scheduler] in H5 |- *.
  split_and!; [done|done|done|]. exists (rc2 =? 0). split; [done|].
  subst a1. cbn [app_storage with_engine with_metrics] in H5. rewrite Hst in H5.
  destruct ((rc2 =? 0) && (0 <? default 0 row)) eqn:Em.
  - apply andb_true_iff in Em as [-> Hrow]. apply bind_run in H5 as (rc5 & w6 & H6 & H5). io_done H5.
    apply (mark_run (db0 := db0)) in H6. cbv zeta in H6.
    destruct H1 as [(_ & -> & _ & E1)|(_ & -> & _)]; [|done]. right.
    cbn [default fmap option_fmap option_map from_option id] in H6. rewrite E1 in H6.
    destruct H6 as [(_ & _ & _ & ->)|(_ & ->)]; [exists true|exists false]; (split; [done|]); [|done].
    apply mark_new_row.
  - io_done H5. destruct H1 as [(_ & _ & _ & ->)|(_ & _ & ->)]; [|by left]. right. by exists false.
Qed.

End worker.

(** ** The whole application *)

Section system.
Context {env : Env}.

(** The slot of the Modbus adapter, whatever [modbus_init] made of it. *)
Record modbus_device (d : device_adapter_t) : Prop := {
  md_poll : ad_poll d = Some modbus_poll;
  md_write : ad_write_command d = Some modbus_write_command;
  md_shutdown : ad_shutdown d = Some modbus_shutdown;
  md_source : is_u16 (ad_source_id (ad_self d));
  md_protocol : ad_protocol (ad_self d) = DEVICE_PROTOCOL_MODBUS_TCP ∨
                ad_protocol (ad_self d) = DEVICE_PROTOCOL_MODBUS_RTU
}.

(** The registry holds this adapter alone. *)
Definition modbus_only (r : adapter_registry_t) : Prop := ∃ d, r = mk_registry [d] ∧ modbus_device d.

Lemma modbus_only_ok r : modbus_only r → registry_ok sensor_point r.
Proof.
  intros (d & -> & []). split; [unfold reg_count, ADAPTER_REGISTRY_MAX; simpl; lia|].
  apply Forall_cons; split; [|by constructor]. split; [done|]. exists modbus_poll. split; [done|apply _].
Qed.

Lemma modbus_only_find a :
  modbus_only (app_registry a) →
  ∃ d, app_registry a = mk_registry [d] ∧ modbus_device d ∧ find_modbus_adapter a = Some d.
Proof.
  intros (d & E & H). exists d. split_and!; [done|done|]. unfold find_modbus_adapter. rewrite E.
  destruct (md_protocol d H) as [Ep|Ep]; simpl; by rewrite Ep.
Qed.

(** What holds of the application object between two bodies of its threads:
    [c] is the configuration it was started with, [st] its database. *)
Record app_inv (c : gateway_config_t) (st : storage_ctx_t) (a : gateway_app_t) : Prop := {
  ai_cfg : app_cfg a = c;
  ai_storage : app_storage a = Some st;
  ai_ring : ring_wf (app_ring a) ∧ Ring.size (app_ring a) = cfg_queue_size c;
  ai_session : session_ok (app_mqtt a);
  ai_registry : modbus_only (app_registry a);
  ai_queue : sc_queue (app_command_scheduler a) = [];
  ai_engine : dlt (cfg_temp_high c) d0 = false → cool c (app_state_engine a);
  ai_heartbeat : length (app_heartbeat a) = 3%nat
}.

(** The calls of the threads' loops outside the bodies: the flag, the reactor's
    descriptors and timer, the sleep of the monitor without a timer, the log. *)
Definition loop_event (e : event) : bool :=
  match e with
  | EvRunning _ | EvEpollCreate _ | EvTimerCreate _ | EvEpollAdd _ _ _ | EvTimerSet _ _ _ _
  | EvEpollWait _ _ | EvRecv _ _ _ | EvClose _ | EvSleep _ _ _ | EvLog _ _ _ => true
  | _ => false
  end.

(** What the worker does after its loop. *)
Definition worker_exit (a : gateway_app_t) : io gateway_app_t :=
  a ← update_heartbeat_metrics a;
  metrics_write_file (Some (cfg_metrics_path (app_cfg a))) (Some (app_metrics a));;
  mret a.

(** One body of one of the three threads, or one call of its loop. *)
Inductive app_step : gateway_app_t * world → gateway_app_t * world → Prop :=
  | step_ingress n a w a' w' :
      ingress_body a n w = Some (a', w') → app_step (a, w) (a', w')
  | step_worker n a w last a' last' w' :
      worker_body a last n w = Some ((a', last'), w') → app_step (a, w) (a', w')
  | step_monitor n a w a' w' :
      monitor_on_timer a n w = Some (a', w') → app_step (a, w) (a', w')
  | step_exit n a w a' w' :
      worker_exit a n w = Some (a', w') → app_step (a, w) (a', w')
  | step_loop a w e :
      loop_event e = true → app_step (a, w) (a, mk_world (e :: w_trace w) (w_glob w)).

Lemma touch_run a t n w a' w' :
  touch a t n w = Some (a', w') →
  ∃ hb, a' = with_hb a hb ∧ (length (app_heartbeat a) = 3%nat → length hb = 3%nat).
Proof.
  unfold touch. intros H. apply bind_run in H as (h & w1 & H1 & H). io_done H.
  eexists. split; [done|]. unfold heartbeat_touch in H1. case_decide; [io_done H1|].
  apply bind_run in H1 as (now & w2 & _ & H1). io_done H1. intros Hl. 
  etrans; [apply length_insert|done].
Qed.

Lemma update_metrics_run a n w a' w' :
  update_heartbeat_metrics a n w = Some (a', w') → ∃ m, a' = with_metrics a m.
Proof.
  unfold update_heartbeat_metrics. intros H. apply bind_run in H as (i & w1 & _ & H).
  apply bind_run in H as (k & w2 & _ & H). apply bind_run in H as (m & w3 & _ & H). io_done H.
Qed.

Lemma inv_metrics c st a m : app_inv c st a → app_inv c st (with_metrics a m).
Proof. by intros []. Qed.

Lemma inv_hb c st a hb :
  app_inv c st a → (length (app_heartbeat a) = 3%nat → length hb = 3%nat) → app_inv c st (with_hb a hb).
Proof. intros [] Hl. split; auto. Qed.

Lemma inv_mqtt c st a s : app_inv c st a → session_ok s → app_inv c st (with_mqtt a s).
Proof. by intros []. Qed.

Lemma inv_ring c st a r :
  app_inv c st a → ring_wf r → Ring.size r = Ring.size (app_ring a) → app_inv c st (with_ring a r).
Proof. intros [] ? Hs. split; auto. simpl. rewrite Hs. by destruct ai_ring0. Qed.

Lemma inv_touch c st a t n w a' w' : app_inv c st a → touch a t n w = Some (a', w') → app_inv c st a'.
Proof. intros Hi H. apply touch_run in H as (hb & -> & Hl). by apply inv_hb. Qed.

Lemma inv_push c st a pts : app_inv c st a → app_inv c st (push_points a pts).
Proof.
  revert a. induction pts as [|p pts IH]; intros a Hi; [done|]. cbn [push_points].
  unfold spsc_ring_push, on_ptr. pose proof (ring_push_spec (app_ring a) p) as Hp.
  destruct (ring_push (app_ring a) p) as [ok r].
  destruct Hp as (Hw & Hs & _); [by destruct Hi as [_ _ []]|].
  apply IH. destruct ok; [apply inv_metrics|]; by apply inv_ring.
Qed.

Lemma inv_ingress c st a n w a' w' :
  app_inv c st a → ingress_body a n w = Some (a', w') → app_inv c st a'.
Proof.
  intros Hi H. unfold ingress_body in H. apply bind_run in H as ([k pts] & w1 & _ & H).
  apply bind_run in H as (a2 & w2 & H2 & H). apply bind_run in H as (u & w3 & _ & H). io_done H.
  apply inv_metrics. eapply inv_touch; [|exact H2]. destruct (0 <? k); [by apply inv_push|done].
Qed.

Lemma quiet_modbus a : modbus_only (app_registry a) → quiet_adapter a.
Proof.
  intros (d & _ & H & Hd)%modbus_only_find d' f self cmd Hd' Hf. rewrite Hd in Hd'. simplify_eq.
  rewrite (md_write _ H) in Hf. injection Hf as <-. unfold modbus_write_command. solve_only; auto with edge.
Qed.
(** Handling an outcome leaves the queue as empty as it was. *)
Lemma inv_outcome c st a al cmd n w a' w' :
  app_inv c st a → handle_outcome a al cmd n w = Some (a', w') → app_inv c st a'.
Proof.
  intros Hi H. pose proof Hi as []. unfold handle_outcome in H.
  apply bind_run in H as (u & w1 & _ & H). case_decide; [by io_done H|].
  apply bind_run in H as ([[rc s] c'] & w2 & H2 & H).
  unfold command_scheduler_submit in H2. rewrite ai_queue0 in H2. case_decide as Hfull; [by unfold COMMAND_QUEUE_MAX in Hfull; simpl in Hfull; lia|].
  destruct (if cmd_command_id cmd =? 0 then _ else _) as [c1 next]. io_done H2.
  cbn [Z.eqb negb] in H. change (find_modbus_adapter (with_scheduler a _)) with (find_modbus_adapter a) in H.
  destruct (modbus_only_find _ ai_registry0) as (d & _ & _ & Hd). rewrite Hd in H.
  apply bind_run in H as ([k s'] & w3 & H3 & H). io_done H.
  unfold command_scheduler_tick in H3. apply bind_run in H3 as (k' & w4 & H4 & H3). io_done H3.
  by split.
Qed.

Lemma inv_engine_step c st a p id ts r e al cmd :
  app_inv c st a →
  state_engine_process_telemetry (Some (app_state_engine a)) (Some c)
    (Some (apply_quality_rules c p)) (Some alarm_zero) (Some command_zero) id ts = (r, e, al, cmd) →
  app_inv c st (with_engine a (default (app_state_engine a) e)).
Proof.
  intros [] H.
  destruct (engine_refines_step (app_state_engine a) c (apply_quality_rules c p) alarm_zero command_zero id ts)
    as (o & e' & Hs & E). rewrite H in E. assert (e = Some e') as -> by (destruct o; by simplify_eq/=). split; try done.
  intros Hc. by apply ruled_step in Hs as [Hcool _]; [|apply ai_engine0].
Qed.

Lemma inv_process c st a p n w a' w' :
  app_inv c st a → process_point a p n w = Some (a', w') → app_inv c st a'.
Proof.
  intros Hi H. pose proof Hi as []. unfold process_point in H. rewrite ai_cfg0 in H.
  apply bind_run in H as ([rc row] & w1 & _ & H). apply bind_run in H as (u & w2 & _ & H).
  cbn [app_cfg app_state_engine with_metrics] in H. rewrite ai_cfg0 in H.
  destruct (state_engine_process_telemetry _ _ _ _ _ _ _) as [[[r e] al] cmd] eqn:Ee.
  apply (inv_engine_step c st (with_metrics a (add_processed (app_metrics a)))) in Ee; [|by apply inv_metrics].
  apply bind_run in H as (a2 & w3 & H3 & H).
  assert (app_inv c st a2) as Hi2 by (destruct r; [by eapply inv_outcome|by io_done H3]).
  apply bind_run in H as ([rc2 s3] & w4 & H4 & H). apply bind_run in H as (u' & w5 & _ & H). io_done H.
  apply inv_metrics, inv_mqtt; [done|]. pose proof (ai_session _ _ _ Hi2) as Hs.
  unfold mqtt_session_publish_telemetry in H4. by apply publish_op_run in H4 as (s1 & evs & -> & _ & [Hok _] & _).
Qed.

Lemma inv_worker c st a last n w a' last' w' :
  app_inv c st a → worker_body a last n w = Some ((a', last'), w') → app_inv c st a'.
Proof.
  intros Hi H. unfold worker_body in H. pose proof (ring_pop_spec (app_ring a)) as Hp.
  unfold spsc_ring_pop in H. cbn [on_ptr] in H. destruct (ring_pop (app_ring a)) as [res r].
  destruct Hp as (Hw & Hs & _); [by destruct Hi as [_ _ []]|]. destruct res as [x|].
  - apply bind_run in H as (a2 & w2 & H2 & H). apply inv_process with (c := c) (st := st) in H2; [|by apply inv_ring].
    unfold finish_round in H. apply bind_run in H as (a3 & w3 & H3 & H). eapply inv_touch in H3; [|exact H2].
    apply bind_run in H as (k & w4 & _ & H). apply bind_run in H as (now & w5 & _ & H).
    destruct (1000 <? _).
    + apply bind_run in H as (a4 & w6 & H6 & H). apply update_metrics_run in H6 as (m & ->).
      apply bind_run in H as (u & w7 & _ & H). apply bind_run in H as (l & w8 & _ & H). io_done H.
      by repeat apply inv_metrics.
    + io_done H. by repeat apply inv_metrics.
  - apply bind_run in H as (a2 & w2 & H2 & H). eapply inv_touch in H2; [|exact Hi].
    apply bind_run in H as (u & w3 & _ & H). by io_done H.
Qed.

Lemma inv_monitor c st a n w a' w' :
  app_inv c st a → monitor_on_timer a n w = Some (a', w') → app_inv c st a'.
Proof.
  intros Hi H. unfold monitor_on_timer in H. apply bind_run in H as (run & w0 & _ & H).
  destruct run; [|by io_done H]. unfold monitor_round in H.
  apply bind_run in H as (a1 & w1 & H1 & H). eapply inv_touch in H1; [|exact Hi]. clear Hi.
  do 5 (let u := fresh "u" in let w := fresh "w" in apply bind_run in H as (u & w & _ & H)).
  pose proof H1 as []. rewrite ai_storage0 in H.
  apply bind_run in H as ([[k s] m] & w7 & H7 & H).
  apply replay_run in H7 as (s1 & evs & _ & _ & _ & -> & _ & [Hok _] & _); [|done].
  apply bind_run in H as ([rc s2] & w8 & H8 & H).
  apply ping_run in H8 as (s3 & evs3 & -> & _ & [Hok3 _]); [|done].
  apply bind_run in H as (now & w9 & _ & H). apply bind_run in H as (cnt & w10 & _ & H).
  apply bind_run in H as ([rc4 s4] & w11 & H11 & H). unfold mqtt_session_publish_heartbeat in H11.
  apply publish_op_run in H11 as (s5 & evs5 & -> & _ & [Hok5 _] & _); [|done].
  apply bind_run in H as (a6 & w12 & H12 & H). apply update_metrics_run in H12 as (m6 & ->).
  apply bind_run in H as (v & w13 & _ & H). io_done H.
  apply inv_metrics, inv_mqtt; [|done]. apply inv_mqtt; [|done]. by apply inv_metrics, inv_mqtt.
Qed.

Lemma inv_exit c st a n w a' w' :
  app_inv c st a → worker_exit a n w = Some (a', w') → app_inv c st a'.
Proof.
  intros Hi H. unfold worker_exit in H. apply bind_run in H as (a1 & w1 & H1 & H).
  apply update_metrics_run in H1 as (m & ->). apply bind_run in H as (u & w2 & _ & H). io_done H.
  by apply inv_metrics.
Qed.

(** C10: the invariant of the whole application: however the bodies of the
    ingress, worker and monitor threads and the calls of their loops follow one
    another and whatever the network, the disk, the clock and the devices
    answer, the configuration and the database handle stay, the ring is well
    formed and keeps its size, the MQTT session is connected exactly when it
    holds a descriptor, the registry holds the Modbus adapter alone, no command
    waits in the scheduler between two bodies, and the engine never records a
    temperature above a limit that is not negative, nor a fault. *)
Theorem app_inv_reachable c st a w a' w' :
  app_inv c st a → rtc app_step (a, w) (a', w') → app_inv c st a'.
Proof.
  intros Hi H. remember (a, w) as x eqn:Ex. remember (a', w') as y eqn:Ey.
  revert a w Hi Ex. induction H as [x|x [a1 w1] y Hstep _ IH]; intros a w Hi Ex; subst; [by simplify_eq|].
  eapply IH; [done| |done]. inversion Hstep; subst; eauto using inv_ingress, inv_worker, inv_monitor, inv_exit.
Qed.

End system.

(** ** Concrete runs *)

(** The defaults with a queue of four cells. *)
Definition demo_app_config : gateway_config_t :=
  default gateway_config_defaults
    (gateway_config_override
       (Some (CJson cJSON_Object None d0 None [jnum "queue_size" (d_of_Z 4)])) gateway_config_defaults).

Definition demo_app_env : Env := sqlite_env demo_net [].

Definition demo_ring : spsc_ring_t := mk_ring (Some (replicate 4 telemetry_zero)) 4 0 0 0.

Lemma demo_ring_wf : ring_wf demo_ring.
Proof. split; simpl; [lia|by eexists|lia|lia|unfold is_u32; lia]. Qed.

Definition demo_app_storage : storage_ctx_t := mk_storage demo_app_config true.

Definition demo_app : gateway_app_t :=
  with_ring (with_registry (with_storage (app_ready demo_app_config 0) (Some demo_app_storage))
    (mk_registry [@modbus_slot demo_app_env])) demo_ring.

Lemma demo_app_inv : @app_inv demo_app_env demo_app_config demo_app_storage demo_app.
Proof.
  split; try done.
  - split; [exact demo_ring_wf|by vm_compute].
  - exists (@modbus_slot demo_app_env). split; [done|]. split; try done. by right.
Qed.

Lemma over_temperature_never_alarms_witness :
  let ts := (λ v, (demo_temp (d_of_Z v), 1, 0)) <$> [30; 56; 90; 300] in
  let '(alarms, e') := engine_feed gateway_config_defaults (mk_engine SYSTEM_STATE_INIT (d_of_Z 80) d0 d0 1)
                         (ruled gateway_config_defaults ts) in
  Forall (λ a, al_code a ≠ "BMS_TEMP_HIGH"%string) alarms ∧ se_state e' ≠ SYSTEM_STATE_FAULT.
Proof.
  exact (over_temperature_never_alarms gateway_config_defaults
    ((λ v, (demo_temp (d_of_Z v), 1, 0)) <$> [30; 56; 90; 300])
    (mk_engine SYSTEM_STATE_INIT (d_of_Z 80) d0 d0 1) ltac:(vm_compute; reflexivity) ltac:(reflexivity)).
Defined.

Lemma push_points_accounting_witness :
  let a' := push_points demo_app (replicate 5 demo_point) in
  let room := (capacity demo_ring - length (contents demo_ring))%nat in
  ring_wf (app_ring a') ∧ capacity (app_ring a') = capacity demo_ring ∧
  contents (app_ring a') = contents demo_ring ++ take room (replicate 5 demo_point) ∧
  u64 (ingress_points (app_metrics a')) = u64 (0 + Z.of_nat (length (take room (replicate 5 demo_point)))) ∧
  dropped (app_ring a') = u32 (0 + Z.of_nat (length (drop room (replicate 5 demo_point)))).
Proof. exact (push_points_accounting demo_app (replicate 5 demo_point) demo_ring_wf). Defined.

Lemma demo_app_quiet : quiet_adapter demo_app.
Proof. apply (@quiet_modbus demo_app_env), (ai_registry _ _ _ demo_app_inv). Qed.

#[export] Instance demo_app_sqlite : SqliteSpec demo_app_env [].
Proof. apply sqlite_env_spec. split; constructor. Qed.

Lemma process_point_outbox_witness :
  ∃ a' w', @process_point demo_app_env demo_app demo_point 20%nat world_init = Some (a', w') ∧
    app_storage a' = Some demo_app_storage ∧ app_ring a' = demo_ring ∧ session_ok (app_mqtt a') ∧
    ∃ sent, app_metrics a' = add_published sent (add_processed (app_metrics demo_app)) ∧
    (db_of [] (w_trace w') = [] ∨
     ∃ up, (up = true → sent = true) ∧
       db_of [] (w_trace w') =
         [] ++ [mk_db_row 1 (telemetry_binding (apply_quality_rules demo_app_config demo_point)) up]).
Proof.
  destruct (returns_run (@process_point demo_app_env demo_app demo_point) 20 world_init
    ltac:(vm_compute; reflexivity)) as (a' & w' & H).
  exists a', w'. split; [exact H|].
  exact (@process_point_outbox demo_app_env [] _ demo_app demo_app_storage demo_point 20 world_init a' w'
    eq_refl ltac:(vm_compute; reflexivity) ltac:(vm_compute; reflexivity) demo_app_quiet H).
Defined.

(** The worker's body on a ring with one point, and the ingress thread's. *)
Lemma app_inv_reachable_witness :
  ∃ a' w', @ingress_body demo_app_env demo_app 20%nat (mk_world [] demo_glob) = Some (a', w') ∧
    @app_inv demo_app_env demo_app_config demo_app_storage a'.
Proof.
  destruct (returns_run (@ingress_body demo_app_env demo_app) 20 (mk_world [] demo_glob)
    ltac:(vm_compute; reflexivity)) as (a' & w' & H).
  exists a', w'. split; [exact H|].
  exact (@app_inv_reachable demo_app_env demo_app_config demo_app_storage demo_app (mk_world [] demo_glob)
    a' w' demo_app_inv (rtc_once _ _ (@step_ingress demo_app_env 20 demo_app _ a' w' H))).
Defined.
