(* ===== verification/Lifecycle.v ===== *)
(** * The runtime: initialisation, start and stop

    What [gateway_app_init], [gateway_app_run], [gateway_app_stop] and
    [gateway_app_destroy] ([src/src/runtime/app.c]) do to the database
    handles, to the threads and to the log file. *)

From S2P Require Export AppInv.

#[local] Open Scope Z_scope.

(** ** What is counted *)

(** The sum of a count over a trace. *)
Definition tally (f : event → Z) (evs : trace) : Z := foldr (λ e k, f e + k) 0 evs.

Lemma tally_app f e1 e2 : tally f (e1 ++ e2) = tally f e1 + tally f e2.
Proof. unfold tally. induction e1 as [|e e1 IH]; simpl; lia. Qed.

Lemma tally_zero f evs : Forall (λ e, f e = 0) evs → tally f evs = 0.
Proof. unfold tally. induction 1 as [|e evs He _ IH]; simpl; lia. Qed.

(** Database handles opened, less those closed: a failed open leaves a handle
    too, where there was memory for one. *)
Definition db_delta (e : event) : Z :=
  match e with EvSqlOpen _ OpenOk | EvSqlOpen _ (OpenErr true) => 1 | EvSqlClose => -1 | _ => 0 end.

Definition db_handles : trace → Z := tally db_delta.

(** The handles of the failed opens. *)
Definition db_leak (e : event) : Z := match e with EvSqlOpen _ (OpenErr true) => 1 | _ => 0 end.

Definition db_leaks : trace → Z := tally db_leak.

(** Log files opened, less those closed. *)
Definition log_delta (e : event) : Z := match e with EvLogOpen _ true => 1 | EvLogClose => -1 | _ => 0 end.

Definition log_files : trace → Z := tally log_delta.

Lemma db_handles_app e1 e2 : db_handles (e1 ++ e2) = db_handles e1 + db_handles e2.
Proof. apply tally_app. Qed.

Lemma db_leaks_app e1 e2 : db_leaks (e1 ++ e2) = db_leaks e1 + db_leaks e2.
Proof. apply tally_app. Qed.

Lemma log_files_app e1 e2 : log_files (e1 ++ e2) = log_files e1 + log_files e2.
Proof. apply tally_app. Qed.

(** The threads alive after an event, and after a trace; the flag. *)
Definition thread_step (e : event) (l : list string) : list string :=
  match e with
  | EvThread name true => l ++ [name]
  | EvJoin name => filter (λ name', name' ≠ name) l
  | _ => l
  end.

Definition threads (l : list string) (evs : trace) : list string := foldr thread_step l evs.

Fixpoint flag (evs : trace) : option bool :=
  match evs with [] => None | EvStore b :: _ => Some b | _ :: evs' => flag evs' end.

(** Traces that have nothing to do with threads. *)
Definition no_thread (e : event) : Prop := (∀ l, thread_step e l = l) ∧ ∀ b, e ≠ EvStore b.

Lemma no_thread_app e1 e2 l :
  Forall no_thread e1 → threads l (e1 ++ e2) = threads l e2 ∧ flag (e1 ++ e2) = flag e2.
Proof.
  induction 1 as [|e e1 [He Hs] _ [IHt IHf]]; [done|]. cbn [app threads foldr flag] in *.
  split; [by rewrite He|]. destruct e; try done. by destruct (Hs running).
Qed.

(** The statements the threads execute, and whether an event executes only
    these. *)
Definition gateway_statements : list string :=
  [sql_insert_telemetry; sql_mark_uploaded; sql_insert_alarm; sql_insert_command].

Definition known_statement (e : event) : bool :=
  match e with EvStep sql _ _ => bool_decide (sql ∈ gateway_statements) | _ => true end.

(** An event that neither opens nor closes a database or the log, has nothing
    to do with threads, and executes only a known statement. *)
Definition plain (e : event) : Prop :=
  (db_delta e = 0 ∧ log_delta e = 0) ∧ no_thread e ∧ known_statement e = true.

Lemma plain_db evs : Forall plain evs → db_handles evs = 0.
Proof. intros H. apply tally_zero. eapply Forall_impl; [exact H|]. by intros e [[? _] _]. Qed.

Lemma plain_leaks evs : Forall plain evs → db_leaks evs = 0.
Proof.
  intros H. apply tally_zero. eapply Forall_impl; [exact H|]. intros [] [[He _] _]; try done. by destruct r as [|[]].
Qed.

Lemma plain_log evs : Forall plain evs → log_files evs = 0.
Proof. intros H. apply tally_zero. eapply Forall_impl; [exact H|]. by intros e [[_ ?] _]. Qed.

Lemma plain_threads evs : Forall plain evs → Forall no_thread evs.
Proof. intros H. eapply Forall_impl; [exact H|]. by intros e (_ & ? & _). Qed.

#[export] Hint Extern 5 (plain _) => by split_and! : core.

(** From [w] to [w'], [k] database handles were opened (closed, when negative),
    [j] of them by opens that failed, the log was neither opened nor closed,
    and no thread was started, joined or told to stop. *)
Definition moves (k j : Z) (w w' : world) : Prop :=
  ∃ evs, w_trace w' = evs ++ w_trace w ∧ (db_handles evs = k ∧ db_leaks evs = j ∧ log_files evs = 0) ∧
    Forall no_thread evs.

(** No open failed on the way. *)
Definition spends (k : Z) : world → world → Prop := moves k 0.

Lemma moves_trans k1 j1 k2 j2 w w1 w2 :
  moves k1 j1 w w1 → moves k2 j2 w1 w2 → moves (k1 + k2) (j1 + j2) w w2.
Proof.
  intros (e1 & E1 & (D1 & L1 & F1) & N1) (e2 & E2 & (D2 & L2 & F2) & N2). exists (e2 ++ e1).
  split; [by rewrite E2, E1, app_assoc|]. rewrite db_handles_app, db_leaks_app, log_files_app.
  split; [lia|by apply Forall_app_2].
Qed.

Lemma moves_after k j w w1 w2 : moves k j w w1 → spends 0 w1 w2 → moves k j w w2.
Proof. intros H1 H2. pose proof (moves_trans _ _ _ _ _ _ _ H1 H2) as H. by rewrite !Z.add_0_r in H. Qed.

Lemma moves_before k j w w1 w2 : spends 0 w w1 → moves k j w1 w2 → moves k j w w2.
Proof. intros H1 H2. by pose proof (moves_trans _ _ _ _ _ _ _ H1 H2). Qed.

Lemma spends_trans k1 k2 k w w1 w2 :
  spends k1 w w1 → spends k2 w1 w2 → k = k1 + k2 → spends k w w2.
Proof. intros H1 H2 ->. by pose proof (moves_trans _ _ _ _ _ _ _ H1 H2). Qed.

Lemma spends_after k w w1 w2 : spends k w w1 → spends 0 w1 w2 → spends k w w2.
Proof. intros H1 H2. apply (spends_trans k 0 k w w1 w2); [done|done|lia]. Qed.

Lemma spends_before k w w1 w2 : spends 0 w w1 → spends k w1 w2 → spends k w w2.
Proof. intros H1 H2. apply (spends_trans 0 k k w w1 w2); [done|done|lia]. Qed.

Lemma only_spends {A} (m : io A) n w x w' : Only plain m → m n w = Some (x, w') → spends 0 w w'.
Proof.
  intros Hm H. apply Hm in H as (evs & E & Q). exists evs.
  auto 6 using plain_db, plain_leaks, plain_log, plain_threads.
Qed.

Lemma spends_event e w w' : w_trace w' = e :: w_trace w → plain e → spends 0 w w'.
Proof.
  intros E Hp. assert (Forall plain [e]) as Hf by auto. exists [e].
  auto 6 using plain_db, plain_leaks, plain_log, plain_threads.
Qed.

(** [spent l] closes a [moves] goal whose new events are [l]. *)
Ltac spent l := exists l; split; [reflexivity|split; [done|by repeat constructor]].

(** ** The bodies of the threads do none of it *)

Section footprint.
Context {env : Env}.

Lemma sleep_loop_plain fuel sec nsec : Only plain (sleep_loop fuel sec nsec).
Proof. revert sec nsec. induction fuel; simpl; solve_only. Qed.
Hint Resolve sleep_loop_plain : footprint.

Lemma sleep_plain ms : Only plain (edgeflow_sleep_ms ms).
Proof. unfold edgeflow_sleep_ms. solve_only. Qed.

Lemma now_plain : Only plain edgeflow_now_ms.
Proof. unfold edgeflow_now_ms. solve_only. Qed.
Hint Resolve sleep_plain now_plain : footprint.

Lemma touch_plain a t : Only plain (touch a t).
Proof. unfold touch, heartbeat_touch. solve_only. Qed.

Lemma age_plain hb t : Only plain (heartbeat_age_ms hb t).
Proof. unfold heartbeat_age_ms. solve_only. Qed.
Hint Resolve touch_plain age_plain : footprint.

Lemma update_metrics_plain a : Only plain (update_heartbeat_metrics a).
Proof. unfold update_heartbeat_metrics. solve_only. Qed.

Lemma metrics_write_plain p m : Only plain (metrics_write_file p m).
Proof. unfold metrics_write_file. solve_only. Qed.

Lemma append_line_plain path line : Only plain (append_jsonl_line path line).
Proof. unfold append_jsonl_line. solve_only. Qed.
Hint Resolve update_metrics_plain metrics_write_plain append_line_plain : footprint.

Lemma append_telemetry_plain st p r : Only plain (storage_append_telemetry st p r).
Proof. unfold storage_append_telemetry, jsonl_append_telemetry. solve_only. Qed.

Lemma append_alarm_plain st a : Only plain (storage_append_alarm st a).
Proof. unfold storage_append_alarm, run_statement. solve_only. Qed.

Lemma append_command_plain st c : Only plain (storage_append_command st c).
Proof. unfold storage_append_command, run_statement. solve_only. Qed.

Lemma fetch_plain st b max : Only plain (storage_fetch_pending_telemetry st b max).
Proof. unfold storage_fetch_pending_telemetry. solve_only. Qed.

Lemma mark_plain st id : Only plain (storage_mark_telemetry_uploaded st id).
Proof. unfold storage_mark_telemetry_uploaded, run_statement. solve_only. Qed.

Lemma count_plain st : Only plain (storage_pending_telemetry_count st).
Proof. unfold storage_pending_telemetry_count. solve_only. Qed.
Hint Resolve append_telemetry_plain append_alarm_plain append_command_plain fetch_plain mark_plain
  count_plain : footprint.

Lemma write_loop_plain fuel fd buf : Only plain (write_loop fuel fd buf).
Proof. revert buf. induction fuel; simpl; solve_only. Qed.
Hint Resolve write_loop_plain : footprint.

Lemma write_all_plain fd buf : Only plain (mqtt_write_all fd buf).
Proof. unfold mqtt_write_all. solve_only. Qed.
Hint Resolve write_all_plain : footprint.

Lemma send_publish_plain fd topic payload : Only plain (mqtt_send_publish fd topic payload).
Proof. unfold mqtt_send_publish. solve_only. Qed.

Lemma mqtt_shutdown_plain s : Only plain (mqtt_shutdown_locked s).
Proof. unfold mqtt_shutdown_locked. solve_only. Qed.
Hint Resolve send_publish_plain mqtt_shutdown_plain : footprint.

Lemma ensure_plain s : Only plain (mqtt_ensure_connected_locked s).
Proof. unfold mqtt_ensure_connected_locked, mqtt_open_tcp, mqtt_send_connect. solve_only. Qed.
Hint Resolve ensure_plain : footprint.

Lemma publish_locked_plain s topic payload : Only plain (publish_locked s topic payload).
Proof. unfold publish_locked. solve_only. Qed.
Hint Resolve publish_locked_plain : footprint.

Lemma publish_telemetry_plain s p : Only plain (mqtt_session_publish_telemetry s p).
Proof. unfold mqtt_session_publish_telemetry. solve_only. Qed.

Lemma publish_heartbeat_plain s p : Only plain (mqtt_session_publish_heartbeat s p).
Proof. unfold mqtt_session_publish_heartbeat. solve_only. Qed.

Lemma ping_plain s : Only plain (mqtt_session_ping s).
Proof. unfold mqtt_session_ping, mqtt_send_ping. solve_only. Qed.

Lemma session_shutdown_plain s : Only plain (mqtt_session_shutdown s).
Proof. unfold mqtt_session_shutdown. solve_only. Qed.

Lemma replay_rows_plain st l s m k : Only plain (replay_rows st l s m k).
Proof. revert s m k. induction l; simpl; solve_only. Qed.
Hint Resolve publish_telemetry_plain publish_heartbeat_plain ping_plain session_shutdown_plain
  replay_rows_plain : footprint.

Lemma replay_plain s st m : Only plain (mqtt_session_replay_pending s st m).
Proof. unfold mqtt_session_replay_pending. solve_only. Qed.
Hint Resolve replay_plain : footprint.

Lemma libmodbus_shutdown_plain : Only plain modbus_libmodbus_shutdown.
Proof. unfold modbus_libmodbus_shutdown. solve_only. Qed.
Hint Resolve libmodbus_shutdown_plain : footprint.

Lemma modbus_poll_plain self out max : Only plain (modbus_poll self out max).
Proof.
  unfold modbus_poll, modbus_rtu_poll, modbus_poll_simulate, modbus_libmodbus_poll, ensure_context,
    modbus_set_response_timeout, map_registers_to_telemetry. solve_only.
Qed.

Lemma modbus_write_plain self cmd : Only plain (modbus_write_command self cmd).
Proof. unfold modbus_write_command. solve_only. Qed.

Lemma modbus_shutdown_plain self : Only plain (modbus_shutdown self).
Proof. unfold modbus_shutdown. solve_only. Qed.
Hint Resolve modbus_poll_plain modbus_write_plain modbus_shutdown_plain : footprint.

Lemma submit_plain s c : Only plain (command_scheduler_submit s c).
Proof. unfold command_scheduler_submit. solve_only. Qed.

Lemma send_commands_plain d st l k : modbus_device d → Only plain (send_commands d st l k).
Proof.
  intros Hd. revert k. induction l as [|c l IH]; intros k; simpl; [apply _|].
  apply only_bind; [|intros; apply IH]. unfold send_command. rewrite (md_write d Hd). solve_only.
Qed.
Hint Resolve submit_plain send_commands_plain : footprint.

Lemma tick_plain s d cfg st : modbus_device d → Only plain (command_scheduler_tick s (Some d) cfg st).
Proof. intros Hd. unfold command_scheduler_tick. solve_only. Qed.
Hint Resolve tick_plain : footprint.

Lemma handle_outcome_plain a al cmd : modbus_only (app_registry a) → Only plain (handle_outcome a al cmd).
Proof.
  intros (d & _ & Hd & Hf)%modbus_only_find. unfold handle_outcome.
  change (find_modbus_adapter (with_scheduler a _)) with (find_modbus_adapter a).
  apply only_bind; [solve_only|intros _]. case_decide; [apply _|]. apply only_bind; [solve_only|].
  intros [[rc s] c']. destruct (negb _); [apply _|]. 
  change (find_modbus_adapter (with_scheduler a _)) with (find_modbus_adapter a). rewrite Hf. solve_only.
Qed.
Hint Resolve handle_outcome_plain : footprint.

Lemma process_plain a p : modbus_only (app_registry a) → Only plain (process_point a p).
Proof. intros Hm. unfold process_point. solve_only. Qed.
Hint Resolve process_plain : footprint.

Lemma worker_plain a last : modbus_only (app_registry a) → Only plain (worker_body a last).
Proof. intros Hm. unfold worker_body, finish_round. solve_only. Qed.

Lemma monitor_plain a : Only plain (monitor_on_timer a).
Proof.
  unfold monitor_on_timer, load_running, monitor_round, watchdog_notify_alive, send_notify. solve_only.
Qed.

Lemma ingress_plain a : modbus_only (app_registry a) → Only plain (ingress_body a).
Proof.
  intros (d & E & Hd). unfold ingress_body, adapter_registry_poll_all. rewrite E.
  cbn [slots poll_slots]. rewrite (md_poll d Hd). solve_only.
Qed.

Lemma exit_plain a : Only plain (worker_exit a).
Proof. unfold worker_exit. solve_only. Qed.

End footprint.

Lemma loop_plain e : loop_event e = true → plain e.
Proof. by destruct e. Qed.

#[export] Hint Resolve sleep_plain now_plain worker_plain monitor_plain ingress_plain
  session_shutdown_plain libmodbus_shutdown_plain modbus_shutdown_plain : footprint.

(** ** Initialisation *)

Section lifecycle.
Context {env : Env}.

(** What an initialisation that fails leaves open: nothing, or the handle that
    a failed sqlite3_open stored. *)
Definition fails (w w' : world) : Prop := ∃ j, (j = 0 ∨ j = 1) ∧ moves j j w w'.

Lemma fails_spends w w' : spends 0 w w' → fails w w'.
Proof. exists 0. auto. Qed.

Lemma storage_open_run out c n w rc res w' :
  storage_open (Some out) (Some c) n w = Some ((rc, res), w') →
  rc = 0 ∧ (∃ st, res = Some (Some st) ∧ st_cfg st = c ∧ st_db st = cfg_use_sqlite c ∧
    spends (if st_db st then 1 else 0) w w') ∨
  rc = -1 ∧ res = Some out ∧ fails w w'.
Proof.
  intros H. unfold storage_open in H. io_go H. destruct (env_malloc _); cbn [negb] in H.
  2: { io_done H. right. split_and!; [done|done|]. apply fails_spends. spent (@nil event). }
  destruct (cfg_use_sqlite c); cbn [negb] in H.
  2: { io_done H. left. split; [done|]. eexists. split_and!; [done..|]. spent (@nil event). }
  io_go H. destruct (env_sqlite_open _ _) as [|kept]; cbn [open_ok negb] in H.
  2: { io_done H. right. split_and!; [done|done|]. exists (if kept then 1 else 0).
       split; [by destruct kept; auto|]. 
       exists [EvSqlOpen (cfg_sqlite_path c) (OpenErr kept)]. split; [done|].
       split; [by destruct kept|by repeat constructor]. }
  unfold sqlite_exec_schema in H. apply bind_run in H as (rc1 & w1 & H1 & H). io_go H1. io_done H1.
  destruct (env_sqlite_exec _ _); cbn [Z.eqb negb] in H.
  - io_done H. left. split; [done|]. eexists. split_and!; [done..|].
    spent [EvSqlExec sql_schema true; EvSqlOpen (cfg_sqlite_path c) OpenOk].
  - io_go H. io_done H. right. split_and!; [done|done|]. apply fails_spends.
    spent [EvSqlClose; EvSqlExec sql_schema false; EvSqlOpen (cfg_sqlite_path c) OpenOk].
Qed.

(** The handle of a failed open stays: nothing closes it and nothing points
    to it. *)
Lemma failed_open_leaks out c n w :
  env_malloc (w_trace w) = true → cfg_use_sqlite c = true →
  env_sqlite_open (w_trace w) (cfg_sqlite_path c) = OpenErr true →
  storage_open (Some out) (Some c) n w =
    Some ((-1, Some out), mk_world (EvSqlOpen (cfg_sqlite_path c) (OpenErr true) :: w_trace w) (w_glob w)).
Proof.
  intros Hm Hs Ho. unfold storage_open, mbind, io_bind, ask. unfold call. rewrite Hm, Hs. cbn. by rewrite Ho.
Qed.

Lemma storage_close_run st n w u w' :
  storage_close (Some st) n w = Some (u, w') → spends (if st_db st then -1 else 0) w w'.
Proof.
  unfold storage_close, emit. intros H. destruct (st_db st); [rewrite call_run in H|]; io_done H;
    [spent [EvSqlClose]|spent (@nil event)].
Qed.

(** The configured adapter table holds the Modbus adapter alone. *)
Lemma init_modbus_run c n w rc reg w' :
  adapter_registry_init_all (Some (mk_registry [modbus_slot])) (Some c) n w = Some ((rc, reg), w') →
  spends 0 w w' ∧ ∃ d, reg = Some (mk_registry [d]) ∧ modbus_device d.
Proof.
  intros H. unfold adapter_registry_init_all in H. apply bind_run in H as ([l k] & w1 & H1 & H). io_done H.
  cbn [slots init_slots] in H1. apply bind_run in H1 as ([d f] & w2 & H2 & H1).
  io_go H1. io_done H1. unfold modbus_slot in H2.
  cbn [modbus_adapter_fill fmap option_fmap option_map default from_option id ad_init] in H2.
  apply bind_run in H2 as ([rc2 self] & w3 & H3 & H2). io_done H2.
  unfold modbus_init in H3. cbn [ad_self ad_ctx] in H3. io_go H3. io_done H3.
  split.
  - by eapply spends_event.
  - eexists. split; [done|]. split; try done. simpl. case_decide; auto.
Qed.

Lemma ring_init_cases ok r sz :
  is_u32 sz →
  ∃ r', (spsc_ring_init ok (Some r) sz = (0, Some r') ∧ ring_wf r' ∧ contents r' = [] ∧ Ring.size r' = sz) ∨
    spsc_ring_init ok (Some r) sz = (-1, Some r').
Proof.
  intros [_ Hu]. destruct (Z.ltb_spec sz 2) as [Hs|Hs]; [|destruct ok].
  - exists r. right. unfold spsc_ring_init. simpl. by rewrite (proj2 (Z.ltb_lt _ _) Hs).
  - destruct (ring_init_wf sz r) as (r' & H & Hw & Hc & Hz & _); [lia|]. exists r'. by left.
  - eexists. right. unfold spsc_ring_init. simpl. by rewrite (proj2 (Z.ltb_ge _ _) Hs).
Qed.

Lemma shutdown_all_plain r : modbus_only r → Only plain (adapter_registry_shutdown_all (Some r)).
Proof.
  intros (d & -> & Hd). cbn [adapter_registry_shutdown_all slots shutdown_slots].
  rewrite (md_shutdown d Hd). solve_only.
Qed.

(** What a successful initialisation leaves. *)
Record app_started (c : gateway_config_t) (st : storage_ctx_t) (a : gateway_app_t) : Prop := {
  as_inv : app_inv c st a;
  as_storage : st_cfg st = c;
  as_db : st_db st = cfg_use_sqlite c;
  as_ring : contents (app_ring a) = [];
  as_engine : app_state_engine a = mk_engine SYSTEM_STATE_INIT (d_of_Z 80) d0 d0 1;
  as_session : app_mqtt a = mk_session c (-1) false
}.

Lemma ready_started c t st d r :
  modbus_device d → st_cfg st = c → st_db st = cfg_use_sqlite c → ring_wf r → contents r = [] → Ring.size r = cfg_queue_size c →
  app_started c st
    (with_ring (with_registry (with_storage (app_ready c t) (Some st)) (mk_registry [d])) r).
Proof. intros Hd Hst Hdb Hw Hc Hs. split; try done. split; try done. by exists d. Qed.

Lemma init_heartbeat_run hb n w h w' :
  heartbeat_registry_init (Some hb) n w = Some (h, w') → ∃ t, h = Some [t; t; t] ∧ spends 0 w w'.
Proof.
  unfold heartbeat_registry_init. intros H. apply bind_run in H as (t & w1 & H1 & H). io_done H.
  eexists. split; [done|]. by apply only_spends in H1; [|apply now_plain].
Qed.

Lemma watchdog_init_plain ms : Only plain (watchdog_init ms).
Proof. unfold watchdog_init, open_notify_socket. solve_only. Qed.

Lemma app_init_run a0 c n w rc res w' :
  is_u32 (cfg_queue_size c) →
  gateway_app_init (Some a0) (Some c) n w = Some ((rc, res), w') →
  ∃ a, res = Some a ∧
    (rc = 0 ∧ (∃ st, app_started c st a ∧ spends (if cfg_use_sqlite c then 1 else 0) w w') ∨
     rc = -1 ∧ app_storage a = None ∧ fails w w').
Proof.
  intros Hq H. unfold gateway_app_init in H. cbv zeta in H.
  apply bind_run in H as (h & w1 & H1 & H). apply init_heartbeat_run in H1 as (t & -> & S1).
  apply bind_run in H as ([rc2 st] & w2 & H2 & H).
  destruct (storage_open_run _ _ _ _ _ _ _ H2) as [(-> & st' & -> & Hst & Hdb & S2)|(-> & -> & j & Hj & S2)];
    cbn [Z.eqb negb] in H; clear H2.
  2: { apply bind_run in H as (u & w3 & H3 & H). io_done H. apply only_spends in H3; [|solve_only].
       eexists. split; [done|]. right. split_and!; [done|done|]. exists j. split; [done|].
       eapply moves_after; [exact (moves_before _ _ _ _ _ S1 S2)|done]. }
  set (a1 := with_mqtt _ _) in H. change a1 with (app_ready c t) in H. clear a1.
  change (adapter_registry_register _ _)
    with (ADAPTER_OK, Some (mk_registry [modbus_slot])) in H. cbn beta iota in H.
  apply bind_run in H as ([rc3 reg] & w3 & H3 & H).
  apply init_modbus_run in H3 as (S3 & d & -> & Hd).
  apply bind_run in H as (u & w4 & H4 & H). apply only_spends in H4; [|solve_only].
  pose proof (spends_after _ _ _ _ (spends_after _ _ _ _ (spends_before _ _ _ _ S1 S2) S3) H4) as S4.
  clear S1 S2 S3 H4. erewrite bind_eq in H by reflexivity.
  destruct (ring_init_cases (env_malloc (w_trace w4)) (app_ring (app_ready c t)) (cfg_queue_size c) Hq)
    as (r & [(Hr & Hw & Hcont & Hsz)|Hr]); cbn [app_ring with_registry with_storage] in H;
    rewrite Hr in H; clear Hr; apply bind_run in H as (v & w5 & H5 & H).
  - io_done H. apply only_spends in H5; [|apply watchdog_init_plain].
    eexists. split; [done|]. left. split; [done|]. exists st'. split; [by apply ready_started|].
    rewrite <- Hdb. exact (spends_after _ _ _ _ S4 H5).
  - apply only_spends in H5; [|apply shutdown_all_plain; by exists d].
    apply bind_run in H as (v' & w6 & H6 & H). io_done H. apply storage_close_run in H6.
    eexists. split; [done|]. right. split_and!; [done|done|]. apply fails_spends.
    apply (spends_trans _ _ 0 _ _ _ (spends_after _ _ _ _ S4 H5) H6). by destruct (st_db st').
Qed.

(** C30: initialisation either succeeds, with the application invariant, an empty
    ring of the configured size, the initial engine, a closed session and one
    open database handle if the configuration has use_sqlite, none otherwise;
    or it answers -1 and leaves no storage context and no open handle but the
    one a failing sqlite3_open may have stored ([failed_open_leaks]): a schema
    that is refused and a ring without memory leave none.  It starts no thread
    and leaves the log file as it was. *)
Theorem gateway_app_init_outcome a0 c n w rc res w' :
  is_u32 (cfg_queue_size c) →
  gateway_app_init (Some a0) (Some c) n w = Some ((rc, res), w') →
  ∃ a, res = Some a ∧
    (rc = 0 ∧ (∃ st, app_started c st a ∧ spends (if cfg_use_sqlite c then 1 else 0) w w') ∨
     rc = -1 ∧ app_storage a = None ∧ fails w w').
Proof. apply app_init_run. Qed.

(** ** Start and stop *)

Lemma notify_ready_plain : Only plain watchdog_notify_ready.
Proof. unfold watchdog_notify_ready, send_notify. solve_only. Qed.

Lemma watchdog_shutdown_plain : Only plain watchdog_shutdown.
Proof. unfold watchdog_shutdown. solve_only. Qed.

Lemma app_run_run a n w rc w' :
  gateway_app_run (Some a) n w = Some (rc, w') →
  ∃ evs, w_trace w' = evs ++ w_trace w ∧
    (db_handles evs = 0 ∧ db_leaks evs = 0 ∧ log_files evs = 0) ∧
    (rc = 0 ∧ threads [] evs = ["ingress"; "worker"; "monitor"]%string ∧ flag evs = Some true ∨
     rc = -1 ∧ threads [] evs = [] ∧ flag evs = Some false).
Proof.
  intros H. unfold gateway_app_run, store_running, pthread_create, pthread_join in H. io_go H.
  destruct (env_pthread_create _); cbn [negb] in H; io_go H.
  2: { io_done H. eexists [_; _; _]. split_and!; [done..|by right]. }
  destruct (env_pthread_create _); cbn [negb] in H; io_go H.
  2: { io_done H. eexists [_; _; _; _; _]. split_and!; [done..|by right]. }
  destruct (env_pthread_create _); cbn [negb] in H; io_go H.
  2: { io_done H. eexists [_; _; _; _; _; _; _]. split_and!; [done..|by right]. }
  apply bind_run in H as (u & w1 & H1 & H). apply notify_ready_plain in H1 as (evs & Htr & Hn).
  io_go H. io_done H. cbn [w_trace] in Htr |- *.
  eexists (_ :: evs ++ [_; _; _; _]). split; [by rewrite Htr; cbn [app]; rewrite <- app_assoc|].
  split.
  { set (l := [EvThread "monitor" true; EvThread "worker" true; EvThread "ingress" true; EvStore true]).
    change (db_handles (evs ++ l) = 0 ∧ db_leaks (evs ++ l) = 0 ∧ log_files (evs ++ l) = 0).
    by rewrite db_handles_app, db_leaks_app, log_files_app, plain_db, plain_leaks, plain_log. }
  left.
  split; [done|]. cbn [threads foldr thread_step flag].
  destruct (no_thread_app evs [EvThread "monitor" true; EvThread "worker" true; EvThread "ingress" true; EvStore true] []
    (plain_threads _ Hn)) as [Ht Hf]. unfold threads in Ht. by rewrite Ht, Hf.
Qed.

(** C18: starting is all or nothing: the three threads run and the flag is set,
    or the call fails, every thread it had started has been joined and the
    flag is cleared. *)
Theorem run_all_or_nothing a n w rc w' :
  gateway_app_run (Some a) n w = Some (rc, w') →
  ∃ evs, w_trace w' = evs ++ w_trace w ∧
    (rc = 0 ∧ threads [] evs = ["ingress"; "worker"; "monitor"]%string ∧ flag evs = Some true ∨
     rc = -1 ∧ threads [] evs = [] ∧ flag evs = Some false).
Proof. intros (evs & E & _ & H)%app_run_run. eauto. Qed.

(** The events of the joins, newest first. *)
Definition joins : trace := [EvJoin "monitor"; EvJoin "worker"; EvJoin "ingress"; EvStore false].

Lemma app_stop_run a n w res w' :
  gateway_app_stop (Some a) n w = Some (res, w') →
  ∃ s evs, res = Some (with_mqtt a s) ∧ w_trace w' = evs ++ joins ++ w_trace w ∧ Forall plain evs.
Proof.
  intros H. unfold gateway_app_stop, store_running, pthread_join in H. io_go H.
  apply bind_run in H as (r & w1 & H1 & H). apply session_shutdown_plain in H1 as (e1 & E1 & P1).
  apply bind_run in H as (u & w2 & H2 & H). apply watchdog_shutdown_plain in H2 as (e2 & E2 & P2).
  io_go H. io_done H. eexists _, (_ :: e2 ++ e1). split; [done|]. split.
  { cbn [w_trace joins] in E1 |- *. rewrite E2, E1. cbn [app]. by rewrite <- !app_assoc. }
  constructor; [by split_and!|by apply Forall_app_2].
Qed.

(** Releases the database handle. *)
Lemma app_destroy_run a st n w res w' :
  modbus_only (app_registry a) → app_storage a = Some st →
  gateway_app_destroy (Some a) n w = Some (res, w') → spends (if st_db st then -1 else 0) w w'.
Proof.
  intros Hm Hst H. unfold gateway_app_destroy in H. cbv zeta in H. apply bind_run in H as (u & w1 & H1 & H).
  apply only_spends in H1; [|by apply shutdown_all_plain].
  cbn [app_storage with_ring] in H. rewrite Hst in H. apply bind_run in H as (v & w2 & H2 & H). io_done H.
  apply storage_close_run in H2. by eapply spends_before.
Qed.

(** Whatever the threads do, in any interleaving. *)
Lemma app_steps_run c st a w a' w' :
  app_inv c st a → rtc app_step (a, w) (a', w') →
  app_inv c st a' ∧ ∃ evs, w_trace w' = evs ++ w_trace w ∧ Forall plain evs.
Proof.
  intros Hi H. remember (a, w) as x eqn:Ex. remember (a', w') as y eqn:Ey.
  revert a w Hi Ex. induction H as [x|x [a1 w1] y Hstep _ IH]; intros a w Hi Ex; subst.
  { simplify_eq. split; [done|]. by exists []. }
  assert (app_inv c st a1 ∧ ∃ evs, w_trace w1 = evs ++ w_trace w ∧ Forall plain evs) as [Hi1 (e1 & E1 & P1)].
  { pose proof (ai_registry _ _ _ Hi).
    inversion Hstep as [? ? ? ? ? Hb|? ? ? ? ? ? ? Hb|? ? ? ? ? Hb|? ? ? ? ? Hb|? ? e Hb]; subst.
    5: { split; [done|]. exists [e]. split; [done|]. by constructor; [apply loop_plain|]. }
    all: split; [eauto using inv_ingress, inv_worker, inv_monitor, inv_exit|].
    all: first [apply ingress_plain in Hb|apply worker_plain in Hb|apply monitor_plain in Hb|apply exit_plain in Hb].
    all: auto. }
  destruct (IH eq_refl a1 w1 Hi1 eq_refl) as [Hi2 (e2 & E2 & P2)]. split; [done|].
  exists (e2 ++ e1). split; [by rewrite E2, E1, app_assoc|by apply Forall_app_2].
Qed.

(** No stored point is ever lost: however the bodies of the three threads
    follow one another and whatever the environment answers, the statements they
    execute are the insertions and the mark, and every row of the outbox
    stays in the table, in its place and with its content; a row marked uploaded
    is never pending again. *)
Theorem threads_never_lose_points db0 c st a w a' w' :
  app_inv c st a → rtc app_step (a, w) (a', w') →
  ∃ evs, w_trace w' = evs ++ w_trace w ∧ Forall (λ e, known_statement e = true) evs ∧
    Forall2 row_kept (db_of db0 (w_trace w))
      (take (length (db_of db0 (w_trace w))) (db_of db0 (w_trace w'))).
Proof.
  intros Hi H. destruct (app_steps_run _ _ _ _ _ _ Hi H) as [_ (evs & E & P)]. exists evs. split_and!; [done| |].
  - eapply Forall_impl; [exact P|]. by intros e (_ & _ & ?).
  - rewrite E. apply outbox_never_loses.
Qed.

Lemma net_no_thread evs : Forall (λ e, is_net e = true) evs → Forall no_thread evs.
Proof. intros H. eapply Forall_impl; [exact H|]. by intros []. Qed.

(** Stopping clears the flag first, then joins the three threads, and only
    then closes the session, which is left without a descriptor: no thread is
    alive when the connection goes away. *)
Theorem stop_joins_all a n w res w' :
  session_ok (app_mqtt a) → gateway_app_stop (Some a) n w = Some (res, w') →
  ∃ a' evs, res = Some a' ∧
    w_trace w' = evs ++ joins ++ w_trace w ∧ threads ["ingress"; "worker"; "monitor"]%string joins = [] ∧
    Forall no_thread evs ∧ app_mqtt a' = with_connection (app_mqtt a) (-1) false.
Proof.
  intros Hok H. unfold gateway_app_stop, store_running, pthread_join in H. io_go H.
  apply bind_run in H as (r & w1 & H1 & H). unfold mqtt_session_shutdown in H1. io_go H1.
  edestruct (shutdown_locked_run (app_mqtt a) n) as (e0 & Hs & Hn & _); [done|].
  erewrite bind_eq in H1 by exact Hs. clear Hs. io_go H1. io_done H1.
  apply bind_run in H as (u & w2 & H2 & H). apply watchdog_shutdown_plain in H2 as (e1 & Htr & Hn1%plain_threads).
  io_go H. io_done H. eexists _, (_ :: e1 ++ _ :: e0 ++ [_]). split; [done|]. split.
  { cbn [w_trace] in Htr |- *. rewrite Htr. by repeat first [progress cbn [app]|rewrite <- app_assoc]. }
  split; [done|]. split; [|done]. constructor; [done|]. apply Forall_app_2; [done|].
  constructor; [done|]. apply Forall_app_2; [by apply net_no_thread|]. by repeat constructor.
Qed.

End lifecycle.

(** ** Concrete runs *)

Lemma gateway_app_init_outcome_witness :
  ∃ res w', @gateway_app_init demo_app_env (Some app_zero) (Some demo_app_config) 20%nat world_init
      = Some ((0, res), w') ∧
  ∃ a, res = Some a ∧
    (0 = 0 ∧ (∃ st, @app_started demo_app_env demo_app_config st a ∧
                 spends (if cfg_use_sqlite demo_app_config then 1 else 0) world_init w') ∨
     0 = -1 ∧ app_storage a = None ∧ fails world_init w').
Proof.
  destruct (returns_run (@gateway_app_init demo_app_env (Some app_zero) (Some demo_app_config)) 20 world_init
    ltac:(vm_compute; reflexivity)) as ([rc res] & w' & H).
  assert (rc = 0) as ->.
  { assert (option_map (λ r, fst (fst r)) (@gateway_app_init demo_app_env (Some app_zero)
      (Some demo_app_config) 20%nat world_init) = Some 0) as E by (vm_compute; reflexivity).
    rewrite H in E. by injection E. }
  exists res, w'. split; [exact H|].
  exact (@gateway_app_init_outcome demo_app_env app_zero demo_app_config 20 world_init 0 res w'
    ltac:(vm_compute; by split) H).
Defined.

Lemma run_all_or_nothing_witness :
  ∃ w', @gateway_app_run demo_app_env (Some demo_app) 0%nat world_init = Some (0, w') ∧
  ∃ evs, w_trace w' = evs ++ w_trace world_init ∧
    (0 = 0 ∧ threads [] evs = ["ingress"; "worker"; "monitor"]%string ∧ flag evs = Some true ∨
     0 = -1 ∧ threads [] evs = [] ∧ flag evs = Some false).
Proof.
  eexists. split; [vm_compute; reflexivity|].
  apply (@run_all_or_nothing demo_app_env demo_app 0 world_init). vm_compute. reflexivity.
Defined.

Lemma threads_never_lose_points_witness :
  ∃ a' last w' evs, @worker_body demo_app_env demo_app 0 10%nat demo_stored = Some ((a', last), w') ∧
    w_trace w' = evs ++ w_trace demo_stored ∧ Forall (λ e, known_statement e = true) evs ∧
    Forall2 row_kept (db_of [] (w_trace demo_stored)) (take 1 (db_of [] (w_trace w'))).
Proof.
  destruct (returns_run (@worker_body demo_app_env demo_app 0) 10 demo_stored ltac:(vm_compute; reflexivity))
    as ([a' last] & w' & H).
  destruct (threads_never_lose_points [] demo_app_config demo_app_storage demo_app demo_stored a' w' demo_app_inv
    (rtc_once _ _ (step_worker _ _ _ _ _ _ _ H))) as (evs & E & K & R).
  exists a', last, w', evs. split_and!; [exact H|exact E|exact K|exact R].
Defined.

Lemma stop_joins_all_witness :
  ∃ res w', gateway_app_stop (Some demo_app) 0%nat world_init = Some (res, w') ∧
  ∃ a' evs, res = Some a' ∧
    w_trace w' = evs ++ joins ++ w_trace world_init ∧ threads ["ingress"; "worker"; "monitor"]%string joins = [] ∧
    Forall no_thread evs ∧ app_mqtt a' = with_connection (app_mqtt demo_app) (-1) false.
Proof.
  destruct (returns_run (gateway_app_stop (Some demo_app)) 0 world_init
    ltac:(vm_compute; reflexivity)) as (res & w' & H).
  exists res, w'. split; [exact H|].
  exact (stop_joins_all demo_app 0 world_init res w' ltac:(vm_compute; reflexivity) H).
Defined.
