(* ===== verification/Threads.v ===== *)
(** * The threads as runs of the application

    The main functions of the three threads ([src/src/runtime/app.c]) are runs
    of [app_step]: what [AppInv] and [Lifecycle] prove of the steps holds of
    the threads. *)

From S2P Require Export Lifecycle.

#[local] Open Scope Z_scope.

Section threads.
Context {env : Env}.

Abbreviation steps a w a' w' := (rtc app_step (a, w) (a', w')).

(** Calls of the loops, newest first. *)
Lemma loop_steps a w evs :
  Forall (λ e, loop_event e = true) evs → steps a w a (mk_world (evs ++ w_trace w) (w_glob w)).
Proof.
  induction 1 as [|e evs He _ IH]; [by destruct w|]. eapply rtc_r; [exact IH|].
  apply (step_loop a (mk_world (evs ++ w_trace w) (w_glob w)) e He).
Qed.

(** Computations made of such calls, which change no static variable. *)
Definition looks {A} (m : io A) : Prop :=
  ∀ n w x w', m n w = Some (x, w') →
    ∃ evs, Forall (λ e, loop_event e = true) evs ∧ w' = mk_world (evs ++ w_trace w) (w_glob w).

Lemma looks_ret {A} (x : A) : looks (mret x).
Proof. intros n w y w' H. unfold mret, io_ret in H. simplify_eq. exists []. by destruct w'. Qed.

Lemma looks_call {A} (f : trace → A) ev : (∀ x, loop_event (ev x) = true) → looks (call f ev).
Proof. intros He n w x w' H. rewrite call_run in H. simplify_eq. exists [ev (f (w_trace w))]. by repeat constructor. Qed.

Lemma looks_ask {A} (f : trace → A) : looks (ask f).
Proof. intros n w x w' H. unfold ask in H. simplify_eq. exists []. by destruct w'. Qed.

Lemma looks_bind {A B} (m : io A) (k : A → io B) : looks m → (∀ x, looks (k x)) → looks (m ≫= k).
Proof.
  intros Hm Hk n w y w' H. apply bind_run in H as (x & w1 & (e1 & F1 & ->)%Hm & (e2 & F2 & ->)%Hk).
  exists (e2 ++ e1). split; [by apply Forall_app_2|]. by rewrite <- app_assoc.
Qed.

Lemma looks_log level msg : looks (log_vprint level msg).
Proof.
  intros n w x w' H. unfold log_vprint, emit in H. io_go H. rewrite call_run in H. simplify_eq.
  eexists [_]. by repeat constructor.
Qed.

Lemma looks_steps {A} (m : io A) a n w x w' : looks m → m n w = Some (x, w') → steps a w a w'.
Proof. intros Hm H. apply Hm in H as (evs & F & ->). by apply loop_steps. Qed.

Ltac solve_looks :=
  repeat first
    [ progress intros | done
    | apply looks_ret | apply looks_ask | apply looks_log | apply looks_call; done
    | apply looks_bind; [|intros]
    | match goal with |- context [match ?x with _ => _ end] => destruct x end
    | progress unfold log_warn, emit, nanosleep, read, close ].

Lemma sleep_looks ms : looks (edgeflow_sleep_ms ms).
Proof.
  intros n. unfold edgeflow_sleep_ms, with_fuel. generalize n at 1. intros fuel. revert n.
  change (looks (sleep_loop fuel (ms / 1000) (ms mod 1000 * 1000000))).
  generalize (ms / 1000) (ms mod 1000 * 1000000). induction fuel; simpl; solve_looks.
Qed.

Lemma reactor_init_looks {S} (out : option (option (reactor_t S))) : looks (reactor_init out).
Proof. unfold reactor_init. solve_looks. Qed.

Lemma reactor_add_looks {S} (r : option (reactor_t S)) ms cb : looks (reactor_add_timer_ms r ms cb).
Proof. unfold reactor_add_timer_ms. solve_looks. Qed.

Lemma reactor_destroy_looks {S} (r : option (reactor_t S)) : looks (reactor_destroy r).
Proof. unfold reactor_destroy. solve_looks. Qed.

Lemma log_warn_looks msg : looks (log_warn msg).
Proof. apply looks_log. Qed.

(** [look H a w1] passes one look of the run of [H], in the goal too. *)
Ltac look H L :=
  let u := fresh "u" in let w1 := fresh "w" in let H1 := fresh "H" in
  apply bind_run in H as (u & w1 & H1 & H);
  match goal with |- rtc _ (?a, _) _ => apply (looks_steps _ a) in H1; [|apply L] end;
  etrans; [exact H1|]; clear H1.

Lemma load_running_looks : looks load_running.
Proof. unfold load_running. solve_looks. Qed.

Lemma ingress_loop_steps fuel a n w a' w' :
  ingress_loop fuel a n w = Some (a', w') → steps a w a' w'.
Proof.
  revert a w. induction fuel as [|fuel IH]; intros a w H; [done|]. cbn [ingress_loop] in H.
  look H load_running_looks. destruct u; [|by io_done H]. apply bind_run in H as (a1 & w1 & H1 & H).
  eapply rtc_l; [by eapply step_ingress|]. by apply IH.
Qed.

Lemma worker_loop_steps fuel a last n w a' w' :
  worker_loop fuel a last n w = Some (a', w') → steps a w a' w'.
Proof.
  revert a last w. induction fuel as [|fuel IH]; intros a last w H; [done|]. cbn [worker_loop] in H.
  look H load_running_looks. destruct u; [|by io_done H]. apply bind_run in H as ([a1 last1] & w1 & H1 & H).
  eapply rtc_l; [by eapply step_worker|]. by eapply IH.
Qed.

Lemma reactor_events_steps r ready a n w a' w' :
  re_cb r = Some monitor_on_timer → reactor_events r ready a n w = Some (a', w') → steps a w a' w'.
Proof.
  intros Hcb. revert a w. induction ready as [|fd ready IH]; intros a w H; cbn [reactor_events] in H.
  { by io_done H. }
  apply bind_run in H as (a1 & w1 & H1 & H). apply IH in H. etrans; [clear H|exact H].
  destruct (fd =? re_timer_fd r); [|by io_done H1].
  look H1 (looks_call (λ tr, clip_read 8 (env_read tr (re_timer_fd r) 8)) (EvRecv (re_timer_fd r) 8) (λ _, eq_refl)).
  destruct u as [[|b d]| |]; try by io_done H1. rewrite Hcb in H1. by eapply rtc_once, step_monitor.
Qed.

Lemma reactor_run_steps r a n w rc a' w' :
  re_cb r = Some monitor_on_timer → reactor_run_once (Some r) a n w = Some ((rc, a'), w') → steps a w a' w'.
Proof.
  intros Hcb H. unfold reactor_run_once in H. destruct (negb _); [by io_done H|].
  look H (looks_call env_epoll_wait (EvEpollWait (re_epfd r)) (λ _, eq_refl)).
  destruct u as [ready| |]; [|by io_done H..].
  apply bind_run in H as (a2 & w2 & H2 & H). io_done H. by eapply reactor_events_steps.
Qed.

Lemma monitor_loop_steps fuel r a n w a' w' :
  re_cb r = Some monitor_on_timer → monitor_loop fuel (Some r) a n w = Some (a', w') → steps a w a' w'.
Proof.
  intros Hcb. revert a w. induction fuel as [|fuel IH]; intros a w H; [done|]. cbn [monitor_loop] in H.
  look H load_running_looks. destruct u; [|by io_done H].
  apply bind_run in H as ([rc a1] & w1 & H1 & H). etrans; [by eapply reactor_run_steps|].
  destruct (negb _); [by io_done H|by apply IH].
Qed.

Lemma monitor_fallback_steps fuel a n w a' w' :
  monitor_fallback fuel a n w = Some (a', w') → steps a w a' w'.
Proof.
  revert a w. induction fuel as [|fuel IH]; intros a w H; [done|]. cbn [monitor_fallback] in H.
  look H load_running_looks. destruct u; [|by io_done H]. apply bind_run in H as (a1 & w1 & H1 & H).
  eapply rtc_l; [by eapply step_monitor|]. look H sleep_looks. by apply IH.
Qed.

Lemma monitor_main_steps a n w a' w' : monitor_main a n w = Some (a', w') → steps a w a' w'.
Proof.
  intros H. unfold monitor_main in H. look H @reactor_init_looks. destruct u as [rc out].
  destruct (negb _); [look H log_warn_looks; by eapply monitor_fallback_steps|].
  apply bind_run in H as ([rc2 r2] & w1 & H1 & H). pose proof H1 as Hr.
  apply (looks_steps _ a) in H1; [|apply reactor_add_looks]. etrans; [exact H1|]. clear H1.
  destruct (negb (rc2 =? 0)) eqn:E2.
  { look H log_warn_looks. look H @reactor_destroy_looks. by eapply monitor_fallback_steps. }
  assert (∃ r, r2 = Some r ∧ re_cb r = Some monitor_on_timer) as (r & -> & Hcb) by (by eapply add_timer_cb).
  apply bind_run in H as (a1 & w2 & H2 & H). etrans; [by eapply monitor_loop_steps|].
  look H @reactor_destroy_looks. by io_done H.
Qed.

(** The functions [gateway_app_run] starts the threads with. *)
Definition thread_mains : list (gateway_app_t → io gateway_app_t) :=
  [ingress_main; worker_main; monitor_main].

(** The threads are runs of the steps: whenever the main function of the
    ingress, worker or monitor thread returns, it went from the application and
    the world it was given to those it leaves by bodies, calls of the loops
    and the exit of the worker. *)
Theorem thread_mains_are_steps f a n w a' w' :
  f ∈ thread_mains → f a n w = Some (a', w') → rtc app_step (a, w) (a', w').
Proof.
  unfold thread_mains. set_unfold. intros [->|[->|[->|[]]]] H.
  - by eapply ingress_loop_steps.
  - apply bind_run in H as (a1 & w1 & H1 & H). etrans; [by eapply worker_loop_steps|].
    by eapply rtc_once, step_exit.
  - by apply monitor_main_steps in H.
Qed.

(** So what holds of the steps holds of the threads, one after the other in any
    order and number: the invariant, and that they neither open nor close a
    database or the log and start no thread. *)
Corollary thread_mains_keep_inv c st f a n w a' w' :
  f ∈ thread_mains → app_inv c st a → f a n w = Some (a', w') →
  app_inv c st a' ∧ ∃ evs, w_trace w' = evs ++ w_trace w ∧ Forall plain evs.
Proof. intros Hf Hi H. eapply app_steps_run; [exact Hi|]. by eapply thread_mains_are_steps. Qed.
End threads.

(** ** A concrete run *)

Lemma thread_mains_are_steps_witness :
  ∃ a' w', @ingress_main demo_app_env demo_app 200%nat world_init = Some (a', w') ∧
    rtc (@app_step demo_app_env) (demo_app, world_init) (a', w').
Proof.
  destruct (returns_run (@ingress_main demo_app_env demo_app) 200 world_init ltac:(vm_compute; reflexivity))
    as (a' & w' & H).
  exists a', w'. split; [exact H|].
  exact (@thread_mains_are_steps demo_app_env ingress_main demo_app 200 world_init a' w'
    (list_elem_of_here _ _) H).
Defined.
