(* ===== verification/Interleave.v ===== *)
(** * The worker and the monitor, interleaved

    [App.v] lets the bodies of the threads follow one another.  The worker and
    the monitor share the MQTT session and the database, so here their bodies
    ([worker_main] and [monitor_on_timer] of [src/src/runtime/app.c], with the
    functions of [src/src/egress/mqtt_session.c] they call) are cut where the
    code takes and releases the session's lock and between the accesses to the
    database, and the pieces of the two threads interleave freely, except that
    the lock is taken only when the other thread does not hold it.

    A piece is atomic: within it a thread makes one use of the database or of
    the session, which SQLite and the lock serialise, or touches only its own
    variables, atomics and files. *)

From S2P Require Export Threads.

#[local] Open Scope Z_scope.

(** ** Control points *)

(** Where the worker is; the arguments are its live local variables. *)
Inductive worker_pc :=
  | WPop
  | WStore (point : telemetry_t)
  | WDecide (point : telemetry_t) (row : Z)
  | WLock (point : telemetry_t) (row : Z)
  | WSend (point : telemetry_t) (row : Z)
  | WUnlock (row rc : Z)
  | WMark (row rc : Z)
  | WFinish.

(** Where the monitor is: [MRow] is the head of the loop over the rows still to
    be replayed, [MMark] the mark of the row that was just sent. *)
Inductive monitor_pc :=
  | MIdle
  | MFetch
  | MLockReplay (rows : list storage_telemetry_row_t)
  | MConnect (rows : list storage_telemetry_row_t)
  | MRow (rows : list storage_telemetry_row_t)
  | MMark (row : storage_telemetry_row_t) (rows : list storage_telemetry_row_t)
  | MUnlockReplay
  | MCount
  | MLockPing
  | MPing
  | MUnlockPing
  | MPayload
  | MLockBeat (payload : string)
  | MBeat (payload : string)
  | MUnlockBeat
  | MFinish.

(** Between the lock and the unlock. *)
Definition worker_holds (pc : worker_pc) : bool :=
  match pc with WSend _ _ | WUnlock _ _ => true | _ => false end.

Definition monitor_holds (pc : monitor_pc) : bool :=
  match pc with
  | MConnect _ | MRow _ | MMark _ _ | MUnlockReplay | MPing | MUnlockPing | MBeat _ | MUnlockBeat => true
  | _ => false
  end.

(** Waiting for the lock. *)
Definition worker_wants (pc : worker_pc) : bool :=
  match pc with WLock _ _ => true | _ => false end.

Definition monitor_wants (pc : monitor_pc) : bool :=
  match pc with MLockReplay _ | MLockPing | MLockBeat _ => true | _ => false end.

Section steps.
Context {env : Env}.

(** ** The pieces *)

(** One piece of the worker; [last] is its local [last_metrics_ms]. *)
Definition worker_step (pc : worker_pc) (last : Z) (a : gateway_app_t)
    : io (gateway_app_t * worker_pc * Z) :=
  match pc with
  | WPop =>
      match spsc_ring_pop (Some (app_ring a)) (Some telemetry_zero) with
      | (true, Some point, r) =>
          mret (with_ring a (default (app_ring a) r), WStore (apply_quality_rules (app_cfg a) point), last)
      | _ =>
          a ← touch a HEARTBEAT_THREAD_WORKER;
          edgeflow_sleep_ms 20;;
          mret (a, WPop, last)
      end
  | WStore point =>
      '(rc, row_id) ← storage_append_telemetry (app_storage a) (Some point) (Some 0);
      (if negb (rc =? 0) then log_warn "storage append telemetry failed" else mret tt);;
      mret (with_metrics a (add_processed (app_metrics a)), WDecide point (default 0 row_id), last)
  | WDecide point row =>
      let '(r, e, alarm, command) :=
        state_engine_process_telemetry (Some (app_state_engine a)) (Some (app_cfg a)) (Some point)
          (Some alarm_zero) (Some command_zero)
          (sc_next_command_id (app_command_scheduler a)) (tel_ts_ms point) in
      let a := with_engine a (default (app_state_engine a) e) in
      a ← (if (r : bool) then handle_outcome a (default alarm_zero alarm) (default command_zero command)
           else mret a);
      mret (a, WLock point row, last)
  | WLock point row => pthread_mutex_lock;; mret (a, WSend point row, last)
  | WSend point row =>
      '(rc, s) ← publish_locked (app_mqtt a) (cfg_mqtt_topic (ms_cfg (app_mqtt a)))
                   (telemetry_to_json point 384);
      mret (with_mqtt a s, WUnlock row rc, last)
  | WUnlock row rc => pthread_mutex_unlock;; mret (a, WMark row rc, last)
  | WMark row rc =>
      let a := with_metrics a (add_published (rc =? 0) (app_metrics a)) in
      (if (rc =? 0) && (0 <? row)
       then storage_mark_telemetry_uploaded (app_storage a) row;; mret tt else mret tt);;
      mret (a, WFinish, last)
  | WFinish => '(a, last) ← finish_round a last; mret (a, WPop, last)
  end.

(** The monitor up to the call of [mqtt_session_replay_pending]. *)
Definition check_heartbeats (a : gateway_app_t) : io gateway_app_t :=
  a ← touch a HEARTBEAT_THREAD_MONITOR;
  watchdog_notify_alive;;
  ingress_age ← heartbeat_age_ms (Some (app_heartbeat a)) HEARTBEAT_THREAD_INGRESS;
  worker_age ← heartbeat_age_ms (Some (app_heartbeat a)) HEARTBEAT_THREAD_WORKER;
  (if stale_limit (app_cfg a) <? ingress_age
   then log_warn ("ingress heartbeat stale: age_ms=" +:+ dec ingress_age) else mret tt);;
  (if stale_limit (app_cfg a) <? worker_age
   then log_warn ("worker heartbeat stale: age_ms=" +:+ dec worker_age) else mret tt);;
  mret a.

(** The body of [mqtt_session_ping] under the lock; its result is not used. *)
Definition ping_locked (s : mqtt_session_t) : io mqtt_session_t :=
  if ms_connected s && (0 <=? ms_fd s) then
    rc ← mqtt_send_ping (ms_fd s);
    if rc =? 0 then mret s else mqtt_shutdown_locked s
  else mret s.

Definition count_replayed (a : gateway_app_t) : gateway_app_t :=
  with_metrics a (with_replay_total (app_metrics a) (u64 (mqtt_replay_total (app_metrics a) + 1))).

(** One piece of the monitor. *)
Definition monitor_step (pc : monitor_pc) (a : gateway_app_t) : io (gateway_app_t * monitor_pc) :=
  match pc with
  | MIdle =>
      running ← load_running;
      if (running : bool) then a ← check_heartbeats a; mret (a, MFetch) else mret (a, MIdle)
  | MFetch =>
      match app_storage a with
      | None => mret (a, MLockPing)
      | Some _ =>
          '(n, l) ← storage_fetch_pending_telemetry (app_storage a) true (replay_batch (ms_cfg (app_mqtt a)));
          mret (a, if n <? 0 then MLockPing else MLockReplay l)
      end
  | MLockReplay l => pthread_mutex_lock;; mret (a, MConnect l)
  | MConnect l =>
      '(rc, s) ← mqtt_ensure_connected_locked (app_mqtt a);
      mret (with_mqtt a s, if rc =? 0 then MRow l else MUnlockReplay)
  | MRow [] => mret (a, MUnlockReplay)
  | MRow (row :: l) =>
      let s := app_mqtt a in
      rc ← mqtt_send_publish (ms_fd s) (cfg_mqtt_topic (ms_cfg s)) (telemetry_to_json (row_point row) 384);
      if negb (rc =? 0) then s ← mqtt_shutdown_locked s; mret (with_mqtt a s, MUnlockReplay)
      else mret (a, MMark row l)
  | MMark row l =>
      rc ← storage_mark_telemetry_uploaded (app_storage a) (row_id row);
      mret (if rc =? 0 then count_replayed a else a, MRow l)
  | MUnlockReplay => pthread_mutex_unlock;; mret (a, MCount)
  | MCount =>
      count ← storage_pending_telemetry_count (app_storage a);
      mret (with_metrics a (with_pending (app_metrics a) (u32 count)), MLockPing)
  | MLockPing => pthread_mutex_lock;; mret (a, MPing)
  | MPing => s ← ping_locked (app_mqtt a); mret (with_mqtt a s, MUnlockPing)
  | MUnlockPing => pthread_mutex_unlock;; mret (a, MPayload)
  | MPayload =>
      now ← edgeflow_now_ms;
      count ← storage_pending_telemetry_count (app_storage a);
      mret (a, MLockBeat (heartbeat_payload (app_cfg a) now (u32 count)))
  | MLockBeat payload => pthread_mutex_lock;; mret (a, MBeat payload)
  | MBeat payload =>
      '(_, s) ← publish_locked (app_mqtt a) (cfg_mqtt_heartbeat_topic (ms_cfg (app_mqtt a))) payload;
      mret (with_mqtt a s, MUnlockBeat)
  | MUnlockBeat => pthread_mutex_unlock;; mret (a, MFinish)
  | MFinish =>
      a ← update_heartbeat_metrics a;
      metrics_write_file (Some (cfg_metrics_path (app_cfg a))) (Some (app_metrics a));;
      mret (a, MIdle)
  end.

(** ** The system *)

(** The descriptor is that of a socket not closed since. *)
Fixpoint is_open (fd : Z) (tr : trace) : bool :=
  match tr with
  | [] => false
  | EvSocket fd' :: tr' | EvNotifyOpen _ fd' :: tr' => (fd' =? fd) || is_open fd tr'
  | EvClose fd' :: tr' => negb (fd' =? fd) && is_open fd tr'
  | _ :: tr' => is_open fd tr'
  end.

Record system := mk_system {
  sy_app : gateway_app_t;
  sy_world : world;
  sy_worker : worker_pc;
  sy_last : Z;
  sy_monitor : monitor_pc
}.

(** The calls of the loops around the bodies ([AppInv.loop_event]); the
    descriptors they close are the reactor's, not those of open sockets. *)
Definition loop_call (e : event) (tr : trace) : bool :=
  loop_event e && match e with EvClose fd => negb (is_open fd tr) | _ => true end.

Inductive istep : system → system → Prop :=
  | int_ingress n a w pw last pm a' w' :
      ingress_body a n w = Some (a', w') →
      istep (mk_system a w pw last pm) (mk_system a' w' pw last pm)
  | int_worker n a w pw last pm a' pw' last' w' :
      (worker_wants pw = true → monitor_holds pm = false) →
      worker_step pw last a n w = Some ((a', pw', last'), w') →
      istep (mk_system a w pw last pm) (mk_system a' w' pw' last' pm)
  | int_monitor n a w pw last pm a' pm' w' :
      (monitor_wants pm = true → worker_holds pw = false) →
      monitor_step pm a n w = Some ((a', pm'), w') →
      istep (mk_system a w pw last pm) (mk_system a' w' pw last pm')
  | int_exit n a w last pm a' w' :
      worker_exit a n w = Some (a', w') →
      istep (mk_system a w WPop last pm) (mk_system a' w' WPop last pm)
  | int_loop a w pw last pm e :
      loop_call e (w_trace w) = true →
      istep (mk_system a w pw last pm) (mk_system a (mk_world (e :: w_trace w) (w_glob w)) pw last pm).

End steps.

(** ** Schedules

    The machine as a function of the order in which the threads move. *)

Inductive mover := Ingress | Worker | Monitor.

Section schedules.
Context {env : Env}.

(** [None] when the thread waits for the lock, or its piece runs out of fuel
    or waits for an answer that never comes. *)
Definition move (n : nat) (t : mover) (y : system) : option system :=
  let '(mk_system a w pw last pm) := y in
  match t with
  | Ingress => '(a', w') ← ingress_body a n w; Some (mk_system a' w' pw last pm)
  | Worker =>
      if worker_wants pw && monitor_holds pm then None
      else '(a', pw', last', w') ← worker_step pw last a n w; Some (mk_system a' w' pw' last' pm)
  | Monitor =>
      if monitor_wants pm && worker_holds pw then None
      else '(a', pm', w') ← monitor_step pm a n w; Some (mk_system a' w' pw last pm')
  end.

Fixpoint schedule (n : nat) (ts : list mover) (y : system) : option system :=
  match ts with
  | [] => Some y
  | t :: ts' => y' ← move n t y; schedule n ts' y'
  end.

Lemma guard_free b1 b2 : b1 && b2 = false → b1 = true → b2 = false.
Proof. by destruct b1. Qed.

Lemma move_step n t y y' : move n t y = Some y' → istep y y'.
Proof.
  destruct y as [a w pw last pm], t; cbn [move].
  - destruct (ingress_body a n w) as [[a' w']|] eqn:E; [|done]. intros [= <-]. by eapply int_ingress.
  - destruct (worker_wants pw && monitor_holds pm) eqn:Eg; [done|].
    destruct (worker_step pw last a n w) as [[[[a' pw'] last'] w']|] eqn:E; [|done]. intros [= <-].
    eapply int_worker; [by apply guard_free|exact E].
  - destruct (monitor_wants pm && worker_holds pw) eqn:Eg; [done|].
    destruct (monitor_step pm a n w) as [[[a' pm'] w']|] eqn:E; [|done]. intros [= <-].
    eapply int_monitor; [by apply guard_free|exact E].
Qed.

Lemma schedule_run n ts y y' : schedule n ts y = Some y' → rtc istep y y'.
Proof.
  revert y. induction ts as [|t ts IH]; intros y H; cbn [schedule] in H; [by simplify_eq|].
  destruct (move n t y) as [y1|] eqn:E; [|done]. cbn [mbind option_bind] in H.
  eapply rtc_l; [by eapply move_step|by apply IH].
Qed.
End schedules.

(** ** Uninterrupted runs are the bodies *)

Section refinement.
Context {env : Env}.

(** The next step of a thread, whose pieces are the runs of the hypotheses. *)
Ltac piece_runs := repeat (erewrite bind_eq; [|eassumption || reflexivity]; cbn beta iota); reflexivity.

Ltac worker_moves n :=
  eapply rtc_l; [eapply (int_worker n); [by intros|cbn [worker_step]; piece_runs]|].

Ltac monitor_moves n :=
  eapply rtc_l; [eapply (int_monitor n); [by intros|cbn [monitor_step]; piece_runs]|].

Lemma worker_point_runs a p last n w a' w' pm :
  monitor_holds pm = false → process_point a p n w = Some (a', w') →
  rtc istep (mk_system a w (WStore (apply_quality_rules (app_cfg a) p)) last pm)
    (mk_system a' w' WFinish last pm).
Proof.
  intros Hpm H. unfold process_point in H.
  set (q := apply_quality_rules (app_cfg a) p) in *. clearbody q.
  apply bind_run in H as ([rc row] & w1 & H1 & H). apply bind_run in H as (u & w2 & H2 & H).
  worker_moves n.
  destruct (state_engine_process_telemetry _ _ _ _ _ _ _) as [[[r e] al] cmd] eqn:Ee.
  apply bind_run in H as (a2 & w3 & H3 & H).
  eapply rtc_l.
  { eapply (int_worker n); [by intros|]. cbn [worker_step]. rewrite Ee. piece_runs. }
  apply bind_run in H as ([rc2 s] & w4 & H4 & H). apply bind_run in H as (u' & w5 & H5 & H). io_done H.
  unfold mqtt_session_publish_telemetry in H4. io_go H4.
  apply bind_run in H4 as ([rc3 s3] & w6 & H6 & H4). io_go H4. io_done H4.
  do 3 worker_moves n.
  worker_moves n. apply rtc_refl.
Qed.

Lemma worker_body_runs a last n w a' last' w' pm :
  monitor_holds pm = false → worker_body a last n w = Some ((a', last'), w') →
  rtc istep (mk_system a w WPop last pm) (mk_system a' w' WPop last' pm).
Proof.
  intros Hpm H. unfold worker_body in H.
  destruct (spsc_ring_pop _ _) as [[[] [p|]] r] eqn:Ep.
  1: { apply bind_run in H as (a2 & w2 & H2 & H).
       eapply rtc_l; [eapply (int_worker n); [by intros|cbn [worker_step]; rewrite Ep; reflexivity]|].
       etrans; [by eapply (worker_point_runs _ _ _ _ _ _ _ _ Hpm H2)|]. worker_moves n. apply rtc_refl. }
  all: apply bind_run in H as (a2 & w2 & H2 & H); apply bind_run in H as (u & w3 & H3 & H); io_done H;
    apply rtc_once; eapply (int_worker n); [by intros|]; cbn [worker_step]; rewrite Ep; piece_runs.
Qed.

Lemma replay_rows_runs a l k n w k' s' m' w' pw last :
  worker_holds pw = false →
  replay_rows (app_storage a) l (app_mqtt a) (Some (app_metrics a)) k n w = Some ((k', s', m'), w') →
  ∃ m, m' = Some m ∧
    rtc istep (mk_system a w pw last (MRow l))
      (mk_system (with_metrics (with_mqtt a s') m) w' pw last MUnlockReplay).
Proof.
  intros Hpw. revert a k w. induction l as [|row l IH]; intros a k w H; cbn [replay_rows] in H.
  { io_done H. eexists. split; [done|]. destruct a. monitor_moves n. apply rtc_refl. }
  apply bind_run in H as (rc & w1 & H1 & H). destruct (negb (rc =? 0)) eqn:Erc.
  { apply bind_run in H as (s & w2 & H2 & H). io_done H. eexists. split; [done|].
    eapply rtc_l.
    { eapply (int_monitor n); [by intros|]. cbn [monitor_step]. erewrite bind_eq by exact H1. cbv beta.
      rewrite Erc. piece_runs. }
    destruct a. apply rtc_refl. }
  apply bind_run in H as (rc2 & w2 & H2 & H).
  assert (∃ a1, a1 = (if rc2 =? 0 then count_replayed a else a) ∧
    rtc istep (mk_system a w pw last (MRow (row :: l))) (mk_system a1 w2 pw last (MRow l))) as (a1 & Ea & Hr).
  { eexists. split; [done|]. eapply rtc_l.
    { eapply (int_monitor n); [by intros|]. cbn [monitor_step]. erewrite bind_eq by exact H1. cbv beta.
      rewrite Erc. reflexivity. }
    monitor_moves n. apply rtc_refl. }
  assert (∃ k1, replay_rows (app_storage a1) l (app_mqtt a1) (Some (app_metrics a1)) k1 n w2 =
    Some ((k', s', m'), w')) as (k1 & H').
  { subst a1. destruct (rc2 =? 0); by eexists. }
  apply IH in H' as (m & -> & Hr'). exists m. split; [done|]. etrans; [exact Hr|].
  assert (with_metrics (with_mqtt a1 s') m = with_metrics (with_mqtt a s') m) as <-; [|exact Hr'].
  subst a1. by destruct a, (rc2 =? 0).
Qed.

Lemma replay_runs a n w k s' m' w' pw last :
  worker_holds pw = false →
  mqtt_session_replay_pending (Some (app_mqtt a)) (app_storage a) (Some (app_metrics a)) n w =
    Some ((k, s', m'), w') →
  rtc istep (mk_system a w pw last MFetch)
    (mk_system (with_metrics (with_mqtt a (default (app_mqtt a) s')) (default (app_metrics a) m')) w' pw last
       MLockPing).
Proof.
  intros Hpw H. unfold mqtt_session_replay_pending in H.
  destruct (app_storage a) as [st|] eqn:Est.
  2: { io_done H. apply rtc_once. eapply (int_monitor n); [by intros|]. cbn [monitor_step]. rewrite Est.
       by destruct a. }
  apply bind_run in H as ([c l] & w1 & H1 & H).
  assert (istep (mk_system a w pw last MFetch)
    (mk_system a w1 pw last (if c <? 0 then MLockPing else MLockReplay l))) as Hf.
  { eapply (int_monitor n); [by intros|]. cbn [monitor_step]. rewrite Est. piece_runs. }
  eapply rtc_l; [exact Hf|]. clear Hf. destruct (c <? 0). { io_done H. by destruct a. }
  io_go H. apply bind_run in H as ([rc s] & w2 & H2 & H).
  apply bind_run in H as ([[k2 s2] m2] & w3 & H3 & H). monitor_moves n. monitor_moves n.
  assert (∃ m, m2 = Some m ∧ rtc istep
    (mk_system (with_mqtt a s) w2 pw last (if rc =? 0 then MRow l else MUnlockReplay))
    (mk_system (with_metrics (with_mqtt a s2) m) w3 pw last MUnlockReplay)) as (m & -> & Hr).
  { destruct (rc =? 0).
    - rewrite <- Est in H3. by eapply (replay_rows_runs (with_mqtt a s)).
    - io_done H3. eexists. split; [done|]. destruct a. apply rtc_refl. }
  etrans; [exact Hr|]. clear Hr. io_go H. apply bind_run in H as (cnt & w4 & H4 & H). io_done H.
  monitor_moves n. rewrite <- Est in H4. monitor_moves n. apply rtc_refl.
Qed.

Lemma ping_runs a n w rc s' w' pw last :
  worker_holds pw = false →
  mqtt_session_ping (Some (app_mqtt a)) n w = Some ((rc, s'), w') →
  rtc istep (mk_system a w pw last MLockPing)
    (mk_system (with_mqtt a (default (app_mqtt a) s')) w' pw last MPayload).
Proof.
  intros Hpw H. unfold mqtt_session_ping in H. io_go H. apply bind_run in H as ([rc1 s1] & w1 & H1 & H).
  assert (ping_locked (app_mqtt a) n (mk_world (EvLock :: w_trace w) (w_glob w)) = Some (s1, w1)) as Hp.
  { unfold ping_locked. destruct (_ && _); [|by io_done H1].
    apply bind_run in H1 as (rc2 & w2 & H2 & H1). erewrite bind_eq by exact H2. cbv beta.
    destruct (rc2 =? 0); [by io_done H1|]. apply bind_run in H1 as (s2 & w3 & H3 & H1). by io_done H1. }
  io_go H. io_done H. do 3 monitor_moves n. apply rtc_refl.
Qed.

Lemma monitor_runs a n w a' w' pw last :
  worker_holds pw = false → monitor_on_timer a n w = Some (a', w') →
  rtc istep (mk_system a w pw last MIdle) (mk_system a' w' pw last MIdle).
Proof.
  intros Hpw H. unfold monitor_on_timer in H. apply bind_run in H as (run & w0 & H0 & H).
  destruct run; [|io_done H; monitor_moves n; apply rtc_refl].
  unfold monitor_round in H.
  apply bind_run in H as (a1 & w1 & H1 & H). apply bind_run in H as (u2 & w2 & H2 & H).
  apply bind_run in H as (ia & w3 & H3 & H). apply bind_run in H as (wa & w4 & H4 & H).
  apply bind_run in H as (u5 & w5 & H5 & H). apply bind_run in H as (u6 & w6 & H6 & H).
  assert (check_heartbeats a n w0 = Some (a1, w6)) as Hc by (unfold check_heartbeats; piece_runs).
  clear H1 H2 H3 H4 H5 H6. monitor_moves n. clear Hc H0.
  apply bind_run in H as ([[k s] m] & w7 & H7 & H). apply bind_run in H as ([rc8 s8] & w8 & H8 & H).
  etrans; [by eapply (replay_runs _ _ _ _ _ _ _ _ _ Hpw H7)|].
  etrans; [by eapply (ping_runs _ _ _ _ _ _ _ _ Hpw H8)|]. clear H7 H8.
  apply bind_run in H as (now & w9 & H9 & H). apply bind_run in H as (cnt & w10 & H10 & H).
  apply bind_run in H as ([rc11 s11] & w11 & H11 & H). unfold mqtt_session_publish_heartbeat in H11.
  io_go H11. apply bind_run in H11 as ([rc12 s12] & w12 & H12 & H11). io_go H11. io_done H11.
  apply bind_run in H as (a13 & w13 & H13 & H). apply bind_run in H as (u14 & w14 & H14 & H). io_done H.
  do 5 monitor_moves n. apply rtc_refl.
Qed.
(** A step of [AppInv], of whichever thread, from loop heads to loop heads. *)
Lemma app_step_runs a w a' w' :
  app_step (a, w) (a', w') →
  (∀ fd, w_trace w' = EvClose fd :: w_trace w → is_open fd (w_trace w) = false) →
  ∃ last last', rtc istep (mk_system a w WPop last MIdle) (mk_system a' w' WPop last' MIdle).
Proof.
  intros H Hc. inversion H as [n ? ? ? ? Hb|n ? ? last ? last' ? Hb|n ? ? ? ? Hb|n ? ? ? ? Hb|? ? e He]; subst.
  - exists 0, 0. by eapply rtc_once, int_ingress.
  - exists last, last'. by eapply worker_body_runs.
  - exists 0, 0. by eapply monitor_runs.
  - exists 0, 0. by eapply rtc_once, int_exit.
  - exists 0, 0. apply rtc_once, int_loop. unfold loop_call. rewrite He. destruct e; try done. by rewrite Hc.
Qed.
End refinement.

Section properties.
Context {env : Env}.

(** C24: the interleaved machine contains the bodies: a whole body of the worker
    is a run of its pieces from its loop head back to it, wherever the monitor
    stands outside its critical sections, and a whole round of the monitor,
    with every row it replays, is a run of its pieces wherever the worker
    stands outside its own; and every step of the sequential machine
    ([app_step]) is a run from the loop heads back to them, given that the loops
    close no open socket. *)
Theorem bodies_are_runs a n w a' w' pw last pm :
  worker_holds pw = false → monitor_holds pm = false →
  (∀ last', worker_body a last n w = Some ((a', last'), w') →
     rtc istep (mk_system a w WPop last pm) (mk_system a' w' WPop last' pm)) ∧
  (monitor_on_timer a n w = Some (a', w') →
     rtc istep (mk_system a w pw last MIdle) (mk_system a' w' pw last MIdle)) ∧
  (app_step (a, w) (a', w') →
     (∀ fd, w_trace w' = EvClose fd :: w_trace w → is_open fd (w_trace w) = false) →
     ∃ last last', rtc istep (mk_system a w WPop last MIdle) (mk_system a' w' WPop last' MIdle)).
Proof.
  intros Hpw Hpm. split; [intros last'; by apply worker_body_runs|].
  split; [by apply monitor_runs|apply app_step_runs].
Qed.
End properties.

(** ** A concrete run *)

Lemma bodies_are_runs_witness :
  ∃ a' last w', @worker_body demo_app_env demo_app 0 20%nat demo_stored = Some ((a', last), w') ∧
    rtc (@istep demo_app_env) (mk_system demo_app demo_stored WPop 0 MCount) (mk_system a' w' WPop last MCount).
Proof.
  destruct (returns_run (@worker_body demo_app_env demo_app 0) 20 demo_stored ltac:(vm_compute; reflexivity))
    as ([a' last] & w' & H).
  exists a', last, w'. split; [exact H|].
  exact (proj1 (@bodies_are_runs demo_app_env demo_app 20 demo_stored a' w' WPop 0 MCount eq_refl eq_refl) last H).
Defined.
