(* ===== verification/Line.v ===== *)
(** * The session on its connection

    What a connection has carried: the bytes written on a descriptor since its
    socket was made, and how the operations of the session, the pings and the
    watchdog's messages change them; the computations that touch neither the
    session's connection nor the outbox. *)

From S2P Require Export Interleave.

#[local] Open Scope Z_scope.

(** ** Connections *)

(** The bytes written on a descriptor since the socket was made. *)
Fixpoint conn (fd : Z) (tr : trace) : bytes :=
  match tr with
  | [] => []
  | EvSocket fd' :: tr' => if fd' =? fd then [] else conn fd tr'
  | e :: tr' => conn fd tr' ++ ev_sent fd e
  end.

(** POSIX: a new socket does not get the number of an open one. *)
Class FreshSockets (env : Env) : Prop :=
  fresh_socket : ∀ tr, 0 <= env_socket tr → is_open (env_socket tr) tr = false.

(** No socket made, written or closed, and the lock left alone. *)
Definition harmless (e : event) : bool :=
  match e with
  | EvSocket _ | EvNotifyOpen _ _ | EvSend _ _ _ | EvClose _ | EvLock | EvUnlock => false
  | _ => true
  end.

(** Nothing that makes or closes a socket. *)
Definition keeps_sockets (e : event) : bool :=
  match e with EvSocket _ | EvNotifyOpen _ _ | EvClose _ => false | _ => true end.

Lemma harmless_sockets evs : Forall (λ e, harmless e = true) evs → Forall (λ e, keeps_sockets e = true) evs.
Proof. intros H. eapply Forall_impl; [exact H|]. by intros []. Qed.

Lemma talk_sockets fd evs : Forall (is_talk fd) evs → Forall (λ e, keeps_sockets e = true) evs.
Proof. intros H. eapply Forall_impl; [exact H|]. by intros e [(? & ? & ->)|(? & ? & ->)]. Qed.

Lemma open_app fd evs tr :
  Forall (λ e, keeps_sockets e = true) evs → is_open fd (evs ++ tr) = is_open fd tr.
Proof. induction 1 as [|e evs He _ IH]; [done|]. by destruct e. Qed.

Lemma open_stray fd fd' tr : is_open fd tr = false → is_open fd' (EvClose fd :: tr) = is_open fd' tr.
Proof. cbn [is_open]. by destruct (Z.eqb_spec fd fd') as [->|]. Qed.

Lemma conn_app fd evs tr :
  Forall (λ e, keeps_sockets e = true) evs → conn fd (evs ++ tr) = conn fd tr ++ sent fd evs.
Proof.
  induction 1 as [|e evs He _ IH]; [by rewrite app_nil_r|].
  destruct e; try done; cbn [app conn sent]; by rewrite IH, app_assoc.
Qed.

Lemma sent_harmless fd evs : Forall (λ e, harmless e = true) evs → sent fd evs = [].
Proof. induction 1 as [|e evs He _ IH]; [done|]. cbn [sent]. rewrite IH. by destruct e. Qed.

Lemma sent_other fd fd' evs : fd ≠ fd' → Forall (is_talk fd') evs → sent fd evs = [].
Proof.
  intros Hne. induction 1 as [|e evs He _ IH]; [done|]. cbn [sent]. rewrite IH.
  destruct He as [(d & r & ->)|(k & r & ->)]; [|done]. cbn [ev_sent app].
  destruct r; [|done..]. by destruct (Z.eqb_spec fd' fd).
Qed.

(** ** Streams of packets *)

Definition opening (c : gateway_config_t) : option bytes :=
  connect_frame (client_id c) (u16 (cfg_mqtt_keepalive_sec c)).

(** What the gateway sends on an open connection. *)
Inductive packet (c : gateway_config_t) : bytes → Prop :=
  | packet_ping : packet c ping_frame
  | packet_telemetry payload f : publish_frame (cfg_mqtt_topic c) payload = Some f → packet c f
  | packet_heartbeat payload f : publish_frame (cfg_mqtt_heartbeat_topic c) payload = Some f → packet c f.

(** CONNECT, then whole packets, then [f]. *)
Definition arrived (c : gateway_config_t) (f b : bytes) : Prop :=
  ∃ hs ps, opening c = Some hs ∧ Forall (packet c) ps ∧ b = hs ++ concat ps ++ f.

Definition stream_ok (c : gateway_config_t) (b : bytes) : Prop := arrived c [] b.

(** At some moment, a connection had carried exactly that. *)
Definition delivered (c : gateway_config_t) (f : bytes) (tr : trace) : Prop :=
  ∃ later tr1 fd, tr = later ++ tr1 ∧ arrived c f (conn fd tr1).

Lemma delivered_later c f evs tr : delivered c f tr → delivered c f (evs ++ tr).
Proof. intros (l & t & fd & -> & H). exists (evs ++ l), t, fd. by rewrite app_assoc. Qed.

Lemma stream_send c b f : stream_ok c b → arrived c f (b ++ f).
Proof.
  intros (hs & ps & Ho & Hp & ->). exists hs, ps. rewrite app_nil_r, <- app_assoc. by split_and!.
Qed.

Lemma stream_packet c b f : stream_ok c b → packet c f → stream_ok c (b ++ f).
Proof.
  intros (hs & ps & Ho & Hp & ->) Hf. exists hs, (ps ++ [f]). split_and!; [done| |].
  - apply Forall_app_2; [done|by constructor].
  - rewrite concat_app. cbn [concat]. by rewrite !app_nil_r, <- app_assoc.
Qed.

Lemma stream_opening c hs : opening c = Some hs → stream_ok c hs.
Proof. intros H. exists hs, []. split_and!; [done|constructor|]. simpl. by rewrite app_nil_r. Qed.

(** ** The session on its line *)

(** The watchdog's socket is open; the session, when connected, has another
    descriptor, whose stream is in order; no other socket is open. *)
Record line_ok (c : gateway_config_t) (s : mqtt_session_t) (w : world) : Prop := {
  lo_session : session_ok s;
  lo_cfg : ms_cfg s = c;
  lo_notify : 0 <= g_notify_fd (w_glob w) → is_open (g_notify_fd (w_glob w)) (w_trace w) = true;
  lo_line : ms_connected s = true →
    ms_fd s ≠ g_notify_fd (w_glob w) ∧ stream_ok c (conn (ms_fd s) (w_trace w));
  lo_only fd : 0 <= fd → is_open fd (w_trace w) = true →
    fd = g_notify_fd (w_glob w) ∨ ms_connected s = true ∧ fd = ms_fd s
}.

Lemma line_fd c s w : line_ok c s w → ms_connected s = true → 0 <= ms_fd s.
Proof. intros [Hok _ _ _ _] Hon. unfold session_ok in Hok. by rewrite Hon in Hok. Qed.

(** Closing what is not an open socket. *)
Lemma line_stray c s w fd :
  line_ok c s w → is_open fd (w_trace w) = false →
  line_ok c s (mk_world (EvClose fd :: w_trace w) (w_glob w)).
Proof.
  intros [Hok Hcfg Hn Hl Ho] Hf. split; [done|done| | |]; cbn [w_glob w_trace].
  - by rewrite open_stray.
  - intros Hon. cbn [conn ev_sent]. rewrite app_nil_r. by apply Hl.
  - intros fd'. rewrite open_stray by done. apply Ho.
Qed.

(** Events that leave the sockets alone: the stream grows by what they send. *)
Lemma line_grow c s w w' evs :
  line_ok c s w → w_trace w' = evs ++ w_trace w → g_notify_fd (w_glob w') = g_notify_fd (w_glob w) →
  Forall (λ e, keeps_sockets e = true) evs →
  (ms_connected s = true → sent (ms_fd s) evs = [] ∨ packet c (sent (ms_fd s) evs)) →
  line_ok c s w'.
Proof.
  intros [Hok Hcfg Hn Hl Ho] Htr Hg Hk Hs. split; [done|done| | |].
  - rewrite Hg, Htr, open_app by done. done.
  - intros Hon. rewrite Hg, Htr, conn_app by done. destruct (Hl Hon) as [Hne Hst]. split; [done|].
    destruct (Hs Hon) as [->|Hp]; [by rewrite app_nil_r|by apply stream_packet].
  - intros fd. rewrite Hg, Htr, open_app by done. apply Ho.
Qed.

(** The connection is closed, whatever part of a packet it carried. *)
Lemma line_close c s w evs :
  line_ok c s w → ms_connected s = true → Forall (is_send (ms_fd s)) evs →
  line_ok c (with_connection s (-1) false)
    (mk_world (EvClose (ms_fd s) :: evs ++ w_trace w) (w_glob w)).
Proof.
  intros [Hok Hcfg Hn Hl Ho] Hon Hs. pose proof (talk_sockets _ _ (send_talk _ _ Hs)) as Hk.
  split; [done|done| |done|]; cbn [w_glob w_trace is_open].
  - rewrite open_app by done. intros H. rewrite (Hn H), andb_true_r.
    destruct (Hl Hon) as [Hne _]. by destruct (Z.eqb_spec (ms_fd s) (g_notify_fd (w_glob w))).
  - intros fd Hp. rewrite open_app by done. intros [Hne%negb_true_iff%Z.eqb_neq H]%andb_true_iff.
    destruct (Ho fd Hp H) as [|[_ ->]]; [by left|done].
Qed.

Section line.
Context {env : Env} {fresh : FreshSockets env} (c : gateway_config_t).

(** A new socket: what was open stays open, its number is new, nothing was
    sent on it; a failed attempt leaves no socket. *)
Lemma open_tcp_line n w fd w' :
  mqtt_open_tcp c n w = Some (fd, w') →
  ∃ evs, w' = mk_world (evs ++ w_trace w) (w_glob w) ∧ Forall (λ e, is_net e = true) evs ∧
    (∀ fd', 0 <= fd' → is_open fd' (w_trace w) = true → is_open fd' (w_trace w') = true ∧ fd' ≠ fd) ∧
    (∀ fd', 0 <= fd' → is_open fd' (w_trace w') = true → is_open fd' (w_trace w) = true ∨ fd' = fd) ∧
    (0 <= fd ∧ conn fd (w_trace w') = [] ∨ fd = -1).
Proof.
  unfold mqtt_open_tcp. intros H. io_go H. pose proof (fresh_socket (w_trace w)) as Hfresh. revert H Hfresh.
  generalize (env_socket (w_trace w)) as s. intros s H Hfresh.
  destruct (Z.ltb_spec s 0) as [Hs|Hs].
  { io_done H. exists [EvSocket s]. split_and!; [done|by repeat constructor|..|by right].
    - intros fd' Hp Ho. cbn [w_trace is_open]. rewrite Ho, orb_true_r. split; [done|lia].
    - intros fd' Hp [?%Z.eqb_eq|?]%orb_true_iff; [lia|by left]. }
  specialize (Hfresh Hs).
  assert (∀ fd', 0 <= fd' → is_open fd' (w_trace w) = true → fd' ≠ s) as Hne by (intros fd' _ Ho ->; congruence).
  assert (∀ fd', 0 <= fd' → is_open fd' (w_trace w) = true →
    negb (s =? fd') && ((s =? fd') || is_open fd' (w_trace w)) = true ∧ fd' ≠ -1) as Hclosed.
  { intros fd' Hp Ho. split; [|lia]. rewrite Ho, orb_true_r, andb_true_r.
    apply negb_true_iff, Z.eqb_neq. intros ->. congruence. }
  assert (∀ fd', 0 <= fd' → negb (s =? fd') && ((s =? fd') || is_open fd' (w_trace w)) = true →
    is_open fd' (w_trace w) = true ∨ fd' = -1) as Hback.
  { intros fd' _ [H1%negb_true_iff H2]%andb_true_iff. rewrite H1 in H2. by left. }
  destruct (env_inet_pton _); cbn [negb] in H; io_go H.
  2: { io_done H. eexists [_; _]. split_and!; [done|by repeat constructor|exact Hclosed|exact Hback|by right]. }
  destruct (env_connect _ _); cbn [negb] in H; io_go H; io_done H.
  - eexists [_; _]. split_and!; [done|by repeat constructor|..|left].
    + intros fd' Hp Ho. cbn [w_trace is_open app]. rewrite Ho, orb_true_r. auto.
    + intros fd' Hp [->%Z.eqb_eq|?]%orb_true_iff; [by right|by left].
    + split; [done|]. cbn [w_trace app conn ev_sent]. by rewrite Z.eqb_refl.
  - eexists [_; _; _]. split_and!; [done|by repeat constructor|exact Hclosed|exact Hback|by right].
Qed.

Lemma shutdown_closed s n w :
  session_ok s → ms_connected s = false →
  mqtt_shutdown_locked s n w = Some (with_connection s (-1) false, w).
Proof. unfold session_ok, mqtt_shutdown_locked. intros H E. rewrite E in H. by rewrite H. Qed.

(** Opening the connection puts the CONNECT frame first on it. *)
Lemma ensure_line s n w rc s' w' :
  line_ok c s w → mqtt_ensure_connected_locked s n w = Some ((rc, s'), w') →
  ∃ evs, w' = mk_world (evs ++ w_trace w) (w_glob w) ∧ Forall (λ e, is_net e = true) evs ∧
    line_ok c s' w' ∧ (rc = 0 → ms_connected s' = true).
Proof.
  unfold mqtt_ensure_connected_locked. intros Hl H. pose proof Hl as [Hok Hcfg Hn _ Hly].
  destruct (ms_connected s) eqn:Ec.
  { pose proof (line_fd _ _ _ Hl Ec) as Hfd. destruct (Z.leb_spec 0 (ms_fd s)); [|lia].
    cbn [andb] in H. io_done H. exists []. destruct w'. by split_and!. }
  cbn [andb] in H. erewrite bind_eq in H by (by apply shutdown_closed).
  cbn [with_connection ms_cfg ms_connected] in H.
  rewrite Hcfg in H. apply bind_run in H as (fd & w1 & Ho & H).
  apply open_tcp_line in Ho as (e1 & -> & Hn1 & Hopen & Hback & Hfd1). cbn [w_trace w_glob] in Hopen, Hback, Hfd1.
  assert (∀ fd', 0 <= fd' → is_open fd' (e1 ++ w_trace w) = true → fd' = g_notify_fd (w_glob w) ∨ fd' = fd) as Hly1.
  { intros fd' Hp [H1| ->]%Hback; [|by right|done]. destruct (Hly fd' Hp H1) as [->|[? _]]; [by left|congruence]. }
  destruct (Z.ltb_spec fd 0) as [Hneg|Hpos].
  { io_done H. exists e1. destruct Hfd1 as [[]| ->]; [lia|]. split_and!; [done|done| |done].
    split; [done|done| |done|]; cbn [w_trace w_glob].
    - intros Hp. by apply Hopen; auto.
    - intros fd' Hp [->| ->]%Hly1; [by left|lia|done]. }
  destruct Hfd1 as [[_ Hconn]| ->]; [|lia].
  apply bind_run in H as (rc1 & w2 & Hc & H).
  apply send_connect_run in Hc as (e2 & -> & Ht & Hrc). cbn [w_trace w_glob] in H.
  pose proof (talk_net _ _ Ht) as Hn2. pose proof (talk_sockets _ _ Ht) as Hk2.
  destruct Hrc as [(-> & f & Hf & Hs2)| ->]; cbn [Z.eqb negb] in H.
  - io_done H. exists (e2 ++ e1). rewrite <- app_assoc.
    split; [done|]. split; [by apply Forall_app_2|]. split; [|done].
    split; [done|done| | |]; cbn [w_trace w_glob ms_fd ms_connected with_connection].
    + intros Hp. rewrite open_app by done. by apply Hopen; auto.
    + intros _. split.
      * destruct (Z.le_gt_cases 0 (g_notify_fd (w_glob w))) as [Hp|Hp]; [|lia].
        intros ->. by apply (Hopen _ Hp (Hn Hp)).
      * rewrite conn_app, Hconn by done. by apply stream_opening.
    + intros fd' Hp. rewrite open_app by done. intros [->| ->]%Hly1; [by left|by right|done].
  - erewrite bind_eq in H by (by apply shutdown_open). cbn [ms_fd with_connection w_trace w_glob] in H.
    io_done H. exists (EvClose fd :: e2 ++ e1). cbn [app]. rewrite <- app_assoc. split; [done|].
    split; [constructor; [done|by apply Forall_app_2]|]. split; [|done].
    split; [done|done| |done|]; cbn [w_trace w_glob is_open].
    + intros Hp. rewrite open_app by done. destruct (Hopen _ Hp (Hn Hp)) as [-> Hne].
      rewrite andb_true_r. by apply negb_true_iff, Z.eqb_neq.
    + intros fd' Hp. rewrite open_app by done. intros [Hne%negb_true_iff%Z.eqb_neq H1]%andb_true_iff.
      apply Hly1 in H1 as [->| ->]; [by left|done|done].
Qed.

(** A frame written on the open connection arrives whole, or the connection is
    closed. *)
Lemma send_line s n w rc w' topic payload :
  line_ok c s w → ms_connected s = true → (∀ f, publish_frame topic payload = Some f → packet c f) →
  mqtt_send_publish (ms_fd s) topic payload n w = Some (rc, w') →
  ∃ evs, w' = mk_world (evs ++ w_trace w) (w_glob w) ∧ Forall (is_send (ms_fd s)) evs ∧
    (rc = 0 ∧ line_ok c s w' ∧
       (∃ f, publish_frame topic payload = Some f ∧ arrived c f (conn (ms_fd s) (w_trace w'))) ∨
     rc = -1).
Proof.
  intros Hl Hon Hpk H. apply send_publish_run in H as (evs & -> & Hs & Hrc). exists evs.
  split; [done|]. split; [done|]. destruct Hrc as [[-> Hf]| ->]; [left|by right].
  pose proof (talk_sockets _ _ (send_talk _ _ Hs)) as Hk. split; [done|]. split.
  - eapply line_grow; [exact Hl|done|done|done|]. intros _. right. by apply Hpk.
  - eexists. split; [exact Hf|]. cbn [w_trace]. rewrite conn_app by done.
    apply stream_send. by destruct Hl as [_ _ _ [] _].
Qed.

Lemma publish_line s topic payload n w rc s' w' :
  line_ok c s w → (∀ f, publish_frame topic payload = Some f → packet c f) →
  publish_locked s topic payload n w = Some ((rc, s'), w') →
  ∃ evs, w' = mk_world (evs ++ w_trace w) (w_glob w) ∧ Forall (λ e, is_net e = true) evs ∧
    line_ok c s' w' ∧
    (rc = 0 → ∃ f, publish_frame topic payload = Some f ∧ delivered c f (w_trace w')).
Proof.
  unfold publish_locked. intros Hl Hpk H. apply bind_run in H as ([rc1 s1] & w1 & He & H).
  apply ensure_line in He as (e1 & -> & Hn1 & Hl1 & Hon); [|done].
  destruct (Z.eqb_spec rc1 0) as [->|Hrc]. 2: { io_done H. exists e1. by split_and!. }
  specialize (Hon eq_refl). apply bind_run in H as (rc2 & w2 & Hp & H).
  apply send_line in Hp as (e2 & -> & Hs2 & Hc2); [|done..]. cbn [w_trace w_glob] in H, Hc2.
  pose proof (talk_net _ _ (send_talk _ _ Hs2)) as Hn2.
  destruct Hc2 as [(-> & Hl2 & f & Hf & Ha)| ->]; cbn [Z.eqb] in H.
  - io_done H. exists (e2 ++ e1). rewrite <- app_assoc. split_and!; [done|by apply Forall_app_2|done|].
    intros _. exists f. split; [done|]. by exists [], (e2 ++ e1 ++ w_trace w), (ms_fd s').
  - erewrite bind_eq in H by (by eapply shutdown_open, line_fd). cbn [w_trace w_glob] in H. io_done H.
    exists (EvClose (ms_fd s1) :: e2 ++ e1). cbn [app]. rewrite <- app_assoc.
    split; [done|]. split; [constructor; [done|by apply Forall_app_2]|]. split; [|done].
    apply (line_close c s1 (mk_world (e1 ++ w_trace w) (w_glob w)) e2); done.
Qed.

Lemma ping_line s n w s' w' :
  line_ok c s w → ping_locked s n w = Some (s', w') →
  ∃ evs, w' = mk_world (evs ++ w_trace w) (w_glob w) ∧ Forall (λ e, is_net e = true) evs ∧ line_ok c s' w'.
Proof.
  unfold ping_locked. intros Hl H.
  destruct (ms_connected s) eqn:Hon; cbn [andb] in H. 2: { io_done H. exists []. by destruct w'. }
  pose proof (line_fd _ _ _ Hl Hon) as Hfd. destruct (Z.leb_spec 0 (ms_fd s)); [|lia].
  apply bind_run in H as (rc & w1 & Hw & H). apply write_loop_run in Hw as (evs & -> & Hs & Hrc).
  pose proof (send_talk _ _ Hs) as Ht. cbn [w_trace w_glob] in H.
  destruct Hrc as [[-> Hf]|[-> _]]; cbn [Z.eqb] in H.
  - io_done H. exists evs. split_and!; [done|by eapply talk_net|].
    eapply line_grow; [exact Hl|done|done|by eapply talk_sockets|]. intros _. right. rewrite Hf. constructor.
  - erewrite shutdown_open in H by done. io_done H. exists (EvClose (ms_fd s) :: evs).
    split_and!; [done|constructor; [done|by eapply talk_net]|]. by apply (line_close c s w evs).
Qed.
End line.

(** ** Pieces that touch neither session nor outbox *)

Definition calm (e : event) : Prop := harmless e = true ∧ outbox_quiet e.

Lemma calm_plain_event e : harmless e = true → is_step e = false → calm e.
Proof. intros. split; [done|by apply quiet_no_step]. Qed.

Lemma calm_alarm args ok : calm (EvStep sql_insert_alarm args ok).
Proof. split; [done|apply insert_alarm_quiet]. Qed.

Lemma calm_command args ok : calm (EvStep sql_insert_command args ok).
Proof. split; [done|apply insert_command_quiet]. Qed.

Create HintDb calm.
#[export] Hint Resolve calm_alarm calm_command : calm.
#[export] Hint Extern 3 (calm _) => apply calm_plain_event; reflexivity : calm.

(** [Calm fd m]: the computation adds calm events only, and leaves the
    watchdog's descriptor [fd] where it is. *)
Class Calm (fd : Z) {A} (m : io A) : Prop :=
  calm_run : ∀ n w x w', g_notify_fd (w_glob w) = fd → m n w = Some (x, w') →
    ∃ evs, w_trace w' = evs ++ w_trace w ∧ Forall calm evs ∧ g_notify_fd (w_glob w') = fd.

Section calm.
Context {env : Env} {fd : Z}.

Lemma calm_ret {A} (x : A) : Calm fd (mret x).
Proof. intros n w y w' Hg H. unfold mret, io_ret in H. simplify_eq. by exists []. Qed.

Lemma calm_bind {A B} (m : io A) (k : A → io B) : Calm fd m → (∀ x, Calm fd (k x)) → Calm fd (m ≫= k).
Proof.
  intros Hm Hk n w y w' Hg H. apply bind_run in H as (x & w1 & H1 & H2).
  apply Hm in H1 as (e1 & E1 & F1 & Hg1); [|done]. apply Hk in H2 as (e2 & E2 & F2 & Hg2); [|done].
  exists (e2 ++ e1). split_and!; [by rewrite E2, E1, app_assoc|by apply Forall_app_2|done].
Qed.

Lemma calm_call {A} (f : trace → A) ev : (∀ x, calm (ev x)) → Calm fd (call f ev).
Proof.
  intros Hc n w x w' Hg H. rewrite call_run in H. simplify_eq. exists [ev (f (w_trace w))].
  split; [done|]. split; [by apply Forall_singleton|done].
Qed.

Lemma calm_ask {A} (f : trace → A) : Calm fd (ask f).
Proof. intros n w x w' Hg H. unfold ask in H. simplify_eq. by exists []. Qed.

Lemma calm_get {A} (k : globals → io A) :
  (∀ g, g_notify_fd g = fd → Calm fd (k g)) → Calm fd (get_globals ≫= k).
Proof. intros Hk n w x w' Hg H. exact (Hk (w_glob w) Hg n w x w' Hg H). Qed.

Lemma calm_set g : g_notify_fd g = fd → Calm fd (set_globals g).
Proof. intros Hs n w x w' Hg H. unfold set_globals in H. simplify_eq. by exists []. Qed.

Lemma calm_fuel {A} (m : nat → io A) : (∀ k, Calm fd (m k)) → Calm fd (with_fuel m).
Proof. intros Hm n w x w' Hg H. by apply (Hm n) in H. Qed.

Lemma calm_out {A} : Calm fd (@out_of_fuel A).
Proof. by intros n w x w' Hg H. Qed.

Lemma calm_log level msg : Calm fd (log_vprint level msg).
Proof. unfold log_vprint, emit. apply calm_get. intros g _. apply calm_call. auto with calm. Qed.
End calm.

(** Splits a computation into its calls, like [solve_only]. *)
Ltac solve_calm :=
  repeat first
    [ progress intros | solve [auto 2 with calm nocore]
    | lazymatch goal with
      | |- Calm _ (with_fuel _) => apply calm_fuel
      | |- Calm _ out_of_fuel => apply calm_out
      end
    | apply calm_ret | apply calm_ask | apply calm_get; intros | apply calm_set; done
    | apply calm_log | apply calm_call; intros
    | apply calm_bind; [|intros]
    | match goal with |- context [match ?x with _ => _ end] => destruct x eqn:? end
    | progress unfold log_info, log_warn, log_error, emit, clock_gettime, nanosleep, prepare, step,
        rows, last_insert_rowid, edgeflow_now_ms ];
  auto.

Section pieces.
Context {env : Env} (fd : Z).

Lemma sleep_calm ms : Calm fd (edgeflow_sleep_ms ms).
Proof.
  unfold edgeflow_sleep_ms. apply calm_fuel. intros k. generalize (ms / 1000) (ms mod 1000 * 1000000).
  induction k; simpl; solve_calm.
Qed.

Lemma touch_calm a t : Calm fd (touch a t).
Proof. unfold touch, heartbeat_touch. solve_calm. Qed.

Lemma age_calm hb t : Calm fd (heartbeat_age_ms hb t).
Proof. unfold heartbeat_age_ms. solve_calm. Qed.
Hint Resolve sleep_calm touch_calm age_calm : calm.

Lemma update_metrics_calm a : Calm fd (update_heartbeat_metrics a).
Proof. unfold update_heartbeat_metrics. solve_calm. Qed.

Lemma metrics_write_calm p m : Calm fd (metrics_write_file p m).
Proof. unfold metrics_write_file. solve_calm. Qed.

Lemma append_alarm_calm st al : Calm fd (storage_append_alarm st al).
Proof. unfold storage_append_alarm, append_jsonl_line, run_statement. solve_calm. Qed.

Lemma append_command_calm st cmd : Calm fd (storage_append_command st cmd).
Proof. unfold storage_append_command, append_jsonl_line, run_statement. solve_calm. Qed.

Lemma fetch_calm st b max : Calm fd (storage_fetch_pending_telemetry st b max).
Proof. unfold storage_fetch_pending_telemetry. solve_calm. Qed.

Lemma count_calm st : Calm fd (storage_pending_telemetry_count st).
Proof. unfold storage_pending_telemetry_count. solve_calm. Qed.
Hint Resolve update_metrics_calm metrics_write_calm append_alarm_calm append_command_calm fetch_calm
  count_calm : calm.

Lemma poll_calm self out max : Calm fd (modbus_poll self out max).
Proof.
  unfold modbus_poll, modbus_rtu_poll, modbus_poll_simulate, modbus_libmodbus_poll, ensure_context,
    modbus_set_response_timeout, map_registers_to_telemetry, modbus_libmodbus_shutdown. solve_calm.
Qed.

Lemma write_calm self cmd : Calm fd (modbus_write_command self cmd).
Proof. unfold modbus_write_command. solve_calm. Qed.
Hint Resolve poll_calm write_calm : calm.

Lemma ingress_calm a : modbus_only (app_registry a) → Calm fd (ingress_body a).
Proof.
  intros (d & E & Hd). unfold ingress_body, adapter_registry_poll_all. rewrite E.
  cbn [slots poll_slots]. rewrite (md_poll d Hd). solve_calm.
Qed.

Lemma send_commands_calm d st l k : modbus_device d → Calm fd (send_commands d st l k).
Proof.
  intros Hd. revert k. induction l as [|c l IH]; intros k; simpl; [apply calm_ret|].
  apply calm_bind; [|intros; apply IH]. unfold send_command. rewrite (md_write d Hd). solve_calm.
Qed.
Hint Resolve send_commands_calm : calm.

Lemma handle_outcome_calm a al cmd : modbus_only (app_registry a) → Calm fd (handle_outcome a al cmd).
Proof.
  intros (d & _ & Hd & Hf)%modbus_only_find. unfold handle_outcome.
  apply calm_bind; [solve_calm|intros _]. case_decide; [apply calm_ret|].
  apply calm_bind; [unfold command_scheduler_submit; solve_calm|].
  intros [[rc s] c']. destruct (negb _); [apply calm_ret|].
  change (find_modbus_adapter (with_scheduler a _)) with (find_modbus_adapter a). rewrite Hf.
  unfold command_scheduler_tick. solve_calm.
Qed.

Lemma finish_calm a last : Calm fd (finish_round a last).
Proof. unfold finish_round. solve_calm. Qed.

Lemma exit_calm a : Calm fd (worker_exit a).
Proof. unfold worker_exit. solve_calm. Qed.
End pieces.

#[export] Hint Resolve sleep_calm touch_calm age_calm update_metrics_calm metrics_write_calm fetch_calm
  count_calm ingress_calm handle_outcome_calm finish_calm exit_calm : calm.
