(* ===== verification/Sharing.v ===== *)
(** * The invariant of the interleaved machine

    What holds of the application, the session's connection, the lock and the
    outbox between any two pieces of [Interleave.v], and what each thread's
    local variables remember of them; every piece of every thread preserves
    it. *)

From S2P Require Export Line.

#[local] Open Scope Z_scope.

(** ** The rows of the outbox *)

(** [f] is the PUBLISH frame of the row: with the fields it was stored with, or
    as the replay rebuilds it from the columns. *)
Definition message_of (c : gateway_config_t) (r : db_row) (f : bytes) : Prop :=
  row_frame c (row_of_columns (select_row r)) = Some f ∨
  ∃ p, dr_columns r = telemetry_binding p ∧
    publish_frame (cfg_mqtt_topic c) (telemetry_to_json p 384) = Some f.

Definition row_delivered (c : gateway_config_t) (r : db_row) (tr : trace) : Prop :=
  ∃ f, message_of c r f ∧ delivered c f tr.

(** A row that is marked uploaded was so in [old], or was delivered. *)
Definition accounted (c : gateway_config_t) (old : list db_row) (tr : trace) (r : db_row) : Prop :=
  dr_uploaded r = true →
  (∃ r0, r0 ∈ old ∧ dr_id r0 = dr_id r ∧ dr_uploaded r0 = true) ∨ row_delivered c r tr.

Lemma message_kept c r r' f : row_kept r r' → message_of c r f → message_of c r' f.
Proof. intros (Hi & Hc & _). unfold message_of, select_row. by rewrite Hi, Hc. Qed.

Lemma row_delivered_later c r r' evs tr :
  row_kept r r' → row_delivered c r tr → row_delivered c r' (evs ++ tr).
Proof. intros Hk (f & Hm & Hd). exists f. eauto using message_kept, delivered_later. Qed.

Lemma accounted_later c old evs tr r : accounted c old tr r → accounted c old (evs ++ tr) r.
Proof. intros H Hu. destruct (H Hu); [by left|right]. by eapply row_delivered_later. Qed.

(** Every row is found again, with its content. *)
Lemma rows_later db0 evs tr r :
  r ∈ db_of db0 tr → ∃ r', r' ∈ db_of db0 (evs ++ tr) ∧ row_kept r r'.
Proof.
  intros [i Hi]%list_elem_of_lookup_1. pose proof (outbox_never_loses db0 tr evs) as H.
  destruct (Forall2_lookup_l _ _ _ _ _ H Hi) as (r' & Hr' & Hk). exists r'. split; [|done].
  apply lookup_take_Some in Hr' as [Hr' _]. by eapply list_elem_of_lookup_2.
Qed.

(** The numbers tell the rows apart. *)
Lemma outbox_unique db r1 r2 : outbox_wf db → r1 ∈ db → r2 ∈ db → dr_id r1 = dr_id r2 → r1 = r2.
Proof.
  intros [Hs _] [i Hi]%list_elem_of_lookup_1 [j Hj]%list_elem_of_lookup_1 E.
  assert (i = j) as ->; [|congruence].
  apply (NoDup_lookup (dr_id <$> db) i j (dr_id r1)).
  - clear -Hs. induction Hs as [|x l Hs IH Hf]; constructor; [|done].
    intros Hin. rewrite Forall_forall in Hf. specialize (Hf x Hin). lia.
  - by rewrite list_lookup_fmap, Hi.
  - by rewrite list_lookup_fmap, Hj, E.
Qed.

(** ** The lock *)

(** Whether the lock is held after a trace; [None] when it was taken while held
    or released while free. *)
Fixpoint mutex (tr : trace) : option bool :=
  match tr with
  | [] => Some false
  | EvLock :: tr' => if decide (mutex tr' = Some false) then Some true else None
  | EvUnlock :: tr' => if decide (mutex tr' = Some true) then Some false else None
  | _ :: tr' => mutex tr'
  end.

Lemma mutex_app evs tr : Forall (λ e, lockless e = true) evs → mutex (evs ++ tr) = mutex tr.
Proof. induction 1 as [|e evs He _ IH]; [done|]. by destruct e. Qed.

(** The events of a piece of a thread that holds the lock before it ([b]) and
    after it ([b']). *)
Definition turns (b b' : bool) (evs : trace) : Prop :=
  match b, b' with
  | false, true => evs = [EvLock]
  | true, false => evs = [EvUnlock]
  | _, _ => Forall (λ e, lockless e = true) evs
  end.

Lemma turns_mutex b b' other evs tr :
  turns b b' evs → mutex tr = Some (b || other) → b && other = false →
  (b = false → b' = true → other = false) →
  mutex (evs ++ tr) = Some (b' || other) ∧ b' && other = false.
Proof.
  intros Ht Hm Hx Hfree. destruct b, b'; cbn [turns orb andb] in *; subst.
  - rewrite mutex_app by done. by split.
  - simpl. by rewrite Hm.
  - rewrite Hfree in Hm |- * by done. simpl. by rewrite Hm.
  - rewrite mutex_app by done. by split.
Qed.

(** ** The invariant *)

Section invariant.
Context {env : Env} {fresh : FreshSockets env}.
Context (db0 : list db_row) {spec : SqliteSpec env db0}.
Context (c : gateway_config_t) (st : storage_ctx_t) (old : list db_row).

Abbreviation db w := (db_of db0 (w_trace w)).

(** What holds of the shared state between two pieces. *)
Record good (a : gateway_app_t) (w : world) : Prop := {
  go_inv : app_inv c st a;
  go_line : line_ok c (app_mqtt a) w;
  go_rows : ∀ r, r ∈ db w → accounted c old (w_trace w) r
}.

(** The point is as the quality rule leaves it; the row was stored for the
    point; the row was stored and delivered. *)
Definition ruled_point (p : telemetry_t) : Prop := ∃ q, p = apply_quality_rules c q.

Definition stored (w : world) (row : Z) (p : telemetry_t) : Prop :=
  ∃ r, r ∈ db w ∧ dr_id r = row ∧ dr_columns r = telemetry_binding p.

Definition sent_row (w : world) (row : Z) : Prop :=
  ∃ r, r ∈ db w ∧ dr_id r = row ∧ row_delivered c r (w_trace w).

Definition fetched (w : world) (row : storage_telemetry_row_t) : Prop :=
  ∃ r, r ∈ db w ∧ row = row_of_columns (select_row r).

Definition worker_ok (pc : worker_pc) (w : world) : Prop :=
  match pc with
  | WStore p => ruled_point p
  | WDecide p row => ruled_point p ∧ (0 < row → stored w row p)
  | WLock p row | WSend p row => 0 < row → stored w row p
  | WUnlock row rc | WMark row rc => rc = 0 → 0 < row → sent_row w row
  | WPop | WFinish => True
  end.

Definition monitor_ok (pc : monitor_pc) (s : mqtt_session_t) (w : world) : Prop :=
  match pc with
  | MLockReplay l | MConnect l => Forall (fetched w) l
  | MRow l => ms_connected s = true ∧ Forall (fetched w) l
  | MMark row l => ms_connected s = true ∧ Forall (fetched w) l ∧ sent_row w (row_id row)
  | _ => True
  end.

Record sound (y : system) : Prop := {
  so_good : good (sy_app y) (sy_world y);
  so_worker : worker_ok (sy_worker y) (sy_world y);
  so_monitor : monitor_ok (sy_monitor y) (app_mqtt (sy_app y)) (sy_world y);
  so_lock : mutex (w_trace (sy_world y)) = Some (worker_holds (sy_worker y) || monitor_holds (sy_monitor y));
  so_exclusive : worker_holds (sy_worker y) && monitor_holds (sy_monitor y) = false
}.

(** *** What time does not take back *)

Definition grows (w w' : world) : Prop := ∃ evs, w_trace w' = evs ++ w_trace w.

Lemma stored_later w w' row p : grows w w' → stored w row p → stored w' row p.
Proof.
  intros [evs E] (r & Hr & <- & Hc). destruct (rows_later db0 evs (w_trace w) r Hr) as (r' & Hr' & Hi & Hc' & _).
  exists r'. rewrite E. split_and!; [done|done|congruence].
Qed.

Lemma sent_later w w' row : grows w w' → sent_row w row → sent_row w' row.
Proof.
  intros [evs E] (r & Hr & <- & Hd). destruct (rows_later db0 evs (w_trace w) r Hr) as (r' & Hr' & Hk).
  exists r'. rewrite E. split_and!; [done|apply Hk|by eapply row_delivered_later].
Qed.

Lemma fetched_later w w' row : grows w w' → fetched w row → fetched w' row.
Proof.
  intros [evs E] (r & Hr & ->). destruct (rows_later db0 evs (w_trace w) r Hr) as (r' & Hr' & Hi & Hc & _).
  exists r'. rewrite E. split; [done|]. unfold select_row. by rewrite Hi, Hc.
Qed.

Lemma worker_later pc w w' : grows w w' → worker_ok pc w → worker_ok pc w'.
Proof.
  intros Hg. destruct pc; simpl; try done; [intros [Hr H]; split; [done|]|..];
    eauto using stored_later, sent_later.
Qed.

Lemma monitor_later pc s s' w w' :
  grows w w' → (monitor_holds pc = true → s' = s) → monitor_ok pc s w → monitor_ok pc s' w'.
Proof.
  intros Hg Hs. assert (∀ l, Forall (fetched w) l → Forall (fetched w') l) as Hl.
  { intros l H. eapply Forall_impl; [exact H|]. intros row. by apply fetched_later. }
  destruct pc; simpl in *; try done; [auto..| |].
  - rewrite Hs by done. intros [? ?]. auto.
  - rewrite Hs by done. intros (? & ? & ?). eauto using sent_later.
Qed.

(** *** Pieces *)

(** The shared state stays good, and the lock is left alone. *)
Definition advance (w : world) (a' : gateway_app_t) (w' : world) : Prop :=
  good a' w' ∧ ∃ evs, w_trace w' = evs ++ w_trace w ∧ Forall (λ e, lockless e = true) evs.

Lemma advance_trans w a1 w1 a2 w2 : advance w a1 w1 → advance w1 a2 w2 → advance w a2 w2.
Proof.
  intros (_ & e1 & E1 & F1) (Hg & e2 & E2 & F2). split; [done|]. exists (e2 ++ e1).
  split; [by rewrite E2, E1, app_assoc|by apply Forall_app_2].
Qed.

Lemma advance_grows w a' w' : advance w a' w' → grows w w'.
Proof. intros (_ & evs & E & _). by exists evs. Qed.

Lemma rows_quiet w evs tr' :
  (∀ r, r ∈ db w → accounted c old (w_trace w) r) → tr' = evs ++ w_trace w → Forall outbox_quiet evs →
  ∀ r, r ∈ db_of db0 tr' → accounted c old tr' r.
Proof. intros Hr -> Hq r. rewrite quiet_db_of by done. intros H. by apply accounted_later, Hr. Qed.

(** Events that use neither the session's line nor the table of points. *)
Lemma advance_events a w a' w' evs :
  good a w → app_inv c st a' → app_mqtt a' = app_mqtt a →
  w_trace w' = evs ++ w_trace w → g_notify_fd (w_glob w') = g_notify_fd (w_glob w) →
  Forall (λ e, keeps_sockets e = true) evs → Forall (λ e, lockless e = true) evs →
  (ms_connected (app_mqtt a) = true → sent (ms_fd (app_mqtt a)) evs = []) → Forall outbox_quiet evs →
  advance w a' w'.
Proof.
  intros [Hi Hl Hr] Hi' Hs E Hg Hk Hf Hn Hq. split; [split; [done| |]|by exists evs].
  - rewrite Hs. eapply line_grow; [done|exact E|done|done|]. intros Hon. left. by apply Hn.
  - by eapply rows_quiet.
Qed.

Lemma calm_quiet evs : Forall calm evs → Forall (λ e, harmless e = true) evs ∧ Forall outbox_quiet evs.
Proof. intros H. split; (eapply Forall_impl; [exact H|]); by intros e []. Qed.

Lemma harmless_lockless evs : Forall (λ e, harmless e = true) evs → Forall (λ e, lockless e = true) evs.
Proof. intros H. eapply Forall_impl; [exact H|]. by intros []. Qed.

Lemma advance_calm {A} (m : io A) a n w x a' w' :
  good a w → Calm (g_notify_fd (w_glob w)) m → m n w = Some (x, w') →
  app_inv c st a' → app_mqtt a' = app_mqtt a → advance w a' w'.
Proof.
  intros Hg Hm H Hi Hs. apply Hm in H as (evs & E & F & Hn); [|done]. apply calm_quiet in F as [Fh Fq].
  eapply advance_events; eauto using harmless_sockets, harmless_lockless, sent_harmless.
Qed.

Lemma advance_refl a w a' :
  good a w → app_inv c st a' → app_mqtt a' = app_mqtt a → advance w a' w.
Proof. intros Hg Hi Hs. apply (advance_calm (mret tt) a 0 w tt); try done. apply calm_ret. Qed.

(** Events of the session's connection. *)
Lemma advance_net a w s' w' evs :
  good a w → w' = mk_world (evs ++ w_trace w) (w_glob w) → Forall (λ e, is_net e = true) evs →
  line_ok c s' w' → advance w (with_mqtt a s') w'.
Proof.
  intros [Hi Hl Hr] -> Hn Hl'. split; [split|].
  - apply inv_mqtt; [done|by destruct Hl'].
  - done.
  - eapply rows_quiet; [done|done|by apply net_quiet].
  - exists evs. split; [done|by apply net_lockless].
Qed.

Lemma topic_packet payload f : publish_frame (cfg_mqtt_topic c) payload = Some f → packet c f.
Proof. apply packet_telemetry. Qed.

(** *** The table *)

(** Storing a point: a row more, still pending, or the table as it was. *)
Lemma append_piece p n w rc row w' :
  storage_append_telemetry (Some st) (Some p) (Some 0) n w = Some ((rc, row), w') →
  ∃ evs, w' = mk_world (evs ++ w_trace w) (w_glob w) ∧ Forall (λ e, harmless e = true) evs ∧
    (db w' = db w ∧ row = Some 0 ∨
     row = Some (next_id (db w)) ∧ db w' = db w ++ [mk_db_row (next_id (db w)) (telemetry_binding p) false]).
Proof.
  intros H. destruct (no_db st) eqn:Hdb.
  { unfold storage_append_telemetry, jsonl_append_telemetry, append_jsonl_line in H.
    erewrite bind_eq in H by reflexivity. rewrite Hdb in H. io_done H.
    eexists [_]. split; [done|]. split; [by repeat constructor|by left]. }
  assert (∃ evs, w' = mk_world (evs ++ w_trace w) (w_glob w) ∧ Forall (λ e, harmless e = true) evs)
    as (evs & Ew & Hh).
  { unfold storage_append_telemetry, jsonl_append_telemetry, append_jsonl_line in H.
    erewrite bind_eq in H by reflexivity. rewrite Hdb in H. io_go H.
    destruct (env_prepare _ _); cbn [negb] in H; io_go H.
    2: { io_done H. eexists [_; _]. by repeat constructor. }
    destruct (env_step _ _ _); cbn [negb] in H; io_go H; io_done H; eexists [_; _; _]; by repeat constructor. }
  exists evs. split; [done|]. split; [done|].
  apply (append_run (db0 := db0)) in H as [_ [(_ & -> & _ & E)|(_ & -> & E)]]; [right|left|done]; auto.
Qed.

Lemma append_advance a p n w rc row w' :
  good a w → storage_append_telemetry (Some st) (Some p) (Some 0) n w = Some ((rc, row), w') →
  advance w a w' ∧ (0 < default 0 row → stored w' (default 0 row) p).
Proof.
  intros [Hi Hl Hr] H. apply append_piece in H as (evs & -> & Hh & Hd). split.
  - split; [|exists evs; by split; [|apply harmless_lockless]]. split; [done| |].
    + eapply line_grow; [done|done|done|by apply harmless_sockets|]. intros _. left. by apply sent_harmless.
    + cbn [w_trace] in Hd |- *. destruct Hd as [[-> _]|[_ ->]].
      * intros r H. by apply accounted_later, Hr.
      * intros r [H|H%list_elem_of_singleton]%elem_of_app; [by apply accounted_later, Hr|]. by subst.
  - destruct Hd as [[_ ->]|[-> Ed]]; [simpl; lia|]. intros _.
    exists (mk_db_row (next_id (db w)) (telemetry_binding p) false). split; [|by split].
    rewrite Ed. apply elem_of_app. right. by apply list_elem_of_singleton.
Qed.

(** Marking a row that was delivered. *)
Lemma mark_advance a id n w rc w' :
  good a w → sent_row w id → storage_mark_telemetry_uploaded (Some st) id n w = Some (rc, w') →
  advance w a w'.
Proof.
  intros [Hi Hl Hr] (r1 & Hr1 & Hid & Hd) H. pose proof H as H'.
  apply mark_events in H as (evs & -> & Hq & _). apply (mark_run (db0 := db0)) in H'. cbv zeta in H'.
  assert (Forall (λ e, harmless e = true) evs) as Hh by (destruct Hq as [->|[[? ->]|[? ->]]]; by repeat constructor).
  split; [|exists evs; by split; [|apply harmless_lockless]]. split; [done| |].
  - eapply line_grow; [done|done|done|by apply harmless_sockets|]. intros _. left. by apply sent_harmless.
  - cbn [w_trace] in H' |- *. destruct H' as [(_ & _ & _ & ->)|(_ & ->)].
    2: { intros r H. by apply accounted_later, Hr. }
    intros r (r2 & -> & H2)%list_elem_of_fmap. unfold mark_row. case_decide as E.
    + assert (r2 = r1) as -> by (apply (outbox_unique (db w)); [apply db_of_wf, sqlite_start|done|done|congruence]).
      intros _. right. by eapply row_delivered_later.
    + by apply accounted_later, Hr.
Qed.

(** *** Turns of the threads *)

(** What a piece of a thread does, which holds the lock before it ([b]) and
    after it ([b']): the session changes only under the lock, which is taken
    only by asking for it. *)
Definition turn (b b' wants : bool) (a : gateway_app_t) (w : world) (a' : gateway_app_t) (w' : world)
    : Prop :=
  good a' w' ∧ (∃ evs, w_trace w' = evs ++ w_trace w ∧ turns b b' evs) ∧
  (b = false → app_mqtt a' = app_mqtt a ∧ (b' = true → wants = true)).

Lemma turn_advance b wants a w a' w' :
  advance w a' w' → (b = false → app_mqtt a' = app_mqtt a) → turn b b wants a w a' w'.
Proof.
  intros (Hg & evs & E & F) Hs. split; [done|]. split; [exists evs; by destruct b|].
  intros Hb. split; [auto|]. by rewrite Hb.
Qed.

Lemma good_lock a w e : e = EvLock ∨ e = EvUnlock → good a w → good a (mk_world (e :: w_trace w) (w_glob w)).
Proof.
  intros He [Hi Hl Hr]. split; [done| |].
  - eapply (line_grow _ _ _ _ [e]); [done|done|done|by constructor; [destruct He; by subst|]|].
    intros _. left. by destruct He; subst.
  - eapply (rows_quiet w [e]); [done|done|]. constructor; [|done]. apply quiet_no_step. by destruct He; subst.
Qed.

Lemma turn_lock a w : good a w → turn false true true a w a (mk_world (EvLock :: w_trace w) (w_glob w)).
Proof. intros Hg. split; [by apply good_lock; [left|]|]. split; [by exists [EvLock]|done]. Qed.

Lemma turn_unlock wants a w :
  good a w → turn true false wants a w a (mk_world (EvUnlock :: w_trace w) (w_glob w)).
Proof. intros Hg. split; [by apply good_lock; [right|]|]. split; [by exists [EvUnlock]|done]. Qed.

Lemma turn_grows b b' wants a w a' w' : turn b b' wants a w a' w' → grows w w'.
Proof. intros (_ & (evs & E & _) & _). by exists evs. Qed.

(** *** The worker *)

Lemma inv_pop a ok x r z :
  app_inv c st a → spsc_ring_pop (Some (app_ring a)) (Some z) = (ok, x, r) →
  app_inv c st (with_ring a (default (app_ring a) r)).
Proof.
  intros Hi H. unfold spsc_ring_pop in H. cbn [on_ptr] in H. pose proof (ring_pop_spec (app_ring a)) as Hp.
  destruct (ring_pop (app_ring a)) as [res r1]. destruct Hp as (Hw & Hs & _); [by destruct Hi as [_ _ []]|].
  destruct res; simplify_eq; by apply inv_ring.
Qed.

Lemma finish_inv a last n w a' last' w' :
  app_inv c st a → finish_round a last n w = Some ((a', last'), w') →
  app_inv c st a' ∧ app_mqtt a' = app_mqtt a.
Proof.
  intros Hi H. unfold finish_round in H. apply bind_run in H as (a3 & w3 & H3 & H).
  apply touch_run in H3 as (hb & -> & Hl). apply (inv_hb _ _ _ hb) in Hi; [|done].
  apply bind_run in H as (k & w4 & _ & H). apply bind_run in H as (now & w5 & _ & H).
  destruct (1000 <? _).
  - apply bind_run in H as (a4 & w6 & H6 & H). apply update_metrics_run in H6 as (m & ->).
    apply bind_run in H as (u & w7 & _ & H). apply bind_run in H as (l & w8 & _ & H). io_done H.
    split; [by repeat apply inv_metrics|done].
  - io_done H. split; [by repeat apply inv_metrics|done].
Qed.

Lemma pop_piece last a n w a' pw' last' w' :
  good a w → worker_step WPop last a n w = Some ((a', pw', last'), w') →
  turn false (worker_holds pw') false a w a' w' ∧ worker_ok pw' w'.
Proof.
  intros Hg H. pose proof (go_inv _ _ Hg) as Hi. cbn [worker_step] in H.
  assert (∀ u, (a ← touch a HEARTBEAT_THREAD_WORKER; edgeflow_sleep_ms 20;; mret (a, WPop, last)) n w = Some u →
    u = ((a', pw', last'), w') → turn false (worker_holds pw') false a w a' w' ∧ worker_ok pw' w') as Hidle.
  { intros u Hr ->. pose proof Hr as Hr'. apply bind_run in Hr' as (a1 & w1 & H1 & Hr').
    apply bind_run in Hr' as (u1 & w2 & _ & Hr'). io_done Hr'. apply touch_run in H1 as (hb & -> & Hl).
    split; [|done]. apply turn_advance; [|done]. eapply advance_calm; [done| |exact Hr|by apply inv_hb|done].
    pose proof sleep_calm. pose proof touch_calm. solve_calm. }
  destruct (spsc_ring_pop _ _) as [[[] [p|]] r] eqn:Ep; try by eapply Hidle. io_done H.
  split; [|by exists p; rewrite (ai_cfg _ _ _ Hi)].
  apply turn_advance; [|done]. apply (advance_refl a); [done|by eapply inv_pop|done].
Qed.

Lemma store_piece p last a n w a' pw' last' w' :
  good a w → ruled_point p → worker_step (WStore p) last a n w = Some ((a', pw', last'), w') →
  turn false (worker_holds pw') false a w a' w' ∧ worker_ok pw' w'.
Proof.
  intros Hg Hp H. cbn [worker_step] in H. rewrite (ai_storage _ _ _ (go_inv _ _ Hg)) in H.
  apply bind_run in H as ([rc row] & w1 & H1 & H). apply bind_run in H as (u & w2 & H2 & H). io_done H.
  apply (append_advance a) in H1 as [Hadv Hst]; [|done].
  assert (advance w1 (with_metrics a (add_processed (app_metrics a))) w') as Hadv2.
  { eapply advance_calm; [apply Hadv| |exact H2|by apply inv_metrics, Hg|done]. solve_calm. }
  split; [apply turn_advance; [by eapply advance_trans|done]|]. split; [done|]. intros Hrow.
  eapply stored_later; [by eapply advance_grows|auto].
Qed.

Lemma decide_piece p row last a n w a' pw' last' w' :
  good a w → ruled_point p → (0 < row → stored w row p) →
  worker_step (WDecide p row) last a n w = Some ((a', pw', last'), w') →
  turn false (worker_holds pw') false a w a' w' ∧ worker_ok pw' w'.
Proof.
  intros Hg [q ->] Hst H. pose proof (go_inv _ _ Hg) as Hi. cbn [worker_step] in H.
  rewrite (ai_cfg _ _ _ Hi) in H.
  destruct (state_engine_process_telemetry _ _ _ _ _ _ _) as [[[r e] al] cmd] eqn:Ee.
  apply (inv_engine_step c st a) in Ee; [|done]. set (a1 := with_engine a _) in *.
  apply bind_run in H as (a2 & w2 & H2 & H). io_done H.
  assert (advance w a' w' ∧ app_mqtt a' = app_mqtt a) as [Hadv Hs].
  { destruct r.
    - pose proof (inv_outcome _ _ _ _ _ _ _ _ _ Ee H2) as Hi2. pose proof H2 as H2'.
      eapply (handle_outcome_run (db0 := db0)) in H2' as [_ [s ->]]; [|by apply quiet_modbus, Ee]. split; [|done].
      eapply advance_calm; [exact Hg| |exact H2|done|done]. apply handle_outcome_calm, Ee.
    - io_done H2. split; [|done]. by apply (advance_refl a). }
  split; [by apply turn_advance|]. intros Hrow. eapply stored_later; [by eapply advance_grows|auto].
Qed.

Lemma send_piece p row last a n w a' pw' last' w' :
  good a w → (0 < row → stored w row p) →
  worker_step (WSend p row) last a n w = Some ((a', pw', last'), w') →
  turn true (worker_holds pw') false a w a' w' ∧ worker_ok pw' w'.
Proof.
  intros Hg Hst H. pose proof (go_line _ _ Hg) as Hl. cbn [worker_step] in H.
  rewrite (lo_cfg _ _ _ Hl) in H. apply bind_run in H as ([rc s] & w1 & H1 & H). io_done H.
  apply (publish_line c) in H1 as (evs & E & Hn & Hl1 & Hd); [|done|apply topic_packet].
  pose proof (advance_net _ _ _ _ _ Hg E Hn Hl1) as Hadv. split; [by apply turn_advance|].
  intros -> Hrow. destruct (Hd eq_refl) as (f & Hf & Hdel).
  eapply stored_later in Hst as (r & Hr & Hi & Hc); [|by eapply advance_grows|done].
  exists r. split_and!; [done|done|]. exists f. split; [|done]. right. by exists p.
Qed.

Lemma mark_piece row rc last a n w a' pw' last' w' :
  good a w → (rc = 0 → 0 < row → sent_row w row) →
  worker_step (WMark row rc) last a n w = Some ((a', pw', last'), w') →
  turn false (worker_holds pw') false a w a' w' ∧ worker_ok pw' w'.
Proof.
  intros Hg Hs H. cbn [worker_step app_storage with_metrics] in H. rewrite (ai_storage _ _ _ (go_inv _ _ Hg)) in H.
  apply bind_run in H as (u & w1 & H1 & H). io_done H. split; [|done]. apply turn_advance; [|done].
  destruct ((rc =? 0) && (0 <? row)) eqn:Em.
  - apply andb_true_iff in Em as [->%Z.eqb_eq Hrow%Z.ltb_lt].
    apply bind_run in H1 as (rc2 & w2 & H2 & H1). io_done H1. 
    eapply mark_advance in H2; [|exact Hg|auto]. eapply advance_trans; [exact H2|].
    apply (advance_refl a); [apply H2|by apply inv_metrics, Hg|done].
  - io_done H1. apply (advance_refl a); [done|by apply inv_metrics, Hg|done].
Qed.

Lemma worker_piece pw last a n w a' pw' last' w' :
  good a w → worker_ok pw w → worker_step pw last a n w = Some ((a', pw', last'), w') →
  turn (worker_holds pw) (worker_holds pw') (worker_wants pw) a w a' w' ∧ worker_ok pw' w'.
Proof.
  intros Hg Hok H. destruct pw; cbn [worker_holds worker_wants worker_ok] in *.
  - by eapply pop_piece.
  - by eapply store_piece.
  - by eapply decide_piece; [..|exact H]; try apply Hok.
  - cbn [worker_step] in H. io_go H. io_done H. split; [by apply turn_lock|].
    intros Hrow. eapply stored_later; [|auto]. by exists [EvLock].
  - by eapply send_piece.
  - cbn [worker_step] in H. io_go H. io_done H. split; [by apply turn_unlock|].
    intros Hrc Hrow. eapply sent_later; [|auto]. by exists [EvUnlock].
  - by eapply mark_piece.
  - cbn [worker_step] in H. apply bind_run in H as ([a1 l1] & w1 & H1 & H). io_done H.
    split; [|done]. pose proof H1 as [Hi Hs]%finish_inv; [|apply Hg].
    apply turn_advance; [|done]. eapply advance_calm; [done|apply finish_calm|exact H1|done|done].
Qed.

(** *** The monitor *)

Lemma notify_events n w u w' :
  watchdog_notify_alive n w = Some (u, w') →
  ∃ evs, w' = mk_world (evs ++ w_trace w) (w_glob w) ∧ Forall (is_talk (g_notify_fd (w_glob w))) evs.
Proof.
  unfold watchdog_notify_alive, send_notify. intros H. io_go H.
  destruct (g_enabled _). 2: { io_done H. exists []. by destruct w'. }
  io_go H. destruct (_ <? 0). { io_done H. exists []. by destruct w'. }
  io_go H. io_done H. eexists [_]. split; [done|]. constructor; [left; by eexists _, _|done].
Qed.

Lemma notify_advance a n w u w' : good a w → watchdog_notify_alive n w = Some (u, w') → advance w a w'.
Proof.
  intros Hg H. apply notify_events in H as (evs & -> & Ht).
  eapply advance_events; [done|apply Hg|done|done|done|by eapply talk_sockets|by eapply net_lockless, talk_net| |].
  - intros Hon. destruct (lo_line _ _ _ (go_line _ _ Hg) Hon) as [Hne _]. by eapply sent_other.
  - by eapply net_quiet, talk_net.
Qed.

Lemma check_advance a n w a' w' :
  good a w → check_heartbeats a n w = Some (a', w') → advance w a' w' ∧ app_mqtt a' = app_mqtt a.
Proof.
  intros Hg H. unfold check_heartbeats in H. apply bind_run in H as (a1 & w1 & H1 & H).
  pose proof H1 as (hb & -> & Hl)%touch_run.
  assert (advance w (with_hb a hb) w1) as A1.
  { eapply advance_calm; [done|apply touch_calm|exact H1|by apply inv_hb, Hl; apply Hg|done]. }
  apply bind_run in H as (u & w2 & H2 & H). apply (notify_advance _ _ _ _ _ (proj1 A1)) in H2 as A2.
  pose proof H as H'. do 4 (apply bind_run in H' as (? & ? & _ & H')). io_done H'. split; [|done].
  eapply advance_trans; [exact A1|]. eapply advance_trans; [exact A2|].
  eapply advance_calm; [apply A2| |exact H|apply A2|done]. pose proof age_calm. solve_calm.
Qed.

Lemma fetch_piece a n w a' pm' w' :
  good a w → monitor_step MFetch a n w = Some ((a', pm'), w') →
  turn false (monitor_holds pm') false a w a' w' ∧ monitor_ok pm' (app_mqtt a') w'.
Proof.
  intros Hg H. cbn [monitor_step] in H. rewrite (ai_storage _ _ _ (go_inv _ _ Hg)) in H.
  apply bind_run in H as ([k l] & w1 & H1 & H). io_done H.
  assert (advance w a' w') as A by (eapply advance_calm; [done|apply fetch_calm|exact H1|apply Hg|done]).
  apply (fetch_run (db0 := db0)) in H1 as [E H1]. destruct (k <? 0) eqn:Ek.
  { split; [by apply turn_advance|done]. }
  split; [by apply turn_advance|]. cbn [monitor_ok].
  destruct H1 as [[-> ->]|(_ & m & _ & ->)]; [done|]. apply Forall_fmap, Forall_take, Forall_forall.
  intros r [_ Hr]%list_elem_of_filter. exists r. by rewrite E.
Qed.

Lemma connect_piece l a n w a' pm' w' :
  good a w → Forall (fetched w) l → monitor_step (MConnect l) a n w = Some ((a', pm'), w') →
  turn true (monitor_holds pm') false a w a' w' ∧ monitor_ok pm' (app_mqtt a') w'.
Proof.
  intros Hg Hl H. cbn [monitor_step] in H. apply bind_run in H as ([rc s] & w1 & H1 & H). io_done H.
  apply (ensure_line c) in H1 as (evs & E & Hn & Hl1 & Hon); [|apply Hg].
  pose proof (advance_net _ _ _ _ _ Hg E Hn Hl1) as A.
  destruct (Z.eqb_spec rc 0) as [->|]; (split; [by apply turn_advance|]); [|done].
  split; [by apply Hon|]. eapply Forall_impl; [exact Hl|]. intros row. by eapply fetched_later, advance_grows.
Qed.

Lemma row_piece l a n w a' pm' w' :
  good a w → ms_connected (app_mqtt a) = true → Forall (fetched w) l →
  monitor_step (MRow l) a n w = Some ((a', pm'), w') →
  turn true (monitor_holds pm') false a w a' w' ∧ monitor_ok pm' (app_mqtt a') w'.
Proof.
  intros Hg Hon Hl H. destruct l as [|row l]; cbn [monitor_step] in H.
  { io_done H. split; [|done]. apply turn_advance; [|done]. by apply (advance_refl a'); [|apply Hg|]. }
  pose proof (go_line _ _ Hg) as Hline. rewrite (lo_cfg _ _ _ Hline) in H.
  apply bind_run in H as (rc & w1 & H1 & H).
  apply (send_line c) in H1 as (evs & -> & Hs & Hrc); [|done|done|apply topic_packet].
  pose proof (talk_net _ _ (send_talk _ _ Hs)) as Hn.
  destruct Hrc as [(-> & Hl1 & f & Hf & Ha)| ->]; cbn [Z.eqb negb] in H.
  - io_done H. pose proof (advance_net _ _ _ _ _ Hg eq_refl Hn Hl1) as A.
    assert (with_mqtt a' (app_mqtt a') = a') as Ea by (by destruct a'). rewrite Ea in A.
    split; [by apply turn_advance|]. apply Forall_cons in Hl as [Hrow Hl].
    split; [done|]. split.
    + eapply Forall_impl; [exact Hl|]. intros r. by eapply fetched_later, advance_grows.
    + pose proof Hrow as (r & Hr & ->). 
      destruct (rows_later db0 evs (w_trace w) r Hr) as (r' & Hr' & Hk). exists r'. split; [done|].
      split; [apply Hk|]. exists f. split; [eapply message_kept; [exact Hk|by left]|].
      exists [], (evs ++ w_trace w), (ms_fd (app_mqtt a')). split; [done|exact Ha].
  - erewrite bind_eq in H by (by eapply shutdown_open, line_fd). cbn [w_trace w_glob] in H. io_done H.
    pose proof (line_close _ _ _ _ Hline Hon Hs) as Hl1.
    split; [|done]. apply turn_advance; [|done].
    eapply (advance_net _ _ _ _ (EvClose _ :: evs)); [done|done|by constructor|done].
Qed.

Lemma replay_mark_piece row l a n w a' pm' w' :
  good a w → ms_connected (app_mqtt a) = true → Forall (fetched w) l → sent_row w (row_id row) →
  monitor_step (MMark row l) a n w = Some ((a', pm'), w') →
  turn true (monitor_holds pm') false a w a' w' ∧ monitor_ok pm' (app_mqtt a') w'.
Proof.
  intros Hg Hon Hl Hs H. cbn [monitor_step] in H. rewrite (ai_storage _ _ _ (go_inv _ _ Hg)) in H.
  apply bind_run in H as (rc & w1 & H1 & H). io_done H. eapply mark_advance in H1; [|exact Hg|done].
  set (a2 := if rc =? 0 then count_replayed a else a).
  assert (app_inv c st a2 ∧ app_mqtt a2 = app_mqtt a) as [Hi2 Hm2].
  { subst a2. destruct (rc =? 0); (split; [|done]); [apply inv_metrics|]; apply Hg. }
  assert (advance w a2 w') as A.
  { eapply advance_trans; [exact H1|]. by apply (advance_refl a); [apply H1|..]. }
  split; [by apply turn_advance|]. cbn [monitor_ok]. rewrite Hm2. split; [done|].
  eapply Forall_impl; [exact Hl|]. intros r. by eapply fetched_later, advance_grows.
Qed.

Lemma beat_piece payload a n w a' pm' w' :
  good a w → monitor_step (MBeat payload) a n w = Some ((a', pm'), w') →
  turn true (monitor_holds pm') false a w a' w' ∧ monitor_ok pm' (app_mqtt a') w'.
Proof.
  intros Hg H. cbn [monitor_step] in H. rewrite (lo_cfg _ _ _ (go_line _ _ Hg)) in H.
  apply bind_run in H as ([rc s] & w1 & H1 & H). io_done H.
  apply (publish_line c) in H1 as (evs & E & Hn & Hl1 & _); [|apply Hg|apply packet_heartbeat].
  split; [|done]. apply turn_advance; [|done]. by eapply advance_net.
Qed.

(** Pieces made of calls that touch neither session nor outbox. *)
Lemma calm_piece {A} (m : io A) b' pm' a n w x a' w' :
  good a w → Calm (g_notify_fd (w_glob w)) m → m n w = Some (x, w') → app_inv c st a' →
  app_mqtt a' = app_mqtt a → b' = false → (∀ s, monitor_ok pm' s w') →
  turn false b' false a w a' w' ∧ monitor_ok pm' (app_mqtt a') w'.
Proof. intros Hg Hm H Hi Hs -> Hok. split; [|done]. apply turn_advance; [by eapply advance_calm|done]. Qed.

Lemma monitor_piece pm a n w a' pm' w' :
  good a w → monitor_ok pm (app_mqtt a) w → monitor_step pm a n w = Some ((a', pm'), w') →
  turn (monitor_holds pm) (monitor_holds pm') (monitor_wants pm) a w a' w' ∧ monitor_ok pm' (app_mqtt a') w'.
Proof.
  intros Hg Hok H. pose proof (go_inv _ _ Hg) as Hi.
  destruct pm; cbn [monitor_holds monitor_wants monitor_ok] in *;
    try (cbn [monitor_step] in H; io_go H; io_done H; (split; [by first [apply turn_lock|apply turn_unlock]|]); done).
  - cbn [monitor_step] in H. apply bind_run in H as (run & w1 & H1 & H).
    assert (advance w a w1) as A1.
    { eapply advance_calm; [done| |exact H1|done|done]. apply calm_call. auto with calm. }
    destruct run; [|io_done H; split; [by apply turn_advance|done]].
    apply bind_run in H as (a2 & w2 & H2 & H). io_done H. apply check_advance in H2 as [A2 Hs]; [|apply A1].
    split; [|done]. apply turn_advance; [by eapply advance_trans|done].
  - by eapply fetch_piece.
  - by eapply connect_piece.
  - destruct Hok. by eapply row_piece.
  - destruct Hok as (? & ? & ?). by eapply replay_mark_piece.
  - cbn [monitor_step] in H. apply bind_run in H as (k & w1 & H1 & H). io_done H.
    eapply calm_piece; [done|apply count_calm|exact H1|by apply inv_metrics|done..].
  - cbn [monitor_step] in H. apply bind_run in H as (s & w1 & H1 & H). io_done H.
    apply (ping_line c) in H1 as (evs & E & Hn & Hl1); [|apply Hg].
    split; [|done]. apply turn_advance; [|done]. by eapply advance_net.
  - cbn [monitor_step] in H. pose proof H as H'. apply bind_run in H' as (now & w1 & _ & H').
    apply bind_run in H' as (k & w2 & _ & H'). io_done H'.
    eapply calm_piece; [done| |exact H|done..]. pose proof count_calm. solve_calm.
  - by eapply beat_piece.
  - cbn [monitor_step] in H. pose proof H as H'. apply bind_run in H' as (a1 & w1 & H1 & H').
    apply update_metrics_run in H1 as (m & ->). apply bind_run in H' as (u & w2 & _ & H'). io_done H'.
    eapply calm_piece; [done| |exact H|by apply inv_metrics|done..].
    pose proof update_metrics_calm. pose proof metrics_write_calm. solve_calm.
Qed.

(** *** The system *)

Lemma push_session a pts : app_mqtt (push_points a pts) = app_mqtt a.
Proof.
  revert a. induction pts as [|p pts IH]; intros a; [done|]. cbn [push_points].
  destruct (spsc_ring_push _ _) as [[] r]; by rewrite IH.
Qed.

Lemma ingress_session a n w a' w' : ingress_body a n w = Some (a', w') → app_mqtt a' = app_mqtt a.
Proof.
  intros H. unfold ingress_body in H. apply bind_run in H as ([k pts] & w1 & _ & H).
  apply bind_run in H as (a2 & w2 & H2 & H). apply bind_run in H as (u & w3 & _ & H). io_done H.
  apply touch_run in H2 as (hb & -> & _). cbn. destruct (0 <? k); [apply push_session|done].
Qed.

Lemma advance_loop a w e :
  good a w → loop_call e (w_trace w) = true → advance w a (mk_world (e :: w_trace w) (w_glob w)).
Proof.
  intros Hg He. pose proof Hg as [Hi Hl Hr]. destruct (keeps_sockets e) eqn:Hk.
  - eapply (advance_events a _ _ _ [e]); try done; try (constructor; [|done]); by destruct e.
  - destruct e; try done. apply negb_true_iff in He.
    split; [split; [done|by apply line_stray|]|exists [EvClose fd]; split; [done|by repeat constructor]].
    eapply (rows_quiet w [EvClose fd]); [done|done|by repeat constructor].
Qed.

Lemma sound_step y y' : sound y → istep y y' → sound y'.
Proof.
  intros [Hg Hw Hm Hl Hx] Hstep.
  assert (∀ a w a' w' pw last pm, y = mk_system a w pw last pm → advance w a' w' → app_mqtt a' = app_mqtt a →
    sound (mk_system a' w' pw last pm)) as Hquiet.
  { intros a w a' w' pw last pm -> A Hs. cbn in *. pose proof (advance_grows _ _ _ A) as Hgr.
    destruct A as (Hg' & evs & E & F).
    split; cbn; [done|by eapply worker_later| |by rewrite E, mutex_app|done].
    by eapply (monitor_later _ (app_mqtt a)). }
  destruct Hstep as [n a w pw last pm a' w' H|n a w pw last pm a' pw' last' w' Hfree H|
    n a w pw last pm a' pm' w' Hfree H|n a w last pm a' w' H|a w pw last pm e He]; cbn in *.
  - pose proof (go_inv _ _ Hg) as Hi. pose proof (inv_ingress _ _ _ _ _ _ _ Hi H) as Hi'.
    pose proof (ingress_session _ _ _ _ _ H) as Hs.
    eapply Hquiet; [done| |done]. eapply advance_calm; [done|apply ingress_calm, Hi|exact H|done|done].
  - eapply worker_piece in H as [Ht Hw']; [|done|done]. pose proof (turn_grows _ _ _ _ _ _ _ Ht) as Hgr.
    destruct Ht as (Hg' & (evs & E & Htu) & Hs).
    destruct (turns_mutex _ _ (monitor_holds pm) _ _ Htu Hl Hx) as [Hl' Hx'].
    { intros Hb Hb'. apply Hfree, Hs; done. }
    split; cbn; [done|done| |by rewrite E|done]. eapply monitor_later; [done| |exact Hm].
    intros Hpm. apply Hs. rewrite Hpm, andb_true_r in Hx. done.
  - eapply monitor_piece in H as [Ht Hm']; [|done|done]. pose proof (turn_grows _ _ _ _ _ _ _ Ht) as Hgr.
    destruct Ht as (Hg' & (evs & E & Htu) & Hs). rewrite orb_comm in Hl. rewrite andb_comm in Hx.
    destruct (turns_mutex _ _ (worker_holds pw) _ _ Htu Hl Hx) as [Hl' Hx'].
    { intros Hb Hb'. apply Hfree, Hs; done. }
    split; cbn; [done|by eapply worker_later|done|by rewrite E, orb_comm|by rewrite andb_comm].
  - pose proof (go_inv _ _ Hg) as Hi. pose proof H as H'. unfold worker_exit in H'.
    apply bind_run in H' as (a1 & w1 & H1 & H'). apply update_metrics_run in H1 as (m & ->).
    apply bind_run in H' as (u & w2 & _ & H'). io_done H'. eapply Hquiet; [done| |done].
    eapply advance_calm; [done|apply exit_calm|exact H|by apply inv_metrics|done].
  - eapply Hquiet; [done|by apply advance_loop|done].
Qed.
End invariant.
