(* ===== verification/Delivery.v ===== *)
(** * What reaches the broker

    Over the interleaved machine of [Interleave.v]: on every connection the
    broker receives a CONNECT frame and then whole packets, whichever threads
    write them, and a row of the outbox that is marked uploaded was written
    whole to a connection before it was marked. *)

From S2P Require Export Sharing.

#[local] Open Scope Z_scope.

(** ** What a broker reads *)

(** The packets of a stream, by the decoder of [Mqtt.v]. *)
Fixpoint read_packets (fuel : nat) (l : bytes) : option (list (Z * bytes)) :=
  match fuel with
  | O => None
  | S fuel' =>
      match l with
      | [] => Some []
      | _ =>
          '(h, body, rest) ← decode_packet l;
          ps ← read_packets fuel' rest;
          Some ((h, body) :: ps)
      end
  end.

(** A PINGREQ, or a PUBLISH on one of the two topics. *)
Definition client_packet (c : gateway_config_t) (p : Z * bytes) : Prop :=
  p = (0xC0, []) ∨
  ∃ topic payload, topic ∈ [cfg_mqtt_topic c; cfg_mqtt_heartbeat_topic c] ∧
    p = (0x30, publish_body topic payload).

Lemma read_frame fuel size h body f rest ps :
  frame size h body = Some f → (size ≤ 1024)%nat → read_packets fuel rest = Some ps →
  read_packets (S fuel) (f ++ rest) = Some ((h, body) :: ps).
Proof.
  intros Hf Hs Hr. pose proof (decode_frame _ _ _ _ rest Hf Hs) as Hd. apply frame_some in Hf as [Hf _].
  cbn [read_packets]. destruct (f ++ rest) as [|b l] eqn:E; [by rewrite Hf in E|].
  rewrite Hd. cbn [mbind option_bind]. by rewrite Hr.
Qed.

Lemma ping_is_frame : frame 2 0xC0 [] = Some ping_frame.
Proof. reflexivity. Qed.

Lemma publish_read fuel topic payload f rest ps :
  publish_frame topic payload = Some f → read_packets fuel rest = Some ps →
  read_packets (S fuel) (f ++ rest) = Some ((0x30, publish_body topic payload) :: ps).
Proof. unfold publish_frame. intros Hf Hr. exact (read_frame fuel 1024 _ _ _ _ _ Hf (le_n _) Hr). Qed.

Lemma packet_read c fuel p rest ps :
  packet c p → read_packets fuel rest = Some ps → Forall (client_packet c) ps →
  ∃ q, read_packets (S fuel) (p ++ rest) = Some (q :: ps) ∧ client_packet c q.
Proof.
  intros Hp Hr Hps. destruct Hp as [|payload f Hf|payload f Hf].
  - exists (0xC0, []). split; [by apply (read_frame _ 2); [exact ping_is_frame|lia|]|by left].
  - eexists. split; [by apply publish_read|]. right. eexists _, _. split; [|done]. set_solver.
  - eexists. split; [by apply publish_read|]. right. eexists _, _. split; [|done]. set_solver.
Qed.

(** The stream of a connection reads as the CONNECT of the gateway, then its
    packets, to the last byte. *)
Lemma stream_read c b :
  stream_ok c b →
  ∃ fuel ps, read_packets fuel b =
      Some ((0x10, connect_body (client_id c) (u16 (cfg_mqtt_keepalive_sec c))) :: ps) ∧
    Forall (client_packet c) ps.
Proof.
  intros (hs & ps & Ho & Hp & ->). rewrite app_nil_r.
  assert (∃ fuel qs, read_packets fuel (concat ps) = Some qs ∧ Forall (client_packet c) qs)
    as (fuel & qs & Hr & Hq).
  { induction Hp as [|p ps Hp _ (fuel & qs & Hr & Hq)]; [by exists 1%nat, []|].
    destruct (packet_read c fuel p (concat ps) qs) as (q & ? & ?); [done..|]. exists (S fuel), (q :: qs).
    split; [done|by constructor]. }
  exists (S fuel), qs. split; [|done]. eapply read_frame; [exact Ho|lia|done].
Qed.

(** ** The start *)

Section start.
Context {env : Env} {fresh : FreshSockets env}.

(** No socket is open but the watchdog's, and the lock is free. *)
Record calm_sockets (w : world) : Prop := {
  cs_notify : 0 <= g_notify_fd (w_glob w) → is_open (g_notify_fd (w_glob w)) (w_trace w) = true;
  cs_only fd : 0 <= fd → is_open fd (w_trace w) = true → fd = g_notify_fd (w_glob w);
  cs_lock : mutex (w_trace w) = Some false
}.

(** Before [main] has done anything. *)
Definition at_start (w : world) : Prop := calm_sockets w ∧ g_notify_fd (w_glob w) < 0.

(** The gateway was initialised and its threads were started. *)
Definition launched (c : gateway_config_t) (w0 : world) (a : gateway_app_t) (w : world) : Prop :=
  ∃ a0 n w1 m, gateway_app_init (Some a0) (Some c) n w0 = Some ((0, Some a), w1) ∧
    gateway_app_run (Some a) m w1 = Some (0, w).

Lemma calm_sockets_grow w w' evs :
  w_trace w' = evs ++ w_trace w → g_notify_fd (w_glob w') = g_notify_fd (w_glob w) →
  Forall (λ e, keeps_sockets e = true) evs → Forall (λ e, lockless e = true) evs →
  calm_sockets w → calm_sockets w'.
Proof.
  intros E Hg Hk Hf [Hn Ho Hl]. split; rewrite E, ?Hg.
  - by rewrite open_app.
  - intros fd. rewrite open_app by done. apply Ho.
  - by rewrite mutex_app.
Qed.

Lemma start_calm {A} (m : io A) n w x w' :
  Calm (g_notify_fd (w_glob w)) m → m n w = Some (x, w') → at_start w → at_start w'.
Proof.
  intros Hm H [Hs Hn]. apply Hm in H as (evs & E & F & Hg); [|done]. apply calm_quiet in F as [Fh _].
  split; [|by rewrite Hg].
  by eapply calm_sockets_grow; eauto using harmless_sockets, harmless_lockless.
Qed.

Lemma start_watchdog ms n w u w' : watchdog_init ms n w = Some (u, w') → at_start w → calm_sockets w'.
Proof.
  unfold watchdog_init, open_notify_socket. intros H [Hs Hneg]. apply bind_run in H as (rc & w1 & H1 & H).
  io_go H. unfold set_globals in H. simplify_eq.
  assert (calm_sockets w1) as []; [|by split].
  destruct (env_getenv _) as [[|ch path]|]; [by io_done H1| |by io_done H1].
  destruct Hs as [Hn Ho Hl]. io_go H1.
  assert (∀ fd, 0 <= fd → is_open fd (w_trace w) = true → False) as Hnone.
  { intros fd Hp H2. specialize (Ho fd Hp H2). lia. }
  destruct (Z.ltb_spec (env_socket (w_trace w)) 0).
  { io_done H1. split; [|intros fd Hp [?%Z.eqb_eq|?]%orb_true_iff; [lia|by exfalso; eapply Hnone]|done].
    cbn [w_glob w_trace g_notify_fd with_notify]. lia. }
  io_go H1. destruct (env_unix_connect _ _); io_go H1; io_done H1; split; cbn; try done.
  - by rewrite Z.eqb_refl.
  - intros fd Hp [->%Z.eqb_eq|?]%orb_true_iff; [done|by exfalso; eapply Hnone].
  - intros fd Hp [H2%negb_true_iff H3]%andb_true_iff. rewrite H2 in H3. by exfalso; eapply Hnone.
Qed.

Lemma start_init a0 c n w a w' :
  gateway_app_init (Some a0) (Some c) n w = Some ((0, Some a), w') → at_start w → calm_sockets w'.
Proof.
  intros H Hs. unfold gateway_app_init in H. cbv zeta in H.
  apply bind_run in H as (h & w1 & H1 & H).
  eapply start_calm in H1; [|unfold heartbeat_registry_init; solve_calm|done]. clear Hs.
  apply bind_run in H as ([rc2 st] & w2 & H2 & H).
  eapply start_calm in H2; [|unfold storage_open, sqlite_exec_schema; solve_calm|done]. clear H1.
  destruct (negb _); [apply bind_run in H as (? & ? & _ & H); by io_done H|].
  change (adapter_registry_register _ _) with (ADAPTER_OK, Some (mk_registry [modbus_slot])) in H.
  cbn beta iota in H. apply bind_run in H as ([rc3 reg] & w3 & H3 & H).
  eapply start_calm in H3; [|unfold adapter_registry_init_all; cbn [slots init_slots];
    change (ad_init modbus_slot) with (Some modbus_init); unfold modbus_init; solve_calm|done]. clear H2.
  apply bind_run in H as (u & w4 & H4 & H).
  eapply start_calm in H4; [|solve_calm|done]. clear H3. io_go H.
  destruct (spsc_ring_init _ _ _) as [[|rp|rp] r];
    apply bind_run in H as (u5 & w5 & H5 & H);
    [io_done H; by eapply start_watchdog|apply bind_run in H as (? & ? & _ & H); by io_done H..].
Qed.

Lemma notify_ready_events n w u w' :
  watchdog_notify_ready n w = Some (u, w') →
  ∃ evs, w' = mk_world (evs ++ w_trace w) (w_glob w) ∧ Forall (is_talk (g_notify_fd (w_glob w))) evs.
Proof.
  unfold watchdog_notify_ready, send_notify. intros H. io_go H.
  destruct (g_enabled _). 2: { io_done H. exists []. by destruct w'. }
  io_go H. destruct (_ <? 0). { io_done H. exists []. by destruct w'. }
  io_go H. io_done H. eexists [_]. split; [done|]. constructor; [left; by eexists _, _|done].
Qed.

Lemma start_run a n w w' : gateway_app_run (Some a) n w = Some (0, w') → calm_sockets w → calm_sockets w'.
Proof.
  intros H Hs. unfold gateway_app_run, store_running, pthread_create, pthread_join in H. io_go H.
  destruct (env_pthread_create _); cbn [negb] in H; io_go H; [|by io_done H].
  destruct (env_pthread_create _); cbn [negb] in H; io_go H; [|by io_done H].
  destruct (env_pthread_create _); cbn [negb] in H; io_go H; [|by io_done H].
  apply bind_run in H as (u & w1 & H1 & H). apply notify_ready_events in H1 as (evs & -> & Ht).
  io_go H. io_done H. 
  eapply (calm_sockets_grow _ _ (_ :: evs ++ [_; _; _; _])); [cbn; by rewrite <- app_assoc|done|..|exact Hs];
    (constructor; [done|]); (apply Forall_app_2; [|by repeat constructor]).
  - by eapply talk_sockets.
  - by eapply net_lockless, talk_net.
Qed.

(** A launched gateway is in order, with every row of the outbox as it was. *)
Lemma launched_sound db0 c w0 a w :
  is_u32 (cfg_queue_size c) → at_start w0 → launched c w0 a w →
  ∃ st, sound db0 c st (db_of db0 (w_trace w)) (mk_system a w WPop 0 MIdle).
Proof.
  intros Hq Hs (a0 & n & w1 & m & H & Hr). pose proof H as H'.
  eapply start_init in H'; [|done]. eapply start_run in Hr as [Hn Ho Hl]; [|done].
  apply app_init_run in H as (a' & Ea & [(_ & st & [Hi _ _ _ _ Hm] & _)|(? & _)]); [|done..]. simplify_eq.
  exists st. split; cbn; [|done..]. split; [done| |].
  - split; [apply Hi|by rewrite Hm|done|by rewrite Hm|]. intros fd Hp H2. left. by apply Ho.
  - intros r Hr Hu. left. by exists r.
Qed.

Lemma launched_run db0 {spec : SqliteSpec env db0} c w0 a w y :
  is_u32 (cfg_queue_size c) → at_start w0 → launched c w0 a w →
  rtc istep (mk_system a w WPop 0 MIdle) y → ∃ st, sound db0 c st (db_of db0 (w_trace w)) y.
Proof.
  intros Hq Hs Hl H. apply (launched_sound db0) in Hl as [st Hl]; [|done..]. exists st.
  induction H; [done|]. eauto using sound_step.
Qed.
End start.

(** ** Properties *)

Section properties.
Context {env : Env} {fresh : FreshSockets env} (db0 : list db_row) {spec : SqliteSpec env db0}.

(** C2: at-least-once delivery, in every interleaving: from a gateway that was
    initialised and started, however the pieces of the worker, the monitor and
    the ingress thread follow one another and whatever the network, the disk
    and the database answer, a row of the outbox that is marked uploaded, and
    was not at the start, was delivered: at some earlier moment a connection
    had carried a CONNECT frame, whole packets, and last the complete PUBLISH
    frame of that row. *)
Theorem marked_rows_delivered c w0 a w y r :
  is_u32 (cfg_queue_size c) → at_start w0 → launched c w0 a w →
  rtc istep (mk_system a w WPop 0 MIdle) y →
  r ∈ db_of db0 (w_trace (sy_world y)) → dr_uploaded r = true →
  (∃ r0, r0 ∈ db_of db0 (w_trace w) ∧ dr_id r0 = dr_id r ∧ dr_uploaded r0 = true) ∨
  row_delivered c r (w_trace (sy_world y)).
Proof.
  intros Hq Hs Hl H Hr Hu. eapply (launched_run db0) in H as [st H]; [|done..].
  by eapply (go_rows _ _ _ _ _ _ (so_good _ _ _ _ _ H)).
Qed.

(** C5: the two threads never mix their bytes: in every interleaving, whenever
    the session is connected, a broker that decodes what its connection has
    carried reads the CONNECT packet of the gateway and then only whole PINGREQ
    packets and PUBLISH packets on the telemetry or the heartbeat topic, with
    nothing left over. *)
Theorem connection_reads c w0 a w y :
  is_u32 (cfg_queue_size c) → at_start w0 → launched c w0 a w →
  rtc istep (mk_system a w WPop 0 MIdle) y →
  ms_connected (app_mqtt (sy_app y)) = true →
  ∃ fuel ps,
    read_packets fuel (conn (ms_fd (app_mqtt (sy_app y))) (w_trace (sy_world y))) =
      Some ((0x10, connect_body (client_id c) (u16 (cfg_mqtt_keepalive_sec c))) :: ps) ∧
    Forall (client_packet c) ps.
Proof.
  intros Hq Hs Hl H Hon. eapply (launched_run db0) in H as [st H]; [|done..].
  apply stream_read. by apply (lo_line _ _ _ (go_line _ _ _ _ _ _ (so_good _ _ _ _ _ H))).
Qed.

(** C21: the lock does its work: in every interleaving the worker and the
    monitor are never both between lock and unlock, the lock was never taken
    while held nor released while free and is held exactly when one of them is
    there, and a step that changes the session is a step of the thread that
    holds it, which the other threads do not take part in. *)
Theorem session_under_lock c w0 a w y y' :
  is_u32 (cfg_queue_size c) → at_start w0 → launched c w0 a w →
  rtc istep (mk_system a w WPop 0 MIdle) y → istep y y' →
  worker_holds (sy_worker y) && monitor_holds (sy_monitor y) = false ∧
  mutex (w_trace (sy_world y)) = Some (worker_holds (sy_worker y) || monitor_holds (sy_monitor y)) ∧
  (app_mqtt (sy_app y') = app_mqtt (sy_app y) ∨
   worker_holds (sy_worker y) = true ∧ sy_monitor y' = sy_monitor y ∨
   monitor_holds (sy_monitor y) = true ∧ sy_worker y' = sy_worker y).
Proof.
  intros Hq Hs Hl H Hstep. eapply (launched_run db0) in H as [st [Hg Hw Hm Hlk Hx]]; [|done..].
  split; [done|]. split; [done|]. clear Hlk Hx.
  destruct Hstep as [n a1 w1 pw last pm a' w' H|n a1 w1 pw last pm a' pw' last' w' Hfree H|
    n a1 w1 pw last pm a' pm' w' Hfree H|n a1 w1 last pm a' w' H|a1 w1 pw last pm e He]; cbn in *; [| | | |by left].
  - left. by eapply ingress_session.
  - eapply (worker_piece db0) in H as [(_ & _ & Hse) _]; [|done|done].
    destruct (worker_holds pw) eqn:E; [by right; left|left; by apply Hse].
  - eapply (monitor_piece db0) in H as [(_ & _ & Hse) _]; [|done|done].
    destruct (monitor_holds pm) eqn:E; [by right; right|left; by apply Hse].
  - left. apply bind_run in H as (a2 & w2 & H2 & H). apply update_metrics_run in H2 as (m & ->).
    apply bind_run in H as (u & w3 & _ & H). by io_done H.
Qed.
End properties.

(** ** A concrete gateway *)

(** Sockets are numbered upwards, from 7. *)
Definition next_fd (tr : trace) : Z :=
  foldr (λ e m, match e with EvSocket fd | EvNotifyOpen _ fd => Z.max fd m | _ => m end) 6 tr + 1.

Definition fresh_env (base : Env) : Env := {|
  env_clock := env_clock; env_nanosleep := env_nanosleep; env_fopen := env_fopen;
  env_malloc := env_malloc; env_sqlite_open := env_sqlite_open;
  env_sqlite_exec := env_sqlite_exec; env_prepare := env_prepare;
  env_step := env_step; env_rows := env_rows; env_last_rowid := env_last_rowid;
  env_socket := next_fd; env_inet_pton := env_inet_pton; env_connect := env_connect;
  env_write := env_write; env_read := env_read; env_answers := env_answers; env_tty_open := env_tty_open;
  env_tcgetattr := env_tcgetattr; env_tcsetattr := env_tcsetattr; env_select := env_select;
  env_epoll_create := env_epoll_create; env_timerfd_create := env_timerfd_create;
  env_epoll_ctl := env_epoll_ctl; env_timerfd_settime := env_timerfd_settime;
  env_epoll_wait := env_epoll_wait; env_running := env_running;
  env_pthread_create := env_pthread_create; env_file_size := env_file_size;
  env_file_seek := env_file_seek; env_file_data := env_file_data; env_file_text := env_file_text;
  env_exit := env_exit;
  env_getenv := env_getenv; env_unix_connect := env_unix_connect;
  env_modbus_new := env_modbus_new; env_modbus_connect := env_modbus_connect;
  env_modbus_read := env_modbus_read; env_strerror := env_strerror
|}.

Lemma open_below fd tr : is_open fd tr = true → fd < next_fd tr.
Proof.
  unfold next_fd. induction tr as [|e tr IH]; [done|]. destruct e; cbn [is_open foldr]; try done.
  - intros [->%Z.eqb_eq|H]%orb_true_iff; [lia|]. specialize (IH H). lia.
  - intros [_ H]%andb_true_iff. auto.
  - intros [->%Z.eqb_eq|H]%orb_true_iff; [lia|]. specialize (IH H). lia.
Qed.

#[export] Instance fresh_env_fresh base : FreshSockets (fresh_env base).
Proof.
  intros tr _. destruct (is_open _ tr) eqn:E; [|done]. apply open_below in E. cbn in E. lia.
Qed.

Definition demo_gateway_env : Env := sqlite_env (fresh_env demo_net) [].

#[export] Instance demo_gateway_fresh : FreshSockets demo_gateway_env := fresh_env_fresh demo_net.

#[export] Instance demo_gateway_sqlite : SqliteSpec demo_gateway_env [].
Proof. apply sqlite_env_spec. split; constructor. Qed.

(** The gateway, initialised, started and driven by a schedule. *)
Definition demo_launch : option (gateway_app_t * world) :=
  '(_, a, w) ← @gateway_app_init demo_gateway_env (Some app_zero) (Some demo_app_config) 20%nat world_init;
  a ← a;
  '(_, w) ← @gateway_app_run demo_gateway_env (Some a) 20%nat w;
  Some (a, w).

Definition demo_run (ts : list mover) : option system :=
  '(a, w) ← demo_launch; @schedule demo_gateway_env 30%nat ts (mk_system a w WPop 0 MIdle).

Lemma demo_launched : ∃ a w, demo_launch = Some (a, w) ∧ @launched demo_gateway_env demo_app_config world_init a w.
Proof.
  assert ((λ x : gateway_app_t * world, tt) <$> demo_launch = Some tt) as Hl by (vm_compute; reflexivity).
  assert ((λ x, x.1.1) <$> @gateway_app_init demo_gateway_env (Some app_zero) (Some demo_app_config) 20%nat
    world_init = Some 0) as Hi by (vm_compute; reflexivity).
  assert ((λ '(_, a, w), (λ x, x.1) <$> @gateway_app_run demo_gateway_env a 20%nat w) <$>
    @gateway_app_init demo_gateway_env (Some app_zero) (Some demo_app_config) 20%nat world_init =
    Some (Some 0)) as Hr by (vm_compute; reflexivity).
  unfold demo_launch in *.
  destruct (@gateway_app_init _ _ _ _ _) as [[[rc oa] w1]|] eqn:E1; [|done]. cbn [mbind option_bind] in *.
  destruct oa as [a|]; [|done]. cbn [mbind option_bind fmap option_fmap option_map fst] in *.
  destruct (@gateway_app_run _ _ _ _) as [[rc2 w2]|] eqn:E2; [|done].
  cbn [mbind option_bind fmap option_fmap option_map fst] in *. simplify_eq.
  exists a, w2. split; [done|]. by exists app_zero, 20%nat, w1, 20%nat.
Qed.

(** A schedule that the demonstration can follow, and what it shows. *)
Lemma demo_runs {A} (ts : list mover) (f : system → A) x :
  f <$> demo_run ts = Some x →
  ∃ a w y, @launched demo_gateway_env demo_app_config world_init a w ∧
    rtc (@istep demo_gateway_env) (mk_system a w WPop 0 MIdle) y ∧ f y = x.
Proof.
  intros H. destruct demo_launched as (a & w & El & Hl). unfold demo_run in H. rewrite El in H.
  cbn [mbind option_bind] in H. destruct (schedule _ _ _) as [y|] eqn:E; [|done].
  cbn [fmap option_fmap option_map] in H. simplify_eq. exists a, w, y. split_and!; [done| |done].
  by eapply schedule_run.
Qed.

Lemma demo_at_start : at_start world_init.
Proof. split; [|done]. by split. Qed.

(** The worker stores a point; before it sends it, the monitor fetches the
    pending rows; after the worker has marked the row, the monitor is in the
    middle of its replay. *)
Definition overtaking : list mover :=
  [Ingress; Worker; Worker; Monitor; Monitor; Worker; Worker; Worker; Worker; Worker;
   Monitor; Monitor; Monitor; Monitor].

Definition overtaken_point : telemetry_t :=
  mk_telemetry 1000 "bms_001" "soc_percent" (d_of_Z 80) "%" TELEMETRY_QUALITY_GOOD 2.

Definition overtaken_row : db_row := mk_db_row 1 (telemetry_binding overtaken_point) true.

Lemma demo_overtaken :
  ∃ a w y hs f, @launched demo_gateway_env demo_app_config world_init a w ∧
    rtc (@istep demo_gateway_env) (mk_system a w WPop 0 MIdle) y ∧
    db_of [] (w_trace (sy_world y)) = [overtaken_row] ∧ ms_connected (app_mqtt (sy_app y)) = true ∧
    opening demo_app_config = Some hs ∧ message_of demo_app_config overtaken_row f ∧
    conn (ms_fd (app_mqtt (sy_app y))) (w_trace (sy_world y)) = hs ++ f ++ f.
Proof.
  set (obs y := (db_of [] (w_trace (sy_world y)), ms_connected (app_mqtt (sy_app y)),
    conn (ms_fd (app_mqtt (sy_app y))) (w_trace (sy_world y)))).
  assert (∃ hs f, obs <$> demo_run overtaking = Some ([overtaken_row], true, hs ++ f ++ f) ∧
    opening demo_app_config = Some hs ∧
    row_frame demo_app_config (row_of_columns (select_row overtaken_row)) = Some f) as (hs & f & H & Ho & Hf).
  { exists (default [] (opening demo_app_config)),
      (default [] (row_frame demo_app_config (row_of_columns (select_row overtaken_row)))).
    split_and!; vm_compute; reflexivity. }
  apply demo_runs in H as (a & w & y & Hl & Hr & [= Ed Ec Es]).
  exists a, w, y, hs, f. split_and!; [exact Hl|exact Hr|exact Ed|exact Ec|exact Ho|by left|exact Es].
Qed.

(** C31: the delivery is at least once, not exactly once: the replay fetches the
    pending rows before it takes the lock, so there is an interleaving in which
    the worker sends a row and marks it, and the monitor, which had fetched it
    before, sends the same frame again on the same connection: the broker gets
    the point twice although nothing failed. *)
Theorem row_sent_twice :
  ∃ a w y r hs f,
    @launched demo_gateway_env demo_app_config world_init a w ∧
    rtc (@istep demo_gateway_env) (mk_system a w WPop 0 MIdle) y ∧
    db_of [] (w_trace (sy_world y)) = [r] ∧ dr_uploaded r = true ∧
    opening demo_app_config = Some hs ∧ message_of demo_app_config r f ∧
    conn (ms_fd (app_mqtt (sy_app y))) (w_trace (sy_world y)) = hs ++ f ++ f.
Proof.
  destruct demo_overtaken as (a & w & y & hs & f & Hl & Hr & Hd & _ & H).
  by exists a, w, y, overtaken_row, hs, f.
Qed.

Lemma demo_queue : is_u32 (cfg_queue_size demo_app_config).
Proof. split; vm_compute; congruence. Qed.

Lemma marked_rows_delivered_witness :
  ∃ a w y, @launched demo_gateway_env demo_app_config world_init a w ∧
    overtaken_row ∈ db_of [] (w_trace (sy_world y)) ∧
    ((∃ r0, r0 ∈ db_of [] (w_trace w) ∧ dr_id r0 = dr_id overtaken_row ∧ dr_uploaded r0 = true) ∨
     row_delivered demo_app_config overtaken_row (w_trace (sy_world y))).
Proof.
  destruct demo_overtaken as (a & w & y & hs & f & Hl & Hr & Hd & _).
  assert (overtaken_row ∈ db_of [] (w_trace (sy_world y))) as Hin by (rewrite Hd; apply list_elem_of_here).
  exists a, w, y. split; [exact Hl|]. split; [exact Hin|].
  exact (@marked_rows_delivered demo_gateway_env _ [] _ demo_app_config world_init a w y overtaken_row
    demo_queue demo_at_start Hl Hr Hin eq_refl).
Defined.

Lemma connection_reads_witness :
  ∃ y fuel ps,
    read_packets fuel (conn (ms_fd (app_mqtt (sy_app y))) (w_trace (sy_world y))) =
      Some ((0x10, connect_body (client_id demo_app_config)
                     (u16 (cfg_mqtt_keepalive_sec demo_app_config))) :: ps) ∧
    Forall (client_packet demo_app_config) ps.
Proof.
  destruct demo_overtaken as (a & w & y & hs & f & Hl & Hr & _ & Hon & _). exists y.
  exact (@connection_reads demo_gateway_env _ [] _ demo_app_config world_init a w y
    demo_queue demo_at_start Hl Hr Hon).
Defined.

Lemma session_under_lock_witness :
  ∃ y : system, worker_holds (sy_worker y) && monitor_holds (sy_monitor y) = false ∧
    mutex (w_trace (sy_world y)) = Some (worker_holds (sy_worker y) || monitor_holds (sy_monitor y)).
Proof.
  destruct demo_overtaken as (a & w & y & hs & f & Hl & Hr & _). destruct y as [ay wy pw last pm].
  exists (mk_system ay wy pw last pm).
  pose proof (@session_under_lock demo_gateway_env _ [] _ demo_app_config world_init a w _ _
    demo_queue demo_at_start Hl Hr (int_loop ay wy pw last pm (EvRunning true) eq_refl)) as (Hx & Hm & _).
  split; [exact Hx|exact Hm].
Defined.
