(* ===== verification/Release.v ===== *)
(** * The gateway releases what it took

    A whole life of the gateway with its threads interleaved: initialisation,
    start, any interleaving, stop and destruction ([src/src/runtime/app.c]). *)

From S2P Require Export Delivery.

#[local] Open Scope Z_scope.

(** ** The pieces are plain and keep the invariant

    No piece opens a database, starts a thread or executes an unknown
    statement. *)
Section plain.
Context {env : Env}.

#[local] Hint Resolve touch_plain age_plain update_metrics_plain metrics_write_plain append_telemetry_plain
  fetch_plain mark_plain count_plain write_all_plain send_publish_plain mqtt_shutdown_plain ensure_plain
  publish_locked_plain handle_outcome_plain : footprint.

Lemma worker_step_plain pw last a : modbus_only (app_registry a) → Only plain (worker_step pw last a).
Proof.
  intros Hm. destruct pw; cbn [worker_step]; unfold finish_round; solve_only.
Qed.

Lemma monitor_step_plain pm a : Only plain (monitor_step pm a).
Proof.
  destruct pm as [| |l|l|[|row l]|row l| | | | | | |p|p| |]; cbn [monitor_step];
    unfold load_running, check_heartbeats, watchdog_notify_alive, send_notify, ping_locked, mqtt_send_ping;
    solve_only.
Qed.

Lemma istep_plain y y' :
  modbus_only (app_registry (sy_app y)) → istep y y' →
  ∃ evs, w_trace (sy_world y') = evs ++ w_trace (sy_world y) ∧ Forall plain evs.
Proof.
  intros Hm H. destruct H as [n a w pw last pm a' w' H|n a w pw last pm a' pw' last' w' _ H|
    n a w pw last pm a' pm' w' _ H|n a w last pm a' w' H|a w pw last pm e He]; cbn in *.
  - by apply ingress_plain in H.
  - by apply worker_step_plain in H.
  - by apply monitor_step_plain in H.
  - by apply exit_plain in H.
  - exists [e]. split; [done|]. constructor; [|done]. apply andb_true_iff in He as [He _]. by apply loop_plain.
Qed.
(** *** The invariant of the application, piece by piece

    Without any assumption on the environment, unlike [Sharing.sound]. *)

(** The invariant, and the point the worker carries was ruled. *)
Definition carries (c : gateway_config_t) (pw : worker_pc) : Prop :=
  match pw with WStore p | WDecide p _ => ruled_point c p | _ => True end.

Record steady (c : gateway_config_t) (st : storage_ctx_t) (y : system) : Prop := {
  sd_inv : app_inv c st (sy_app y);
  sd_point : carries c (sy_worker y)
}.

Lemma worker_steady c st pw last a n w a' pw' last' w' :
  app_inv c st a → carries c pw → worker_step pw last a n w = Some ((a', pw', last'), w') →
  app_inv c st a' ∧ carries c pw'.
Proof.
  intros Hi Hp H. destruct pw; cbn [worker_step] in H.
  - assert (∀ u, (a ← touch a HEARTBEAT_THREAD_WORKER; edgeflow_sleep_ms 20;; mret (a, WPop, last)) n w = Some u →
      u = ((a', pw', last'), w') → app_inv c st a' ∧ carries c pw') as Hidle.
    { intros u Hr ->. apply bind_run in Hr as (a1 & w1 & H1 & Hr). apply bind_run in Hr as (u1 & w2 & _ & Hr).
      io_done Hr. split; [by eapply inv_touch|done]. }
    destruct (spsc_ring_pop _ _) as [[[] [p|]] r] eqn:Ep; try by eapply Hidle. io_done H.
    split; [by eapply inv_pop|]. exists p. by rewrite (ai_cfg _ _ _ Hi).
  - apply bind_run in H as ([rc row] & w1 & _ & H). apply bind_run in H as (u & w2 & _ & H). io_done H.
    split; [by apply inv_metrics|done].
  - destruct Hp as [q ->]. rewrite (ai_cfg _ _ _ Hi) in H.
    destruct (state_engine_process_telemetry _ _ _ _ _ _ _) as [[[r e] al] cmd] eqn:Ee.
    apply (inv_engine_step c st a) in Ee; [|done].
    apply bind_run in H as (a2 & w2 & H2 & H). io_done H. split; [|done].
    destruct r; [by eapply inv_outcome|by io_done H2].
  - io_go H. by io_done H.
  - apply bind_run in H as ([rc s] & w1 & H1 & H). io_done H. split; [|done].
    apply publish_locked_run in H1 as (evs & _ & _ & Hok & _); [by apply inv_mqtt|apply Hi].
  - io_go H. by io_done H.
  - apply bind_run in H as (u & w1 & _ & H). io_done H. split; [by apply inv_metrics|done].
  - apply bind_run in H as ([a1 l1] & w1 & H1 & H). io_done H. split; [|done]. by eapply finish_inv.
Qed.

Lemma check_inv c st a n w a' w' : app_inv c st a → check_heartbeats a n w = Some (a', w') → app_inv c st a'.
Proof.
  intros Hi H. unfold check_heartbeats in H. apply bind_run in H as (a1 & w1 & H1 & H).
  do 5 (apply bind_run in H as (? & ? & _ & H)). io_done H. by eapply inv_touch.
Qed.

Lemma ping_session s n w s' w' : session_ok s → ping_locked s n w = Some (s', w') → session_ok s'.
Proof.
  unfold ping_locked. intros Hok H. destruct (_ && _); [|by io_done H].
  apply bind_run in H as (rc & w1 & _ & H). destruct (rc =? 0); [by io_done H|].
  destruct (shutdown_locked_run s n w1 Hok) as (evs & E & _). rewrite E in H. by simplify_eq.
Qed.

Lemma monitor_steady c st pm a n w a' pm' w' :
  app_inv c st a → monitor_step pm a n w = Some ((a', pm'), w') → app_inv c st a'.
Proof.
  intros Hi H. pose proof (ai_session _ _ _ Hi) as Hok.
  destruct pm as [| |l|l|[|row l]|row l| | | | | | |p|p| |]; cbn [monitor_step] in H;
    try (io_go H; io_done H; done).
  - apply bind_run in H as (run & w1 & _ & H). destruct run; [|by io_done H].
    apply bind_run in H as (a2 & w2 & H2 & H). io_done H. by eapply check_inv.
  - destruct (app_storage a); [|by io_done H]. apply bind_run in H as ([k l] & w1 & _ & H). by io_done H.
  - apply bind_run in H as ([rc s] & w1 & H1 & H). io_done H.
    apply ensure_run in H1 as (evs & _ & _ & Hs & _); [by apply inv_mqtt|done].
  - apply bind_run in H as (rc & w1 & _ & H). destruct (negb _); [|by io_done H].
    destruct (shutdown_locked_run (app_mqtt a) n w1 Hok) as (evs & E & _).
    erewrite bind_eq in H by exact E. io_done H. by apply inv_mqtt.
  - apply bind_run in H as (rc & w1 & _ & H). io_done H. destruct (rc =? 0); [by apply inv_metrics|done].
  - apply bind_run in H as (k & w1 & _ & H). io_done H. by apply inv_metrics.
  - apply bind_run in H as (s & w1 & H1 & H). io_done H. apply inv_mqtt; [done|]. by eapply ping_session.
  - apply bind_run in H as (now & w1 & _ & H). apply bind_run in H as (k & w2 & _ & H). by io_done H.
  - apply bind_run in H as ([rc s] & w1 & H1 & H). io_done H.
    apply publish_locked_run in H1 as (evs & _ & _ & Hs & _); [by apply inv_mqtt|done].
  - apply bind_run in H as (a1 & w1 & H1 & H). apply update_metrics_run in H1 as (m & ->).
    apply bind_run in H as (u & w2 & _ & H). io_done H. by apply inv_metrics.
Qed.

Lemma istep_steady c st y y' : steady c st y → istep y y' → steady c st y'.
Proof.
  intros [Hi Hp] H. destruct H as [n a w pw last pm a' w' H|n a w pw last pm a' pw' last' w' _ H|
    n a w pw last pm a' pm' w' _ H|n a w last pm a' w' H|a w pw last pm e He]; cbn in *.
  - split; [by eapply inv_ingress|done].
  - by eapply worker_steady in H as [? ?].
  - split; [by eapply monitor_steady|done].
  - split; [by eapply inv_exit|done].
  - by split.
Qed.

(** A run of the machine keeps the invariant, and opens and starts nothing. *)
Lemma isteps_steady c st y y' :
  steady c st y → rtc istep y y' → steady c st y' ∧
  ∃ evs, w_trace (sy_world y') = evs ++ w_trace (sy_world y) ∧ Forall plain evs.
Proof.
  intros Hs H. induction H as [y|y y1 y' Hstep _ IH]; [split; [done|by exists []]|].
  pose proof Hstep as (e1 & E1 & P1)%istep_plain; [|apply Hs].
  destruct IH as [Hs' (e2 & E2 & P2)]; [by eapply istep_steady|]. split; [done|].
  exists (e2 ++ e1). split; [by rewrite E2, E1, app_assoc|by apply Forall_app_2].
Qed.

Lemma isteps_spend c st y y' :
  steady c st y → rtc istep y y' → steady c st y' ∧ spends 0 (sy_world y) (sy_world y').
Proof.
  intros Hs H. destruct (isteps_steady _ _ _ _ Hs H) as [Hs' (evs & E & P)]. split; [done|].
  exists evs. auto 6 using plain_db, plain_leaks, plain_log, plain_threads.
Qed.
End plain.

(** ** Stop and destruction *)

(** No socket is open. *)
Definition no_socket (w : world) : Prop := ∀ fd, 0 <= fd → is_open fd (w_trace w) = false.

Section release.
Context {env : Env} {fresh : FreshSockets env}.

(** The session's shutdown leaves the watchdog's socket at most. *)
Lemma shutdown_sockets c s n w r w' :
  line_ok c s w → mutex (w_trace w) = Some false →
  mqtt_session_shutdown (Some s) n w = Some (r, w') → calm_sockets w'.
Proof.
  intros Hl Hm H. unfold mqtt_session_shutdown in H. io_go H.
  apply bind_run in H as (s1 & w1 & H1 & H). io_go H. io_done H.
  assert (∃ evs, w1 = mk_world (evs ++ EvLock :: w_trace w) (w_glob w) ∧ Forall (λ e, lockless e = true) evs ∧
    line_ok c s1 w1 ∧ ms_connected s1 = false) as (evs & -> & Hf & [_ _ Hn _ Ho] & Hoff).
  { assert (line_ok c s (mk_world (EvLock :: w_trace w) (w_glob w))) as Hl1.
    { eapply (line_grow _ _ _ _ [EvLock]); [done|done|done|by repeat constructor|]. by left. }
    destruct (ms_connected s) eqn:Hon.
    - rewrite shutdown_open in H1 by (by eapply line_fd). cbn [w_trace w_glob] in H1. io_done H1.
      exists [EvClose (ms_fd s)]. split_and!; [done|by repeat constructor| |done].
      by apply (line_close c s (mk_world (EvLock :: w_trace w) (w_glob w)) []).
    - rewrite shutdown_closed in H1 by (by destruct Hl). simplify_eq. exists []. split_and!; [done|done| |done].
      destruct Hl1 as [Hok Hc Hn Hli Ho]. split; [done|done|done|done|].
      intros fd Hp H2. destruct (Ho fd Hp H2) as [|[]]; [by left|congruence]. }
  split; cbn [w_trace w_glob is_open mutex] in *; [done| |].
  - intros fd Hp H2. destruct (Ho fd Hp H2) as [|[]]; [done|congruence].
  - rewrite mutex_app by done. cbn [mutex]. by rewrite Hm.
Qed.

Lemma watchdog_sockets n w u w' :
  calm_sockets w → watchdog_shutdown n w = Some (u, w') → no_socket w' ∧ mutex (w_trace w') = Some false.
Proof.
  intros [Hn Ho Hm] H. unfold watchdog_shutdown in H. io_go H.
  destruct (Z.leb_spec 0 (g_notify_fd (w_glob w))) as [Hp|Hp]; io_go H; unfold set_globals in H; simplify_eq;
    (split; [|done]); intros fd Hfd; cbn [w_trace is_open].
  - destruct (Z.eqb_spec (g_notify_fd (w_glob w)) fd) as [|Hne]; [done|].
    destruct (is_open fd (w_trace w)) eqn:E; [|done]. by apply Ho in E.
  - destruct (is_open fd (w_trace w)) eqn:E; [|done]. apply Ho in E; lia.
Qed.

Lemma stop_sockets c a n w a' w' :
  line_ok c (app_mqtt a) w → mutex (w_trace w) = Some false →
  gateway_app_stop (Some a) n w = Some (a', w') → no_socket w' ∧ mutex (w_trace w') = Some false.
Proof.
  intros Hl Hm H. unfold gateway_app_stop, store_running, pthread_join in H. io_go H.
  apply bind_run in H as (s & w1 & H1 & H). eapply shutdown_sockets in H1; [| |exact Hm].
  2: { eapply (line_grow _ _ _ _ [_; _; _; _]); [exact Hl|done|done|by repeat constructor|]. by left. }
  apply bind_run in H as (u & w2 & H2 & H). apply watchdog_sockets in H2 as [Hns Hm2]; [|done].
  io_go H. by io_done H.
Qed.

Lemma destroy_calm fd a : modbus_only (app_registry a) → Calm fd (gateway_app_destroy (Some a)).
Proof.
  intros (d & E & Hd). unfold gateway_app_destroy, adapter_registry_shutdown_all. cbv zeta. rewrite E.
  cbn [slots shutdown_slots]. rewrite (md_shutdown d Hd).
  unfold modbus_shutdown, modbus_libmodbus_shutdown, storage_close. solve_calm.
Qed.

Lemma destroy_sockets a n w a' w' :
  modbus_only (app_registry a) → no_socket w → mutex (w_trace w) = Some false →
  gateway_app_destroy (Some a) n w = Some (a', w') → no_socket w' ∧ mutex (w_trace w') = Some false.
Proof.
  intros Hr Hn Hm H. apply (destroy_calm (g_notify_fd (w_glob w))) in H as (evs & E & F & _); [|done|done].
  apply calm_quiet in F as [Fh _]. split.
  - intros fd Hp. rewrite E, open_app by (by apply harmless_sockets). by apply Hn.
  - by rewrite E, mutex_app by (by apply harmless_lockless).
Qed.

(** ** The whole life *)

Lemma launched_counts c w0 a w :
  is_u32 (cfg_queue_size c) → launched c w0 a w →
  ∃ st evs, app_inv c st a ∧ w_trace w = evs ++ w_trace w0 ∧
    db_handles evs = (if st_db st then 1 else 0) ∧ threads [] evs = ["ingress"; "worker"; "monitor"]%string.
Proof.
  intros Hq (a0 & n & w1 & m & Hi & Hr).
  apply app_init_run in Hi as (a' & [= <-] & [(_ & st & Hst & e1 & E1 & (D1 & _) & N1)|(? & _)]); [|done|done].
  rewrite <- (as_db _ _ _ Hst) in D1.
  apply app_run_run in Hr as (e2 & E2 & (D2 & _) & [(_ & T2 & _)|(? & _)]); [|done].
  exists st, (e2 ++ e1). split; [apply Hst|]. split; [by rewrite E2, E1, app_assoc|].
  split; [rewrite db_handles_app; lia|]. unfold threads. rewrite foldr_app.
  change (foldr thread_step [] e1) with (threads [] e1).
  destruct (no_thread_app e1 [] [] N1) as [E _]. rewrite app_nil_r in E. by rewrite E.
Qed.

(** The gateway releases what it took, whatever the interleaving: from the
    initialisation to the end of the destruction, with the pieces of the threads
    in any order in between and the threads at their loop heads when they are
    joined, every database handle that was opened is closed, every thread that
    was started is joined, the lock is free, and no socket is open, neither the
    session's nor the watchdog's. *)
Theorem gateway_releases db0 {spec : SqliteSpec env db0} c w0 a w y n1 a1 w1 n2 a2 w2 :
  is_u32 (cfg_queue_size c) → at_start w0 → launched c w0 a w →
  rtc istep (mk_system a w WPop 0 MIdle) y → sy_worker y = WPop → sy_monitor y = MIdle →
  gateway_app_stop (Some (sy_app y)) n1 (sy_world y) = Some (Some a1, w1) →
  gateway_app_destroy (Some a1) n2 w1 = Some (a2, w2) →
  ∃ evs, w_trace w2 = evs ++ w_trace w0 ∧ db_handles evs = 0 ∧ threads [] evs = [] ∧
    mutex (w_trace w2) = Some false ∧ ∀ fd, 0 <= fd → is_open fd (w_trace w2) = false.
Proof.
  intros Hq Hs Hl H Hpw Hpm Hstop Hdes.
  destruct (launched_counts _ _ _ _ Hq Hl) as (st & e1 & Hi & E1 & D1 & T1).
  apply (launched_sound db0) in Hl as [st' Hl]; [|done..].
  assert (st' = st) as ->.
  { pose proof (ai_storage _ _ _ (go_inv _ _ _ _ _ _ (so_good _ _ _ _ _ Hl))) as Hst.
    cbn in Hst. rewrite (ai_storage _ _ _ Hi) in Hst. by simplify_eq. }
  destruct (isteps_steady c st _ _ (Build_steady c st (mk_system a w WPop 0 MIdle) Hi I) H) as [_ (e2 & E2 & P2)].
  cbn in E2.
  assert (sound db0 c st (db_of db0 (w_trace w)) y) as [Hg _ _ Hm _].
  { clear -Hl H fresh spec. induction H; [done|]. eauto using sound_step. }
  rewrite Hpw, Hpm in Hm. cbn in Hm.
  pose proof (stop_sockets c _ _ _ _ _ (go_line _ _ _ _ _ _ Hg) Hm Hstop) as [Hns Hm1].
  apply app_stop_run in Hstop as (s & e3 & [= ->] & E3 & P3).
  pose proof (go_inv _ _ _ _ _ _ Hg) as Hi2.
  eapply destroy_sockets in Hdes as Hso; [|apply (ai_registry _ _ _ Hi2)|done|done].
  eapply app_destroy_run in Hdes as (e4 & E4 & (D4 & _) & N4); [|apply (ai_registry _ _ _ Hi2)|apply (ai_storage _ _ _ Hi2)].
  exists (e4 ++ e3 ++ joins ++ e2 ++ e1).
  split; [by rewrite E4, E3, E2, E1, !app_assoc|].
  rewrite !db_handles_app, D4, (plain_db e3), (plain_db e2), D1 by done.
  split; [cbn; destruct (st_db st); lia|]. split; [|by destruct Hso].
  rewrite (proj1 (no_thread_app e4 _ [] N4)), (proj1 (no_thread_app e3 _ [] (plain_threads _ P3))).
  unfold threads in *. rewrite foldr_app. change (foldr thread_step [] (e2 ++ e1)) with (threads [] (e2 ++ e1)).
  rewrite (proj1 (no_thread_app e2 _ [] (plain_threads _ P2))). unfold threads. by rewrite T1.
Qed.
End release.

(** ** A concrete life *)

(** Stop and destruction succeed. *)
Definition ends (y : system) : bool :=
  match gateway_app_stop (Some (sy_app y)) 20%nat (sy_world y) with
  | Some (Some a1, w1) => returns (gateway_app_destroy (Some a1)) 20 w1
  | _ => false
  end.

Lemma gateway_releases_witness :
  ∃ w2 evs, w_trace w2 = evs ++ w_trace world_init ∧ db_handles evs = 0 ∧ threads [] evs = [] ∧
    mutex (w_trace w2) = Some false ∧ ∀ fd, 0 <= fd → is_open fd (w_trace w2) = false.
Proof.
  destruct (demo_runs (overtaking ++ Worker :: replicate 11 Monitor)
    (λ y, (sy_worker y, sy_monitor y, ends y)) (WPop, MIdle, true) ltac:(vm_compute; reflexivity))
    as (a & w & y & Hl & Hr & [= Hpw Hpm He]).
  unfold ends in He. destruct (gateway_app_stop _ _ _) as [[[a1|] w1]|] eqn:E1; [|done..].
  destruct (returns_run _ _ _ He) as (a2 & w2 & E2). exists w2.
  exact (@gateway_releases demo_gateway_env _ [] _ demo_app_config world_init a w y 20 a1 w1 20 a2 w2
    demo_queue demo_at_start Hl Hr Hpw Hpm E1 E2).
Defined.
