(* ===== verification/Pipeline.v ===== *)
(** * From the ring to the outbox

    The points the ingress thread puts into the ring reach the [telemetry]
    table in their order and once each, whatever the interleaving of the
    threads. *)

From S2P Require Export Release.

#[local] Open Scope Z_scope.

(** ** What is stored, column by column *)

Definition columns (db : list db_row) : list (list sqlval) := dr_columns <$> db.

(** An event that stores no point. *)
Definition keeps_columns (e : event) : Prop := ∀ db, columns (apply_event e db) = columns db.

Lemma columns_no_insert e :
  (∀ args ok, e ≠ EvStep sql_insert_telemetry args ok) → keeps_columns e.
Proof.
  intros H db. destruct e; try done. cbn [apply_event]. destruct finished; [|done].
  destruct (decide (sql = sql_insert_telemetry)) as [->|_]; [by edestruct H|].
  case_decide; [|done]. destruct args as [|[id| | |] [|]]; try done. unfold columns.
  rewrite <- list_fmap_compose. apply list_fmap_ext. intros i r _. unfold mark_row, compose. by case_decide.
Qed.

Lemma columns_of_keep db0 evs tr : Forall keeps_columns evs → columns (db_of db0 (evs ++ tr)) = columns (db_of db0 tr).
Proof.
  induction 1 as [|e evs He _ IH]; [done|]. rewrite <- IH. apply He.
Qed.

#[export] Hint Extern 4 (keeps_columns _) => apply columns_no_insert; discriminate : core.

(** Points appended to the ring by a step. *)
Definition pushed (y y' : system) : list telemetry_t :=
  drop (length (contents (app_ring (sy_app y)))) (contents (app_ring (sy_app y'))).

Section flow.
Context {env : Env}.

(** A run, with the points that entered the ring during it, in order. *)
Inductive flow (y : system) : list telemetry_t → system → Prop :=
  | flow_refl : flow y [] y
  | flow_step taken y1 y2 : flow y taken y1 → istep y1 y2 → flow y (taken ++ pushed y1 y2) y2.

Lemma flow_run y taken y' : flow y taken y' → rtc istep y y'.
Proof. induction 1; [done|]. by eapply rtc_r. Qed.

Lemma run_flow y y' : rtc istep y y' → ∃ taken, flow y taken y'.
Proof.
  revert y'. apply rtc_ind_r; [eexists; constructor|].
  intros y1 y2 _ Hstep [taken IH]. eexists. by econstructor.
Qed.

(** ** The pieces of the worker and the monitor *)

Lemma sleep_columns ms : Only keeps_columns (edgeflow_sleep_ms ms).
Proof.
  unfold edgeflow_sleep_ms. apply only_fuel. intros k. generalize (ms / 1000) (ms mod 1000 * 1000000).
  induction k; simpl; solve_only.
Qed.

Lemma now_columns : Only keeps_columns edgeflow_now_ms.
Proof. unfold edgeflow_now_ms. solve_only. Qed.
#[local] Hint Resolve sleep_columns now_columns : footprint.

Lemma touch_columns a t : Only keeps_columns (touch a t).
Proof. unfold touch, heartbeat_touch. solve_only. Qed.

Lemma age_columns hb t : Only keeps_columns (heartbeat_age_ms hb t).
Proof. unfold heartbeat_age_ms. solve_only. Qed.
#[local] Hint Resolve touch_columns age_columns : footprint.

Lemma update_metrics_columns a : Only keeps_columns (update_heartbeat_metrics a).
Proof. unfold update_heartbeat_metrics. solve_only. Qed.

Lemma metrics_write_columns p m : Only keeps_columns (metrics_write_file p m).
Proof. unfold metrics_write_file. solve_only. Qed.

Lemma run_statement_columns sql args : sql ≠ sql_insert_telemetry → Only keeps_columns (run_statement sql args).
Proof. intros Hne. unfold run_statement. solve_only. apply columns_no_insert. intros ? ? ?. by simplify_eq. Qed.
#[local] Hint Extern 1 (Only _ (run_statement _ _)) => apply run_statement_columns; discriminate : footprint.

Lemma append_alarm_columns st al : Only keeps_columns (storage_append_alarm st al).
Proof. unfold storage_append_alarm, append_jsonl_line. solve_only. Qed.

Lemma append_command_columns st cmd : Only keeps_columns (storage_append_command st cmd).
Proof. unfold storage_append_command, append_jsonl_line. solve_only. Qed.

Lemma fetch_columns st b max : Only keeps_columns (storage_fetch_pending_telemetry st b max).
Proof. unfold storage_fetch_pending_telemetry. solve_only. Qed.

Lemma mark_columns st id : Only keeps_columns (storage_mark_telemetry_uploaded st id).
Proof. unfold storage_mark_telemetry_uploaded. solve_only. Qed.

Lemma count_columns st : Only keeps_columns (storage_pending_telemetry_count st).
Proof. unfold storage_pending_telemetry_count. solve_only. Qed.

Lemma write_all_columns fd buf : Only keeps_columns (mqtt_write_all fd buf).
Proof. unfold mqtt_write_all. apply only_fuel. intros k. revert buf. induction k; simpl; solve_only. Qed.
#[local] Hint Resolve update_metrics_columns metrics_write_columns append_alarm_columns
  append_command_columns fetch_columns mark_columns count_columns write_all_columns : footprint.

Lemma send_publish_columns fd topic payload : Only keeps_columns (mqtt_send_publish fd topic payload).
Proof. unfold mqtt_send_publish. solve_only. Qed.

Lemma shutdown_columns s : Only keeps_columns (mqtt_shutdown_locked s).
Proof. unfold mqtt_shutdown_locked. solve_only. Qed.
#[local] Hint Resolve send_publish_columns shutdown_columns : footprint.

Lemma ensure_columns s : Only keeps_columns (mqtt_ensure_connected_locked s).
Proof. unfold mqtt_ensure_connected_locked, mqtt_open_tcp, mqtt_send_connect. solve_only. Qed.
#[local] Hint Resolve ensure_columns : footprint.

Lemma send_commands_columns d st l k : modbus_device d → Only keeps_columns (send_commands d st l k).
Proof.
  intros Hd. revert k. induction l as [|x l IH]; intros k; simpl; [apply _|].
  apply only_bind; [|intros; apply IH]. unfold send_command. rewrite (md_write d Hd).
  unfold modbus_write_command. solve_only.
Qed.
#[local] Hint Resolve send_commands_columns : footprint.

Lemma handle_outcome_columns a al cmd :
  modbus_only (app_registry a) → Only keeps_columns (handle_outcome a al cmd).
Proof.
  intros (d & _ & Hd & Hf)%modbus_only_find. unfold handle_outcome.
  apply only_bind; [solve_only|intros _]. case_decide; [apply _|].
  apply only_bind; [unfold command_scheduler_submit; solve_only|]. intros [[rc s] c'].
  destruct (negb _); [apply _|]. change (find_modbus_adapter (with_scheduler a _)) with (find_modbus_adapter a).
  rewrite Hf. unfold command_scheduler_tick. solve_only.
Qed.
#[local] Hint Resolve handle_outcome_columns : footprint.

Lemma worker_columns pw last a :
  modbus_only (app_registry a) → (∀ p, pw ≠ WStore p) → Only keeps_columns (worker_step pw last a).
Proof.
  intros Hm Hs. destruct pw; cbn [worker_step]; try by destruct (Hs point).
  all: unfold finish_round, publish_locked; solve_only.
Qed.

Lemma monitor_columns pm a : Only keeps_columns (monitor_step pm a).
Proof.
  destruct pm as [| |l|l|[|row l]|row l| | | | | | |p|p| |]; cbn [monitor_step];
    unfold load_running, check_heartbeats, watchdog_notify_alive, send_notify, ping_locked, mqtt_send_ping,
      publish_locked;
    solve_only.
Qed.

Lemma ingress_columns a : modbus_only (app_registry a) → Only keeps_columns (ingress_body a).
Proof.
  intros (d & E & Hd). unfold ingress_body, adapter_registry_poll_all. rewrite E.
  cbn [slots poll_slots]. rewrite (md_poll d Hd).
  unfold modbus_poll, modbus_rtu_poll, modbus_poll_simulate, modbus_libmodbus_poll, ensure_context,
    modbus_set_response_timeout, map_registers_to_telemetry, modbus_libmodbus_shutdown. solve_only.
Qed.

Lemma exit_columns a : Only keeps_columns (worker_exit a).
Proof. unfold worker_exit. solve_only. Qed.

(** *** The ring *)

Lemma finish_ring a last n w a' last' w' :
  finish_round a last n w = Some ((a', last'), w') → app_ring a' = app_ring a.
Proof.
  intros H. unfold finish_round in H. apply bind_run in H as (a3 & w3 & H3 & H).
  apply touch_run in H3 as (hb & -> & _).
  apply bind_run in H as (k & w4 & _ & H). apply bind_run in H as (now & w5 & _ & H).
  destruct (1000 <? _); [|by io_done H].
  apply bind_run in H as (a4 & w6 & H6 & H). apply update_metrics_run in H6 as (m & ->).
  apply bind_run in H as (u & w7 & _ & H). apply bind_run in H as (l & w8 & _ & H). by io_done H.
Qed.

Lemma outcome_ring a al cmd n w a' w' :
  handle_outcome a al cmd n w = Some (a', w') → app_ring a' = app_ring a.
Proof.
  intros H. unfold handle_outcome in H. apply bind_run in H as (u & w1 & _ & H). case_decide; [by io_done H|].
  apply bind_run in H as ([[rc s] c'] & w2 & _ & H). destruct (negb _); [by io_done H|].
  destruct (find_modbus_adapter _); [|by io_done H].
  apply bind_run in H as ([k s'] & w3 & _ & H). by io_done H.
Qed.

(** Only the head of the loop takes from the ring, and leads to the store. *)
Lemma worker_ring pw last a n w a' pw' last' w' :
  worker_step pw last a n w = Some ((a', pw', last'), w') → pw ≠ WPop →
  app_ring a' = app_ring a ∧ ∀ p, pw' ≠ WStore p.
Proof.
  intros H Hne. destruct pw; cbn [worker_step] in H; try done; try (io_go H; by io_done H).
  - apply bind_run in H as ([rc row] & w1 & _ & H). apply bind_run in H as (u & w2 & _ & H). by io_done H.
  - destruct (state_engine_process_telemetry _ _ _ _ _ _ _) as [[[r e] al] cmd].
    apply bind_run in H as (a2 & w2 & H2 & H). io_done H. split; [|done].
    destruct r; [by apply outcome_ring in H2|by io_done H2].
  - apply bind_run in H as ([rc2 s] & w1 & _ & H). by io_done H.
  - apply bind_run in H as (u & w1 & _ & H). by io_done H.
  - apply bind_run in H as ([a1 l1] & w1 & H1 & H). io_done H. split; [by eapply finish_ring|done].
Qed.

Lemma monitor_ring pm a n w a' pm' w' :
  monitor_step pm a n w = Some ((a', pm'), w') → app_ring a' = app_ring a.
Proof.
  intros H. destruct pm as [| |l|l|[|row l]|row l| | | | | | |p|p| |]; cbn [monitor_step] in H;
    try (io_go H; by io_done H).
  - apply bind_run in H as (run & w1 & _ & H). destruct run; [|by io_done H].
    apply bind_run in H as (a2 & w2 & H2 & H). io_done H. unfold check_heartbeats in H2.
    apply bind_run in H2 as (a3 & w3 & H3 & H2). apply touch_run in H3 as (hb & -> & _).
    do 5 (apply bind_run in H2 as (? & ? & _ & H2)). by io_done H2.
  - destruct (app_storage a) as [st|]; [|by io_done H].
    apply bind_run in H as ([k l] & w1 & _ & H). by io_done H.
  - apply bind_run in H as ([rc s] & w1 & _ & H). by io_done H.
  - apply bind_run in H as (rc & w1 & _ & H). destruct (negb _); [|by io_done H].
    apply bind_run in H as (s & w2 & _ & H). by io_done H.
  - apply bind_run in H as (rc & w1 & _ & H). io_done H. by destruct (rc =? 0).
  - apply bind_run in H as (k & w1 & _ & H). by io_done H.
  - apply bind_run in H as (s & w1 & _ & H). by io_done H.
  - apply bind_run in H as (now & w1 & _ & H). apply bind_run in H as (k & w2 & _ & H). by io_done H.
  - apply bind_run in H as ([rc s] & w1 & _ & H). by io_done H.
  - apply bind_run in H as (a1 & w1 & H1 & H). apply update_metrics_run in H1 as (m & ->).
    apply bind_run in H as (u & w2 & _ & H). by io_done H.
Qed.

Lemma push_ring a pts :
  ring_wf (app_ring a) →
  contents (app_ring (push_points a pts)) = contents (app_ring a) ++ take (ring_room a) pts.
Proof. intros Hw. apply (push_points_room a pts Hw). Qed.

Lemma ingress_ring a n w a' w' :
  ring_wf (app_ring a) → ingress_body a n w = Some (a', w') →
  ∃ l, contents (app_ring a') = contents (app_ring a) ++ l.
Proof.
  intros Hw H. unfold ingress_body in H. apply bind_run in H as ([k pts] & w1 & _ & H).
  apply bind_run in H as (a2 & w2 & H2 & H). apply bind_run in H as (u & w3 & _ & H). io_done H.
  apply touch_run in H2 as (hb & -> & _). cbn. destruct (0 <? k); [eexists; by apply push_ring|].
  exists []. by rewrite app_nil_r.
Qed.

(** *** The pipeline *)

Context {fresh : FreshSockets env} (db0 : list db_row) {spec : SqliteSpec env db0}.
Context (c : gateway_config_t) (st : storage_ctx_t) (old : list db_row) (base : list (list sqlval)).

(** The point the worker has taken and not yet stored. *)
Definition in_hand (pw : worker_pc) (hand : list telemetry_t) : Prop :=
  match pw with
  | WStore p => ∃ q, hand = [q] ∧ p = apply_quality_rules c q
  | _ => hand = []
  end.

(** The columns a point is stored with. *)
Definition stored_as (q : telemetry_t) : list sqlval := telemetry_binding (apply_quality_rules c q).

(** Of the points [taken] into the ring, some have been handled, at most one is
    in the worker's hands, and the others are in the ring; the rows added to
    [base] are those of handled points, in order. *)
Definition piped (y : system) (taken : list telemetry_t) : Prop :=
  ∃ handled hand cols,
    taken = handled ++ hand ++ contents (app_ring (sy_app y)) ∧ in_hand (sy_worker y) hand ∧
    columns (db_of db0 (w_trace (sy_world y))) = base ++ cols ∧
    cols `sublist_of` (stored_as <$> handled).

Lemma piped_quiet a w pw last pm a' w' pw' last' pm' taken l :
  piped (mk_system a w pw last pm) taken →
  (∃ evs, w_trace w' = evs ++ w_trace w ∧ Forall keeps_columns evs) →
  contents (app_ring a') = contents (app_ring a) ++ l →
  (∀ hand, in_hand pw hand → in_hand pw' hand) →
  piped (mk_system a' w' pw' last' pm') (taken ++ pushed (mk_system a w pw last pm) (mk_system a' w' pw' last' pm')).
Proof.
  intros (handled & hand & cols & -> & Hh & Hc & Hs) (evs & E & F) Hr Hpw.
  exists handled, hand, cols. unfold pushed. cbn in *. rewrite Hr, drop_app_length, <- !app_assoc.
  split_and!; [done|by apply Hpw|by rewrite E, columns_of_keep|done].
Qed.

Lemma piped_pop a w last pm a' w' pw' last' n taken :
  ring_wf (app_ring a) → app_cfg a = c → modbus_only (app_registry a) →
  worker_step WPop last a n w = Some ((a', pw', last'), w') →
  piped (mk_system a w WPop last pm) taken →
  piped (mk_system a' w' pw' last' pm)
    (taken ++ pushed (mk_system a w WPop last pm) (mk_system a' w' pw' last' pm)).
Proof.
  intros Hw Hcfg Hm H Hp. pose proof H as Hev. apply worker_columns in Hev; [|done|done].
  cbn [worker_step] in H. unfold spsc_ring_pop in H. cbn [on_ptr] in H. pose proof (ring_pop_spec (app_ring a) Hw) as Hpop.
  destruct (ring_pop (app_ring a)) as [res r]. destruct Hpop as (_ & _ & _ & Hc & _). destruct res as [q|].
  - io_done H. destruct Hp as (handled & hand & cols & -> & Hh & Hcols & Hs). cbn in Hh. subst hand.
    change (contents (app_ring a) = q :: contents r) in Hc. unfold pushed. cbn [sy_app app_ring with_ring default from_option id].
    change (default (app_ring a) (Some r)) with r. rewrite Hc. cbn [length]. rewrite drop_ge by lia. rewrite app_nil_r.
    exists handled, [q], cols. cbn in *. split_and!; [done|by exists q; rewrite Hcfg|done|done].
  - apply bind_run in H as (a2 & w2 & H2 & H). apply bind_run in H as (u & w3 & _ & H). io_done H.
    apply touch_run in H2 as (hb & -> & _).
    eapply (piped_quiet _ _ _ _ _ _ _ _ _ _ _ []); [exact Hp|done|by rewrite app_nil_r|done].
Qed.

Lemma piped_store a w p last pm a' w' pw' last' n taken :
  app_storage a = Some st →
  worker_step (WStore p) last a n w = Some ((a', pw', last'), w') →
  piped (mk_system a w (WStore p) last pm) taken →
  piped (mk_system a' w' pw' last' pm)
    (taken ++ pushed (mk_system a w (WStore p) last pm) (mk_system a' w' pw' last' pm)).
Proof.
  intros Hst H (handled & hand & cols & -> & (q & -> & ->) & Hcols & Hs). cbn [sy_app sy_world sy_worker] in *.
  pose proof H as [Hr _]%worker_ring; [|done]. unfold pushed. cbn [sy_app]. rewrite Hr, drop_all, app_nil_r.
  cbn [worker_step] in H. rewrite Hst in H.
  apply bind_run in H as ([rc row] & w1 & H1 & H). apply bind_run in H as (u & w2 & H2 & H). io_done H.
  assert (Only keeps_columns (if negb (rc =? 0) then log_warn "storage append telemetry failed" else mret tt)) as Hlog
    by solve_only.
  apply Hlog in H2 as (evs & E & F). apply (append_piece db0) in H1 as (e1 & -> & _ & Hd).
  exists (handled ++ [q]), [], (if decide (row = Some 0) then cols else cols ++ [stored_as q]).
  split; [by cbn; rewrite <- !app_assoc|]. split; [done|]. cbn [sy_world].
  rewrite E, columns_of_keep, fmap_app by done. destruct Hd as [[-> ->]|[-> ->]].
  - rewrite decide_True by done. split; [done|]. by apply sublist_inserts_r.
  - rewrite decide_False by (intros [=]; pose proof (next_id_pos (db_of db0 (w_trace w))); lia).
    split; [|by apply sublist_app]. unfold columns. rewrite fmap_app. fold (columns (db_of db0 (w_trace w))).
    by rewrite Hcols, <- app_assoc.
Qed.

Lemma piped_step y y' taken :
  sound db0 c st old y → piped y taken → istep y y' → piped y' (taken ++ pushed y y').
Proof.
  intros Hs Hp Hstep. pose proof (go_inv _ _ _ _ _ _ (so_good _ _ _ _ _ Hs)) as Hi.
  pose proof (ai_registry _ _ _ Hi) as Hm. destruct (ai_ring _ _ _ Hi) as [Hw _].
  destruct Hstep as [n a w pw last pm a' w' H|n a w pw last pm a' pw' last' w' _ H|
    n a w pw last pm a' pm' w' _ H|n a w last pm a' w' H|a w pw last pm e He]; cbn [sy_app] in *.
  - pose proof H as [l Hl]%ingress_ring; [|done]. eapply piped_quiet; [exact Hp|exact (ingress_columns a Hm _ _ _ _ H)|exact Hl|done].
  - assert (pw = WPop ∨ (∃ p, pw = WStore p) ∨ pw ≠ WPop ∧ ∀ p, pw ≠ WStore p) as [->|[[p ->]|[Hne Hst]]].
    { destruct pw; [by left|right; left; by eexists|by right; right..]. }
    { eapply piped_pop; [exact Hw|apply Hi|exact Hm|exact H|exact Hp]. }
    { eapply piped_store; [apply Hi|exact H|exact Hp]. }
    pose proof H as [Hr Hnext]%worker_ring; [|done].
    eapply (piped_quiet _ _ _ _ _ _ _ _ _ _ _ []); [exact Hp|exact (worker_columns _ _ _ Hm Hst _ _ _ _ H)|by rewrite Hr, app_nil_r|].
    intros hand Hh. assert (hand = []) as -> by (destruct pw; try done; by destruct (Hst point)).
    destruct pw'; try done. by destruct (Hnext point).
  - pose proof H as Hr%monitor_ring.
    eapply (piped_quiet _ _ _ _ _ _ _ _ _ _ _ []); [exact Hp|exact (monitor_columns _ _ _ _ _ _ H)|by rewrite Hr, app_nil_r|done].
  - pose proof H as Hc%exit_columns. unfold worker_exit in H. apply bind_run in H as (a1 & w1 & H1 & H).
    apply update_metrics_run in H1 as (m & ->). apply bind_run in H as (u & w2 & _ & H). io_done H.
    eapply (piped_quiet _ _ _ _ _ _ _ _ _ _ _ []); [exact Hp|exact Hc|by rewrite app_nil_r|done].
  - eapply (piped_quiet _ _ _ _ _ _ _ _ _ _ _ []); [done| |by rewrite app_nil_r|done].
    exists [e]. split; [done|]. constructor; [|done]. apply columns_no_insert. intros ? ? ->. done.
Qed.
End flow.

Section properties.
Context {env : Env} {fresh : FreshSockets env} (db0 : list db_row) {spec : SqliteSpec env db0}.

Lemma launched_empty c w0 a w :
  is_u32 (cfg_queue_size c) → launched c w0 a w → contents (app_ring a) = [].
Proof.
  intros Hq (a0 & n & w1 & m & Hi & _).
  apply app_init_run in Hi as (a' & [= <-] & [(_ & st & Hst & _)|(? & _)]); [apply Hst|done..].
Qed.

Lemma flow_piped c w0 a w taken y :
  is_u32 (cfg_queue_size c) → at_start w0 → launched c w0 a w →
  flow (mk_system a w WPop 0 MIdle) taken y → piped db0 c (columns (db_of db0 (w_trace w))) y taken.
Proof.
  intros Hq Hs Hl Hf. induction Hf as [|taken y1 y2 Hf IH Hstep].
  { exists [], [], []. cbn. rewrite (launched_empty _ _ _ _ Hq Hl), app_nil_r. split_and!; [done..|constructor]. }
  apply flow_run in Hf. eapply (launched_run db0) in Hf as [st Hf]; [|done..]. by eapply piped_step.
Qed.

(** C6: the pipeline keeps the points, their order and their number: from the
    start of the gateway, in every interleaving of the threads, the points that
    entered the ring are, in order, those the worker has handled, at most the
    one it has in its hands, and those still in the ring; and the table of the
    outbox is what it was at the start followed by new rows that hold, in that
    order and at most once each, the points it handled as the quality rule left
    them: none is invented, repeated, mixed or overtaken. *)
Theorem ring_to_outbox c w0 a w taken y :
  is_u32 (cfg_queue_size c) → at_start w0 → launched c w0 a w →
  flow (mk_system a w WPop 0 MIdle) taken y →
  ∃ handled hand cols,
    taken = handled ++ hand ++ contents (app_ring (sy_app y)) ∧ in_hand c (sy_worker y) hand ∧
    columns (db_of db0 (w_trace (sy_world y))) = columns (db_of db0 (w_trace w)) ++ cols ∧
    cols `sublist_of` (stored_as c <$> handled).
Proof. intros Hq Hs Hl Hf. exact (flow_piped c w0 a w taken y Hq Hs Hl Hf). Qed.
End properties.

(** ** A concrete run *)

Lemma ring_to_outbox_witness :
  ∃ y taken handled hand cols,
    taken = handled ++ hand ++ contents (app_ring (sy_app y)) ∧
    in_hand demo_app_config (sy_worker y) hand ∧
    columns [overtaken_row] = columns (db_of [] (w_trace (sy_world y))) ∧
    cols `sublist_of` (stored_as demo_app_config <$> handled).
Proof.
  destruct demo_overtaken as (a & w & y & hs & f & Hl & Hr & Hd & _). destruct (run_flow _ _ Hr) as [taken Hf].
  exists y, taken.
  destruct (@ring_to_outbox demo_gateway_env _ [] _ demo_app_config world_init a w taken y
    demo_queue demo_at_start Hl Hf) as (handled & hand & cols & Ht & Hh & _ & Hs).
  exists handled, hand, cols. split; [exact Ht|]. split; [exact Hh|]. split; [by rewrite Hd|exact Hs].
Defined.
