(* ===== verification/Logfile.v ===== *)
(** * The log file stays open

    Between [logger_init] and [logger_shutdown] ([src/src/platform/logger.c])
    nothing the gateway runs touches [g_log_fp]: neither initialisation, start,
    stop and destruction of the runtime, nor any piece of its threads. *)

From S2P Require Export Release.

#[local] Open Scope Z_scope.

(** [Logs fp m]: the computation leaves the log as it found it, [fp]. *)
Class Logs (fp : option string) {A} (m : io A) : Prop :=
  logs_run : ∀ n w x w', g_log_fp (w_glob w) = fp → m n w = Some (x, w') → g_log_fp (w_glob w') = fp.

Section logs.
Context {env : Env} {fp : option string}.

Lemma logs_ret {A} (x : A) : Logs fp (mret x).
Proof. intros n w y w' Hg H. by io_done H. Qed.

Lemma logs_bind {A B} (m : io A) (k : A → io B) : Logs fp m → (∀ x, Logs fp (k x)) → Logs fp (m ≫= k).
Proof.
  intros Hm Hk n w y w' Hg H. apply bind_run in H as (x & w1 & H1 & H2).
  apply Hm in H1; [|done]. by apply Hk in H2.
Qed.

Lemma logs_call {A} (f : trace → A) ev : Logs fp (call f ev).
Proof. intros n w x w' Hg H. rewrite call_run in H. by simplify_eq. Qed.

Lemma logs_ask {A} (f : trace → A) : Logs fp (ask f).
Proof. intros n w x w' Hg H. unfold ask in H. by simplify_eq. Qed.

Lemma logs_answered {A} fd (m : io A) : Logs fp m → Logs fp (answered fd m).
Proof. intros Hm n w x w' Hg H. apply answered_run in H. by apply Hm in H. Qed.

Lemma logs_get {A} (k : globals → io A) :
  (∀ g, g_log_fp g = fp → Logs fp (k g)) → Logs fp (get_globals ≫= k).
Proof. intros Hk n w x w' Hg H. exact (Hk (w_glob w) Hg n w x w' Hg H). Qed.

Lemma logs_set g : g_log_fp g = fp → Logs fp (set_globals g).
Proof. intros Hs n w x w' Hg H. unfold set_globals in H. by simplify_eq. Qed.

Lemma logs_fuel {A} (m : nat → io A) : (∀ k, Logs fp (m k)) → Logs fp (with_fuel m).
Proof. intros Hm n w x w' Hg H. by apply (Hm n) in H. Qed.

Lemma logs_out {A} : Logs fp (@out_of_fuel A).
Proof. by intros n w x w' Hg H. Qed.

Lemma logs_log level msg : Logs fp (log_vprint level msg).
Proof. unfold log_vprint, emit. apply logs_get. intros g _. apply logs_call. Qed.
End logs.

Create HintDb logs.

(** Splits a computation into its calls, like [solve_only]. *)
Ltac solve_logs :=
  repeat first
    [ progress intros | solve [auto 2 with logs nocore]
    | lazymatch goal with
      | |- Logs _ (with_fuel _) => apply logs_fuel
      | |- Logs _ out_of_fuel => apply logs_out
      end
    | apply logs_ret | apply logs_ask | apply logs_get; intros | apply logs_set; done
    | apply logs_log | apply logs_answered | apply logs_call
    | apply logs_bind; [|intros]
    | match goal with |- context [match ?x with _ => _ end] => destruct x eqn:? end
    | progress unfold log_info, log_warn, log_error, emit, clock_gettime, nanosleep, prepare, step,
        rows, last_insert_rowid, edgeflow_now_ms, pthread_mutex_lock, pthread_mutex_unlock, socket,
        connect, write_wait, read_wait, write, read, close ];
  auto.

(** ** The components *)

Section components.
Context {env : Env} (fp : option string).

Lemma sleep_logs ms : Logs fp (edgeflow_sleep_ms ms).
Proof.
  unfold edgeflow_sleep_ms. apply logs_fuel. intros k. generalize (ms / 1000) (ms mod 1000 * 1000000).
  induction k; simpl; solve_logs.
Qed.

Lemma write_all_logs fd buf : Logs fp (mqtt_write_all fd buf).
Proof. unfold mqtt_write_all. apply logs_fuel. intros k. revert buf. induction k; simpl; solve_logs. Qed.

Lemma touch_logs a t : Logs fp (touch a t).
Proof. unfold touch, heartbeat_touch. solve_logs. Qed.

Lemma age_logs hb t : Logs fp (heartbeat_age_ms hb t).
Proof. unfold heartbeat_age_ms. solve_logs. Qed.

Lemma mqtt_shutdown_logs s : Logs fp (mqtt_shutdown_locked s).
Proof. unfold mqtt_shutdown_locked. solve_logs. Qed.
Hint Resolve sleep_logs write_all_logs touch_logs age_logs mqtt_shutdown_logs : logs.

Lemma send_publish_logs fd topic payload : Logs fp (mqtt_send_publish fd topic payload).
Proof. unfold mqtt_send_publish. solve_logs. Qed.

Lemma ensure_logs s : Logs fp (mqtt_ensure_connected_locked s).
Proof. unfold mqtt_ensure_connected_locked, mqtt_open_tcp, mqtt_send_connect. solve_logs. Qed.
Hint Resolve send_publish_logs ensure_logs : logs.

Lemma publish_locked_logs s topic payload : Logs fp (publish_locked s topic payload).
Proof. unfold publish_locked. solve_logs. Qed.

Lemma update_metrics_logs a : Logs fp (update_heartbeat_metrics a).
Proof. unfold update_heartbeat_metrics. solve_logs. Qed.

Lemma libmodbus_shutdown_logs : Logs fp modbus_libmodbus_shutdown.
Proof. unfold modbus_libmodbus_shutdown. solve_logs. Qed.
Hint Resolve publish_locked_logs update_metrics_logs libmodbus_shutdown_logs : logs.

Lemma poll_logs self out max : Logs fp (modbus_poll self out max).
Proof.
  unfold modbus_poll, modbus_rtu_poll, modbus_poll_simulate, modbus_libmodbus_poll, ensure_context,
    modbus_set_response_timeout, map_registers_to_telemetry. solve_logs.
Qed.

Lemma write_logs self cmd : Logs fp (modbus_write_command self cmd).
Proof. unfold modbus_write_command. solve_logs. Qed.

Lemma shutdown_logs self : Logs fp (modbus_shutdown self).
Proof. unfold modbus_shutdown. solve_logs. Qed.
Hint Resolve poll_logs write_logs shutdown_logs : logs.

(** ** The threads *)

Lemma ingress_logs a : modbus_only (app_registry a) → Logs fp (ingress_body a).
Proof.
  intros (d & E & Hd). unfold ingress_body, adapter_registry_poll_all. rewrite E.
  cbn [slots poll_slots]. rewrite (md_poll d Hd). solve_logs.
Qed.

Lemma send_commands_logs d st l k : modbus_device d → Logs fp (send_commands d st l k).
Proof.
  intros Hd. revert k. induction l as [|c l IH]; intros k; simpl; [apply logs_ret|].
  apply logs_bind; [|intros; apply IH]. unfold send_command. rewrite (md_write d Hd).
  unfold storage_append_command, append_jsonl_line, run_statement. solve_logs.
Qed.
Hint Resolve send_commands_logs : logs.

Lemma handle_outcome_logs a al cmd : modbus_only (app_registry a) → Logs fp (handle_outcome a al cmd).
Proof.
  intros (d & _ & Hd & Hf)%modbus_only_find. unfold handle_outcome.
  apply logs_bind; [unfold storage_append_alarm, append_jsonl_line, run_statement; solve_logs|intros _].
  case_decide; [apply logs_ret|]. apply logs_bind; [unfold command_scheduler_submit; solve_logs|].
  intros [[rc s] c']. destruct (negb _); [apply logs_ret|].
  change (find_modbus_adapter (with_scheduler a _)) with (find_modbus_adapter a). rewrite Hf.
  unfold command_scheduler_tick. solve_logs.
Qed.
Hint Resolve handle_outcome_logs : logs.

Lemma worker_step_logs pw last a : modbus_only (app_registry a) → Logs fp (worker_step pw last a).
Proof.
  intros Hm. destruct pw; cbn [worker_step];
    unfold finish_round, storage_append_telemetry, jsonl_append_telemetry, append_jsonl_line,
      storage_mark_telemetry_uploaded, run_statement, storage_pending_telemetry_count; solve_logs.
Qed.

Lemma monitor_step_logs pm a : Logs fp (monitor_step pm a).
Proof.
  destruct pm as [| |l|l|[|row l]|row l| | | | | | |p|p| |]; cbn [monitor_step];
    unfold load_running, check_heartbeats, watchdog_notify_alive, send_notify, ping_locked, mqtt_send_ping,
      storage_fetch_pending_telemetry, storage_mark_telemetry_uploaded, run_statement,
      storage_pending_telemetry_count, metrics_write_file; solve_logs.
Qed.

Lemma exit_logs a : Logs fp (worker_exit a).
Proof. unfold worker_exit. solve_logs. Qed.

Lemma istep_logs y y' :
  modbus_only (app_registry (sy_app y)) → istep y y' →
  g_log_fp (w_glob (sy_world y)) = fp → g_log_fp (w_glob (sy_world y')) = fp.
Proof.
  intros Hm H Hg. destruct H as [n a w pw last pm a' w' H|n a w pw last pm a' pw' last' w' _ H|
    n a w pw last pm a' pm' w' _ H|n a w last pm a' w' H|a w pw last pm e He]; cbn in *; [..|done].
  - exact (ingress_logs a Hm _ _ _ _ Hg H).
  - exact (worker_step_logs pw last a Hm _ _ _ _ Hg H).
  - exact (monitor_step_logs pm a _ _ _ _ Hg H).
  - exact (exit_logs a _ _ _ _ Hg H).
Qed.

Lemma isteps_logs c st y y' :
  steady c st y → rtc istep y y' →
  g_log_fp (w_glob (sy_world y)) = fp → g_log_fp (w_glob (sy_world y')) = fp.
Proof.
  intros Hs H. induction H as [y|y y1 y' Hstep _ IH]; [done|]. intros Hg.
  apply IH; [by eapply istep_steady|]. eapply istep_logs; [apply Hs|done..].
Qed.

(** ** The runtime *)

Lemma shutdown_all_logs r : modbus_only r → Logs fp (adapter_registry_shutdown_all (Some r)).
Proof.
  intros (d & -> & Hd). cbn [adapter_registry_shutdown_all slots shutdown_slots].
  rewrite (md_shutdown d Hd). solve_logs.
Qed.

Lemma init_logs a0 c : Logs fp (gateway_app_init (Some a0) (Some c)).
Proof.
  unfold gateway_app_init. cbv zeta. apply logs_bind; [unfold heartbeat_registry_init; solve_logs|]. intros h.
  apply logs_bind; [unfold storage_open, sqlite_exec_schema; solve_logs|]. intros [rc st].
  destruct (negb _); [solve_logs|].
  change (adapter_registry_register _ _) with (ADAPTER_OK, Some (mk_registry [modbus_slot])). cbn beta iota.
  intros n w r w' Hg H. apply bind_run in H as ([rc3 reg] & w1 & H1 & H).
  assert (Logs fp (adapter_registry_init_all (Some (mk_registry [modbus_slot])) (Some c))) as Hi.
  { unfold adapter_registry_init_all. cbn [slots init_slots].
    change (ad_init modbus_slot) with (Some modbus_init). unfold modbus_init. solve_logs. }
  pose proof (Hi _ _ _ _ Hg H1) as Hg1. apply init_modbus_run in H1 as (_ & d & -> & Hd).
  revert Hg1 H. clear -Hd.
  match goal with |- _ → ?m n w1 = _ → _ => enough (Logs fp m) as Hm by (intros; by eapply Hm) end.
  apply logs_bind; [solve_logs|intros u].
  apply logs_bind; [apply logs_ask|intros got].
  destruct (spsc_ring_init _ _ _) as [[|rp|rp] ring].
  - unfold watchdog_init, open_notify_socket. solve_logs.
  - apply logs_bind; [apply shutdown_all_logs; by exists d|]. unfold storage_close. solve_logs.
  - apply logs_bind; [apply shutdown_all_logs; by exists d|]. unfold storage_close. solve_logs.
Qed.

Lemma run_logs a : Logs fp (gateway_app_run a).
Proof.
  unfold gateway_app_run, store_running, pthread_create, pthread_join, watchdog_notify_ready, send_notify.
  solve_logs.
Qed.

Lemma stop_logs a : Logs fp (gateway_app_stop a).
Proof.
  unfold gateway_app_stop, store_running, pthread_join, mqtt_session_shutdown, watchdog_shutdown. solve_logs.
Qed.

Lemma destroy_logs a : modbus_only (app_registry a) → Logs fp (gateway_app_destroy (Some a)).
Proof.
  intros Hr. unfold gateway_app_destroy. cbv zeta.
  apply logs_bind; [by apply shutdown_all_logs|]. unfold storage_close. solve_logs.
Qed.
End components.

(** ** Opening and closing *)

Section logger.
Context {env : Env}.

(** Whether the log is a file, as a count. *)
Definition log_open (w : world) : Z := match g_log_fp (w_glob w) with Some _ => 1 | None => 0 end.

Lemma logger_init_run dir n w rc w' :
  g_log_fp (w_glob w) = None → logger_init dir n w = Some (rc, w') →
  ∃ evs, w_trace w' = evs ++ w_trace w ∧ (db_handles evs = 0 ∧ db_leaks evs = 0 ∧ log_files evs = log_open w') ∧
    Forall no_thread evs.
Proof.
  intros Hg H. unfold logger_init in H. unfold log_open.
  destruct dir as [[|ch dir]|]; [io_done H; exists []; by rewrite Hg| |io_done H; exists []; by rewrite Hg].
  io_go H. destruct (env_fopen _ _); io_go H; unfold set_globals in H; io_done H; eexists [_; _];
    (split; [reflexivity|split; [done|by repeat constructor]]).
Qed.

Lemma logger_shutdown_run n w u w' :
  logger_shutdown n w = Some (u, w') →
  ∃ evs, w_trace w' = evs ++ w_trace w ∧ (db_handles evs = 0 ∧ db_leaks evs = 0 ∧ log_files evs = - log_open w) ∧
    Forall no_thread evs ∧ g_log_fp (w_glob w') = None.
Proof.
  intros H. unfold logger_shutdown in H. io_go H. unfold log_open. destruct (g_log_fp (w_glob w)) eqn:E.
  - io_go H. unfold set_globals in H. simplify_eq. exists [EvLogClose]. by split_and!; [..|repeat constructor|].
  - io_done H. by exists [].
Qed.
End logger.
