(* ===== verification/Main.v ===== *)
(** * The two programs ([src/src/main.c], [src/src/cli/main.c]) and the reading
    of the configuration file ([read_file] of [src/src/platform/config.c])

    The gateway loads its configuration, opens the log, starts the runtime and
    waits for a signal; while it waits, the three threads do their work, as a
    run of the interleaved machine of [Interleave].  The command line tool
    checks a configuration, shows the metrics file and counts the rows of the
    database.  The JSON parser is the vendored library's. *)

From S2P Require Export Logfile.

#[local] Open Scope Z_scope.

(** A conversion that C leaves undefined: no result. *)
Definition undefined {A} : io A := λ n w, None.

(** The text of a buffer, up to its first NUL. *)
Fixpoint c_string (s : string) : string :=
  match s with
  | EmptyString => EmptyString
  | String a s' => if decide (byte_of_ascii a = 0) then EmptyString else String a (c_string s')
  end.

(** The argument after the first of the options, and after the last. *)
Fixpoint first_option (names : list string) (args : list string) : option string :=
  match args with
  | a :: ((b :: _) as rest) => if decide (a ∈ names) then Some b else first_option names rest
  | _ => None
  end.

Fixpoint last_option (names : list string) (args : list string) (found : option string) : option string :=
  match args with
  | a :: ((b :: _) as rest) => last_option names rest (if decide (a ∈ names) then Some b else found)
  | _ => found
  end.

(** [argv] with its [argc] strings. *)
Definition parse_config_path (argv : list string) : string :=
  default "configs/gateway.json"%string (first_option ["-c"; "--config"]%string (drop 1 argv)).

(** The pieces [fgets] returns with a buffer of [S n] characters: up to [n]
    characters, or to the end of a line. *)
Fixpoint fgets_chunks (n room : nat) (acc : string) (s : string) : list string :=
  match s with
  | EmptyString => if decide (acc = EmptyString) then [] else [acc]
  | String a s' =>
      let acc := (acc +:+ String a EmptyString)%string in
      if decide (byte_of_ascii a = 10) then acc :: fgets_chunks n n EmptyString s'
      else
        match room with
        | S (S r) => fgets_chunks n (S r) acc s'
        | _ => acc :: fgets_chunks n n EmptyString s'
        end
  end.

Definition dec_signed (z : Z) : string := if z <? 0 then "-" +:+ dec (- z) else dec z.

Section programs.
Context {env : Env} (cJSON_Parse : string → option cJSON).

(** [None] is a failure; [env_file_size] answers [None] when the file cannot be
    opened or measured. *)
Definition read_file (path : string) : io (option string) :=
  size ← call (λ tr, env_file_size tr path) (EvReadFile path);
  match size with
  | None => mret None
  | Some size =>
      seek ← ask (λ tr, env_file_seek tr path);
      if (size <? 0) || negb seek then mret None
      else
        got ← ask env_malloc;
        if negb got then mret None
        else
          data ← ask (λ tr, env_file_data tr path);
          if Z.of_nat (String.length data) =? size then mret (Some (c_string data)) else mret None
  end.

(** [gateway_config_load] on the file system. *)
Definition load_config (path : string) (cfg : gateway_config_t) : io (Z * gateway_config_t) :=
  text ← read_file path;
  match gateway_config_load (λ _, text) cJSON_Parse (Some path) (Some cfg) with
  | Some (rc, Some c) => mret (rc, c)
  | _ => undefined
  end.

Definition print (text : string) : io () := emit (EvPrint false text).
Definition print_err (text : string) : io () := emit (EvPrint true text).

(** ** The gateway *)

(** The handler sets the flag that [env_exit] answers with. *)
Definition on_signal (signo : Z) : io () := emit (EvExit true).

Definition SIGHUP : Z := 1.
Definition SIGINT : Z := 2.
Definition SIGTERM : Z := 15.

(** Where the worker and the monitor stand, with the worker's local variable. *)
Record positions := mk_positions {
  po_worker : worker_pc;
  po_last : Z;
  po_monitor : monitor_pc
}.

Definition at_heads : positions := mk_positions WPop 0 MIdle.

Section main.
(** What the threads do to the application between two looks at the flag, and
    from the last look until they are joined; also what those that were started
    did when [gateway_app_run] fails, which has joined them. *)
Context (threads_work : gateway_app_t → positions → io (gateway_app_t * positions)).
Context (threads_finish : gateway_app_t → positions → io gateway_app_t).

Fixpoint wait_loop (fuel : nat) (a : gateway_app_t) (p : positions) : io (gateway_app_t * positions) :=
  match fuel with
  | O => out_of_fuel
  | S fuel' =>
      exit ← call env_exit EvExit;
      if (exit : bool) then mret (a, p)
      else edgeflow_sleep_ms 200;; '(a, p) ← threads_work a p; wait_loop fuel' a p
  end.

Definition main (argv : list string) (cfg : gateway_config_t) (app : gateway_app_t) : io Z :=
  let config_path := parse_config_path argv in
  emit (EvSignal SIGINT);; emit (EvSignal SIGTERM);; emit (EvSignal SIGHUP);;
  '(rc, cfg) ← load_config config_path cfg;
  if negb (rc =? 0) then
    print_err ("failed to load config: " +:+ config_path +:+ nl);; mret 1
  else
    rc ← logger_init (Some (cfg_log_dir cfg));
    (if negb (rc =? 0) then
       print_err ("failed to init logger, fallback stderr (dir=" +:+ cfg_log_dir cfg +:+ ")" +:+ nl)
     else mret tt);;
    log_info ("edgeflow startup: config=" +:+ config_path +:+ " device_id=" +:+ cfg_device_id cfg);;
    '(rc, a) ← gateway_app_init (Some app) (Some cfg);
    if negb (rc =? 0) then
      log_error "gateway_app_init failed";; logger_shutdown;; mret 1
    else
      rc ← gateway_app_run a;
      if negb (rc =? 0) then
        a ← threads_finish (default app_zero a) at_heads;
        log_error "gateway_app_run failed";; gateway_app_destroy (Some a);; logger_shutdown;; mret 1
      else
        print ("EdgeFlow running — Ctrl+C to stop" +:+ nl);;
        print ("  log:      " +:+ cfg_log_dir cfg +:+ "/edgeflow.log" +:+ nl);;
        print ("  metrics:  " +:+ cfg_metrics_path cfg +:+ nl);;
        print ("  cache:    " +:+ cfg_cache_path cfg +:+ nl);;
        print ("  sqlite:   " +:+ cfg_sqlite_path cfg +:+ " (use_sqlite=" +:+
               bool_text (cfg_use_sqlite cfg) +:+ ")" +:+ nl);;
        '(a, p) ← with_fuel (λ fuel, wait_loop fuel (default app_zero a) at_heads);
        a ← threads_finish a p;
        a ← gateway_app_stop (Some a);
        gateway_app_destroy a;;
        logger_shutdown;;
        mret 0.
End main.

(** ** The command line tool *)

Definition print_usage (prog : string) : io () :=
  print_err ("Usage:" +:+ nl +:+
    "  " +:+ prog +:+ " validate-config -c <gateway.json>" +:+ nl +:+
    "  " +:+ prog +:+ " status --metrics <metrics.prom>" +:+ nl +:+
    "  " +:+ prog +:+ " storage-stats --sqlite <edgeflow.db>" +:+ nl).

Definition cmd_validate_config (argv : list string) (cfg : gateway_config_t) : io Z :=
  let path := default "configs/gateway.json"%string
                (last_option ["-c"; "--config"]%string (drop 2 argv) None) in
  '(rc, cfg) ← load_config path cfg;
  if negb (rc =? 0) then
    print_err ("validate-config: load failed: " +:+ path +:+ nl);; mret 1
  else
    print ("validate-config OK: " +:+ path +:+ nl);;
    print ("  device_id=" +:+ cfg_device_id cfg +:+ " simulate=" +:+ bool_text (cfg_simulate cfg) +:+ nl);;
    print ("  broker=" +:+ cfg_broker_host cfg +:+ ":" +:+ dec (cfg_broker_port cfg) +:+ " topic=" +:+
           cfg_mqtt_topic cfg +:+ nl);;
    print ("  sqlite=" +:+ cfg_sqlite_path cfg +:+ " use_sqlite=" +:+ bool_text (cfg_use_sqlite cfg) +:+ nl);;
    mret 0.

(** A line of the metrics file that is shown. *)
Definition shown (line : string) : bool :=
  match line with String a _ => negb (byte_of_ascii a =? 35) | EmptyString => true end.

Fixpoint show_lines (l : list string) : io () :=
  match l with
  | [] => mret tt
  | line :: l' => (if shown line then print (c_string line) else mret tt);; show_lines l'
  end.

Definition cmd_status (argv : list string) : io Z :=
  match last_option ["--metrics"]%string (drop 2 argv) None with
  | None => print_err ("status: missing --metrics" +:+ nl);; mret 1
  | Some path =>
      text ← call (λ tr, env_file_text tr path) (EvReadText path);
      match text with
      | None => print_err ("status: cannot open " +:+ path +:+ nl);; mret 1
      | Some text =>
          print ("=== edgeflow status (" +:+ path +:+ ") ===" +:+ nl);;
          show_lines (fgets_chunks 511 511 EmptyString text);;
          mret 0
      end
  end.

Definition stats_queries : list (string * string) :=
  [("SELECT COUNT(*) FROM telemetry;", "telemetry_total");
   ("SELECT COUNT(*) FROM telemetry WHERE uploaded=0;", "telemetry_pending");
   ("SELECT COUNT(*) FROM alarms;", "alarms_total");
   ("SELECT COUNT(*) FROM commands;", "commands_total")]%string.

Fixpoint print_stats (l : list (string * string)) : io () :=
  match l with
  | [] => mret tt
  | (query, label) :: l' =>
      (ok ← prepare query;
       if (ok : bool) then
         found ← rows query [];
         match found with
         | row :: _ => print (label +:+ " " +:+ dec_signed (column_int64 row 0) +:+ nl)
         | [] => mret tt
         end
       else mret tt);;
      print_stats l'
  end.

Definition cmd_storage_stats (argv : list string) : io Z :=
  match last_option ["--sqlite"]%string (drop 2 argv) None with
  | None => print_err ("storage-stats: missing --sqlite" +:+ nl);; mret 1
  | Some path =>
      r ← call (λ tr, env_sqlite_open tr path) (EvSqlOpen path);
      if negb (open_ok r) then print_err ("storage-stats: open failed: " +:+ path +:+ nl);; mret 1
      else
        print ("=== storage stats (" +:+ path +:+ ") ===" +:+ nl);;
        print_stats stats_queries;;
        emit EvSqlClose;;
        mret 0
  end.

Definition cli_main (argv : list string) (cfg : gateway_config_t) : io Z :=
  let prog := default EmptyString (argv !! 0%nat) in
  match argv !! 1%nat with
  | None => print_usage prog;; mret 1
  | Some command =>
      if decide (command = "validate-config"%string) then cmd_validate_config argv cfg
      else if decide (command = "status"%string) then cmd_status argv
      else if decide (command = "storage-stats"%string) then cmd_storage_stats argv
      else print_usage prog;; mret 1
  end.

End programs.

(** ** The gateway releases what it takes *)

(** [k] database handles left open, [j] by opens that failed, [g] log files
    left open, and the threads [l] before, [l'] after. *)
Definition acts (k j g : Z) (l l' : list string) (w w' : world) : Prop :=
  ∃ evs, w_trace w' = evs ++ w_trace w ∧ (db_handles evs = k ∧ db_leaks evs = j ∧ log_files evs = g) ∧
    threads l evs = l'.

Lemma quiet_acts k j g l evs w w' :
  w_trace w' = evs ++ w_trace w → db_handles evs = k ∧ db_leaks evs = j ∧ log_files evs = g →
  Forall no_thread evs → acts k j g l l w w'.
Proof.
  intros E D N. exists evs. split_and!; [done|apply D..|].
  destruct (no_thread_app evs [] l N) as [Ht _]. by rewrite app_nil_r in Ht.
Qed.

Lemma moves_acts k j l w w' : moves k j w w' → acts k j 0 l l w w'.
Proof. intros (evs & E & D & N). by eapply quiet_acts. Qed.

Lemma acts_trans k1 j1 g1 k2 j2 g2 l l1 l2 w w1 w2 :
  acts k1 j1 g1 l l1 w w1 → acts k2 j2 g2 l1 l2 w1 w2 → acts (k1 + k2) (j1 + j2) (g1 + g2) l l2 w w2.
Proof.
  intros (e1 & E1 & D1 & T1) (e2 & E2 & D2 & T2). exists (e2 ++ e1).
  split; [by rewrite E2, E1, app_assoc|]. rewrite db_handles_app, db_leaks_app, log_files_app.
  split; [lia|]. unfold threads in *. by rewrite foldr_app, T1.
Qed.

Lemma acts_after k j g l l' w w1 w2 : acts k j g l l' w w1 → spends 0 w1 w2 → acts k j g l l' w w2.
Proof.
  intros H1 H2. pose proof (acts_trans _ _ _ _ _ _ _ _ _ _ _ _ H1 (moves_acts _ _ _ _ _ H2)) as H.
  by rewrite !Z.add_0_r in H.
Qed.

(** ** The work of the threads

    It is a run of the interleaved machine, which the joins end at the heads of
    the loops. *)

Section work.
Context {env : Env}.

Definition system_of (a : gateway_app_t) (w : world) (p : positions) : system :=
  mk_system a w (po_worker p) (po_last p) (po_monitor p).

Definition works (work : gateway_app_t → positions → io (gateway_app_t * positions)) : Prop :=
  ∀ a p n w a' p' w', work a p n w = Some ((a', p'), w') → rtc istep (system_of a w p) (system_of a' w' p').

Definition finishes (finish : gateway_app_t → positions → io gateway_app_t) : Prop :=
  ∀ a p n w a' w', finish a p n w = Some (a', w') →
    ∃ last, rtc istep (system_of a w p) (mk_system a' w' WPop last MIdle).

(** *** A scheduler

    Which threads get a turn is up to an oracle, which has seen what happened.
    A thread that is given a turn and cannot move, because it waits for the
    lock or for an answer, lets the turn pass. *)
Fixpoint take_turns (n : nat) (ts : list mover) (y : system) : system :=
  match ts with
  | [] => y
  | t :: ts' => take_turns n ts' (default y (move n t y))
  end.

Definition turns_work (turns : trace → list mover) (a : gateway_app_t) (p : positions)
    : io (gateway_app_t * positions) := λ n w,
  let y := take_turns n (turns (w_trace w)) (system_of a w p) in
  Some ((sy_app y, mk_positions (sy_worker y) (sy_last y) (sy_monitor y)), sy_world y).

(** Who moves before the joins: the monitor until it is at its head, unless it
    waits for the lock, and then the worker; nobody when both are at their
    heads. *)
Definition next_mover (y : system) : option mover :=
  match sy_monitor y, sy_worker y with
  | MIdle, WPop => None
  | MIdle, _ => Some Worker
  | pm, pw => if monitor_wants pm && worker_holds pw then Some Worker else Some Monitor
  end.

Fixpoint drain (fuel n : nat) (y : system) : option system :=
  match next_mover y with
  | None => Some y
  | Some t => match fuel with O => None | S fuel' => y' ← move n t y; drain fuel' n y' end
  end.

(** After some last turns the threads come to the heads of their loops; no
    result if one of them never does. *)
Definition turns_finish (turns : trace → list mover) (a : gateway_app_t) (p : positions)
    : io gateway_app_t := λ n w,
  y ← drain n n (take_turns n (turns (w_trace w)) (system_of a w p)); Some (sy_app y, sy_world y).

Lemma take_turns_run n ts y : rtc istep y (take_turns n ts y).
Proof.
  revert y. induction ts as [|t ts IH]; intros y; cbn [take_turns]; [done|].
  etrans; [|apply IH]. destruct (move n t y) eqn:E; [|done].
  by eapply rtc_once, move_step.
Qed.

Lemma next_none y : next_mover y = None → sy_worker y = WPop ∧ sy_monitor y = MIdle.
Proof. unfold next_mover. by destruct (sy_monitor y), (sy_worker y); simpl; try case_match. Qed.

Lemma drain_run fuel n y y' :
  drain fuel n y = Some y' → rtc istep y y' ∧ sy_worker y' = WPop ∧ sy_monitor y' = MIdle.
Proof.
  revert y. induction fuel as [|fuel IH]; intros y; cbn [drain];
    (destruct (next_mover y) as [t|] eqn:E; [|intros [= <-]; split; [done|by apply next_none]]); [done|].
  destruct (move n t y) as [y1|] eqn:Em; [|done]. intros (Hr & ? & ?)%IH. split; [|done].
  eapply rtc_l; [by eapply move_step|done].
Qed.

Lemma turns_works turns : works (turns_work turns).
Proof.
  intros a p n w a' p' w' H. unfold turns_work in H.
  pose proof (take_turns_run n (turns (w_trace w)) (system_of a w p)) as Hr. revert H Hr.
  generalize (take_turns n (turns (w_trace w)) (system_of a w p)). intros [] [= <- <- <-]. done.
Qed.

Lemma turns_finishes turns : finishes (turns_finish turns).
Proof.
  intros a p n w a' w' H. unfold turns_finish in H.
  pose proof (take_turns_run n (turns (w_trace w)) (system_of a w p)) as Hr.
  destruct (drain _ _ _) as [[a1 w1 pw last pm]|] eqn:E; [|done]. cbn in H. simplify_eq.
  apply drain_run in E as (Hd & Hw & Hm). cbn in Hw, Hm. subst. exists last. by etrans.
Qed.
End work.

Section releases.
Context {env : Env} (cJSON_Parse : string → option cJSON).
Context (threads_work : gateway_app_t → positions → io (gateway_app_t * positions)).
Context (threads_finish : gateway_app_t → positions → io gateway_app_t).
Context (Hwork : works threads_work) (Hfinish : finishes threads_finish).

Lemma load_config_run path cfg n w rc c w' :
  load_config cJSON_Parse path cfg n w = Some ((rc, c), w') →
  config_wf c ∧ (rc = 0 ∨ rc = -1) ∧ spends 0 w w' ∧ w_glob w' = w_glob w.
Proof.
  unfold load_config. intros H. apply bind_run in H as (text & w1 & H1 & H).
  destruct (gateway_config_load _ _ _ _) as [[rc1 [c1|]]|] eqn:El; [|done..]. io_done H.
  apply load_wf in El as [Hc Hrc]. split; [done|]. split; [naive_solver|].
  assert (w_trace w' = EvReadFile path (env_file_size (w_trace w) path) :: w_trace w ∧ w_glob w' = w_glob w)
    as [E G].
  { unfold read_file in H1. io_go H1. destruct (env_file_size _ _) as [size|]; [|by io_done H1].
    io_go H1. destruct (_ || _); [by io_done H1|]. io_go H1. destruct (negb _); [by io_done H1|].
    io_go H1. by destruct (_ =? _); io_done H1. }
  split; [|done]. eapply spends_event; [exact E|auto].
Qed.

Lemma wait_loop_run c st fuel a p n w a' p' w' :
  steady c st (system_of a w p) → wait_loop threads_work fuel a p n w = Some ((a', p'), w') →
  steady c st (system_of a' w' p') ∧ spends 0 w w' ∧ g_log_fp (w_glob w') = g_log_fp (w_glob w).
Proof.
  revert a p w. induction fuel as [|fuel IH]; intros a p w Hi H; [done|]. cbn [wait_loop] in H. io_go H.
  destruct (env_exit _).
  { io_done H. split; [by destruct Hi|]. split; [|done]. eapply spends_event; [done|]; auto. }
  apply bind_run in H as (u & w1 & H1 & H). pose proof (sleep_logs _ _ _ _ _ _ eq_refl H1) as G1.
  apply only_spends in H1; [|apply sleep_plain].
  apply bind_run in H as ([a2 p2] & w2 & H2 & H). apply Hwork in H2.
  assert (steady c st (system_of a w1 p)) as Hi1 by (by destruct Hi).
  pose proof (isteps_logs _ c st _ _ Hi1 H2 eq_refl) as G2.
  apply (isteps_spend c st) in H2 as [Hi2 S2]; [|done].
  apply IH in H as (Hi' & S3 & G3); [|done]. split; [done|]. split; [|cbn in *; congruence].
  assert (spends 0 w (mk_world (EvExit false :: w_trace w) (w_glob w))) as S0 by (eapply spends_event; [done|]; auto).
  exact (spends_after _ _ _ _ (spends_after _ _ _ _ (spends_after _ _ _ _ S0 H1) S2) S3).
Qed.

(** [skip_plain H S G] passes a computation of the run [H] that is plain and
    keeps the log, extending [S] and the fact [G] about the log. *)
Ltac skip_plain H S G :=
  let u := fresh "vk" in let w1 := fresh "wk" in let H1 := fresh "Hk" in
  let L := fresh "Lk" in let G1 := fresh "Gk" in
  apply bind_run in H as (u & w1 & H1 & H);
  lazymatch type of H1 with ?m _ _ = _ => lazymatch type of G with _ = ?fp =>
    assert (Logs fp m) as L by (unfold print, print_err; solve_logs)
  end end;
  apply (L _ _ _ _ G) in H1 as G1; clear G L; rename G1 into G;
  apply only_spends in H1; [|unfold print, print_err; solve_only];
  apply (acts_after _ _ _ _ _ _ _ _ S) in H1; clear S; rename H1 into S.

(** The end of the log, as the last thing [main] does. *)
Lemma close_log_run k j l l' fp w n w1 u w2 :
  acts k j (match fp with Some _ => 1 | None => 0 end) l l' w w1 → g_log_fp (w_glob w1) = fp →
  logger_shutdown n w1 = Some (u, w2) → acts k j 0 l l' w w2 ∧ g_log_fp (w_glob w2) = None.
Proof.
  intros A G (evs & E & D & N & Hg)%logger_shutdown_run. split; [|done].
  pose proof (acts_trans _ _ _ _ _ _ _ _ _ _ _ _ A (quiet_acts _ _ _ l' _ _ _ E D N)) as H.
  unfold log_open in H. rewrite G, !Z.add_0_r in H. by destruct fp.
Qed.

(** From the wait on. *)
Lemma serve_run c st a fp n w code w' :
  app_inv c st a → g_log_fp (w_glob w) = fp →
  ('(a, p) ← with_fuel (λ fuel, wait_loop threads_work fuel a at_heads);
   a ← threads_finish a p;
   a ← gateway_app_stop (Some a);
   gateway_app_destroy a;;
   logger_shutdown;;
   mret 0) n w = Some (code, w') →
  code = 0 ∧
  acts (if st_db st then -1 else 0) 0 (match fp with Some _ => -1 | None => 0 end)
    ["ingress"; "worker"; "monitor"]%string [] w w' ∧
  g_log_fp (w_glob w') = None.
Proof.
  intros Hi G H. apply bind_run in H as ([a0 p0] & w0 & H0 & H).
  apply (wait_loop_run c st) in H0 as (Hi0 & S0 & G0); [|by split]. rewrite G in G0.
  apply bind_run in H as (a1 & w1 & H1 & H).
  apply Hfinish in H1 as [last H1]. pose proof (isteps_logs _ c st _ _ Hi0 H1 G0) as G1. cbn in G1.
  apply (isteps_spend c st) in H1 as [[Hi1 _] S1]; [|done]. cbn in Hi1, S1.
  apply (spends_after _ _ _ _ S0) in S1. clear S0.
  apply bind_run in H as (r & w2 & H2 & H). pose proof (stop_logs _ _ _ _ _ _ G1 H2) as G2.
  apply app_stop_run in H2 as (s & evs & -> & E2 & P2).
  apply bind_run in H as (r & w3 & H3 & H).
  apply (destroy_logs _ (with_mqtt a1 s) (ai_registry _ _ _ Hi1) _ _ _ _ G2) in H3 as G3.
  apply (app_destroy_run _ st) in H3; [|apply Hi1..].
  apply bind_run in H as (u & w4 & H4 & H). apply logger_shutdown_run in H4 as (e4 & E4 & D4 & N4 & Hlog).
  io_done H. split; [done|]. split; [|done].
  assert (acts 0 0 0 ["ingress"; "worker"; "monitor"]%string [] w1 w2) as A2.
  { exists (evs ++ joins). split; [by rewrite E2, app_assoc|].
    rewrite db_handles_app, db_leaks_app, log_files_app, plain_db, plain_leaks, plain_log by done.
    split; [done|].
    by destruct (no_thread_app evs joins ["ingress"; "worker"; "monitor"]%string (plain_threads _ P2)) as [-> _]. }
  pose proof (acts_trans _ _ _ _ _ _ _ _ _ _ _ _ (acts_trans _ _ _ _ _ _ _ _ _ _ _ _
    (acts_trans _ _ _ _ _ _ _ _ _ _ _ _ (moves_acts _ _ _ _ _ S1) A2) (moves_acts _ _ [] _ _ H3))
    (quiet_acts _ _ _ [] _ _ _ E4 D4 N4)) as H.
  unfold log_open in H. rewrite G3 in H. by destruct (st_db st), (g_log_fp (w_glob w)).
Qed.

(** From the start on. *)
Lemma start_main_run c st a cfg fp n w code w' :
  app_inv c st a → g_log_fp (w_glob w) = fp →
  (rc ← gateway_app_run (Some a);
   if negb (rc =? 0) then
     a ← threads_finish (default app_zero (Some a)) at_heads;
     log_error "gateway_app_run failed";; gateway_app_destroy (Some a);; logger_shutdown;; mret 1
   else
     print ("EdgeFlow running — Ctrl+C to stop" +:+ nl);;
     print ("  log:      " +:+ cfg_log_dir cfg +:+ "/edgeflow.log" +:+ nl);;
     print ("  metrics:  " +:+ cfg_metrics_path cfg +:+ nl);;
     print ("  cache:    " +:+ cfg_cache_path cfg +:+ nl);;
     print ("  sqlite:   " +:+ cfg_sqlite_path cfg +:+ " (use_sqlite=" +:+
            bool_text (cfg_use_sqlite cfg) +:+ ")" +:+ nl);;
     '(a, p) ← with_fuel (λ fuel, wait_loop threads_work fuel (default app_zero (Some a)) at_heads);
     a ← threads_finish a p;
     a ← gateway_app_stop (Some a);
     gateway_app_destroy a;;
     logger_shutdown;;
     mret 0) n w = Some (code, w') →
  (code = 0 ∨ code = 1) ∧
  acts (if st_db st then -1 else 0) 0 (match fp with Some _ => -1 | None => 0 end) [] [] w w' ∧
  g_log_fp (w_glob w') = None.
Proof.
  intros Hi G H. apply bind_run in H as (rc & w1 & H1 & H). pose proof (run_logs _ _ _ _ _ _ G H1) as G1.
  apply app_run_run in H1 as (evs & E & P & [(-> & T & _)|(-> & T & _)]); cbn [Z.eqb negb default] in H.
  - assert (acts 0 0 0 [] ["ingress"; "worker"; "monitor"]%string w w1) as S by (by exists evs).
    do 5 skip_plain H S G1. apply (serve_run c st _ fp) in H as (-> & A & ?); [|done..].
    split; [by left|]. split; [|done]. exact (acts_trans _ _ _ _ _ _ _ _ _ _ _ _ S A).
  - assert (acts 0 0 0 [] [] w w1) as S by (by exists evs).
    apply bind_run in H as (a1 & w2 & H2 & H).
    apply Hfinish in H2 as [last H2]. assert (steady c st (system_of a w1 at_heads)) as Hs by (by split).
    pose proof (isteps_logs _ c st _ _ Hs H2 G1) as G2. cbn in G2.
    apply (isteps_spend c st) in H2 as [[Hi1 _] S2]; [|done]. cbn in Hi1, S2.
    apply (acts_after _ _ _ _ _ _ _ _ S) in S2. clear S. skip_plain H S2 G2.
    apply bind_run in H as (r & w4 & H4 & H).
    apply (destroy_logs _ a1 (ai_registry _ _ _ Hi1) _ _ _ _ G2) in H4 as G4.
    apply (app_destroy_run _ st) in H4; [|apply Hi1..].
    apply bind_run in H as (v & w5 & H5 & H).
    apply logger_shutdown_run in H5 as (e5 & E5 & D5 & N5 & Hlog). io_done H.
    split; [by right|]. split; [|done].
    pose proof (acts_trans _ _ _ _ _ _ _ _ _ _ _ _ (acts_trans _ _ _ _ _ _ _ _ _ _ _ _ S2
      (moves_acts _ _ [] _ _ H4)) (quiet_acts _ _ _ [] _ _ _ E5 D5 N5)) as A.
    unfold log_open in A. rewrite G4 in A. by destruct (st_db st), (g_log_fp (w_glob w)).
Qed.

(** C7: what the gateway has released when it ends: whatever the environment
    answers and however the pieces of the threads interleave while [main] waits
    and until they are joined, if [main] returns then its exit code is 0 or 1,
    every thread it started has been joined, the log file it opened has been
    closed, and every database handle has been closed, with one exception: when
    sqlite3_open fails it may store a handle, which the program drops without
    closing it ([storage_open]); then that one handle is left, on the way to
    exit code 1.  Sockets are not counted here: exit code 0 leaves none
    ([Shutdown.main_closes]), a start that fails may leave some
    ([Shutdown.failed_start_leaves_sockets]). *)
Theorem main_releases argv cfg app n w code w' :
  g_log_fp (w_glob w) = None →
  main cJSON_Parse threads_work threads_finish argv cfg app n w = Some (code, w') →
  (code = 0 ∨ code = 1) ∧ g_log_fp (w_glob w') = None ∧
  ∃ evs, w_trace w' = evs ++ w_trace w ∧ threads [] evs = [] ∧ log_files evs = 0 ∧
    db_handles evs = db_leaks evs ∧ (db_leaks evs = 0 ∨ code = 1 ∧ db_leaks evs = 1).
Proof.
  intros Hlog H.
  enough ((code = 0 ∨ code = 1) ∧ g_log_fp (w_glob w') = None ∧
    ∃ j, (j = 0 ∨ code = 1 ∧ j = 1) ∧ acts j j 0 [] [] w w') as (? & ? & j & Hj & evs & E & (D & L & F) & T).
  { split_and!; [done..|]. exists evs. rewrite D, L. by split_and!. }
  unfold main in H. io_go H. set (w0 := mk_world _ _) in H.
  assert (acts 0 0 0 [] [] w w0) as S.
  { by exists [EvSignal SIGHUP; EvSignal SIGTERM; EvSignal SIGINT]. }
  assert (g_log_fp (w_glob w0) = None) as G by done.
  clearbody w0. apply bind_run in H as ([rc c] & w1 & H1 & H).
  apply load_config_run in H1 as (Hc & Hrc & S1 & G1). rewrite <- G1 in G.
  apply (acts_after _ _ _ _ _ _ _ _ S) in S1. clear S G1 Hrc.
  destruct (negb (rc =? 0)).
  { skip_plain H S1 G. io_done H. split_and!; [by right|done|]. exists 0. auto. }
  apply bind_run in H as (rc1 & w2 & H2 & H).
  apply logger_init_run in H2 as (e2 & E2 & D2 & N2); [|done].
  pose proof (acts_trans _ _ _ _ _ _ _ _ _ _ _ _ S1 (quiet_acts _ _ _ [] _ _ _ E2 D2 N2)) as S2.
  assert (∃ fp, g_log_fp (w_glob w2) = fp) as [fp G2] by eauto.
  unfold log_open in S2. rewrite G2 in S2. clear E2 D2 N2 S1 G e2. rewrite Z.add_0_l in S2.
  do 2 skip_plain H S2 G2.
  apply bind_run in H as ([rc3 r3] & w3 & H3 & H).
  pose proof (init_logs _ _ _ _ _ _ _ G2 H3) as G3. clear G2. rename G3 into G2.
  apply app_init_run in H3 as (a & -> & H3); [|apply Hc].
  destruct H3 as [(-> & st & Hst & S3)|(-> & _ & j & Hj & S3)]; cbn [Z.eqb negb] in H.
  - apply start_main_run with (c := c) (st := st) (fp := fp) in H as (Hcode & A & ?); [|apply Hst|done].
    split_and!; [done..|]. exists 0. split; [by left|].
    pose proof (acts_trans _ _ _ _ _ _ _ _ _ _ _ _ (acts_trans _ _ _ _ _ _ _ _ _ _ _ _ S2
      (moves_acts _ _ [] _ _ S3)) A) as Hall.
    rewrite (as_db _ _ _ Hst) in Hall. by destruct (cfg_use_sqlite c), fp.
  - pose proof (acts_trans _ _ _ _ _ _ _ _ _ _ _ _ S2 (moves_acts _ _ [] _ _ S3)) as S4.
    skip_plain H S4 G2. apply bind_run in H as (v & w6 & H6 & H).
    rewrite !Z.add_0_l, Z.add_0_r in S4. io_done H.
    destruct (close_log_run _ _ _ _ _ _ _ _ _ _ S4 eq_refl H6) as [S6 Hlog']. split_and!; [by right|done|]. exists j. split; [destruct Hj; auto|done].
Qed.

End releases.

(** ** The command line tool shows what the gateway wrote *)

(** The counters are in the ranges of their types. *)
Record metrics_wf (m : gateway_metrics_t) : Prop := {
  mw_ingress : is_u64 (ingress_points m);
  mw_processed : is_u64 (processed_points m);
  mw_ok : is_u64 (mqtt_publish_ok m);
  mw_fail : is_u64 (mqtt_publish_fail m);
  mw_replay : is_u64 (mqtt_replay_total m);
  mw_depth : is_u32 (queue_depth m);
  mw_dropped : is_u32 (queue_dropped m);
  mw_pending : is_u32 (storage_pending_count m);
  mw_iage : is_u32 (heartbeat_ingress_age_ms m);
  mw_wage : is_u32 (heartbeat_worker_age_ms m);
  mw_mage : is_u32 (heartbeat_monitor_age_ms m)
}.

(** The lines with the counters. *)
Definition metrics_lines (m : gateway_metrics_t) : list string :=
  [metrics_line "edgeflow_ingress_points_total" (ingress_points m);
   metrics_line "edgeflow_processed_points_total" (processed_points m);
   metrics_line "edgeflow_mqtt_publish_ok_total" (mqtt_publish_ok m);
   metrics_line "edgeflow_mqtt_publish_fail_total" (mqtt_publish_fail m);
   metrics_line "edgeflow_mqtt_replay_total" (mqtt_replay_total m);
   metrics_line "edgeflow_queue_depth" (queue_depth m);
   metrics_line "edgeflow_queue_dropped_total" (queue_dropped m);
   metrics_line "edgeflow_storage_pending_count" (storage_pending_count m);
   metrics_line "edgeflow_heartbeat_ingress_age_ms" (heartbeat_ingress_age_ms m);
   metrics_line "edgeflow_heartbeat_worker_age_ms" (heartbeat_worker_age_ms m);
   metrics_line "edgeflow_heartbeat_monitor_age_ms" (heartbeat_monitor_age_ms m)].

(** A printable character: neither NUL nor the end of a line. *)
Definition plain_char (a : Ascii.ascii) : bool := 32 <=? byte_of_ascii a.

(** A whole line that fits the buffer. *)
Definition text_line (s : string) : Prop :=
  ∃ body, s = (body +:+ nl)%string ∧ str_all plain_char body = true ∧ (String.length body < 511)%nat.

Lemma fgets_line n room acc body rest :
  str_all plain_char body = true → (String.length body < room)%nat →
  fgets_chunks n room acc (body +:+ nl +:+ rest) = (acc +:+ body +:+ nl)%string :: fgets_chunks n n EmptyString rest.
Proof.
  revert acc room. induction body as [|a body IH]; intros acc room Hp Hl; [done|].
  cbn [str_all String.length] in Hp, Hl. apply andb_true_iff in Hp as [Ha Hp].
  change ((String a body +:+ nl +:+ rest)%string) with (String a (body +:+ nl +:+ rest))%string.
  cbn [fgets_chunks]. unfold plain_char in Ha. apply Z.leb_le in Ha. rewrite decide_False by lia.
  destruct room as [|[|r]]; [lia|lia|]. rewrite IH by (done || lia). f_equal.
  by rewrite str_app_assoc.
Qed.

Lemma fgets_lines l :
  Forall text_line l → fgets_chunks 511 511 EmptyString (foldr String.append EmptyString l) = l.
Proof.
  induction 1 as [|s l (body & -> & Hp & Hl) _ IH]; [done|]. cbn [foldr].
  rewrite str_app_assoc, fgets_line by done. by rewrite IH.
Qed.

Lemma c_string_line s : text_line s → c_string s = s.
Proof.
  intros (body & -> & Hp & _). induction body as [|a body IH]; [done|].
  cbn [str_all] in Hp. apply andb_true_iff in Hp as [Ha Hp]. unfold plain_char in Ha. apply Z.leb_le in Ha.
  change ((String a body +:+ nl)%string) with (String a (body +:+ nl))%string. cbn [c_string].
  rewrite decide_False by lia. by rewrite IH.
Qed.

Lemma metrics_line_text name v :
  (String.length name < 400)%nat → str_all plain_char name = true → v < 10 ^ 20 →
  text_line (metrics_line name v).
Proof.
  intros Hn Hp Hv. exists (name +:+ " " +:+ dec v)%string. split; [|split].
  - unfold metrics_line. by rewrite !str_app_assoc.
  - rewrite !str_all_app, Hp. simpl. eapply str_all_impl; [|apply dec_digits].
    unfold is_digit, plain_char. intros a [H1%Z.leb_le _]%andb_true_iff. apply Z.leb_le. lia.
  - rewrite !str_app_length. pose proof (dec_length 20 v ltac:(lia) Hv). simpl. lia.
Qed.

Lemma metrics_lines_text m : metrics_wf m → Forall text_line (metrics_lines m).
Proof.
  intros []. unfold is_u64, is_u32 in *.
  repeat (apply Forall_cons; split; [apply metrics_line_text; [simpl; lia|reflexivity|lia]|]). constructor.
Qed.

Definition help_line : string :=
  "# HELP edgeflow_ingress_points_total Total ingress telemetry points" +:+ nl.

Lemma metrics_text_lines m : metrics_text m = foldr String.append EmptyString (help_line :: metrics_lines m).
Proof.
  assert (∀ s, s +:+ EmptyString = s)%string as Hnil.
  { induction s as [|a s IH]; [done|]. change (String a (s +:+ EmptyString) = String a s)%string. by rewrite IH. }
  unfold metrics_text, metrics_lines, help_line. cbn [foldr]. by rewrite Hnil, str_app_assoc.
Qed.

Lemma metrics_lines_shown m : filter (λ s, shown s = true) (help_line :: metrics_lines m) = metrics_lines m.
Proof. reflexivity. Qed.

(** What was printed on the standard output, oldest first. *)
Definition ev_print (e : event) : option string :=
  match e with EvPrint false s => Some s | _ => None end.
Definition printed (evs : trace) : list string := reverse (omap ev_print evs).

Section tool.
Context {env : Env} (cJSON_Parse : string → option cJSON).

Lemma show_lines_run l n w u w' :
  Forall text_line l → show_lines l n w = Some (u, w') →
  ∃ evs, w_trace w' = evs ++ w_trace w ∧ printed evs = filter (λ s, shown s = true) l.
Proof.
  intros Hl. revert w. induction Hl as [|s l Hs _ IH]; intros w H; cbn [show_lines] in H.
  { io_done H. by exists []. }
  apply bind_run in H as (v & w1 & H1 & H). apply IH in H as (e2 & E2 & P2).
  rewrite filter_cons. destruct (shown s) eqn:Es; case_decide; try done.
  - unfold print, emit in H1. rewrite call_run in H1. io_done H1.
    exists (e2 ++ [EvPrint false (c_string s)]). split; [by rewrite E2, <- app_assoc|].
    unfold printed in *. rewrite omap_app, reverse_app, P2. simpl. by rewrite c_string_line.
  - io_done H1.
Qed.

(** C38: [edgeflow-cli status] on the file the gateway wrote shows every counter,
    one line each, complete and in order, and leaves the comment out; the exit
    code is 0. *)
Theorem status_shows_metrics prog path m cfg n w code w' :
  metrics_wf m → env_file_text (w_trace w) path = Some (metrics_text m) →
  cli_main cJSON_Parse [prog; "status"; "--metrics"; path]%string cfg n w = Some (code, w') →
  code = 0 ∧ ∃ evs, w_trace w' = evs ++ w_trace w ∧
    printed evs = ("=== edgeflow status (" +:+ path +:+ ") ===" +:+ nl)%string :: metrics_lines m.
Proof.
  intros Hm Ht H. unfold cli_main in H. cbn [lookup list_lookup] in H.
  rewrite decide_False, decide_True in H by done. unfold cmd_status in H.
  change (last_option _ _ _) with (Some path) in H. unfold print, emit in H.
  io_go H. rewrite Ht in H. io_go H. apply bind_run in H as (u & w1 & H1 & H). io_done H.
  rewrite metrics_text_lines, fgets_lines in H1.
  2: { constructor; [|by apply metrics_lines_text]. eexists _. split; [reflexivity|]. split; [reflexivity|simpl; lia]. }
  apply show_lines_run in H1 as (evs & E & P).
  2: { constructor; [|by apply metrics_lines_text]. eexists _. split; [reflexivity|]. split; [reflexivity|simpl; lia]. }
  rewrite metrics_lines_shown in P. split; [done|]. eexists (evs ++ [_; _]).
  split; [by rewrite E, <- app_assoc|]. unfold printed in *. by rewrite omap_app, reverse_app, P.
Qed.

End tool.

(** ** Concrete runs *)

Definition demo_metrics : gateway_metrics_t := mk_metrics (2 ^ 64 - 1) 12 11 1 0 3 0 1 20 15 0.

Definition demo_written : world :=
  mk_world [EvWriteFile "/tmp/m.prom" (metrics_text demo_metrics) true] globals_init.

Lemma demo_metrics_wf : metrics_wf demo_metrics.
Proof. split; unfold is_u64, is_u32; simpl; lia. Qed.

Lemma status_shows_metrics_witness :
  let argv := ["edgeflow-cli"; "status"; "--metrics"; "/tmp/m.prom"]%string in
  ∃ w', @cli_main (demo_env [] []) (λ _, None) argv config_zero 0%nat demo_written = Some (0, w') ∧
  0 = 0 ∧ ∃ evs, w_trace w' = evs ++ w_trace demo_written ∧
    printed evs = ("=== edgeflow status (/tmp/m.prom) ===" +:+ nl)%string :: metrics_lines demo_metrics.
Proof.
  eexists. split; [vm_compute; reflexivity|].
  apply (@status_shows_metrics (demo_env [] []) (λ _, None) "edgeflow-cli" "/tmp/m.prom" demo_metrics config_zero
    0 demo_written); [exact demo_metrics_wf|vm_compute; reflexivity|vm_compute; reflexivity].
Defined.

(** The turns of the concrete runs: between two looks at the flag the bodies
    are cut in their middle. *)
Definition demo_turns (tr : trace) : list mover :=
  [Ingress; Worker; Monitor; Worker; Monitor; Monitor; Worker].

Definition demo_json (text : string) : option cJSON :=
  Some (CJson cJSON_Object None d0 None [jnum "queue_size" (d_of_Z 4)]).

Lemma main_releases_witness :
  ∃ code w', @main demo_app_env demo_json (@turns_work demo_app_env demo_turns) (@turns_finish demo_app_env demo_turns) ["edgeflow"%string] config_zero app_zero
      60%nat world_init = Some (code, w') ∧
  (code = 0 ∨ code = 1) ∧ g_log_fp (w_glob w') = None ∧
  ∃ evs, w_trace w' = evs ++ w_trace world_init ∧ threads [] evs = [] ∧ log_files evs = 0 ∧
    db_handles evs = db_leaks evs ∧ (db_leaks evs = 0 ∨ code = 1 ∧ db_leaks evs = 1).
Proof.
  destruct (returns_run (@main demo_app_env demo_json (@turns_work demo_app_env demo_turns) (@turns_finish demo_app_env demo_turns) ["edgeflow"%string] config_zero
    app_zero) 60 world_init ltac:(vm_compute; reflexivity)) as (code & w' & H).
  exists code, w'. split; [exact H|].
  exact (@main_releases demo_app_env demo_json (@turns_work demo_app_env demo_turns) (@turns_finish demo_app_env demo_turns) (@turns_works demo_app_env demo_turns) (@turns_finishes demo_app_env demo_turns)
    ["edgeflow"%string] config_zero app_zero 60 world_init code w' eq_refl H).
Defined.
