(* ===== verification/Termination.v ===== *)
(** * The threads return

    Every loop of the gateway ends, however the environment answers, as long
    as it is patient: the peers of its sockets answer the blocking reads and
    writes, and signals, full buffers and unanswered looks at the flags happen
    finitely often.  The bodies of the threads need no more than the loops they
    call; the threads end once the flag says so. *)

From S2P Require Export Main.

#[local] Open Scope Z_scope.

(** How often the threads found the flag set, and the main program did not
    find the signal. *)
Definition is_round (e : event) : bool := match e with EvRunning true => true | _ => false end.
Definition is_wait (e : event) : bool := match e with EvExit false => true | _ => false end.

Definition count (f : event → bool) (tr : trace) : nat := length (filter (λ e, f e = true) tr).

Lemma count_cons f e tr : count f (e :: tr) = ((if f e then 1 else 0) + count f tr)%nat.
Proof. unfold count. rewrite filter_cons. case_decide as H; [by rewrite H|]. by destruct (f e). Qed.

Lemma count_app f t1 t2 : count f (t1 ++ t2) = (count f t1 + count f t2)%nat.
Proof. unfold count. by rewrite filter_app, length_app. Qed.

(** Every read and write on a socket is answered, and at most [k] times a
    signal interrupts a sleep, a descriptor takes nothing,
    a thread finds that it must go on, or [main] finds no signal. *)
Class Patient (env : Env) (k : nat) : Prop := {
  patient_sleep : ∀ tr sec nsec, (k ≤ interrupts tr)%nat → env_nanosleep tr sec nsec = None;
  patient_answers : ∀ tr fd, env_answers tr fd = true;
  patient_write : ∀ fd tr d, d ≠ [] →
    env_write tr fd d = WrIntr ∨ env_write tr fd d = WrOk 0 → (retries fd tr < k)%nat;
  patient_running : ∀ tr, env_running tr = true → (count is_round tr < k)%nat;
  patient_exit : ∀ tr, env_exit tr = false → (count is_wait tr < k)%nat
}.

(** ** The loops over system calls *)

Section totality.
Context {env : Env} {k : nat} {patient : Patient env k} {n : nat} (Hn : (1024 + k < n)%nat).

Lemma sleep_total ms : Total n (edgeflow_sleep_ms ms).
Proof.
  intros w. unfold edgeflow_sleep_ms, with_fuel.
  destruct (sleep_loop_returns k patient_sleep n (ms / 1000) (ms mod 1000 * 1000000) n w) as (w' & evs & -> & _);
    [lia|by eexists].
Qed.

Lemma answers_total fd : ∀ tr, env_answers tr fd = true.
Proof. intros tr. apply patient_answers. Qed.
Hint Resolve answers_total : totality.

Lemma write_total fd buf : (length buf ≤ 1024)%nat → Total n (mqtt_write_all fd buf).
Proof.
  intros Hl w. unfold mqtt_write_all, with_fuel.
  apply (write_loop_returns k); [apply answers_total|intros tr d; apply patient_write|lia].
Qed.

Lemma frame_length size header body f : frame size header body = Some f → (length f ≤ size)%nat.
Proof. unfold frame. case_decide; intros ?; simplify_eq. cbn [length]. rewrite length_app. lia. Qed.

Lemma send_publish_total fd topic payload : Total n (mqtt_send_publish fd topic payload).
Proof.
  unfold mqtt_send_publish. destruct (publish_frame _ _) as [f|] eqn:E; [|apply _].
  apply write_total. by apply frame_length in E.
Qed.

Lemma send_ping_total fd : Total n (mqtt_send_ping fd).
Proof. apply write_total. simpl. lia. Qed.

Lemma send_connect_total fd id keepalive : Total n (mqtt_send_connect fd id keepalive).
Proof.
  unfold mqtt_send_connect. destruct (connect_frame _ _) as [f|] eqn:E; [|apply _].
  apply frame_length in E. apply total_bind; [apply write_total; lia|]. solve_total.
Qed.
Hint Resolve sleep_total send_publish_total send_ping_total send_connect_total : totality.

(** ** The operations *)

Lemma touch_total a t : Total n (touch a t).
Proof. unfold touch, heartbeat_touch, edgeflow_now_ms. solve_total. Qed.

Lemma age_total hb t : Total n (heartbeat_age_ms hb t).
Proof. unfold heartbeat_age_ms, edgeflow_now_ms. solve_total. Qed.
Hint Resolve touch_total age_total : totality.

Lemma update_metrics_total a : Total n (update_heartbeat_metrics a).
Proof. unfold update_heartbeat_metrics. solve_total. Qed.

Lemma metrics_write_total p m : Total n (metrics_write_file p m).
Proof. unfold metrics_write_file. solve_total. Qed.

Lemma append_telemetry_total st p r : Total n (storage_append_telemetry st p r).
Proof. unfold storage_append_telemetry, jsonl_append_telemetry, append_jsonl_line. solve_total. Qed.

Lemma append_alarm_total st a : Total n (storage_append_alarm st a).
Proof. unfold storage_append_alarm, run_statement, append_jsonl_line. solve_total. Qed.

Lemma append_command_total st c : Total n (storage_append_command st c).
Proof. unfold storage_append_command, run_statement, append_jsonl_line. solve_total. Qed.

Lemma mark_total st id : Total n (storage_mark_telemetry_uploaded st id).
Proof. unfold storage_mark_telemetry_uploaded, run_statement. solve_total. Qed.

Lemma count_total st : Total n (storage_pending_telemetry_count st).
Proof. unfold storage_pending_telemetry_count. solve_total. Qed.
Hint Resolve update_metrics_total metrics_write_total append_telemetry_total append_alarm_total
  append_command_total mark_total count_total : totality.

Lemma mqtt_shutdown_total s : Total n (mqtt_shutdown_locked s).
Proof. unfold mqtt_shutdown_locked. solve_total. Qed.
Hint Resolve mqtt_shutdown_total : totality.

Lemma ensure_total s : Total n (mqtt_ensure_connected_locked s).
Proof. unfold mqtt_ensure_connected_locked, mqtt_open_tcp. solve_total. Qed.
Hint Resolve ensure_total : totality.

Lemma publish_telemetry_total s p : Total n (mqtt_session_publish_telemetry s p).
Proof. unfold mqtt_session_publish_telemetry, publish_locked. solve_total. Qed.

Lemma publish_heartbeat_total s p : Total n (mqtt_session_publish_heartbeat s p).
Proof. unfold mqtt_session_publish_heartbeat, publish_locked. solve_total. Qed.

Lemma ping_total s : Total n (mqtt_session_ping s).
Proof. unfold mqtt_session_ping. solve_total. Qed.

Lemma session_shutdown_total s : Total n (mqtt_session_shutdown s).
Proof. unfold mqtt_session_shutdown. solve_total. Qed.

Lemma replay_rows_total st l s m r : Total n (replay_rows st l s m r).
Proof. revert s m r. induction l; simpl; solve_total. Qed.
Hint Resolve publish_telemetry_total publish_heartbeat_total ping_total session_shutdown_total
  replay_rows_total : totality.

Lemma replay_total s st m : Total n (mqtt_session_replay_pending s st m).
Proof. unfold mqtt_session_replay_pending, storage_fetch_pending_telemetry. solve_total. Qed.
Hint Resolve replay_total : totality.

Lemma modbus_poll_total self out max : Total n (modbus_poll self out max).
Proof.
  unfold modbus_poll, modbus_rtu_poll, modbus_poll_simulate, modbus_libmodbus_poll, ensure_context,
    modbus_set_response_timeout, map_registers_to_telemetry, modbus_libmodbus_shutdown, edgeflow_now_ms.
  solve_total.
Qed.

Lemma modbus_write_total self cmd : Total n (modbus_write_command self cmd).
Proof. unfold modbus_write_command. solve_total. Qed.

Lemma modbus_shutdown_total self : Total n (modbus_shutdown self).
Proof. unfold modbus_shutdown, modbus_libmodbus_shutdown. solve_total. Qed.
Hint Resolve modbus_poll_total modbus_write_total modbus_shutdown_total : totality.

(** ** The bodies of the threads *)

Lemma shutdown_all_total r : modbus_only r → Total n (adapter_registry_shutdown_all (Some r)).
Proof.
  intros (d & -> & Hd). cbn [adapter_registry_shutdown_all slots shutdown_slots].
  rewrite (md_shutdown d Hd). solve_total.
Qed.

Lemma send_commands_total d st l r : modbus_device d → Total n (send_commands d st l r).
Proof.
  intros Hd. revert r. induction l as [|c l IH]; intros r; simpl; [apply _|].
  apply total_bind; [|intros; apply IH]. unfold send_command. rewrite (md_write d Hd). solve_total.
Qed.
Hint Resolve send_commands_total : totality.

Lemma handle_outcome_total a al cmd : modbus_only (app_registry a) → Total n (handle_outcome a al cmd).
Proof.
  intros (d & _ & Hd & Hf)%modbus_only_find. unfold handle_outcome.
  apply total_bind; [solve_total|intros _]. case_decide; [apply _|].
  apply total_bind; [unfold command_scheduler_submit; solve_total|]. intros [[rc s] c'].
  destruct (negb _); [apply _|]. change (find_modbus_adapter (with_scheduler a _)) with (find_modbus_adapter a).
  rewrite Hf. unfold command_scheduler_tick. solve_total.
Qed.
Hint Resolve handle_outcome_total : totality.

Lemma ingress_total a : modbus_only (app_registry a) → Total n (ingress_body a).
Proof.
  intros (d & E & Hd). unfold ingress_body, adapter_registry_poll_all. rewrite E.
  cbn [slots poll_slots]. rewrite (md_poll d Hd). solve_total.
Qed.

Lemma worker_total a last : modbus_only (app_registry a) → Total n (worker_body a last).
Proof. intros Hm. unfold worker_body, process_point, finish_round, edgeflow_now_ms. solve_total. Qed.

Lemma monitor_total a : Total n (monitor_on_timer a).
Proof.
  unfold monitor_on_timer, load_running, monitor_round, watchdog_notify_alive, send_notify, edgeflow_now_ms.
  solve_total.
Qed.

(** ** The threads

    A loop that looks at the flag and then does a round that only adds events
    ends after at most [k] rounds. *)
Lemma round_count (w w1 : world) evs :
  w_trace w1 = evs ++ EvRunning true :: w_trace w →
  env_running (w_trace w) = true →
  (count is_round (w_trace w) < k ∧ count is_round (w_trace w) < count is_round (w_trace w1))%nat.
Proof.
  intros E Hr. split; [by apply patient_running|]. rewrite E, count_app, count_cons. simpl. lia.
Qed.

Lemma ingress_loop_returns c st fuel a w :
  app_inv c st a → (k - count is_round (w_trace w) < fuel)%nat → is_Some (ingress_loop fuel a n w).
Proof.
  revert a w. induction fuel as [|fuel IH]; intros a w Hi Hf; [lia|]. cbn [ingress_loop].
  unfold load_running. erewrite bind_eq by reflexivity. cbv beta.
  destruct (env_running (w_trace w)) eqn:Er; [|by eexists].
  pose proof (ai_registry _ _ _ Hi) as Hreg. apply bind_total; [by apply ingress_total|]. intros a1 w1 H1.
  apply IH; [by eapply inv_ingress|]. apply ingress_plain in H1 as (evs & E & _); [|done].
  destruct (round_count w w1 evs E Er). lia.
Qed.

Lemma worker_loop_returns c st fuel a last w :
  app_inv c st a → (k - count is_round (w_trace w) < fuel)%nat → is_Some (worker_loop fuel a last n w).
Proof.
  revert a last w. induction fuel as [|fuel IH]; intros a last w Hi Hf; [lia|]. cbn [worker_loop].
  unfold load_running. erewrite bind_eq by reflexivity. cbv beta.
  destruct (env_running (w_trace w)) eqn:Er; [|by eexists].
  pose proof (ai_registry _ _ _ Hi) as Hreg. apply bind_total; [by apply worker_total|].
  intros [a1 last1] w1 H1. apply IH; [by eapply inv_worker|].
  apply worker_plain in H1 as (evs & E & _); [|done]. destruct (round_count w w1 evs E Er). lia.
Qed.

(** The monitor's callback runs inside the reactor. *)
Lemma reactor_run_total r a : re_cb r = Some monitor_on_timer → Total n (reactor_run_once (Some r) a).
Proof.
  intros Hcb. unfold reactor_run_once. destruct (negb _); [apply _|].
  apply total_bind; [apply _|]. intros [ready| |]; [|apply _..].
  apply total_bind; [|intros; apply _]. generalize (take REACTOR_MAX_EVENTS ready). intros l.
  revert a. induction l as [|fd l IH]; intros a; simpl; [apply _|]. apply total_bind; [|apply IH].
  rewrite Hcb. pose proof monitor_total. solve_total.
Qed.

Lemma reactor_run_only r a :
  re_cb r = Some monitor_on_timer → Only (λ _, True) (reactor_run_once (Some r) a).
Proof.
  intros Hcb. unfold reactor_run_once. destruct (negb _); [apply _|].
  apply only_bind; [apply only_call; auto|]. intros [ready| |]; [|apply _..].
  apply only_bind; [|intros; apply _]. generalize (take REACTOR_MAX_EVENTS ready). intros l.
  revert a. induction l as [|fd l IH]; intros a; simpl; [apply _|]. apply only_bind; [|apply IH].
  rewrite Hcb. assert (∀ x, Only (λ _, True) (monitor_on_timer x)).
  { intros x. by eapply only_mono, monitor_plain. }
  solve_only.
Qed.

Lemma monitor_loop_returns fuel r a w :
  re_cb r = Some monitor_on_timer → (k - count is_round (w_trace w) < fuel)%nat →
  is_Some (monitor_loop fuel (Some r) a n w).
Proof.
  intros Hcb. revert a w. induction fuel as [|fuel IH]; intros a w Hf; [lia|]. cbn [monitor_loop].
  unfold load_running. erewrite bind_eq by reflexivity. cbv beta.
  destruct (env_running (w_trace w)) eqn:Er; [|by eexists].
  apply bind_total; [by apply reactor_run_total|]. intros [rc a1] w1 H1.
  apply reactor_run_only in H1 as (evs & E & _); [|done].
  destruct (negb _); [by eexists|]. apply IH. destruct (round_count w w1 evs E Er). lia.
Qed.

Lemma monitor_fallback_returns fuel a w :
  (k - count is_round (w_trace w) < fuel)%nat → is_Some (monitor_fallback fuel a n w).
Proof.
  revert a w. induction fuel as [|fuel IH]; intros a w Hf; [lia|]. cbn [monitor_fallback].
  unfold load_running. erewrite bind_eq by reflexivity. cbv beta.
  destruct (env_running (w_trace w)) eqn:Er; [|by eexists].
  apply bind_total; [apply monitor_total|]. intros a1 w1 H1. apply monitor_plain in H1 as (e1 & E1 & _).
  apply bind_total; [apply sleep_total|]. intros u w2 H2. apply sleep_plain in H2 as (e2 & E2 & _).
  apply IH. destruct (round_count w w2 (e2 ++ e1)) as [??]; [by rewrite E2, E1, app_assoc|done|lia].
Qed.

Lemma fallback_total a : Total n (with_fuel (λ fuel, monitor_fallback fuel a)).
Proof. intros w. unfold with_fuel. apply monitor_fallback_returns. lia. Qed.

Lemma reactor_destroy_total {S} (r : option (reactor_t S)) : Total n (reactor_destroy r).
Proof. unfold reactor_destroy. solve_total. Qed.

Lemma monitor_main_total a : Total n (monitor_main a).
Proof.
  intros w. unfold monitor_main. pose proof fallback_total. pose proof @reactor_destroy_total.
  apply bind_total; [unfold reactor_init; run_total|].
  intros [rc out] w1 H1. destruct (negb (rc =? 0)) eqn:Erc; [run_total|].
  apply bind_total; [unfold reactor_add_timer_ms; run_total|].
  intros [rc2 r2] w2 H2. destruct (negb (rc2 =? 0)) eqn:E2; [run_total|].
  assert (∃ r, r2 = Some r ∧ re_cb r = Some monitor_on_timer) as (r & -> & Hcb) by (by eapply add_timer_cb).
  apply bind_total.
  - unfold with_fuel. apply monitor_loop_returns; [done|lia].
  - intros a' w3 _. run_total.
Qed.

Lemma threads_run c st a w :
  app_inv c st a →
  is_Some (ingress_main a n w) ∧ is_Some (worker_main a n w) ∧ is_Some (monitor_main a n w) ∧
  is_Some (ingress_body a n w) ∧ (∀ last, is_Some (worker_body a last n w)) ∧
  is_Some (monitor_on_timer a n w).
Proof.
  intros Hi. pose proof (ai_registry _ _ _ Hi) as Hreg.
  split_and!; [| |apply monitor_main_total|by apply ingress_total|by intros; apply worker_total|apply monitor_total].
  - apply (ingress_loop_returns c st); [done|lia].
  - apply bind_total; [apply (worker_loop_returns c st); [done|lia]|].
    intros a' w' _. run_total.
Qed.

(** ** The program *)

Lemma app_init_total a0 c : Total n (gateway_app_init (Some a0) (Some c)).
Proof.
  intros w. unfold gateway_app_init. cbv zeta.
  apply bind_total; [unfold heartbeat_registry_init, edgeflow_now_ms; run_total|]. intros h w1 _.
  apply bind_total; [unfold storage_open, sqlite_exec_schema; run_total|]. intros [rc st] w2 _.
  destruct (negb _); [run_total|].
  change (adapter_registry_register _ _) with (ADAPTER_OK, Some (mk_registry [modbus_slot])). cbn beta iota.
  apply bind_total.
  { unfold adapter_registry_init_all. cbn [slots init_slots].
    change (ad_init modbus_slot) with (Some modbus_init). unfold modbus_init. run_total. }
  intros [rc3 reg] w3 H3. apply init_modbus_run in H3 as (_ & d & -> & Hd).
  assert (∀ st, Total n (storage_close st)) by (unfold storage_close; solve_total).
  assert (Total n (adapter_registry_shutdown_all (Some (mk_registry [d])))) by (apply shutdown_all_total; by exists d).
  unfold watchdog_init, open_notify_socket. run_total.
Qed.

Lemma app_run_total a : Total n (gateway_app_run (Some a)).
Proof.
  unfold gateway_app_run, store_running, pthread_create, pthread_join, watchdog_notify_ready, send_notify.
  solve_total.
Qed.

Lemma app_stop_total a : Total n (gateway_app_stop (Some a)).
Proof. unfold gateway_app_stop, store_running, pthread_join, watchdog_shutdown. solve_total. Qed.

Lemma app_destroy_total a : modbus_only (app_registry a) → Total n (gateway_app_destroy (Some a)).
Proof.
  intros Hm. unfold gateway_app_destroy. cbv zeta. pose proof (shutdown_all_total _ Hm).
  unfold storage_close. solve_total.
Qed.

Lemma read_file_total path : Total n (read_file path).
Proof. unfold read_file. solve_total. Qed.

End totality.

(** C19: the three threads end, unless a peer keeps them waiting: in a patient
    environment, which answers every blocking read and write on a socket and
    whose flag is found set at most [k] times, the main functions of the
    ingress, worker and monitor threads return from every state of the
    application invariant, with [1025 + k] rounds of any loop; so does every
    body, however full the ring and the outbox are and whatever fails.  The
    answers are needed: the reads of the broker have no timeout
    ([Silence.silent_broker_holds_lock]). *)
Theorem threads_return {env : Env} k n c st a w :
  Patient env k → (1024 + k < n)%nat → app_inv c st a →
  is_Some (ingress_main a n w) ∧ is_Some (worker_main a n w) ∧ is_Some (monitor_main a n w) ∧
  is_Some (ingress_body a n w) ∧ (∀ last, is_Some (worker_body a last n w)) ∧
  is_Some (monitor_on_timer a n w).
Proof. intros Hp Hn. exact (threads_run Hn c st a w). Qed.

(** ** Concrete runs *)

#[export] Instance demo_patient : Patient demo_app_env 101.
Proof.
  assert (∀ f tr, count f tr ≤ length tr)%nat as Hc by (intros f tr; apply length_filter).
  split; simpl.
  - done.
  - done.
  - intros fd tr [|b d] Hd [H|H]; simplify_eq.
  - intros tr H%bool_decide_eq_true. specialize (Hc is_round tr). lia.
  - intros tr H%bool_decide_eq_false. specialize (Hc is_wait tr). lia.
Qed.

Lemma threads_return_witness :
  @app_inv demo_app_env demo_app_config demo_app_storage demo_app ∧
  is_Some (@ingress_main demo_app_env demo_app 1126%nat world_init) ∧
  is_Some (@worker_main demo_app_env demo_app 1126%nat world_init) ∧
  is_Some (@monitor_main demo_app_env demo_app 1126%nat world_init).
Proof.
  split; [exact demo_app_inv|].
  destruct (@threads_return demo_app_env 101 1126 demo_app_config demo_app_storage demo_app world_init
    demo_patient ltac:(lia) demo_app_inv) as (Hi & Hw & Hm & _).
  split; [exact Hi|]. split; [exact Hw|exact Hm].
Defined.
