(* ===== verification/Shutdown.v ===== *)
(** * The end of the gateway

    What is left of sockets and of the lock when [main] ([src/src/main.c]) has
    ended, its threads interleaved: nothing after a run, but the watchdog's
    socket after a start that failed. *)

From S2P Require Export Main.

#[local] Open Scope Z_scope.

Section shutdown.
Context {env : Env} {fresh : FreshSockets env} {db0 : list db_row} {spec : SqliteSpec env db0}.

(** A computation that uses neither session nor outbox, between two pieces. *)
Lemma sound_calm {A} (m : io A) c st old a w n x w' p :
  sound db0 c st old (system_of a w p) → Calm (g_notify_fd (w_glob w)) m → m n w = Some (x, w') →
  sound db0 c st old (system_of a w' p).
Proof.
  intros [Hg Hw Hm Hl Hx] Hcalm H.
  eapply (advance_calm db0 c st old m a n w x a w') in H as A1; [|done|done|apply Hg|done].
  pose proof (advance_grows _ _ _ _ _ _ _ A1) as Hgr. destruct A1 as (Hg' & evs & E & F).
  split; cbn in *; [done|by eapply worker_later| |by rewrite E, mutex_app|done].
  by eapply (monitor_later _ _ _ (app_mqtt a)).
Qed.

Lemma sound_steps c st old y y' :
  sound db0 c st old y → rtc istep y y' → sound db0 c st old y'.
Proof. intros Hs H. induction H; eauto using sound_step. Qed.

(** *** A start that fails *)

Lemma start_fails a n w rc w' :
  gateway_app_run (Some a) n w = Some (rc, w') → rc ≠ 0 → calm_sockets w → calm_sockets w'.
Proof.
  intros H Hrc Hs. unfold gateway_app_run, store_running, pthread_create, pthread_join in H. io_go H.
  assert (∀ evs, w_trace w' = evs ++ w_trace w → g_notify_fd (w_glob w') = g_notify_fd (w_glob w) →
    Forall (λ e, keeps_sockets e = true) evs → Forall (λ e, lockless e = true) evs → calm_sockets w') as Hgrow.
  { intros evs E Hg Hk Hf. by eapply calm_sockets_grow. }
  destruct (env_pthread_create _); cbn [negb] in H; io_go H.
  2: { io_done H. eapply (Hgrow [_; _; _]); [done|done|by repeat constructor..]. }
  destruct (env_pthread_create _); cbn [negb] in H; io_go H.
  2: { io_done H. eapply (Hgrow [_; _; _; _; _]); [done|done|by repeat constructor..]. }
  destruct (env_pthread_create _); cbn [negb] in H; io_go H.
  2: { io_done H. eapply (Hgrow [_; _; _; _; _; _; _]); [done|done|by repeat constructor..]. }
  do 2 (apply bind_run in H as (? & ? & _ & H)). by io_done H.
Qed.

(** [gateway_app_destroy] closes no socket. *)
Lemma destroy_keeps_sockets a n w r w' fd :
  modbus_only (app_registry a) → gateway_app_destroy (Some a) n w = Some (r, w') →
  is_open fd (w_trace w') = is_open fd (w_trace w).
Proof.
  intros Hm H. apply (destroy_calm (g_notify_fd (w_glob w))) in H as (evs & E & F & _); [|done|done].
  apply calm_quiet in F as [Fh _]. by rewrite E, open_app by (by apply harmless_sockets).
Qed.

(** What the threads opened before they were joined, and the watchdog's socket,
    stay open when a start fails: the program calls [gateway_app_destroy] then,
    which closes no socket. *)
Theorem failed_start_leaves_sockets a0 c n w0 a w1 m rc w2 last a3 w3 k r w4 :
  is_u32 (cfg_queue_size c) → at_start w0 →
  gateway_app_init (Some a0) (Some c) n w0 = Some ((0, Some a), w1) →
  gateway_app_run (Some a) m w1 = Some (rc, w2) → rc ≠ 0 →
  rtc istep (mk_system a w2 WPop 0 MIdle) (mk_system a3 w3 WPop last MIdle) →
  gateway_app_destroy (Some a3) k w3 = Some (r, w4) →
  (∀ fd, is_open fd (w_trace w4) = is_open fd (w_trace w3)) ∧
  (0 <= g_notify_fd (w_glob w3) → is_open (g_notify_fd (w_glob w3)) (w_trace w4) = true).
Proof.
  intros Hq Hs Hi Hr Hrc H Hd. pose proof Hi as Hc%start_init; [|done].
  apply app_init_run in Hi as (a' & Ea & [(_ & st & [Hinv _ _ _ _ Hm] & _)|(? & _)]); [|done..]. simplify_eq.
  eapply start_fails in Hr as [Hn Ho Hl]; [|done..].
  assert (sound db0 c st (db_of db0 (w_trace w2)) (mk_system a' w2 WPop 0 MIdle)) as Hsound.
  { split; cbn; [|done..]. split; [done| |].
    - split; [apply Hinv|by rewrite Hm|done|by rewrite Hm|]. intros fd Hp H2. left. by apply Ho.
    - intros row Hrow Hu. left. by exists row. }
  apply (sound_steps _ _ _ _ _ Hsound) in H as [[Hi3 Hl3 _] _ _ _ _]. cbn in Hi3, Hl3.
  assert (∀ fd, is_open fd (w_trace w4) = is_open fd (w_trace w3)) as Hsame.
  { intros fd. eapply destroy_keeps_sockets; [apply Hi3|done]. }
  split; [done|]. intros Hp. rewrite Hsame. by apply (lo_notify _ _ _ Hl3).
Qed.

(** *** A run that ends *)

Context (cJSON_Parse : string → option cJSON).
Context (threads_work : gateway_app_t → positions → io (gateway_app_t * positions)).
Context (threads_finish : gateway_app_t → positions → io gateway_app_t).
Context (Hwork : works threads_work) (Hfinish : finishes threads_finish).

Lemma wait_loop_sound c st old fuel a p n w a' p' w' :
  sound db0 c st old (system_of a w p) → wait_loop threads_work fuel a p n w = Some ((a', p'), w') →
  sound db0 c st old (system_of a' w' p').
Proof.
  revert a p w. induction fuel as [|fuel IH]; intros a p w Hs H; [done|]. cbn [wait_loop] in H.
  apply bind_run in H as (exit & w1 & H1 & H).
  eapply sound_calm in H1; [|exact Hs|apply calm_call; auto with calm]. destruct exit; [by io_done H|].
  apply bind_run in H as (u & w2 & H2 & H). eapply sound_calm in H2; [|exact H1|apply sleep_calm].
  apply bind_run in H as ([a3 p3] & w3 & H3 & H). apply Hwork, (sound_steps c st old) in H3; [|done].
  exact (IH _ _ _ H3 H).
Qed.

(** From the wait on. *)
Lemma serve_closes c st old a n w code w' :
  sound db0 c st old (system_of a w at_heads) →
  ('(a, p) ← with_fuel (λ fuel, wait_loop threads_work fuel a at_heads);
   a ← threads_finish a p;
   a ← gateway_app_stop (Some a);
   gateway_app_destroy a;;
   logger_shutdown;;
   mret 0) n w = Some (code, w') →
  no_socket w' ∧ mutex (w_trace w') = Some false.
Proof.
  intros Hs H. apply bind_run in H as ([a1 p1] & w1 & H1 & H). apply (wait_loop_sound c st old) in H1; [|done].
  apply bind_run in H as (a2 & w2 & H2 & H). apply Hfinish in H2 as [last H2].
  apply (sound_steps c st old) in H2; [|done]. destruct H2 as [Hg _ _ Hl _]. cbn in Hg, Hl.
  apply bind_run in H as (a3 & w3 & H3 & H). pose proof H3 as (s & e & -> & _)%app_stop_run.
  eapply stop_sockets in H3 as [Hn3 Hm3]; [|apply Hg|done].
  apply bind_run in H as (a4 & w4 & H4 & H). eapply destroy_sockets in H4 as [Hn4 Hm4]; [|apply Hg|done..].
  apply bind_run in H as (u & w5 & H5 & H). io_done H.
  unfold logger_shutdown, set_globals in H5. io_go H5. destruct (g_log_fp _); io_go H5; by io_done H5.
Qed.

(** A calm computation before the start. *)
Lemma start_skip {A B} (m : io A) (k : A → io B) n w b w' :
  at_start w → (∀ fd, Calm fd m) → (m ≫= k) n w = Some (b, w') → ∃ a w1, at_start w1 ∧ k a n w1 = Some (b, w').
Proof.
  intros Hs Hm H. apply bind_run in H as (a & w1 & H1 & H). exists a, w1. split; [|done].
  by eapply start_calm.
Qed.

Lemma load_calm fd path cfg : Calm fd (load_config cJSON_Parse path cfg).
Proof.
  unfold load_config. apply calm_bind; [unfold read_file; solve_calm|intros text].
  destruct (gateway_config_load _ _ _ _) as [[rc [c|]]|]; [apply calm_ret|apply calm_out..].
Qed.

(** [start_through H Hs] passes one. *)
Ltac start_through H Hs :=
  let v := fresh "vs" in let w := fresh "ws" in let Hs' := fresh "Hs" in
  apply start_skip in H as (v & w & Hs' & H);
    [|exact Hs|intros; unfold emit, print, print_err, logger_init, log_info, log_error; solve_calm];
  clear Hs; rename Hs' into Hs.

Lemma main_closed argv cfg app n w w' :
  at_start w → main cJSON_Parse threads_work threads_finish argv cfg app n w = Some (0, w') →
  no_socket w' ∧ mutex (w_trace w') = Some false.
Proof.
  intros Hs H. unfold main in H. do 3 start_through H Hs.
  apply bind_run in H as ([rc c] & w1 & H1 & H). pose proof H1 as (Hc & _)%load_config_run.
  assert (at_start w1) as Hs1.
  { eapply start_calm; [apply load_calm|exact H1|exact Hs]. }
  destruct (negb (rc =? 0)); [unfold print_err in H; io_go H; io_done H|].
  do 3 start_through H Hs1.
  apply bind_run in H as ([rc1 r1] & w5 & H5 & H).
  destruct (Z.eqb_spec rc1 0) as [->|]; cbn [negb] in H.
  2: { do 2 (apply bind_run in H as (? & ? & _ & H)). by io_done H. }
  pose proof H5 as (a & -> & [(_ & _)|(? & _)])%app_init_run; [|done|apply Hc].
  apply bind_run in H as (rc2 & w6 & H6 & H).
  destruct (Z.eqb_spec rc2 0) as [->|]; cbn [negb] in H.
  2: { do 4 (apply bind_run in H as (? & ? & _ & H)). by io_done H. }
  match type of Hs1 with at_start ?w => assert (launched c w a w6) as Hl by (by exists app, n, w5, n) end.
  apply (launched_sound db0) in Hl as [st Hs6]; [|apply Hc|done].
  change (sound db0 c st (db_of db0 (w_trace w6)) (system_of a w6 at_heads)) in Hs6.
  do 5 (apply bind_run in H as (? & ? & Hp & H); eapply sound_calm in Hp;
    [|exact Hs6|unfold print, emit; solve_calm]; clear Hs6; rename Hp into Hs6).
  by eapply serve_closes.
Qed.
End shutdown.

(** ** Properties *)

(** C20: a run leaves nothing behind: from the start of the program, whatever the
    environment answers and however the pieces of the threads interleave while
    [main] waits and until they are joined, when [main] ends with exit code 0 no
    socket is open, neither the session's nor the watchdog's, and the lock of
    the session was taken and released in turn and is free. *)
Theorem main_closes {env : Env} {fresh : FreshSockets env} db0 {spec : SqliteSpec env db0}
    cJSON_Parse threads_work threads_finish argv cfg app n w w' :
  works threads_work → finishes threads_finish → at_start w →
  main cJSON_Parse threads_work threads_finish argv cfg app n w = Some (0, w') →
  (∀ fd, 0 <= fd → is_open fd (w_trace w') = false) ∧ mutex (w_trace w') = Some false.
Proof. intros Hw Hf Hs H. by eapply (main_closed (db0 := db0)). Qed.

(** ** A concrete run *)

Lemma main_closes_witness :
  ∃ w', @main demo_gateway_env demo_json (@turns_work demo_gateway_env demo_turns) (@turns_finish demo_gateway_env demo_turns) ["edgeflow"%string] config_zero app_zero
      60%nat world_init = Some (0, w') ∧
  (∀ fd, 0 <= fd → is_open fd (w_trace w') = false) ∧ mutex (w_trace w') = Some false.
Proof.
  assert (fst <$> @main demo_gateway_env demo_json (@turns_work demo_gateway_env demo_turns) (@turns_finish demo_gateway_env demo_turns) ["edgeflow"%string] config_zero
    app_zero 60%nat world_init = Some 0) as H by (vm_compute; reflexivity).
  destruct (@main _ _ _ _ _ _ _ _ _) as [[code w']|] eqn:E; [|discriminate]. injection H as ->.
  exists w'. split; [reflexivity|].
  exact (@main_closes demo_gateway_env _ [] _ demo_json (@turns_work demo_gateway_env demo_turns) (@turns_finish demo_gateway_env demo_turns) ["edgeflow"%string] config_zero
    app_zero 60 world_init w' (@turns_works demo_gateway_env demo_turns) (@turns_finishes demo_gateway_env demo_turns) demo_at_start E).
Defined.
