(* ===== verification/Healthy.v ===== *)
(** * The worker when all is well

    What the worker thread ([worker_main] of [src/src/runtime/app.c]) achieves
    when the broker and the database answer: it empties the ring, one body for
    each point, stores every point, sends it and marks it, all in order. *)

From S2P Require Export Recovery Termination.

#[local] Open Scope Z_scope.

(** The database takes every point that is a number. *)
Class Storing (env : Env) : Prop :=
  storing_insert tr p : tel_value p ≠ S754_nan → env_step tr sql_insert_telemetry (telemetry_binding p) = true.

(** A row for the point, already uploaded. *)
Definition store_uploaded (db : list db_row) (p : telemetry_t) : list db_row :=
  db ++ [mk_db_row (next_id db) (telemetry_binding p) true].

(** The frame of a point on the telemetry topic. *)
Definition point_frame (c : gateway_config_t) (p : telemetry_t) (f : bytes) : Prop :=
  publish_frame (cfg_mqtt_topic c) (telemetry_to_json p 384) = Some f.

Lemma rules_value c p : tel_value (apply_quality_rules c p) = tel_value p.
Proof. unfold apply_quality_rules. by destruct (_ && _). Qed.

Section healthy.
Context {env : Env} {db0 : list db_row} {online : Online env db0} {storing : Storing env}.
Context {spec : SqliteSpec env db0} {n : nat} (Hn : (1024 < n)%nat).
Context (c : gateway_config_t) (st : storage_ctx_t) (Hc : config_wf c) (Hdb : no_db st = false).

Abbreviation outbox_at w := (db_of db0 (w_trace w)).

Lemma append_online p w :
  tel_value p ≠ S754_nan →
  ∃ evs, storage_append_telemetry (Some st) (Some p) (Some 0) n w =
      Some ((0, Some (next_id (outbox_at w))), mk_world (evs ++ w_trace w) (w_glob w)) ∧
    Forall (λ e, harmless e = true) evs ∧
    outbox_at (mk_world (evs ++ w_trace w) (w_glob w)) =
      outbox_at w ++ [mk_db_row (next_id (outbox_at w)) (telemetry_binding p) false].
Proof.
  intros Hp.
  assert (∃ row w', storage_append_telemetry (Some st) (Some p) (Some 0) n w = Some ((0, row), w')) as (row & w' & H).
  { unfold storage_append_telemetry, jsonl_append_telemetry, append_jsonl_line.
    erewrite bind_eq by reflexivity. rewrite Hdb. erewrite bind_eq by reflexivity. cbv beta.
    rewrite online_prepare. cbn [negb]. erewrite bind_eq by reflexivity. cbv beta.
    rewrite storing_insert by done. by eexists _, _. }
  pose proof H as (evs & -> & Hh & _)%(append_piece db0). pose proof H as [_ Hr]%(append_run (db0 := db0)); [|done].
  cbv zeta in Hr. destruct Hr as [(_ & -> & _ & E)|[? _]]; [|done]. exists evs. by split_and!.
Qed.

Lemma has_db : st_db st = true.
Proof. unfold no_db in Hdb. apply orb_false_iff in Hdb as [_ Hd]. by apply negb_false_iff. Qed.

(** What follows one another in a healthy worker: the application keeps its
    invariant, the outbox gains the points [ps], uploaded, the session is
    opened if it must and sends their frames, and the ring is [r]. *)
Record delivers (ps : list telemetry_t) (r : spsc_ring_t) (a : gateway_app_t) (w : world)
    (a' : gateway_app_t) (w' : world) : Prop := {
  dv_inv : app_inv c st a';
  dv_cfg : ms_cfg (app_mqtt a') = c;
  dv_ring : app_ring a' = r;
  dv_rows : outbox_at w' = foldl store_uploaded (outbox_at w) ps;
  dv_ok : mqtt_publish_ok (app_metrics a') = u64 (mqtt_publish_ok (app_metrics a) + Z.of_nat (length ps));
  dv_fail : mqtt_publish_fail (app_metrics a') = mqtt_publish_fail (app_metrics a);
  dv_sent : ∃ evs hs fs, w_trace w' = evs ++ w_trace w ∧ opens (app_mqtt a) (app_mqtt a') hs ∧
    Forall2 (point_frame c) ps fs ∧ sent (ms_fd (app_mqtt a')) evs = hs ++ concat fs ∧
    ms_connected (app_mqtt a') = true
}.

Lemma outcome_healthy a (r : bool) al cmd w :
  app_inv c st a →
  ∃ s e w', (if r then handle_outcome a al cmd else mret a) n w = Some (with_scheduler a s, w') ∧
    app_inv c st (with_scheduler a s) ∧ w_trace w' = e ++ w_trace w ∧ Forall calm e.
Proof.
  intros Hi. destruct r.
  - destruct (handle_outcome_total (n := n) a al cmd (ai_registry _ _ _ Hi) w) as [[a' w'] H].
    assert (Calm (g_notify_fd (w_glob w)) (handle_outcome a al cmd)) as Hm by apply handle_outcome_calm, Hi.
    pose proof H as (e & E & Hcalm & _)%Hm; [|done].
    pose proof H as Hi'%(inv_outcome c st); [|done].
    pose proof H as [_ [s ->]]%(handle_outcome_run (db0 := db0)); [|apply quiet_modbus, Hi].
    by exists s, e, w'.
  - exists (app_command_scheduler a), [], w. destruct a. by split_and!.
Qed.

(** The point that was just stored is sent and marked. *)
Lemma send_healthy a q db w :
  app_inv c st a → ms_cfg (app_mqtt a) = c →
  outbox_at w = db ++ [mk_db_row (next_id db) (telemetry_binding q) false] →
  ∃ s' evs hs f,
    ('(rc, s) ← mqtt_session_publish_telemetry (Some (app_mqtt a)) (Some q);
     let a := with_mqtt a (default (app_mqtt a) s) in
     let a := with_metrics a (add_published (rc =? 0) (app_metrics a)) in
     (if (rc =? 0) && (0 <? next_id db)
      then storage_mark_telemetry_uploaded (app_storage a) (next_id db);; mret tt else mret tt);;
     mret a) n w =
      Some (with_metrics (with_mqtt a s') (add_published true (app_metrics a)),
            mk_world (evs ++ w_trace w) (w_glob w)) ∧
    outbox_at (mk_world (evs ++ w_trace w) (w_glob w)) = store_uploaded db q ∧
    session_ok s' ∧ ms_cfg s' = c ∧ ms_connected s' = true ∧ opens (app_mqtt a) s' hs ∧
    point_frame c q f ∧ sent (ms_fd s') evs = hs ++ f.
Proof.
  intros Hi Hcfg Hrow. pose proof (next_id_pos db) as Hid.
  destruct (publish_online Hn (app_mqtt a) (cfg_mqtt_topic c) (telemetry_to_json q 384)
    (mk_world (EvLock :: w_trace w) (w_glob w))) as (s' & e1 & hs & f & H1 & N1 & Hok1 & Hon & Hcfg1 & Ho & Hf & Hs1);
    [apply Hi|apply (gwf_topic _ Hc)|apply telemetry_json_fits|].
  set (w1 := mk_world (EvUnlock :: e1 ++ EvLock :: w_trace w) (w_glob w)).
  assert (outbox_at w1 = outbox_at w) as E1.
  { change (w_trace w1) with ([EvUnlock] ++ e1 ++ [EvLock] ++ w_trace w).
    rewrite (db_of_quiet db0 [EvUnlock]), (quiet_db_of db0 e1), (db_of_quiet db0 [EvLock]);
      [done|by repeat constructor|by apply net_quiet|by repeat constructor]. }
  assert (mqtt_session_publish_telemetry (Some (app_mqtt a)) (Some q) n w = Some ((0, Some s'), w1)) as Hpub.
  { unfold mqtt_session_publish_telemetry. rewrite Hcfg. erewrite bind_eq by reflexivity.
    by erewrite bind_eq by exact H1. }
  destruct (mark_online Hn st (next_id db) w1) as [w2 H2]; [by apply has_db|done|].
  pose proof H2 as (e2 & -> & Hq2 & _)%mark_events. apply mark_events_quiet in Hq2 as (_ & Hs2 & _).
  pose proof H2 as H3%(mark_run (db0 := db0)). cbv zeta in H3. destruct H3 as [(_ & _ & _ & E3)|[? _]]; [|done].
  exists s', (e2 ++ EvUnlock :: e1 ++ [EvLock]), hs, f.
  assert (mk_world ((e2 ++ EvUnlock :: e1 ++ [EvLock]) ++ w_trace w) (w_glob w) = mk_world (e2 ++ w_trace w1) (w_glob w1))
    as Ew by (subst w1; cbn [w_trace w_glob]; by rewrite <- !app_assoc, <- app_comm_cons, <- app_assoc).
  rewrite Ew. split_and!; [|by rewrite E3, E1, Hrow; apply mark_new_row|done|congruence|done|done|done|].
  - erewrite bind_eq by exact Hpub. cbv beta iota zeta.
    cbn [Z.eqb andb default from_option id app_storage with_metrics with_mqtt app_metrics].
    rewrite (ai_storage _ _ _ Hi), (proj2 (Z.ltb_lt _ _) Hid).
    assert (∀ (m : io ()) w', m n w1 = Some (tt, w') → (m ≫= λ _, mret (with_metrics (with_mqtt a s')
      (add_published true (app_metrics a)))) n w1 = Some (with_metrics (with_mqtt a s')
      (add_published true (app_metrics a)), w')) as Hret by (intros m w' Hm; by erewrite bind_eq by exact Hm).
    apply Hret. by erewrite bind_eq by exact H2.
  - rewrite sent_app, Hs2, app_nil_r. change (EvUnlock :: e1 ++ [EvLock]) with ([EvUnlock] ++ e1 ++ [EvLock]).
    by rewrite !sent_app, Hs1, app_nil_r.
Qed.
Lemma process_healthy a p w :
  app_inv c st a → ms_cfg (app_mqtt a) = c → tel_value p ≠ S754_nan →
  ∃ a' w', process_point a p n w = Some (a', w') ∧
    delivers [apply_quality_rules c p] (app_ring a) a w a' w'.
Proof.
  intros Hi Hcfg Hp. unfold process_point. rewrite (ai_cfg _ _ _ Hi), (ai_storage _ _ _ Hi).
  set (q := apply_quality_rules c p). assert (tel_value q ≠ S754_nan) as Hq by (by subst q; rewrite rules_value).
  destruct (append_online q w Hq) as (e1 & H1 & Hh1 & E1). set (w1 := mk_world (e1 ++ w_trace w) (w_glob w)) in *.
  eapply bind_reaches; [exact H1|]. cbn [Z.eqb negb]. eapply bind_reaches; [reflexivity|].
  cbn [app_cfg with_metrics]. rewrite (ai_cfg _ _ _ Hi).
  destruct (state_engine_process_telemetry _ _ _ _ _ _ _) as [[[r e] al] cmd] eqn:Ee.
  apply (inv_engine_step c st (with_metrics a (add_processed (app_metrics a)))) in Ee; [|by apply inv_metrics].
  destruct (outcome_healthy _ r (default alarm_zero al) (default command_zero cmd) w1 Ee)
    as (s & e2 & w2 & H2 & Hi2 & E2 & [Hh2 Hq2]%calm_quiet).
  eapply bind_reaches; [exact H2|]. set (a2 := with_scheduler _ s) in *.
  destruct (send_healthy a2 q (outbox_at w) w2 Hi2 Hcfg) as (s' & e3 & hs & f & H3 & E3 & Hok & Hs & Hon & Ho & Hf & Hsent).
  { by rewrite E2, quiet_db_of. }
  eexists _, _. split; [exact H3|]. split; [|done|done|exact E3|done|done|].
  - by apply inv_metrics, inv_mqtt.
  - exists (e3 ++ e2 ++ e1), hs, [f]. cbn [w_trace].
    split; [by rewrite E2; subst w1; cbn [w_trace]; rewrite <- !app_assoc|].
    split; [done|]. split; [by constructor|]. split; [|done].
    change (app_mqtt (with_metrics (with_mqtt a2 s') _)) with s'.
    cbn [concat]. by rewrite !sent_app, Hsent, (sent_harmless _ e2), (sent_harmless _ e1), !app_nil_r by done.
Qed.

(** The rest of a body leaves the ring and the counters of publications alone. *)
Lemma finish_keeps a last w a' last' w' :
  finish_round a last n w = Some ((a', last'), w') →
  app_ring a' = app_ring a ∧ mqtt_publish_ok (app_metrics a') = mqtt_publish_ok (app_metrics a) ∧
  mqtt_publish_fail (app_metrics a') = mqtt_publish_fail (app_metrics a).
Proof.
  intros H. unfold finish_round in H. apply bind_run in H as (a1 & w1 & (hb & -> & _)%touch_run & H).
  apply bind_run in H as (k & w2 & _ & H). apply bind_run in H as (now & w3 & _ & H).
  destruct (1000 <? _); [|by io_done H].
  apply bind_run in H as (a4 & w4 & H4 & H). unfold update_heartbeat_metrics in H4.
  do 3 (apply bind_run in H4 as (? & ? & _ & H4)). io_done H4.
  apply bind_run in H as (u & w5 & _ & H). apply bind_run in H as (l & w6 & _ & H). by io_done H.
Qed.

Lemma finish_healthy ps r a w a1 last w1 :
  delivers ps r a w a1 w1 →
  ∃ a' last' w', finish_round a1 last n w1 = Some ((a', last'), w') ∧ delivers ps r a w a' w'.
Proof.
  intros [Hi Hcfg Hr Hrows Hok Hfail (evs & hs & fs & E & Ho & Hfs & Hs & Hon)].
  assert (Total n (finish_round a1 last)) as Htot.
  { pose proof (touch_total (n := n)). pose proof (update_metrics_total (n := n)).
    pose proof (metrics_write_total (n := n)). pose proof (count_total (n := n)).
    unfold finish_round, edgeflow_now_ms. solve_total. }
  destruct (Htot w1) as [[[a' last'] w'] H]. exists a', last', w'. split; [done|].
  pose proof H as (Hr' & Hok' & Hfail')%finish_keeps. pose proof H as [Hi' Hm]%(finish_inv c st); [|done].
  assert (Calm (g_notify_fd (w_glob w1)) (finish_round a1 last)) as Hcalm by apply finish_calm.
  pose proof H as (e & E' & [Hh Hq]%calm_quiet & _)%Hcalm; [|done].
  split; rewrite ?Hm; [done|done|congruence| |congruence|congruence|].
  - by rewrite E', quiet_db_of.
  - exists (e ++ evs), hs, fs. split; [by rewrite E', E, app_assoc|].
    by rewrite sent_app, (sent_harmless _ e), app_nil_r by done.
Qed.

(** A body with a point to handle. *)
Lemma body_healthy a last p ps w :
  app_inv c st a → ms_cfg (app_mqtt a) = c → contents (app_ring a) = p :: ps → tel_value p ≠ S754_nan →
  ∃ a' last' w' r, worker_body a last n w = Some ((a', last'), w') ∧ contents r = ps ∧
    delivers [apply_quality_rules c p] r a w a' w'.
Proof.
  intros Hi Hcfg Hcont Hp. unfold worker_body, spsc_ring_pop. cbn [on_ptr].
  pose proof (ring_pop_spec (app_ring a)) as Hpop. destruct (ring_pop (app_ring a)) as [res r].
  destruct Hpop as (Hw & Hs & _ & Hc' & He); [apply Hi|]. rewrite Hcont in Hc', He.
  destruct res as [x|]; [|by apply proj1 in He; specialize (He eq_refl)]. cbn in Hc'. injection Hc' as <- ->.
  destruct (process_healthy (with_ring a r) p w) as (a1 & w1 & H1 & Hd); [by apply inv_ring|done..|].
  destruct (finish_healthy _ _ _ _ _ last _ Hd) as (a2 & last2 & w2 & H2 & Hd2).
  exists a2, last2, w2, r. split; [by erewrite bind_eq by exact H1|]. split; [done|].
  destruct Hd2 as [? ? ? ? ? ? ?]. by split.
Qed.

Lemma delivers_trans ps qs r1 r2 a w a1 w1 a2 w2 :
  delivers ps r1 a w a1 w1 → delivers qs r2 a1 w1 a2 w2 → delivers (ps ++ qs) r2 a w a2 w2.
Proof.
  intros [_ _ _ Rows1 Ok1 Fail1 (e1 & hs1 & fs1 & E1 & O1 & F1 & S1 & On1)]
    [Hi Hcfg Hr Rows2 Ok2 Fail2 (e2 & hs2 & fs2 & E2 & O2 & F2 & S2 & On2)].
  unfold opens in O2. rewrite On1 in O2. destruct O2 as [Em ->]. rewrite Em in S2, On2.
  split; [done|done|done|by rewrite Rows2, Rows1, foldl_app| |congruence|].
  - rewrite Ok2, Ok1, length_app. unfold u64. rewrite Zplus_mod_idemp_l. f_equal. lia.
  - exists (e2 ++ e1), hs1, (fs1 ++ fs2). rewrite Em. split; [by rewrite E2, E1, app_assoc|].
    split; [done|]. split; [by apply Forall2_app|]. split; [|done].
    by rewrite sent_app, S1, S2, concat_app, <- app_assoc.
Qed.

(** Bodies of the worker, one after the other. *)
Fixpoint worker_bodies (k : nat) (a : gateway_app_t) (last : Z) : io (gateway_app_t * Z) :=
  match k with
  | O => mret (a, last)
  | S k' => '(a, last) ← worker_body a last; worker_bodies k' a last
  end.

Lemma bodies_healthy p ps a last w :
  app_inv c st a → ms_cfg (app_mqtt a) = c → contents (app_ring a) = p :: ps →
  Forall (λ p, tel_value p ≠ S754_nan) (p :: ps) →
  ∃ a' last' w' r, worker_bodies (S (length ps)) a last n w = Some ((a', last'), w') ∧ contents r = [] ∧
    delivers (apply_quality_rules c <$> p :: ps) r a w a' w'.
Proof.
  revert p a last w. induction ps as [|q ps IH]; intros p a last w Hi Hcfg Hr [Hp Hps]%Forall_cons;
    destruct (body_healthy a last p _ w Hi Hcfg Hr Hp) as (a1 & last1 & w1 & r1 & H1 & Hc1 & Hd1).
  { exists a1, last1, w1, r1. cbn [length worker_bodies]. split; [by erewrite bind_eq by exact H1|done]. }
  pose proof Hd1 as [Hi1 Hcfg1 Hr1 _ _ _ _].
  destruct (IH q a1 last1 w1) as (a2 & last2 & w2 & r2 & H2 & Hc2 & Hd2); [done|done|by rewrite Hr1|done|].
  exists a2, last2, w2, r2. split; [by cbn [length worker_bodies]; erewrite bind_eq by exact H1|].
  split; [done|]. by apply (delivers_trans _ _ _ _ _ _ _ _ _ _ Hd1 Hd2).
Qed.
End healthy.

(** ** Properties *)

Section properties.
Context {env : Env} {db0 : list db_row} {online : Online env db0} {storing : Storing env}.
Context {spec : SqliteSpec env db0}.

(** C3: nothing is lost, repeated or reordered when all is well: if the broker
    and the database answer, then as many bodies of the worker as the ring holds
    points (numbers, not NaN) return and leave it empty; the outbox has gained
    exactly those points, in order and as the quality rule leaves them, all of
    them uploaded; the connection has carried exactly their frames, in order,
    after one CONNECT if the session was closed; every publication is counted as
    a success and none as a failure; whatever alarms and commands they caused. *)
Theorem worker_delivers n c st a last pts w :
  (1024 < n)%nat → config_wf c → no_db st = false → app_inv c st a → ms_cfg (app_mqtt a) = c →
  contents (app_ring a) = pts → pts ≠ [] → Forall (λ p, tel_value p ≠ S754_nan) pts →
  ∃ a' last' w' r, worker_bodies (length pts) a last n w = Some ((a', last'), w') ∧
    contents (app_ring a') = [] ∧
    delivers (db0 := db0) c st (apply_quality_rules c <$> pts) r a w a' w'.
Proof.
  intros Hn Hc Hdb Hi Hcfg Hr Hne Hp. destruct pts as [|p ps]; [done|].
  destruct (bodies_healthy Hn c st Hc Hdb p ps a last w Hi Hcfg Hr Hp) as (a' & last' & w' & r & H & Hcont & Hd).
  exists a', last', w', r. split; [exact H|]. split; [|done]. by rewrite (dv_ring _ _ _ _ _ _ _ _ Hd).
Qed.
End properties.

(** ** A concrete run *)

#[export] Instance demo_app_online : Online demo_app_env [].
Proof.
  split; try done.
  - intros tr fd [|b d] Hd; [done|]. by exists (length d).
  - intros tr m. simpl. by rewrite Nat2Z.id.
Qed.

#[export] Instance demo_app_storing : Storing demo_app_env.
Proof. intros tr p Hp. simpl. by destruct (tel_value p), (tel_quality p). Qed.

(** The gateway with three points in its ring. *)
Definition demo_full : gateway_app_t := push_points demo_app (replicate 3 demo_point).

Lemma worker_delivers_witness :
  contents (app_ring demo_full) = replicate 3 demo_point ∧
  ∃ a' last' w' r, @worker_bodies demo_app_env 3 demo_full 0 1025%nat world_init = Some ((a', last'), w') ∧
    contents (app_ring a') = [] ∧
    delivers (env := demo_app_env) (db0 := []) demo_app_config demo_app_storage
      (apply_quality_rules demo_app_config <$> replicate 3 demo_point) r demo_full world_init a' w'.
Proof.
  split; [vm_compute; reflexivity|].
  apply (@worker_delivers demo_app_env [] _ _ _ 1025 demo_app_config demo_app_storage demo_full 0
    (replicate 3 demo_point) world_init); [lia| |reflexivity|apply inv_push, demo_app_inv|..].
  - apply (override_wf (Some (CJson cJSON_Object None d0 None [jnum "queue_size" (d_of_Z 4)])) gateway_config_defaults);
      [apply defaults_wf|vm_compute; reflexivity].
  - vm_compute; reflexivity.
  - vm_compute; reflexivity.
  - discriminate.
  - repeat constructor; discriminate.
Defined.
