(* ===== verification/Progress.v ===== *)
(** * The interleaved threads make progress

    In a patient environment ([Termination.v]), whose peers answer, no piece of
    the machine of [Interleave.v] blocks but for the lock, and a thread that
    waits for the lock gets it after a bounded number of moves of the other
    thread. *)

From S2P Require Export Termination Delivery.

#[local] Open Scope Z_scope.

(** The moves left to the monitor until it releases the lock. *)
Definition monitor_left (pc : monitor_pc) : nat :=
  match pc with
  | MConnect l => 3 + 2 * length l
  | MRow l => 2 + 2 * length l
  | MMark _ l => 3 + 2 * length l
  | MPing | MBeat _ => 2
  | MUnlockReplay | MUnlockPing | MUnlockBeat => 1
  | _ => 0
  end.

Definition worker_left (pc : worker_pc) : nat :=
  match pc with WSend _ _ => 2 | WUnlock _ _ => 1 | _ => 0 end.

(** The rows of a replay are those of one batch. *)
Definition short (pc : monitor_pc) : Prop :=
  match pc with
  | MLockReplay l | MConnect l | MRow l => (length l ≤ 64)%nat
  | MMark _ l => (length l < 64)%nat
  | _ => True
  end.

Lemma short_left pc : short pc → (monitor_left pc ≤ 131)%nat.
Proof. destruct pc; simpl; lia. Qed.

Section moves.
Context {env : Env}.

Lemma batch_bound cfg : (replay_batch cfg ≤ 64)%nat.
Proof.
  unfold replay_batch. destruct (_ =? 0); [vm_compute; lia|].
  destruct (Z.ltb_spec 64 (cfg_mqtt_replay_batch cfg)); lia.
Qed.

(** A piece under the lock brings the release nearer. *)
Lemma monitor_nearer pm a n w a' pm' w' :
  monitor_step pm a n w = Some ((a', pm'), w') →
  (short pm → short pm') ∧ (monitor_holds pm = true → monitor_left pm' < monitor_left pm)%nat.
Proof.
  intros H. destruct pm; cbn [monitor_step] in H; try (io_go H; io_done H; by split; simpl; [|lia]).
  - apply bind_run in H as (run & w1 & _ & H). destruct run; [|by io_done H].
    apply bind_run in H as (a2 & w2 & _ & H). by io_done H.
  - destruct (app_storage a) as [s|]; [|by io_done H]. apply bind_run in H as ([k l] & w1 & H1 & H). io_done H.
    apply fetch_events in H1 as (evs & _ & _ & _ & Hl). split; [|done]. intros _.
    destruct (_ <? 0); [done|]. cbn. pose proof (batch_bound (ms_cfg (app_mqtt a'))). lia.
  - apply bind_run in H as ([rc s] & w1 & _ & H). io_done H; destruct (_ =? 0); simpl; split; (done || lia).
  - destruct rows as [|row l]; [io_done H; split; simpl; (done || lia)|].
    apply bind_run in H as (rc & w1 & _ & H). destruct (negb _).
    + apply bind_run in H as (s & w2 & _ & H). io_done H; split; simpl; (done || lia).
    + io_done H; split; simpl; lia.
  - apply bind_run in H as (rc & w1 & _ & H). io_done H; split; simpl; lia.
  - apply bind_run in H as (k & w1 & _ & H). by io_done H.
  - apply bind_run in H as (s & w1 & _ & H). io_done H; split; simpl; (done || lia).
  - apply bind_run in H as (now & w1 & _ & H). apply bind_run in H as (k & w2 & _ & H). by io_done H.
  - apply bind_run in H as ([rc s] & w1 & _ & H). io_done H; split; simpl; (done || lia).
  - apply bind_run in H as (a1 & w1 & _ & H). apply bind_run in H as (u & w2 & _ & H). by io_done H.
Qed.

Lemma worker_nearer pw last a n w a' pw' last' w' :
  worker_holds pw = true → worker_step pw last a n w = Some ((a', pw', last'), w') →
  (worker_left pw' < worker_left pw)%nat.
Proof.
  intros Hh H. destruct pw; try done; cbn [worker_step] in H.
  - apply bind_run in H as ([rc s] & w1 & _ & H). io_done H; simpl; lia.
  - io_go H. io_done H; simpl; lia.
Qed.

Lemma left_holds pm : monitor_left pm = 0%nat → monitor_holds pm = false.
Proof. by destruct pm. Qed.

Lemma short_step y y' : short (sy_monitor y) → istep y y' → short (sy_monitor y').
Proof. intros Hs H. destruct H; try done. cbn in *. by eapply monitor_nearer. Qed.

Lemma short_run y y' : short (sy_monitor y) → rtc istep y y' → short (sy_monitor y').
Proof. intros Hs H. revert Hs. induction H; eauto using short_step. Qed.

Context {k : nat} {patient : Patient env k} {n : nat} (Hn : (1024 + k < n)%nat).

Lemma fetch_total st b max : Total n (storage_fetch_pending_telemetry st b max).
Proof. unfold storage_fetch_pending_telemetry. solve_total. Qed.

Lemma notify_total : Total n watchdog_notify_alive.
Proof.
  pose proof (answers_total (patient := patient)). unfold watchdog_notify_alive, send_notify. solve_total.
Qed.

(** The operations that return in a patient environment, for [solve_total]. *)
Ltac patient_operations :=
  pose proof (sleep_total (patient := patient) Hn); pose proof (ensure_total (patient := patient) Hn);
  pose proof (send_publish_total (patient := patient) Hn); pose proof (send_ping_total (patient := patient) Hn);
  pose proof (handle_outcome_total (n := n)); pose proof (touch_total (n := n)); pose proof (age_total (n := n));
  pose proof (update_metrics_total (n := n)); pose proof (metrics_write_total (n := n));
  pose proof (append_telemetry_total (n := n)); pose proof (mark_total (n := n));
  pose proof (count_total (n := n)); pose proof (mqtt_shutdown_total (n := n));
  pose proof fetch_total; pose proof notify_total.

Lemma worker_step_total pw last a : modbus_only (app_registry a) → Total n (worker_step pw last a).
Proof.
  intros Hm. patient_operations. destruct pw; cbn [worker_step];
    unfold publish_locked, finish_round, edgeflow_now_ms; solve_total.
Qed.

Lemma monitor_step_total pm a : Total n (monitor_step pm a).
Proof.
  patient_operations. destruct pm as [| |l|l|[|row l]|row l| | | | | | |p|p| |]; cbn [monitor_step];
    unfold load_running, check_heartbeats, ping_locked, publish_locked, edgeflow_now_ms; solve_total.
Qed.

Definition wired (y : system) : Prop := modbus_only (app_registry (sy_app y)).

Lemma worker_moves y :
  wired y → worker_wants (sy_worker y) && monitor_holds (sy_monitor y) = false → is_Some (move n Worker y).
Proof.
  destruct y as [a w pw last pm]. cbn [move sy_worker sy_monitor]. intros Hm ->.
  destruct (worker_step_total pw last a Hm w) as [[[[a' pw'] last'] w'] ->]. by eexists.
Qed.

Lemma monitor_moves y :
  monitor_wants (sy_monitor y) && worker_holds (sy_worker y) = false → is_Some (move n Monitor y).
Proof.
  destruct y as [a w pw last pm]. cbn [move sy_worker sy_monitor]. intros ->.
  destruct (monitor_step_total pm a w) as [[[a' pm'] w'] ->]. by eexists.
Qed.

(** The holder of the lock, moving alone, releases it. *)
Lemma monitor_releases m y :
  (monitor_left (sy_monitor y) ≤ m)%nat →
  ∃ j y', (j ≤ m)%nat ∧ schedule n (replicate j Monitor) y = Some y' ∧
    monitor_holds (sy_monitor y') = false ∧ sy_worker y' = sy_worker y.
Proof.
  revert y. induction m as [|m IH]; intros y Hl.
  { exists 0%nat, y. split_and!; [lia|done|apply left_holds; lia|done]. }
  destruct (monitor_holds (sy_monitor y)) eqn:Eh.
  2: { exists 0%nat, y. by split_and!; [lia|..]. }
  destruct (monitor_moves y) as [y1 Hy1]. { by destruct (sy_monitor y). }
  assert (monitor_left (sy_monitor y1) ≤ m ∧ sy_worker y1 = sy_worker y)%nat as [Hl1 Hw1].
  { destruct y as [a w pw last pm]. cbn [move sy_monitor] in *. destruct (_ && _); [done|].
    destruct (monitor_step pm a n w) as [[[a' pm'] w']|] eqn:E; [|done].
    apply monitor_nearer in E as [_ E]. specialize (E Eh). cbn in Hy1. simplify_eq. cbn. split; [lia|done]. }
  destruct (IH y1 Hl1) as (j & y' & Hj & Hs & Hh & Hw). exists (S j), y'.
  cbn [replicate schedule]. rewrite Hy1. cbn [mbind option_bind]. split_and!; [lia|done|done|congruence].
Qed.

Lemma worker_releases m y :
  (∀ y', rtc istep y y' → wired y') → (worker_left (sy_worker y) ≤ m)%nat →
  ∃ j y', (j ≤ m)%nat ∧ schedule n (replicate j Worker) y = Some y' ∧
    worker_holds (sy_worker y') = false ∧ sy_monitor y' = sy_monitor y.
Proof.
  revert y. induction m as [|m IH]; intros y Hok Hl.
  { exists 0%nat, y. split_and!; [lia|done|by destruct (sy_worker y); simpl in Hl; try lia|done]. }
  destruct (worker_holds (sy_worker y)) eqn:Eh.
  2: { exists 0%nat, y. by split_and!; [lia|..]. }
  destruct (worker_moves y) as [y1 Hy1]; [apply Hok, rtc_refl|by destruct (sy_worker y)|].
  assert (worker_left (sy_worker y1) ≤ m ∧ sy_monitor y1 = sy_monitor y)%nat as [Hl1 Hw1].
  { destruct y as [a w pw last pm]. cbn [move sy_worker] in *. destruct (_ && _); [done|].
    destruct (worker_step pw last a n w) as [[[[a' pw'] last'] w']|] eqn:E; [|done].
    apply worker_nearer in E; [|done]. cbn in Hy1. simplify_eq. cbn. split; [lia|done]. }
  destruct (IH y1) as (j & y' & Hj & Hs & Hh & Hw); [|done|].
  { intros y' Hr. apply Hok. eapply rtc_l; [by eapply move_step|done]. }
  exists (S j), y'. cbn [replicate schedule]. rewrite Hy1. cbn [mbind option_bind].
  split_and!; [lia|done|done|congruence].
Qed.
End moves.

(** C22: a thread waits for the lock for a bounded number of moves, unless a
    peer keeps the holder waiting: in a patient environment, where every
    blocking read and write on a socket is answered, in every reachable state of the interleaved machine, the
    worker can move, or can after at most 131 moves of the monitor alone, none
    of which is blocked (a replay of 64 rows takes that many); and the monitor
    can move, or can after at most 2 moves of the worker.  In particular the
    threads never deadlock among themselves; for a broker that does not answer
    see [Silence.silent_broker_holds_lock]. *)
Theorem lock_waits_end {env : Env} {fresh : FreshSockets env} db0 {spec : SqliteSpec env db0}
    k n c w0 a w y :
  Patient env k → (1024 + k < n)%nat → is_u32 (cfg_queue_size c) → at_start w0 → launched c w0 a w →
  rtc istep (mk_system a w WPop 0 MIdle) y →
  (∃ j y', (j ≤ 131)%nat ∧ schedule n (replicate j Monitor) y = Some y' ∧ is_Some (move n Worker y')) ∧
  (∃ j y', (j ≤ 2)%nat ∧ schedule n (replicate j Worker) y = Some y' ∧ is_Some (move n Monitor y')).
Proof.
  intros Hp Hn Hq Hs Hl H.
  assert (∀ y', rtc istep y y' → wired y') as Hwired.
  { intros y' Hr. eapply (launched_run db0) in Hl as [st Hl]; [|done|done|by etrans].
    apply (go_inv _ _ _ _ _ _ (so_good _ _ _ _ _ Hl)). }
  assert (short (sy_monitor y)) as Hshort by (by eapply short_run; [|exact H]).
  split.
  - destruct (monitor_releases Hn 131 y) as (j & y' & Hj & Hr & Hh & _); [by apply short_left|].
    exists j, y'. split_and!; [done|done|]. apply (worker_moves Hn); [|by rewrite Hh, andb_false_r].
    apply Hwired. by eapply schedule_run.
  - destruct (worker_releases Hn 2 y Hwired) as (j & y' & Hj & Hr & Hh & _); [destruct (sy_worker y); simpl; lia|].
    exists j, y'. split_and!; [done|done|]. apply (monitor_moves Hn). by rewrite Hh, andb_false_r.
Qed.

(** ** A concrete run *)

#[export] Instance demo_gateway_patient : Patient demo_gateway_env 101.
Proof. split; apply demo_patient. Qed.

Lemma lock_waits_end_witness :
  ∃ y j y', (j ≤ 131)%nat ∧ @schedule demo_gateway_env 1126 (replicate j Monitor) y = Some y' ∧
    is_Some (@move demo_gateway_env 1126 Worker y').
Proof.
  destruct demo_overtaken as (a & w & y & hs & f & Hl & Hr & _). exists y.
  exact (proj1 (@lock_waits_end demo_gateway_env _ [] _ 101 1126 demo_app_config world_init a w y
    demo_gateway_patient ltac:(lia) demo_queue demo_at_start Hl Hr)).
Defined.
