(* ===== verification/Silence.v ===== *)
(** * A broker that does not answer

    [mqtt_send_connect] ([src/src/egress/mqtt_session.c]) reads the CONNACK
    with a plain read on a socket without a timeout, and its callers hold the
    lock of the session meanwhile.  A broker that takes the connection and the
    CONNECT frame and then says nothing keeps the caller there for ever: the
    other thread never gets the lock, and neither thread comes to an end. *)

From S2P Require Export Ending.

#[local] Open Scope Z_scope.

(** The broker is reachable, takes what is written, and answers no read after
    a write. *)
Class Silent (env : Env) : Prop := {
  silent_socket tr : 0 <= env_socket tr;
  silent_host host : env_inet_pton host = true;
  silent_connect tr fd : env_connect tr fd = true;
  silent_write tr fd d : env_write tr fd d = WrOk (length d);
  silent_broker fd d r tr : env_answers (EvSend fd d r :: tr) fd = false
}.

Section silence.
Context {env : Env} {silent : Silent env}.

(** The write of a frame does not fail. *)
Lemma write_silent fuel fd buf n w :
  buf ≠ [] → write_loop fuel fd buf n w = None ∨
  write_loop fuel fd buf n w =
    Some (0, mk_world (EvSend fd buf (WrOk (length buf)) :: w_trace w) (w_glob w)).
Proof.
  intros Hne. destruct fuel as [|fuel]; [by left|]. destruct buf as [|b buf]; [done|]. cbn [write_loop].
  unfold mbind, io_bind, write_wait, answered. destruct (env_answers _ _); [|by left].
  unfold write, call. rewrite silent_write. cbn [clip_write]. rewrite Nat.min_id, drop_all.
  destruct fuel; [by left|by right].
Qed.

Lemma connect_blocks fd id keepalive n w :
  (String.length id < 64)%nat → mqtt_send_connect fd id keepalive n w = None.
Proof.
  intros Hi. unfold mqtt_send_connect. destruct (connect_fits id keepalive Hi) as [f Hf]. rewrite Hf.
  assert (f ≠ []) as Hne by (by apply frame_some in Hf as [-> _]).
  unfold mqtt_write_all, with_fuel, mbind, io_bind.
  destruct (write_silent n fd f n w Hne) as [-> | ->]; [done|]. cbn [Z.eqb negb].
  unfold read_wait, answered. cbn [w_trace]. by rewrite silent_broker.
Qed.

Lemma ensure_blocks s n w :
  session_ok s → ms_connected s = false → mqtt_ensure_connected_locked s n w = None.
Proof.
  intros Hok Hoff. unfold mqtt_ensure_connected_locked. rewrite Hoff. cbn [andb].
  destruct (shutdown_locked_run s n w Hok) as (e0 & Hsd & _). erewrite bind_eq by exact Hsd.
  cbn [with_connection ms_cfg ms_connected].
  pose proof (proj2 (Z.ltb_ge _ _) (silent_socket (e0 ++ w_trace w))) as Hs.
  erewrite bind_eq.
  2: { unfold mqtt_open_tcp. erewrite bind_eq by reflexivity. cbv beta. cbn [w_trace].
       rewrite Hs, silent_host. cbn [negb]. erewrite bind_eq by reflexivity. cbv beta.
       rewrite silent_connect. reflexivity. }
  cbv beta. rewrite Hs. unfold mbind, io_bind. rewrite connect_blocks; [done|]. apply snprintf_fits. lia.
Qed.

Lemma send_blocks p row last a n w :
  session_ok (app_mqtt a) → ms_connected (app_mqtt a) = false → worker_step (WSend p row) last a n w = None.
Proof.
  intros Hok Hoff. cbn [worker_step]. unfold publish_locked, mbind, io_bind. by rewrite ensure_blocks.
Qed.

(** The worker waits under the lock, and the session is what it was. *)
Definition stuck (p : telemetry_t) (row : Z) (s : mqtt_session_t) (y : system) : Prop :=
  sy_worker y = WSend p row ∧ monitor_holds (sy_monitor y) = false ∧ app_mqtt (sy_app y) = s.

(** A piece of the monitor outside its critical sections. *)
Lemma monitor_outside pm a n w a' pm' w' :
  monitor_wants pm = false → monitor_holds pm = false → monitor_step pm a n w = Some ((a', pm'), w') →
  monitor_holds pm' = false ∧ app_mqtt a' = app_mqtt a.
Proof.
  intros Hw Hh H. destruct pm; try done; cbn [monitor_step] in H.
  - apply bind_run in H as (run & w1 & _ & H). destruct run; [|by io_done H].
    apply bind_run in H as (a2 & w2 & H2 & H). io_done H. split; [done|]. unfold check_heartbeats in H2.
    apply bind_run in H2 as (a1 & w3 & H1 & H2). do 5 (apply bind_run in H2 as (? & ? & _ & H2)).
    io_done H2. by apply touch_run in H1 as (hb & -> & _).
  - destruct (app_storage a); [|by io_done H]. apply bind_run in H as ([k l] & w1 & _ & H). io_done H.
    by destruct (_ <? 0).
  - apply bind_run in H as (k & w1 & _ & H). by io_done H.
  - apply bind_run in H as (now & w1 & _ & H). apply bind_run in H as (k & w2 & _ & H). by io_done H.
  - apply bind_run in H as (a1 & w1 & H1 & H). apply update_metrics_run in H1 as (m & ->).
    apply bind_run in H as (u & w2 & _ & H). by io_done H.
Qed.

Lemma stuck_step p row s y y' :
  session_ok s → ms_connected s = false → stuck p row s y → istep y y' → stuck p row s y'.
Proof.
  intros Hok Hoff (Hw & Hm & Hs) H. destruct H as [n a w pw last pm a' w' H|n a w pw last pm a' pw' last' w' _ H|
    n a w pw last pm a' pm' w' Hfree H|n a w last pm a' w' H|a w pw last pm e He]; cbn in *; subst.
  - split_and!; [done..|]. cbn. by eapply ingress_session.
  - by rewrite send_blocks in H.
  - destruct (monitor_wants pm) eqn:Ew; [by specialize (Hfree eq_refl)|].
    apply monitor_outside in H as [Hh Hs]; [|done..]. by split_and!.
  - done.
  - by split_and!.
Qed.

Lemma stuck_run p row s y y' :
  session_ok s → ms_connected s = false → stuck p row s y → rtc istep y y' → stuck p row s y'.
Proof. intros Hok Hoff Hst H. induction H; eauto using stuck_step. Qed.
End silence.

(** C23: a broker that takes the connection and everything that is written, and
    never sends its CONNACK, stops the gateway: once the worker is about to
    publish over a closed session, in every interleaving it stays there, holding
    the lock, with no move of its own; the monitor never holds the lock again
    and, when it asks for it, has no move either.  So the worker never reaches
    the head of its loop again, where it would see the flag, and a stop that
    joins it does not end. *)
Theorem silent_broker_holds_lock {env : Env} y p row :
  Silent env → sy_worker y = WSend p row → monitor_holds (sy_monitor y) = false →
  session_ok (app_mqtt (sy_app y)) → ms_connected (app_mqtt (sy_app y)) = false →
  ∀ y', rtc istep y y' →
    sy_worker y' = WSend p row ∧ (∀ n, move n Worker y' = None) ∧
    monitor_holds (sy_monitor y') = false ∧
    (monitor_wants (sy_monitor y') = true → ∀ n, move n Monitor y' = None).
Proof.
  intros Hsi Hw Hm Hok Hoff y' H.
  destruct (stuck_run p row _ y y' Hok Hoff (conj Hw (conj Hm eq_refl)) H) as (Hw' & Hm' & Hs).
  destruct y' as [a w pw last pm]. cbn [sy_worker sy_monitor sy_app] in *. subst pw.
  split_and!; [done| |done|].
  - intros n. cbn [move]. destruct (_ && _); [done|]. by rewrite send_blocks by (by rewrite Hs).
  - intros Hwant n. cbn [move]. by rewrite Hwant.
Qed.

(** ** A concrete gateway

    The broker of [demo_gateway_env], struck dumb. *)
Definition silent_env (base : Env) : Env := {|
  env_clock := env_clock; env_nanosleep := env_nanosleep; env_fopen := env_fopen;
  env_malloc := env_malloc; env_sqlite_open := env_sqlite_open;
  env_sqlite_exec := env_sqlite_exec; env_prepare := env_prepare;
  env_step := env_step; env_rows := env_rows; env_last_rowid := env_last_rowid;
  env_socket := env_socket; env_inet_pton := env_inet_pton; env_connect := env_connect;
  env_write := env_write; env_read := env_read;
  env_answers tr fd := match tr with EvSend fd' _ _ :: _ => negb (fd' =? fd) | _ => true end;
  env_tty_open := env_tty_open;
  env_tcgetattr := env_tcgetattr; env_tcsetattr := env_tcsetattr; env_select := env_select;
  env_epoll_create := env_epoll_create; env_timerfd_create := env_timerfd_create;
  env_epoll_ctl := env_epoll_ctl; env_timerfd_settime := env_timerfd_settime;
  env_epoll_wait := env_epoll_wait; env_running := env_running;
  env_pthread_create := env_pthread_create; env_file_size := env_file_size;
  env_file_seek := env_file_seek; env_file_data := env_file_data; env_file_text := env_file_text;
  env_exit := env_exit;
  env_getenv := env_getenv; env_unix_connect := env_unix_connect;
  env_modbus_new := env_modbus_new; env_modbus_connect := env_modbus_connect;
  env_modbus_read := env_modbus_read; env_strerror := env_strerror
|}.

Definition demo_silent_env : Env := silent_env demo_gateway_env.

#[export] Instance demo_silent : Silent demo_silent_env.
Proof.
  split; cbn; try done.
  - intros tr. unfold next_fd. induction tr as [|e tr IH]; cbn [foldr]; [lia|]. destruct e; lia.
  - intros fd d r tr. by rewrite Z.eqb_refl.
Qed.

(** A gateway, initialised, started and driven by a schedule. *)
Definition driven {env : Env} (c : gateway_config_t) (n : nat) (ts : list mover)
    : option (gateway_app_t * world * system) :=
  '(_, a, w) ← gateway_app_init (Some app_zero) (Some c) n world_init;
  a ← a;
  '(_, w) ← gateway_app_run (Some a) n w;
  y ← schedule n ts (mk_system a w WPop 0 MIdle);
  Some (a, w, y).

Lemma driven_run {env : Env} {A} c n ts (f : system → A) x :
  (λ r, f (snd r)) <$> driven c n ts = Some x →
  ∃ a w y, rtc istep (mk_system a w WPop 0 MIdle) y ∧ f y = x.
Proof.
  intros H. unfold driven in H.
  destruct (gateway_app_init _ _ _ _) as [[[rc [a|]] w1]|]; [|done..]. cbn [mbind option_bind] in H.
  destruct (gateway_app_run _ _ _) as [[rc2 w2]|]; [|done]. cbn [mbind option_bind] in H.
  destruct (schedule _ _ _) as [y|] eqn:Es; [|done]. apply schedule_run in Es. cbn in H. simplify_eq.
  by exists a, w2, y.
Qed.

(** What is needed of a state, in one value. *)
Definition mute_observation (y : system) : bool * bool * bool * Z :=
  (match sy_worker y with WSend _ _ => true | _ => false end, monitor_holds (sy_monitor y),
   ms_connected (app_mqtt (sy_app y)), ms_fd (app_mqtt (sy_app y))).

(** A point is stored, and about to be published. *)
Lemma demo_mute :
  ∃ a w y, rtc (@istep demo_silent_env) (mk_system a w WPop 0 MIdle) y ∧
    mute_observation y = (true, false, false, -1).
Proof. apply (driven_run demo_app_config 30 [Ingress; Worker; Worker; Worker; Worker]). vm_compute. reflexivity. Qed.

Lemma silent_broker_holds_lock_witness :
  ∃ a w y p row,
    rtc (@istep demo_silent_env) (mk_system a w WPop 0 MIdle) y ∧ sy_worker y = WSend p row ∧
    ∀ y', rtc (@istep demo_silent_env) y y' →
      sy_worker y' = WSend p row ∧ (∀ n, @move demo_silent_env n Worker y' = None) ∧
      monitor_holds (sy_monitor y') = false ∧
      (monitor_wants (sy_monitor y') = true → ∀ n, @move demo_silent_env n Monitor y' = None).
Proof.
  destruct demo_mute as (a & w & y & Hr & [= Hp Hm Hc Hf]).
  destruct (sy_worker y) as [| | | |p row| | |] eqn:Ew; try discriminate.
  exists a, w, y, p, row. split; [exact Hr|]. split; [exact Ew|].
  apply (@silent_broker_holds_lock demo_silent_env y p row demo_silent Ew Hm); [|exact Hc].
  unfold session_ok. rewrite Hc. exact Hf.
Defined.
